(** * A shallow embedding of the Android binder transaction engine

    Source: [drivers/android/binder.c].  Kernel objects live in a store of
    finite maps indexed by their address; a C pointer is an [option] of such
    an address and a NULL or dangling dereference is a kernel oops.  The
    functions of the driver are written in a state monad over that store,
    in the order and under the names the driver gives them.

    The spin locks and mutexes of the driver do not appear: every driver
    entry point is taken to run to completion without interleaving.  The
    statistics counters and the trace hooks are left out.  What the driver
    takes from the rest of the kernel (the uapi header, the scheduler, the
    security hooks, user memory, the slab, the file table and the buffer
    allocator of [binder_alloc.c]) is a parameter of the development. *)

From Stdlib Require Import ZArith Lia String.
From stdpp Require Import gmap list.

Open Scope Z_scope.

(** ** The user-space ABI, [uapi/linux/android/binder.h] *)

Inductive binder_driver_return_protocol : Type :=
  | BR_ERROR | BR_OK | BR_TRANSACTION | BR_REPLY | BR_ACQUIRE_RESULT
  | BR_DEAD_REPLY | BR_TRANSACTION_COMPLETE | BR_INCREFS | BR_ACQUIRE
  | BR_RELEASE | BR_DECREFS | BR_ATTEMPT_ACQUIRE | BR_NOOP | BR_SPAWN_LOOPER
  | BR_FINISHED | BR_DEAD_BINDER | BR_CLEAR_DEATH_NOTIFICATION_DONE
  | BR_FAILED_REPLY.

Inductive binder_driver_command_protocol : Type :=
  | BC_TRANSACTION | BC_REPLY | BC_ACQUIRE_RESULT | BC_FREE_BUFFER
  | BC_INCREFS | BC_ACQUIRE | BC_RELEASE | BC_DECREFS | BC_INCREFS_DONE
  | BC_ACQUIRE_DONE | BC_ATTEMPT_ACQUIRE | BC_REGISTER_LOOPER
  | BC_ENTER_LOOPER | BC_EXIT_LOOPER | BC_REQUEST_DEATH_NOTIFICATION
  | BC_CLEAR_DEATH_NOTIFICATION | BC_DEAD_BINDER_DONE | BC_TRANSACTION_SG
  | BC_REPLY_SG.

Inductive errno : Type :=
  | EPERM | ESRCH | EBADF | EAGAIN | ENOMEM | EFAULT | EBUSY | EINVAL
  | EMFILE | EPROTO | EINTR | ERESTARTSYS.

#[global] Instance br_eq_dec : EqDecision binder_driver_return_protocol.
Proof. solve_decision. Defined.
#[global] Instance bc_eq_dec : EqDecision binder_driver_command_protocol.
Proof. solve_decision. Defined.
#[global] Instance errno_eq_dec : EqDecision errno.
Proof. solve_decision. Defined.

(** [struct binder_transaction_data], with [target.handle] and
    [target.ptr] sharing one word. *)
Record binder_transaction_data : Type := Build_binder_transaction_data {
  tr_target : Z;
  tr_cookie : Z;
  tr_code : Z;
  tr_flags : Z;
  tr_sender_pid : Z;
  tr_sender_euid : Z;
  tr_data_size : Z;
  tr_offsets_size : Z;
  tr_data_ptr_buffer : Z;
  tr_data_ptr_offsets : Z
}.


(** [struct binder_write_read], the argument of BINDER_WRITE_READ. *)
Record binder_write_read : Type := Build_binder_write_read {
  write_size : Z;
  write_consumed : Z;
  write_buffer : Z;
  read_size : Z;
  read_consumed : Z;
  read_buffer : Z
}.

Definition set_write_consumed (v : Z) (x : binder_write_read) : binder_write_read :=
  Build_binder_write_read (write_size x) v (write_buffer x) (read_size x) (read_consumed x) (read_buffer x).
Definition set_read_consumed (v : Z) (x : binder_write_read) : binder_write_read :=
  Build_binder_write_read (write_size x) (write_consumed x) (write_buffer x) (read_size x) v (read_buffer x).

(** The objects a transaction payload can carry.  [binder] and [handle] of
    [struct flat_binder_object] are one union word, [fbo_binder]. *)
Inductive flat_type : Type :=
  | BINDER_TYPE_BINDER | BINDER_TYPE_WEAK_BINDER
  | BINDER_TYPE_HANDLE | BINDER_TYPE_WEAK_HANDLE.

#[global] Instance flat_type_eq_dec : EqDecision flat_type.
Proof. solve_decision. Defined.

Record flat_binder_object : Type := Build_flat_binder_object {
  fbo_type : flat_type;  (* hdr.type *)
  fbo_flags : Z;
  fbo_binder : Z;  (* union of binder and handle *)
  fbo_cookie : Z
}.

Definition set_fbo_type (v : flat_type) (x : flat_binder_object) : flat_binder_object :=
  Build_flat_binder_object v (fbo_flags x) (fbo_binder x) (fbo_cookie x).
Definition set_fbo_binder (v : Z) (x : flat_binder_object) : flat_binder_object :=
  Build_flat_binder_object (fbo_type x) (fbo_flags x) v (fbo_cookie x).
Definition set_fbo_cookie (v : Z) (x : flat_binder_object) : flat_binder_object :=
  Build_flat_binder_object (fbo_type x) (fbo_flags x) (fbo_binder x) v.

Record binder_fd_object : Type := Build_binder_fd_object {
  fdo_pad_flags : Z;
  fdo_fd : Z;  (* union of pad_binder and fd *)
  fdo_cookie : Z
}.

Definition set_fdo_fd (v : Z) (x : binder_fd_object) : binder_fd_object :=
  Build_binder_fd_object (fdo_pad_flags x) v (fdo_cookie x).

Record binder_buffer_object : Type := Build_binder_buffer_object {
  bbo_flags : Z;
  bbo_buffer : Z;
  bbo_length : Z;
  bbo_parent : Z;
  bbo_parent_offset : Z
}.

Definition set_bbo_buffer (v : Z) (x : binder_buffer_object) : binder_buffer_object :=
  Build_binder_buffer_object (bbo_flags x) v (bbo_length x) (bbo_parent x) (bbo_parent_offset x).

Record binder_fd_array_object : Type := Build_binder_fd_array_object {
  fda_num_fds : Z;
  fda_parent : Z;
  fda_parent_offset : Z
}.


(** What sits at an offset of the data area: one of the five object
    structs, told apart by [hdr.type], or a header of no known type. *)
Inductive binder_object : Type :=
  | Obj_flat (fp : flat_binder_object)
  | Obj_fd (fp : binder_fd_object)
  | Obj_ptr (bp : binder_buffer_object)
  | Obj_fda (fda : binder_fd_array_object)
  | Obj_unknown (type : Z).

(** The constants and layouts of the uapi header the driver is compiled
    against. *)
Class binder_uapi : Type := {
  TF_ONE_WAY : Z;
  TF_ACCEPT_FDS : Z;
  FLAT_BINDER_FLAG_PRIORITY_MASK : Z;
  FLAT_BINDER_FLAG_ACCEPTS_FDS : Z;
  BINDER_BUFFER_FLAG_HAS_PARENT : Z;
  sizeof_binder_object_header : Z;
  sizeof_flat_binder_object : Z;
  sizeof_binder_fd_object : Z;
  sizeof_binder_buffer_object : Z;
  sizeof_binder_fd_array_object : Z;
  sizeof_binder_transaction_data : Z;
  sizeof_binder_transaction_data_sg : Z;
  sizeof_binder_write_read : Z;
  bc_of_u32 : Z → option binder_driver_command_protocol
}.

(** ** Work items and the driver's objects *)

Inductive work_type : Type :=
  | BINDER_WORK_ZERO  (* a zeroed [type], before any assignment *)
  | BINDER_WORK_TRANSACTION
  | BINDER_WORK_TRANSACTION_COMPLETE
  | BINDER_WORK_RETURN_ERROR
  | BINDER_WORK_NODE
  | BINDER_WORK_DEAD_BINDER
  | BINDER_WORK_DEAD_BINDER_AND_CLEAR
  | BINDER_WORK_CLEAR_DEATH_NOTIFICATION.

(** The four kinds of [struct list_head] a work item can be linked on. *)
Inductive worklist : Type :=
  | proc_todo (proc : nat)
  | thread_todo (thread : nat)
  | node_async_todo (node : nat)
  | proc_delivered_death (proc : nat).

(** A [struct binder_work *]: the address of the [work] member of its
    container, so that [container_of] is a pattern match. *)
Inductive work_ptr : Type :=
  | W_transaction (t : nat)  (* &t->work *)
  | W_tcomplete (w : nat)  (* a kzalloc'ed struct binder_work *)
  | W_return_error (thread : nat)  (* &thread->return_error.work *)
  | W_reply_error (thread : nat)  (* &thread->reply_error.work *)
  | W_node (node : nat)  (* &node->work *)
  | W_death (death : nat).  (* &death->work *)

#[global] Instance work_type_eq_dec : EqDecision work_type.
Proof. solve_decision. Defined.
#[global] Instance worklist_eq_dec : EqDecision worklist.
Proof. solve_decision. Defined.
#[global] Instance work_ptr_eq_dec : EqDecision work_ptr.
Proof. solve_decision. Defined.

(** [struct binder_work]: [w_entry] is the list the [entry] member is
    linked on, [None] when it is unlinked. *)
Record binder_work : Type := Build_binder_work {
  w_entry : option worklist;
  w_type : work_type
}.

Definition set_w_entry (v : option worklist) (x : binder_work) : binder_work :=
  Build_binder_work v (w_type x).
Definition set_w_type (v : work_type) (x : binder_work) : binder_work :=
  Build_binder_work (w_entry x) v.

Definition zero_work : binder_work := Build_binder_work None BINDER_WORK_ZERO.

Record binder_error : Type := Build_binder_error {
  err_work : binder_work;
  err_cmd : binder_driver_return_protocol
}.

Definition set_err_work (v : binder_work) (x : binder_error) : binder_error :=
  Build_binder_error v (err_cmd x).
Definition set_err_cmd (v : binder_driver_return_protocol) (x : binder_error) : binder_error :=
  Build_binder_error (err_work x) v.

Record binder_context : Type := Build_binder_context {
  binder_context_mgr_node : option nat;
  binder_context_mgr_uid : option Z  (* None is INVALID_UID *)
}.

Definition set_binder_context_mgr_node (v : option nat) (x : binder_context) : binder_context :=
  Build_binder_context v (binder_context_mgr_uid x).
Definition set_binder_context_mgr_uid (v : option Z) (x : binder_context) : binder_context :=
  Build_binder_context (binder_context_mgr_node x) v.

Record binder_node : Type := Build_binder_node {
  node_debug_id : Z;
  node_work : binder_work;
  node_proc : option nat;
  node_refs : list nat;  (* hlist of binder_ref, head first *)
  internal_strong_refs : Z;
  local_weak_refs : Z;
  local_strong_refs : Z;
  tmp_refs : Z;
  node_ptr : Z;
  node_cookie : Z;
  has_strong_ref : bool;
  pending_strong_ref : bool;
  has_weak_ref : bool;
  pending_weak_ref : bool;
  accept_fds : bool;
  min_priority : Z;
  has_async_transaction : bool;
  async_todo : list work_ptr
}.

Definition set_node_work (v : binder_work) (x : binder_node) : binder_node :=
  Build_binder_node (node_debug_id x) v (node_proc x) (node_refs x) (internal_strong_refs x) (local_weak_refs x) (local_strong_refs x) (tmp_refs x) (node_ptr x) (node_cookie x) (has_strong_ref x) (pending_strong_ref x) (has_weak_ref x) (pending_weak_ref x) (accept_fds x) (min_priority x) (has_async_transaction x) (async_todo x).
Definition set_node_proc (v : option nat) (x : binder_node) : binder_node :=
  Build_binder_node (node_debug_id x) (node_work x) v (node_refs x) (internal_strong_refs x) (local_weak_refs x) (local_strong_refs x) (tmp_refs x) (node_ptr x) (node_cookie x) (has_strong_ref x) (pending_strong_ref x) (has_weak_ref x) (pending_weak_ref x) (accept_fds x) (min_priority x) (has_async_transaction x) (async_todo x).
Definition set_node_refs (v : list nat) (x : binder_node) : binder_node :=
  Build_binder_node (node_debug_id x) (node_work x) (node_proc x) v (internal_strong_refs x) (local_weak_refs x) (local_strong_refs x) (tmp_refs x) (node_ptr x) (node_cookie x) (has_strong_ref x) (pending_strong_ref x) (has_weak_ref x) (pending_weak_ref x) (accept_fds x) (min_priority x) (has_async_transaction x) (async_todo x).
Definition set_internal_strong_refs (v : Z) (x : binder_node) : binder_node :=
  Build_binder_node (node_debug_id x) (node_work x) (node_proc x) (node_refs x) v (local_weak_refs x) (local_strong_refs x) (tmp_refs x) (node_ptr x) (node_cookie x) (has_strong_ref x) (pending_strong_ref x) (has_weak_ref x) (pending_weak_ref x) (accept_fds x) (min_priority x) (has_async_transaction x) (async_todo x).
Definition set_local_weak_refs (v : Z) (x : binder_node) : binder_node :=
  Build_binder_node (node_debug_id x) (node_work x) (node_proc x) (node_refs x) (internal_strong_refs x) v (local_strong_refs x) (tmp_refs x) (node_ptr x) (node_cookie x) (has_strong_ref x) (pending_strong_ref x) (has_weak_ref x) (pending_weak_ref x) (accept_fds x) (min_priority x) (has_async_transaction x) (async_todo x).
Definition set_local_strong_refs (v : Z) (x : binder_node) : binder_node :=
  Build_binder_node (node_debug_id x) (node_work x) (node_proc x) (node_refs x) (internal_strong_refs x) (local_weak_refs x) v (tmp_refs x) (node_ptr x) (node_cookie x) (has_strong_ref x) (pending_strong_ref x) (has_weak_ref x) (pending_weak_ref x) (accept_fds x) (min_priority x) (has_async_transaction x) (async_todo x).
Definition set_tmp_refs (v : Z) (x : binder_node) : binder_node :=
  Build_binder_node (node_debug_id x) (node_work x) (node_proc x) (node_refs x) (internal_strong_refs x) (local_weak_refs x) (local_strong_refs x) v (node_ptr x) (node_cookie x) (has_strong_ref x) (pending_strong_ref x) (has_weak_ref x) (pending_weak_ref x) (accept_fds x) (min_priority x) (has_async_transaction x) (async_todo x).
Definition set_has_strong_ref (v : bool) (x : binder_node) : binder_node :=
  Build_binder_node (node_debug_id x) (node_work x) (node_proc x) (node_refs x) (internal_strong_refs x) (local_weak_refs x) (local_strong_refs x) (tmp_refs x) (node_ptr x) (node_cookie x) v (pending_strong_ref x) (has_weak_ref x) (pending_weak_ref x) (accept_fds x) (min_priority x) (has_async_transaction x) (async_todo x).
Definition set_pending_strong_ref (v : bool) (x : binder_node) : binder_node :=
  Build_binder_node (node_debug_id x) (node_work x) (node_proc x) (node_refs x) (internal_strong_refs x) (local_weak_refs x) (local_strong_refs x) (tmp_refs x) (node_ptr x) (node_cookie x) (has_strong_ref x) v (has_weak_ref x) (pending_weak_ref x) (accept_fds x) (min_priority x) (has_async_transaction x) (async_todo x).
Definition set_has_weak_ref (v : bool) (x : binder_node) : binder_node :=
  Build_binder_node (node_debug_id x) (node_work x) (node_proc x) (node_refs x) (internal_strong_refs x) (local_weak_refs x) (local_strong_refs x) (tmp_refs x) (node_ptr x) (node_cookie x) (has_strong_ref x) (pending_strong_ref x) v (pending_weak_ref x) (accept_fds x) (min_priority x) (has_async_transaction x) (async_todo x).
Definition set_pending_weak_ref (v : bool) (x : binder_node) : binder_node :=
  Build_binder_node (node_debug_id x) (node_work x) (node_proc x) (node_refs x) (internal_strong_refs x) (local_weak_refs x) (local_strong_refs x) (tmp_refs x) (node_ptr x) (node_cookie x) (has_strong_ref x) (pending_strong_ref x) (has_weak_ref x) v (accept_fds x) (min_priority x) (has_async_transaction x) (async_todo x).
Definition set_has_async_transaction (v : bool) (x : binder_node) : binder_node :=
  Build_binder_node (node_debug_id x) (node_work x) (node_proc x) (node_refs x) (internal_strong_refs x) (local_weak_refs x) (local_strong_refs x) (tmp_refs x) (node_ptr x) (node_cookie x) (has_strong_ref x) (pending_strong_ref x) (has_weak_ref x) (pending_weak_ref x) (accept_fds x) (min_priority x) v (async_todo x).
Definition set_async_todo (v : list work_ptr) (x : binder_node) : binder_node :=
  Build_binder_node (node_debug_id x) (node_work x) (node_proc x) (node_refs x) (internal_strong_refs x) (local_weak_refs x) (local_strong_refs x) (tmp_refs x) (node_ptr x) (node_cookie x) (has_strong_ref x) (pending_strong_ref x) (has_weak_ref x) (pending_weak_ref x) (accept_fds x) (min_priority x) (has_async_transaction x) v.

Record binder_ref_death : Type := Build_binder_ref_death {
  death_work : binder_work;
  death_cookie : Z
}.

Definition set_death_work (v : binder_work) (x : binder_ref_death) : binder_ref_death :=
  Build_binder_ref_death v (death_cookie x).

Record binder_ref_data : Type := Build_binder_ref_data {
  rd_debug_id : Z;
  desc : Z;
  strong : Z;
  weak : Z
}.

Definition set_rd_debug_id (v : Z) (x : binder_ref_data) : binder_ref_data :=
  Build_binder_ref_data v (desc x) (strong x) (weak x).
Definition set_desc (v : Z) (x : binder_ref_data) : binder_ref_data :=
  Build_binder_ref_data (rd_debug_id x) v (strong x) (weak x).
Definition set_strong (v : Z) (x : binder_ref_data) : binder_ref_data :=
  Build_binder_ref_data (rd_debug_id x) (desc x) v (weak x).
Definition set_weak (v : Z) (x : binder_ref_data) : binder_ref_data :=
  Build_binder_ref_data (rd_debug_id x) (desc x) (strong x) v.

Record binder_ref : Type := Build_binder_ref {
  ref_data : binder_ref_data;
  ref_proc : option nat;
  ref_node : option nat;
  ref_death : option nat
}.

Definition set_ref_data (v : binder_ref_data) (x : binder_ref) : binder_ref :=
  Build_binder_ref v (ref_proc x) (ref_node x) (ref_death x).
Definition set_ref_proc (v : option nat) (x : binder_ref) : binder_ref :=
  Build_binder_ref (ref_data x) v (ref_node x) (ref_death x).
Definition set_ref_node (v : option nat) (x : binder_ref) : binder_ref :=
  Build_binder_ref (ref_data x) (ref_proc x) v (ref_death x).
Definition set_ref_death (v : option nat) (x : binder_ref) : binder_ref :=
  Build_binder_ref (ref_data x) (ref_proc x) (ref_node x) v.

(** [struct binder_proc].  A red-black tree is the list of its (key,
    element) pairs in key order; [refs_by_node], which is only ever
    searched, is a finite map.  [alloc_buffers] and [user_buffer_offset]
    stand for the embedded [struct binder_alloc]. *)
Record binder_proc : Type := Build_binder_proc {
  proc_threads : list (Z * nat);  (* by pid *)
  proc_nodes : list (Z * nat);  (* by node->ptr *)
  refs_by_desc : list (Z * nat);  (* by ref->data.desc *)
  refs_by_node : gmap nat nat;  (* by ref->node *)
  pid : Z;
  tsk : nat;
  files : option nat;
  proc_is_dead : bool;
  proc_todo_list : list work_ptr;
  delivered_death : list work_ptr;
  max_threads : Z;
  requested_threads : Z;
  requested_threads_started : Z;
  ready_threads : Z;
  proc_tmp_ref : Z;
  default_priority : Z;
  alloc_buffers : list nat;
  user_buffer_offset : Z;
  context : nat
}.

Definition set_proc_threads (v : list (Z * nat)) (x : binder_proc) : binder_proc :=
  Build_binder_proc v (proc_nodes x) (refs_by_desc x) (refs_by_node x) (pid x) (tsk x) (files x) (proc_is_dead x) (proc_todo_list x) (delivered_death x) (max_threads x) (requested_threads x) (requested_threads_started x) (ready_threads x) (proc_tmp_ref x) (default_priority x) (alloc_buffers x) (user_buffer_offset x) (context x).
Definition set_proc_nodes (v : list (Z * nat)) (x : binder_proc) : binder_proc :=
  Build_binder_proc (proc_threads x) v (refs_by_desc x) (refs_by_node x) (pid x) (tsk x) (files x) (proc_is_dead x) (proc_todo_list x) (delivered_death x) (max_threads x) (requested_threads x) (requested_threads_started x) (ready_threads x) (proc_tmp_ref x) (default_priority x) (alloc_buffers x) (user_buffer_offset x) (context x).
Definition set_refs_by_desc (v : list (Z * nat)) (x : binder_proc) : binder_proc :=
  Build_binder_proc (proc_threads x) (proc_nodes x) v (refs_by_node x) (pid x) (tsk x) (files x) (proc_is_dead x) (proc_todo_list x) (delivered_death x) (max_threads x) (requested_threads x) (requested_threads_started x) (ready_threads x) (proc_tmp_ref x) (default_priority x) (alloc_buffers x) (user_buffer_offset x) (context x).
Definition set_refs_by_node (v : gmap nat nat) (x : binder_proc) : binder_proc :=
  Build_binder_proc (proc_threads x) (proc_nodes x) (refs_by_desc x) v (pid x) (tsk x) (files x) (proc_is_dead x) (proc_todo_list x) (delivered_death x) (max_threads x) (requested_threads x) (requested_threads_started x) (ready_threads x) (proc_tmp_ref x) (default_priority x) (alloc_buffers x) (user_buffer_offset x) (context x).
Definition set_files (v : option nat) (x : binder_proc) : binder_proc :=
  Build_binder_proc (proc_threads x) (proc_nodes x) (refs_by_desc x) (refs_by_node x) (pid x) (tsk x) v (proc_is_dead x) (proc_todo_list x) (delivered_death x) (max_threads x) (requested_threads x) (requested_threads_started x) (ready_threads x) (proc_tmp_ref x) (default_priority x) (alloc_buffers x) (user_buffer_offset x) (context x).
Definition set_proc_is_dead (v : bool) (x : binder_proc) : binder_proc :=
  Build_binder_proc (proc_threads x) (proc_nodes x) (refs_by_desc x) (refs_by_node x) (pid x) (tsk x) (files x) v (proc_todo_list x) (delivered_death x) (max_threads x) (requested_threads x) (requested_threads_started x) (ready_threads x) (proc_tmp_ref x) (default_priority x) (alloc_buffers x) (user_buffer_offset x) (context x).
Definition set_proc_todo_list (v : list work_ptr) (x : binder_proc) : binder_proc :=
  Build_binder_proc (proc_threads x) (proc_nodes x) (refs_by_desc x) (refs_by_node x) (pid x) (tsk x) (files x) (proc_is_dead x) v (delivered_death x) (max_threads x) (requested_threads x) (requested_threads_started x) (ready_threads x) (proc_tmp_ref x) (default_priority x) (alloc_buffers x) (user_buffer_offset x) (context x).
Definition set_delivered_death (v : list work_ptr) (x : binder_proc) : binder_proc :=
  Build_binder_proc (proc_threads x) (proc_nodes x) (refs_by_desc x) (refs_by_node x) (pid x) (tsk x) (files x) (proc_is_dead x) (proc_todo_list x) v (max_threads x) (requested_threads x) (requested_threads_started x) (ready_threads x) (proc_tmp_ref x) (default_priority x) (alloc_buffers x) (user_buffer_offset x) (context x).
Definition set_max_threads (v : Z) (x : binder_proc) : binder_proc :=
  Build_binder_proc (proc_threads x) (proc_nodes x) (refs_by_desc x) (refs_by_node x) (pid x) (tsk x) (files x) (proc_is_dead x) (proc_todo_list x) (delivered_death x) v (requested_threads x) (requested_threads_started x) (ready_threads x) (proc_tmp_ref x) (default_priority x) (alloc_buffers x) (user_buffer_offset x) (context x).
Definition set_requested_threads (v : Z) (x : binder_proc) : binder_proc :=
  Build_binder_proc (proc_threads x) (proc_nodes x) (refs_by_desc x) (refs_by_node x) (pid x) (tsk x) (files x) (proc_is_dead x) (proc_todo_list x) (delivered_death x) (max_threads x) v (requested_threads_started x) (ready_threads x) (proc_tmp_ref x) (default_priority x) (alloc_buffers x) (user_buffer_offset x) (context x).
Definition set_requested_threads_started (v : Z) (x : binder_proc) : binder_proc :=
  Build_binder_proc (proc_threads x) (proc_nodes x) (refs_by_desc x) (refs_by_node x) (pid x) (tsk x) (files x) (proc_is_dead x) (proc_todo_list x) (delivered_death x) (max_threads x) (requested_threads x) v (ready_threads x) (proc_tmp_ref x) (default_priority x) (alloc_buffers x) (user_buffer_offset x) (context x).
Definition set_ready_threads (v : Z) (x : binder_proc) : binder_proc :=
  Build_binder_proc (proc_threads x) (proc_nodes x) (refs_by_desc x) (refs_by_node x) (pid x) (tsk x) (files x) (proc_is_dead x) (proc_todo_list x) (delivered_death x) (max_threads x) (requested_threads x) (requested_threads_started x) v (proc_tmp_ref x) (default_priority x) (alloc_buffers x) (user_buffer_offset x) (context x).
Definition set_proc_tmp_ref (v : Z) (x : binder_proc) : binder_proc :=
  Build_binder_proc (proc_threads x) (proc_nodes x) (refs_by_desc x) (refs_by_node x) (pid x) (tsk x) (files x) (proc_is_dead x) (proc_todo_list x) (delivered_death x) (max_threads x) (requested_threads x) (requested_threads_started x) (ready_threads x) v (default_priority x) (alloc_buffers x) (user_buffer_offset x) (context x).
Definition set_alloc_buffers (v : list nat) (x : binder_proc) : binder_proc :=
  Build_binder_proc (proc_threads x) (proc_nodes x) (refs_by_desc x) (refs_by_node x) (pid x) (tsk x) (files x) (proc_is_dead x) (proc_todo_list x) (delivered_death x) (max_threads x) (requested_threads x) (requested_threads_started x) (ready_threads x) (proc_tmp_ref x) (default_priority x) v (user_buffer_offset x) (context x).

Record binder_thread : Type := Build_binder_thread {
  thread_proc : nat;
  thread_pid : Z;
  looper : Z;
  looper_need_return : bool;
  transaction_stack : option nat;
  thread_todo_list : list work_ptr;
  return_error : binder_error;
  reply_error : binder_error;
  thread_tmp_ref : Z;
  thread_is_dead : bool
}.

Definition set_looper (v : Z) (x : binder_thread) : binder_thread :=
  Build_binder_thread (thread_proc x) (thread_pid x) v (looper_need_return x) (transaction_stack x) (thread_todo_list x) (return_error x) (reply_error x) (thread_tmp_ref x) (thread_is_dead x).
Definition set_looper_need_return (v : bool) (x : binder_thread) : binder_thread :=
  Build_binder_thread (thread_proc x) (thread_pid x) (looper x) v (transaction_stack x) (thread_todo_list x) (return_error x) (reply_error x) (thread_tmp_ref x) (thread_is_dead x).
Definition set_transaction_stack (v : option nat) (x : binder_thread) : binder_thread :=
  Build_binder_thread (thread_proc x) (thread_pid x) (looper x) (looper_need_return x) v (thread_todo_list x) (return_error x) (reply_error x) (thread_tmp_ref x) (thread_is_dead x).
Definition set_thread_todo_list (v : list work_ptr) (x : binder_thread) : binder_thread :=
  Build_binder_thread (thread_proc x) (thread_pid x) (looper x) (looper_need_return x) (transaction_stack x) v (return_error x) (reply_error x) (thread_tmp_ref x) (thread_is_dead x).
Definition set_return_error (v : binder_error) (x : binder_thread) : binder_thread :=
  Build_binder_thread (thread_proc x) (thread_pid x) (looper x) (looper_need_return x) (transaction_stack x) (thread_todo_list x) v (reply_error x) (thread_tmp_ref x) (thread_is_dead x).
Definition set_reply_error (v : binder_error) (x : binder_thread) : binder_thread :=
  Build_binder_thread (thread_proc x) (thread_pid x) (looper x) (looper_need_return x) (transaction_stack x) (thread_todo_list x) (return_error x) v (thread_tmp_ref x) (thread_is_dead x).
Definition set_thread_tmp_ref (v : Z) (x : binder_thread) : binder_thread :=
  Build_binder_thread (thread_proc x) (thread_pid x) (looper x) (looper_need_return x) (transaction_stack x) (thread_todo_list x) (return_error x) (reply_error x) v (thread_is_dead x).
Definition set_thread_is_dead (v : bool) (x : binder_thread) : binder_thread :=
  Build_binder_thread (thread_proc x) (thread_pid x) (looper x) (looper_need_return x) (transaction_stack x) (thread_todo_list x) (return_error x) (reply_error x) (thread_tmp_ref x) v.

Record struct_binder_transaction : Type := Build_binder_transaction {
  t_debug_id : Z;
  t_work : binder_work;
  t_from : option nat;
  t_from_parent : option nat;
  t_to_proc : option nat;
  t_to_thread : option nat;
  t_to_parent : option nat;
  t_need_reply : bool;
  t_buffer : option nat;
  t_code : Z;
  t_flags : Z;
  t_priority : Z;
  t_saved_priority : Z;
  t_sender_euid : Z
}.

Definition set_t_debug_id (v : Z) (x : struct_binder_transaction) : struct_binder_transaction :=
  Build_binder_transaction v (t_work x) (t_from x) (t_from_parent x) (t_to_proc x) (t_to_thread x) (t_to_parent x) (t_need_reply x) (t_buffer x) (t_code x) (t_flags x) (t_priority x) (t_saved_priority x) (t_sender_euid x).
Definition set_t_work (v : binder_work) (x : struct_binder_transaction) : struct_binder_transaction :=
  Build_binder_transaction (t_debug_id x) v (t_from x) (t_from_parent x) (t_to_proc x) (t_to_thread x) (t_to_parent x) (t_need_reply x) (t_buffer x) (t_code x) (t_flags x) (t_priority x) (t_saved_priority x) (t_sender_euid x).
Definition set_t_from (v : option nat) (x : struct_binder_transaction) : struct_binder_transaction :=
  Build_binder_transaction (t_debug_id x) (t_work x) v (t_from_parent x) (t_to_proc x) (t_to_thread x) (t_to_parent x) (t_need_reply x) (t_buffer x) (t_code x) (t_flags x) (t_priority x) (t_saved_priority x) (t_sender_euid x).
Definition set_t_from_parent (v : option nat) (x : struct_binder_transaction) : struct_binder_transaction :=
  Build_binder_transaction (t_debug_id x) (t_work x) (t_from x) v (t_to_proc x) (t_to_thread x) (t_to_parent x) (t_need_reply x) (t_buffer x) (t_code x) (t_flags x) (t_priority x) (t_saved_priority x) (t_sender_euid x).
Definition set_t_to_proc (v : option nat) (x : struct_binder_transaction) : struct_binder_transaction :=
  Build_binder_transaction (t_debug_id x) (t_work x) (t_from x) (t_from_parent x) v (t_to_thread x) (t_to_parent x) (t_need_reply x) (t_buffer x) (t_code x) (t_flags x) (t_priority x) (t_saved_priority x) (t_sender_euid x).
Definition set_t_to_thread (v : option nat) (x : struct_binder_transaction) : struct_binder_transaction :=
  Build_binder_transaction (t_debug_id x) (t_work x) (t_from x) (t_from_parent x) (t_to_proc x) v (t_to_parent x) (t_need_reply x) (t_buffer x) (t_code x) (t_flags x) (t_priority x) (t_saved_priority x) (t_sender_euid x).
Definition set_t_to_parent (v : option nat) (x : struct_binder_transaction) : struct_binder_transaction :=
  Build_binder_transaction (t_debug_id x) (t_work x) (t_from x) (t_from_parent x) (t_to_proc x) (t_to_thread x) v (t_need_reply x) (t_buffer x) (t_code x) (t_flags x) (t_priority x) (t_saved_priority x) (t_sender_euid x).
Definition set_t_need_reply (v : bool) (x : struct_binder_transaction) : struct_binder_transaction :=
  Build_binder_transaction (t_debug_id x) (t_work x) (t_from x) (t_from_parent x) (t_to_proc x) (t_to_thread x) (t_to_parent x) v (t_buffer x) (t_code x) (t_flags x) (t_priority x) (t_saved_priority x) (t_sender_euid x).
Definition set_t_buffer (v : option nat) (x : struct_binder_transaction) : struct_binder_transaction :=
  Build_binder_transaction (t_debug_id x) (t_work x) (t_from x) (t_from_parent x) (t_to_proc x) (t_to_thread x) (t_to_parent x) (t_need_reply x) v (t_code x) (t_flags x) (t_priority x) (t_saved_priority x) (t_sender_euid x).
Definition set_t_code (v : Z) (x : struct_binder_transaction) : struct_binder_transaction :=
  Build_binder_transaction (t_debug_id x) (t_work x) (t_from x) (t_from_parent x) (t_to_proc x) (t_to_thread x) (t_to_parent x) (t_need_reply x) (t_buffer x) v (t_flags x) (t_priority x) (t_saved_priority x) (t_sender_euid x).
Definition set_t_flags (v : Z) (x : struct_binder_transaction) : struct_binder_transaction :=
  Build_binder_transaction (t_debug_id x) (t_work x) (t_from x) (t_from_parent x) (t_to_proc x) (t_to_thread x) (t_to_parent x) (t_need_reply x) (t_buffer x) (t_code x) v (t_priority x) (t_saved_priority x) (t_sender_euid x).
Definition set_t_priority (v : Z) (x : struct_binder_transaction) : struct_binder_transaction :=
  Build_binder_transaction (t_debug_id x) (t_work x) (t_from x) (t_from_parent x) (t_to_proc x) (t_to_thread x) (t_to_parent x) (t_need_reply x) (t_buffer x) (t_code x) (t_flags x) v (t_saved_priority x) (t_sender_euid x).
Definition set_t_saved_priority (v : Z) (x : struct_binder_transaction) : struct_binder_transaction :=
  Build_binder_transaction (t_debug_id x) (t_work x) (t_from x) (t_from_parent x) (t_to_proc x) (t_to_thread x) (t_to_parent x) (t_need_reply x) (t_buffer x) (t_code x) (t_flags x) (t_priority x) v (t_sender_euid x).
Definition set_t_sender_euid (v : Z) (x : struct_binder_transaction) : struct_binder_transaction :=
  Build_binder_transaction (t_debug_id x) (t_work x) (t_from x) (t_from_parent x) (t_to_proc x) (t_to_thread x) (t_to_parent x) (t_need_reply x) (t_buffer x) (t_code x) (t_flags x) (t_priority x) (t_saved_priority x) v.

(** The fields of [struct binder_buffer] the driver reads and writes.
    The data area is the map [b_objects] from an offset to the object
    there, the offsets array is [b_offsets], and the bytes of the extra
    (scatter-gather) area are [b_sg], by kernel address. *)
Record binder_buffer : Type := Build_binder_buffer {
  b_data : Z;  (* kernel address of the data area *)
  b_data_size : Z;
  b_offsets_size : Z;
  allow_user_free : bool;
  async_transaction : bool;
  b_debug_id : Z;
  b_transaction : option nat;
  b_target_node : option nat;
  b_objects : gmap Z binder_object;
  b_offsets : list Z;
  b_sg : gmap Z Z
}.

Definition set_allow_user_free (v : bool) (x : binder_buffer) : binder_buffer :=
  Build_binder_buffer (b_data x) (b_data_size x) (b_offsets_size x) v (async_transaction x) (b_debug_id x) (b_transaction x) (b_target_node x) (b_objects x) (b_offsets x) (b_sg x).
Definition set_b_debug_id (v : Z) (x : binder_buffer) : binder_buffer :=
  Build_binder_buffer (b_data x) (b_data_size x) (b_offsets_size x) (allow_user_free x) (async_transaction x) v (b_transaction x) (b_target_node x) (b_objects x) (b_offsets x) (b_sg x).
Definition set_b_transaction (v : option nat) (x : binder_buffer) : binder_buffer :=
  Build_binder_buffer (b_data x) (b_data_size x) (b_offsets_size x) (allow_user_free x) (async_transaction x) (b_debug_id x) v (b_target_node x) (b_objects x) (b_offsets x) (b_sg x).
Definition set_b_target_node (v : option nat) (x : binder_buffer) : binder_buffer :=
  Build_binder_buffer (b_data x) (b_data_size x) (b_offsets_size x) (allow_user_free x) (async_transaction x) (b_debug_id x) (b_transaction x) v (b_objects x) (b_offsets x) (b_sg x).
Definition set_b_objects (v : gmap Z binder_object) (x : binder_buffer) : binder_buffer :=
  Build_binder_buffer (b_data x) (b_data_size x) (b_offsets_size x) (allow_user_free x) (async_transaction x) (b_debug_id x) (b_transaction x) (b_target_node x) v (b_offsets x) (b_sg x).
Definition set_b_offsets (v : list Z) (x : binder_buffer) : binder_buffer :=
  Build_binder_buffer (b_data x) (b_data_size x) (b_offsets_size x) (allow_user_free x) (async_transaction x) (b_debug_id x) (b_transaction x) (b_target_node x) (b_objects x) v (b_sg x).
Definition set_b_sg (v : gmap Z Z) (x : binder_buffer) : binder_buffer :=
  Build_binder_buffer (b_data x) (b_data_size x) (b_offsets_size x) (allow_user_free x) (async_transaction x) (b_debug_id x) (b_transaction x) (b_target_node x) (b_objects x) (b_offsets x) v.


(** ** The kernel around the driver *)

(** What a [put_user] or [copy_to_user] stores. *)
Inductive user_value : Type :=
  | U_cmd (cmd : binder_driver_return_protocol)
  | U_ptr (v : Z)
  | U_tr (tr : binder_transaction_data)
  | U_bwr (bwr : binder_write_read).

Inductive log_line : Type :=
  | User_error (msg : string)  (* binder_user_error *)
  | Pr_err (msg : string).

(** The services the driver calls that are defined outside [binder.c].
    Tasks, files and [files_struct]s are named by numbers. *)
Class kernel_env : Type := {
  (* kernel/sched *)
  can_nice : Z → bool;
  rlimit_nice : Z;  (* rlimit_to_nice(current->signal->rlim[RLIMIT_NICE].rlim_cur) *)
  MIN_NICE : Z;
  MAX_NICE : Z;
  (* kernel/signal: whether a signal is pending for the task when an
     interruptible wait is about to put it to sleep *)
  signal_pending : bool;
  (* security/ *)
  security_binder_set_context_mgr : nat → option errno;
  security_binder_transaction : nat → nat → option errno;
  security_binder_transfer_binder : nat → nat → option errno;
  security_binder_transfer_file : nat → nat → nat → option errno;
  task_euid : nat → Z;
  (* mm/slab: whether the allocation that would return this address fails *)
  kzalloc_fails : nat → bool;
  (* user memory, read side *)
  get_user_u32 : Z → option Z;
  get_user_u64 : Z → option Z;
  copy_tr_from_user : Z → option binder_transaction_data;
  copy_tr_sg_from_user : Z → option (binder_transaction_data * Z);
  copy_bwr_from_user : Z → option binder_write_read;
  copy_objects_from_user : Z → Z → option (gmap Z binder_object);
  get_user_u8 : Z → option Z;
  (* user memory, write side: whether a store at this address succeeds *)
  put_user_ok : Z → bool;
  (* fs/file.c *)
  fget : nat → Z → option nat;
  __alloc_fd : gmap Z nat → option Z;
  (* binder_alloc.c: the outcome of a reservation, an error or the kernel
     address of the new data area *)
  binder_alloc_reserve : nat → Z → Z → Z → bool → errno + Z
}.

Record binder_state : Type := Build_binder_state {
  st_contexts : gmap nat binder_context;
  st_procs : gmap nat binder_proc;
  st_threads : gmap nat binder_thread;
  st_nodes : gmap nat binder_node;
  st_refs : gmap nat binder_ref;
  st_deaths : gmap nat binder_ref_death;
  st_transactions : gmap nat struct_binder_transaction;
  st_tcompletes : gmap nat binder_work;
  st_buffers : gmap nat binder_buffer;
  binder_dead_nodes : list nat;
  binder_last_id : Z;
  binder_stop_on_user_error : Z;
  binder_transaction_log_failed : list (binder_driver_return_protocol * option errno);
  st_log : list log_line;  (* the kernel log, oldest first *)
  st_brk : nat;  (* the next address the slab hands out *)
  st_nice : Z;  (* task_nice(current) *)
  st_fds : gmap nat (gmap Z nat);  (* files_struct, fd, file *)
  st_user : list (Z * user_value)  (* stores to user memory, oldest first *)
}.

Definition set_st_contexts (v : gmap nat binder_context) (x : binder_state) : binder_state :=
  Build_binder_state v (st_procs x) (st_threads x) (st_nodes x) (st_refs x) (st_deaths x) (st_transactions x) (st_tcompletes x) (st_buffers x) (binder_dead_nodes x) (binder_last_id x) (binder_stop_on_user_error x) (binder_transaction_log_failed x) (st_log x) (st_brk x) (st_nice x) (st_fds x) (st_user x).
Definition set_st_procs (v : gmap nat binder_proc) (x : binder_state) : binder_state :=
  Build_binder_state (st_contexts x) v (st_threads x) (st_nodes x) (st_refs x) (st_deaths x) (st_transactions x) (st_tcompletes x) (st_buffers x) (binder_dead_nodes x) (binder_last_id x) (binder_stop_on_user_error x) (binder_transaction_log_failed x) (st_log x) (st_brk x) (st_nice x) (st_fds x) (st_user x).
Definition set_st_threads (v : gmap nat binder_thread) (x : binder_state) : binder_state :=
  Build_binder_state (st_contexts x) (st_procs x) v (st_nodes x) (st_refs x) (st_deaths x) (st_transactions x) (st_tcompletes x) (st_buffers x) (binder_dead_nodes x) (binder_last_id x) (binder_stop_on_user_error x) (binder_transaction_log_failed x) (st_log x) (st_brk x) (st_nice x) (st_fds x) (st_user x).
Definition set_st_nodes (v : gmap nat binder_node) (x : binder_state) : binder_state :=
  Build_binder_state (st_contexts x) (st_procs x) (st_threads x) v (st_refs x) (st_deaths x) (st_transactions x) (st_tcompletes x) (st_buffers x) (binder_dead_nodes x) (binder_last_id x) (binder_stop_on_user_error x) (binder_transaction_log_failed x) (st_log x) (st_brk x) (st_nice x) (st_fds x) (st_user x).
Definition set_st_refs (v : gmap nat binder_ref) (x : binder_state) : binder_state :=
  Build_binder_state (st_contexts x) (st_procs x) (st_threads x) (st_nodes x) v (st_deaths x) (st_transactions x) (st_tcompletes x) (st_buffers x) (binder_dead_nodes x) (binder_last_id x) (binder_stop_on_user_error x) (binder_transaction_log_failed x) (st_log x) (st_brk x) (st_nice x) (st_fds x) (st_user x).
Definition set_st_deaths (v : gmap nat binder_ref_death) (x : binder_state) : binder_state :=
  Build_binder_state (st_contexts x) (st_procs x) (st_threads x) (st_nodes x) (st_refs x) v (st_transactions x) (st_tcompletes x) (st_buffers x) (binder_dead_nodes x) (binder_last_id x) (binder_stop_on_user_error x) (binder_transaction_log_failed x) (st_log x) (st_brk x) (st_nice x) (st_fds x) (st_user x).
Definition set_st_transactions (v : gmap nat struct_binder_transaction) (x : binder_state) : binder_state :=
  Build_binder_state (st_contexts x) (st_procs x) (st_threads x) (st_nodes x) (st_refs x) (st_deaths x) v (st_tcompletes x) (st_buffers x) (binder_dead_nodes x) (binder_last_id x) (binder_stop_on_user_error x) (binder_transaction_log_failed x) (st_log x) (st_brk x) (st_nice x) (st_fds x) (st_user x).
Definition set_st_tcompletes (v : gmap nat binder_work) (x : binder_state) : binder_state :=
  Build_binder_state (st_contexts x) (st_procs x) (st_threads x) (st_nodes x) (st_refs x) (st_deaths x) (st_transactions x) v (st_buffers x) (binder_dead_nodes x) (binder_last_id x) (binder_stop_on_user_error x) (binder_transaction_log_failed x) (st_log x) (st_brk x) (st_nice x) (st_fds x) (st_user x).
Definition set_st_buffers (v : gmap nat binder_buffer) (x : binder_state) : binder_state :=
  Build_binder_state (st_contexts x) (st_procs x) (st_threads x) (st_nodes x) (st_refs x) (st_deaths x) (st_transactions x) (st_tcompletes x) v (binder_dead_nodes x) (binder_last_id x) (binder_stop_on_user_error x) (binder_transaction_log_failed x) (st_log x) (st_brk x) (st_nice x) (st_fds x) (st_user x).
Definition set_binder_dead_nodes (v : list nat) (x : binder_state) : binder_state :=
  Build_binder_state (st_contexts x) (st_procs x) (st_threads x) (st_nodes x) (st_refs x) (st_deaths x) (st_transactions x) (st_tcompletes x) (st_buffers x) v (binder_last_id x) (binder_stop_on_user_error x) (binder_transaction_log_failed x) (st_log x) (st_brk x) (st_nice x) (st_fds x) (st_user x).
Definition set_binder_last_id (v : Z) (x : binder_state) : binder_state :=
  Build_binder_state (st_contexts x) (st_procs x) (st_threads x) (st_nodes x) (st_refs x) (st_deaths x) (st_transactions x) (st_tcompletes x) (st_buffers x) (binder_dead_nodes x) v (binder_stop_on_user_error x) (binder_transaction_log_failed x) (st_log x) (st_brk x) (st_nice x) (st_fds x) (st_user x).
Definition set_binder_stop_on_user_error (v : Z) (x : binder_state) : binder_state :=
  Build_binder_state (st_contexts x) (st_procs x) (st_threads x) (st_nodes x) (st_refs x) (st_deaths x) (st_transactions x) (st_tcompletes x) (st_buffers x) (binder_dead_nodes x) (binder_last_id x) v (binder_transaction_log_failed x) (st_log x) (st_brk x) (st_nice x) (st_fds x) (st_user x).
Definition set_binder_transaction_log_failed (v : list (binder_driver_return_protocol * option errno)) (x : binder_state) : binder_state :=
  Build_binder_state (st_contexts x) (st_procs x) (st_threads x) (st_nodes x) (st_refs x) (st_deaths x) (st_transactions x) (st_tcompletes x) (st_buffers x) (binder_dead_nodes x) (binder_last_id x) (binder_stop_on_user_error x) v (st_log x) (st_brk x) (st_nice x) (st_fds x) (st_user x).
Definition set_st_log (v : list log_line) (x : binder_state) : binder_state :=
  Build_binder_state (st_contexts x) (st_procs x) (st_threads x) (st_nodes x) (st_refs x) (st_deaths x) (st_transactions x) (st_tcompletes x) (st_buffers x) (binder_dead_nodes x) (binder_last_id x) (binder_stop_on_user_error x) (binder_transaction_log_failed x) v (st_brk x) (st_nice x) (st_fds x) (st_user x).
Definition set_st_brk (v : nat) (x : binder_state) : binder_state :=
  Build_binder_state (st_contexts x) (st_procs x) (st_threads x) (st_nodes x) (st_refs x) (st_deaths x) (st_transactions x) (st_tcompletes x) (st_buffers x) (binder_dead_nodes x) (binder_last_id x) (binder_stop_on_user_error x) (binder_transaction_log_failed x) (st_log x) v (st_nice x) (st_fds x) (st_user x).
Definition set_st_nice (v : Z) (x : binder_state) : binder_state :=
  Build_binder_state (st_contexts x) (st_procs x) (st_threads x) (st_nodes x) (st_refs x) (st_deaths x) (st_transactions x) (st_tcompletes x) (st_buffers x) (binder_dead_nodes x) (binder_last_id x) (binder_stop_on_user_error x) (binder_transaction_log_failed x) (st_log x) (st_brk x) v (st_fds x) (st_user x).
Definition set_st_fds (v : gmap nat (gmap Z nat)) (x : binder_state) : binder_state :=
  Build_binder_state (st_contexts x) (st_procs x) (st_threads x) (st_nodes x) (st_refs x) (st_deaths x) (st_transactions x) (st_tcompletes x) (st_buffers x) (binder_dead_nodes x) (binder_last_id x) (binder_stop_on_user_error x) (binder_transaction_log_failed x) (st_log x) (st_brk x) (st_nice x) v (st_user x).
Definition set_st_user (v : list (Z * user_value)) (x : binder_state) : binder_state :=
  Build_binder_state (st_contexts x) (st_procs x) (st_threads x) (st_nodes x) (st_refs x) (st_deaths x) (st_transactions x) (st_tcompletes x) (st_buffers x) (binder_dead_nodes x) (binder_last_id x) (binder_stop_on_user_error x) (binder_transaction_log_failed x) (st_log x) (st_brk x) (st_nice x) (st_fds x) v.

(** ** The monad of driver code *)

Inductive result (A : Type) : Type :=
  | Val (a : A)
  | Oops  (* BUG(), BUG_ON() or a bad dereference *)
  | Sleeps  (* the task blocks on a wait queue *)
  | Fuel.  (* the step budget of a loop of the model ran out *)
Arguments Val {A} a.
Arguments Oops {A}.
Arguments Sleeps {A}.
Arguments Fuel {A}.

Definition kernel (A : Type) : Type := binder_state → result A * binder_state.

Definition kret {A} (a : A) : kernel A := λ s, (Val a, s).

Definition kbind {A B} (m : kernel A) (k : A → kernel B) : kernel B :=
  λ s, match m s with
       | (Val a, s') => k a s'
       | (Oops, s') => (Oops, s')
       | (Sleeps, s') => (Sleeps, s')
       | (Fuel, s') => (Fuel, s')
       end.

#[global] Instance kernel_ret : MRet kernel := @kret.
#[global] Instance kernel_bind : MBind kernel := λ A B k m, kbind m k.

Definition oops {A} : kernel A := λ s, (Oops, s).
Definition sleeps {A} : kernel A := λ s, (Sleeps, s).
Definition out_of_fuel {A} : kernel A := λ s, (Fuel, s).
Definition get_state : kernel binder_state := λ s, (Val s, s).
Definition modify (f : binder_state → binder_state) : kernel unit :=
  λ s, (Val tt, f s).

Definition BUG_ON (b : bool) : kernel unit := if b then oops else kret tt.

(** Dereferencing: [p->...] for an object of each kind. *)
Definition deref {A} (heap : binder_state → gmap nat A) (p : nat) : kernel A :=
  λ s, match heap s !! p with Some x => (Val x, s) | None => (Oops, s) end.

Definition get_context := deref st_contexts.
Definition get_proc := deref st_procs.
Definition get_thread := deref st_threads.
Definition get_node := deref st_nodes.
Definition get_ref := deref st_refs.
Definition get_death := deref st_deaths.
Definition get_transaction := deref st_transactions.
Definition get_tcomplete := deref st_tcompletes.
Definition get_buffer := deref st_buffers.

Definition put_context (p : nat) (x : binder_context) : kernel unit :=
  modify (λ s, set_st_contexts (<[p := x]> (st_contexts s)) s).
Definition put_proc (p : nat) (x : binder_proc) : kernel unit :=
  modify (λ s, set_st_procs (<[p := x]> (st_procs s)) s).
Definition put_thread (p : nat) (x : binder_thread) : kernel unit :=
  modify (λ s, set_st_threads (<[p := x]> (st_threads s)) s).
Definition put_node (p : nat) (x : binder_node) : kernel unit :=
  modify (λ s, set_st_nodes (<[p := x]> (st_nodes s)) s).
Definition put_ref (p : nat) (x : binder_ref) : kernel unit :=
  modify (λ s, set_st_refs (<[p := x]> (st_refs s)) s).
Definition put_death (p : nat) (x : binder_ref_death) : kernel unit :=
  modify (λ s, set_st_deaths (<[p := x]> (st_deaths s)) s).
Definition put_transaction (p : nat) (x : struct_binder_transaction) : kernel unit :=
  modify (λ s, set_st_transactions (<[p := x]> (st_transactions s)) s).
Definition put_tcomplete (p : nat) (x : binder_work) : kernel unit :=
  modify (λ s, set_st_tcompletes (<[p := x]> (st_tcompletes s)) s).
Definition put_buffer (p : nat) (x : binder_buffer) : kernel unit :=
  modify (λ s, set_st_buffers (<[p := x]> (st_buffers s)) s).

(** [p->field = ...]: read the object, change it, write it back. *)
Definition upd_context (p : nat) (f : binder_context → binder_context) : kernel unit :=
  x ← get_context p; put_context p (f x).
Definition upd_proc (p : nat) (f : binder_proc → binder_proc) : kernel unit :=
  x ← get_proc p; put_proc p (f x).
Definition upd_thread (p : nat) (f : binder_thread → binder_thread) : kernel unit :=
  x ← get_thread p; put_thread p (f x).
Definition upd_node (p : nat) (f : binder_node → binder_node) : kernel unit :=
  x ← get_node p; put_node p (f x).
Definition upd_ref (p : nat) (f : binder_ref → binder_ref) : kernel unit :=
  x ← get_ref p; put_ref p (f x).
Definition upd_death (p : nat) (f : binder_ref_death → binder_ref_death) : kernel unit :=
  x ← get_death p; put_death p (f x).
Definition upd_transaction (p : nat) (f : struct_binder_transaction → struct_binder_transaction) : kernel unit :=
  x ← get_transaction p; put_transaction p (f x).
Definition upd_buffer (p : nat) (f : binder_buffer → binder_buffer) : kernel unit :=
  x ← get_buffer p; put_buffer p (f x).

(** [kfree] of an object of each kind. *)
Definition kfree_node (p : nat) : kernel unit :=
  modify (λ s, set_st_nodes (delete p (st_nodes s)) s).
Definition kfree_ref (p : nat) : kernel unit :=
  modify (λ s, set_st_refs (delete p (st_refs s)) s).
Definition kfree_death (p : nat) : kernel unit :=
  modify (λ s, set_st_deaths (delete p (st_deaths s)) s).
Definition kfree_transaction (p : nat) : kernel unit :=
  modify (λ s, set_st_transactions (delete p (st_transactions s)) s).
Definition kfree_tcomplete (p : nat) : kernel unit :=
  modify (λ s, set_st_tcompletes (delete p (st_tcompletes s)) s).
Definition kfree_thread (p : nat) : kernel unit :=
  modify (λ s, set_st_threads (delete p (st_threads s)) s).
Definition kfree_proc (p : nat) : kernel unit :=
  modify (λ s, set_st_procs (delete p (st_procs s)) s).

(** [atomic_inc_return(&binder_last_id)] *)
Definition binder_next_id : kernel Z :=
  s ← get_state;
  modify (set_binder_last_id (binder_last_id s + 1));;
  kret (binder_last_id s + 1).

Definition pr_err (msg : string) : kernel unit :=
  modify (λ s, set_st_log (st_log s ++ [Pr_err msg]) s).

(** The macro [binder_user_error]: a log line, and the stop-on-user-error
    latch goes to 2 when it is armed. *)
Definition binder_user_error (msg : string) : kernel unit :=
  modify (λ s, set_st_log (st_log s ++ [User_error msg]) s);;
  s ← get_state;
  if bool_decide (binder_stop_on_user_error s ≠ 0)
  then modify (set_binder_stop_on_user_error 2)
  else kret tt.

Section driver.
Context `{!binder_uapi, !kernel_env}.

(** [kzalloc]: a fresh address, or NULL. *)
Definition kzalloc : kernel (option nat) :=
  s ← get_state;
  modify (set_st_brk (S (st_brk s)));;
  kret (if kzalloc_fails (st_brk s) then None else Some (st_brk s)).

(** [put_user] and [copy_to_user]: [true] is the fault. *)
Definition put_user (v : user_value) (ptr : Z) : kernel bool :=
  if put_user_ok ptr
  then modify (λ s, set_st_user (st_user s ++ [(ptr, v)]) s);; kret false
  else kret true.

(** ** Work lists *)

Definition get_work (work : work_ptr) : kernel binder_work :=
  match work with
  | W_transaction t => x ← get_transaction t; kret (t_work x)
  | W_tcomplete w => get_tcomplete w
  | W_return_error th => x ← get_thread th; kret (err_work (return_error x))
  | W_reply_error th => x ← get_thread th; kret (err_work (reply_error x))
  | W_node n => x ← get_node n; kret (node_work x)
  | W_death d => x ← get_death d; kret (death_work x)
  end.

Definition upd_work (work : work_ptr) (f : binder_work → binder_work) : kernel unit :=
  match work with
  | W_transaction t => upd_transaction t (λ x, set_t_work (f (t_work x)) x)
  | W_tcomplete w => x ← get_tcomplete w; put_tcomplete w (f x)
  | W_return_error th =>
      upd_thread th (λ x, set_return_error (set_err_work (f (err_work (return_error x))) (return_error x)) x)
  | W_reply_error th =>
      upd_thread th (λ x, set_reply_error (set_err_work (f (err_work (reply_error x))) (reply_error x)) x)
  | W_node n => upd_node n (λ x, set_node_work (f (node_work x)) x)
  | W_death d => upd_death d (λ x, set_death_work (f (death_work x)) x)
  end.

Definition get_list (l : worklist) : kernel (list work_ptr) :=
  match l with
  | proc_todo p => x ← get_proc p; kret (proc_todo_list x)
  | thread_todo th => x ← get_thread th; kret (thread_todo_list x)
  | node_async_todo n => x ← get_node n; kret (async_todo x)
  | proc_delivered_death p => x ← get_proc p; kret (delivered_death x)
  end.

Definition put_list (l : worklist) (v : list work_ptr) : kernel unit :=
  match l with
  | proc_todo p => upd_proc p (set_proc_todo_list v)
  | thread_todo th => upd_thread th (set_thread_todo_list v)
  | node_async_todo n => upd_node n (set_async_todo v)
  | proc_delivered_death p => upd_proc p (set_delivered_death v)
  end.

Fixpoint remove_work (work : work_ptr) (l : list work_ptr) : list work_ptr :=
  match l with
  | [] => []
  | w :: l' => if decide (w = work) then l' else w :: remove_work work l'
  end.

(** [list_empty(&work->entry)] *)
Definition list_empty_entry (work : work_ptr) : kernel bool :=
  w ← get_work work; kret (bool_decide (w_entry w = None)).

Definition list_add_tail (work : work_ptr) (target_list : worklist) : kernel unit :=
  l ← get_list target_list;
  put_list target_list (l ++ [work]);;
  upd_work work (set_w_entry (Some target_list)).

Definition list_del_init (work : work_ptr) : kernel unit :=
  w ← get_work work;
  match w_entry w with
  | None => kret tt
  | Some on =>
      l ← get_list on;
      put_list on (remove_work work l);;
      upd_work work (set_w_entry None)
  end.

Definition binder_worklist_empty_ilocked (list : worklist) : kernel bool :=
  l ← get_list list; kret (bool_decide (l = [])).

Definition binder_worklist_empty (proc : nat) (list : worklist) : kernel bool :=
  binder_worklist_empty_ilocked list.

Definition binder_enqueue_work_ilocked (work : work_ptr) (target_list : worklist) : kernel unit :=
  w ← get_work work;
  BUG_ON (bool_decide (w_entry w ≠ None));;
  list_add_tail work target_list.

Definition binder_enqueue_work (proc : nat) (work : work_ptr) (target_list : worklist) : kernel unit :=
  binder_enqueue_work_ilocked work target_list.

Definition binder_dequeue_work_ilocked (work : work_ptr) : kernel unit :=
  list_del_init work.

Definition binder_dequeue_work (proc : nat) (work : work_ptr) : kernel unit :=
  binder_dequeue_work_ilocked work.

Definition binder_dequeue_work_head_ilocked (list : worklist) : kernel (option work_ptr) :=
  l ← get_list list;
  match l with
  | [] => kret None
  | w :: _ => list_del_init w;; kret (Some w)
  end.

Definition binder_dequeue_work_head (proc : nat) (list : worklist) : kernel (option work_ptr) :=
  binder_dequeue_work_head_ilocked list.


(** ** Red-black trees, as key-ordered lists *)

Fixpoint rb_search (key : Z) (tree : list (Z * nat)) : option nat :=
  match tree with
  | [] => None
  | (k, p) :: tree' => if decide (k = key) then Some p else rb_search key tree'
  end.

Fixpoint rb_insert (key : Z) (p : nat) (tree : list (Z * nat)) : list (Z * nat) :=
  match tree with
  | [] => [(key, p)]
  | (k, q) :: tree' =>
      if decide (key < k) then (key, p) :: (k, q) :: tree'
      else (k, q) :: rb_insert key p tree'
  end.

Fixpoint rb_erase (p : nat) (tree : list (Z * nat)) : list (Z * nat) :=
  match tree with
  | [] => []
  | (k, q) :: tree' => if decide (q = p) then tree' else (k, q) :: rb_erase p tree'
  end.

Fixpoint hlist_del (p : nat) (l : list nat) : list nat :=
  match l with
  | [] => []
  | q :: l' => if decide (q = p) then l' else q :: hlist_del p l'
  end.

Definition u32 (x : Z) : Z := x mod 2 ^ 32.
Definition u64 (x : Z) : Z := x mod 2 ^ 64.

(** The value of an [int]: arithmetic on one wraps around. *)
Definition s32 (x : Z) : Z := if decide (u32 x < 2 ^ 31) then u32 x else u32 x - 2 ^ 32.

Definition wake_up_interruptible (wq : worklist) : kernel unit := mret tt.

(** ** Scheduling priority *)

(** [set_user_nice] of [kernel/sched/core.c], which leaves the task as it
    is when the nice value asked for is outside [MIN_NICE .. MAX_NICE]. *)
Definition set_user_nice (nice : Z) : kernel unit :=
  if bool_decide (nice < MIN_NICE) || bool_decide (nice > MAX_NICE) then mret tt
  else modify (set_st_nice nice).

Definition binder_set_nice (nice : Z) : kernel unit :=
  if can_nice nice then set_user_nice nice
  else
    let min_nice := rlimit_nice in
    set_user_nice min_nice;;
    if bool_decide (min_nice ≤ MAX_NICE) then mret tt
    else binder_user_error "RLIMIT_NICE not set".

(** ** Nodes *)

Definition binder_inc_node_tmpref_ilocked (node : nat) : kernel unit :=
  upd_node node (λ n, set_tmp_refs (tmp_refs n + 1) n).

Definition binder_inc_node_tmpref (node : nat) : kernel unit :=
  binder_inc_node_tmpref_ilocked node.

Definition binder_get_node (proc : nat) (ptr : Z) : kernel (option nat) :=
  p ← get_proc proc;
  match rb_search ptr (proc_nodes p) with
  | Some node => binder_inc_node_tmpref node;; mret (Some node)
  | None => mret None
  end.

Definition binder_new_node (proc : nat) (fp : option flat_binder_object) : kernel (option nat) :=
  let ptr := match fp with Some fp => fbo_binder fp | None => 0 end in
  let cookie := match fp with Some fp => fbo_cookie fp | None => 0 end in
  let flags := match fp with Some fp => fbo_flags fp | None => 0 end in
  p ← get_proc proc;
  match rb_search ptr (proc_nodes p) with
  | Some _ => mret None
  | None =>
      a ← kzalloc;
      match a with
      | None => mret None
      | Some node =>
          upd_proc proc (set_proc_nodes (rb_insert ptr node (proc_nodes p)));;
          id ← binder_next_id;
          put_node node
            {| node_debug_id := id;
               node_work := Build_binder_work None BINDER_WORK_NODE;
               node_proc := Some proc;
               node_refs := [];
               internal_strong_refs := 0;
               local_weak_refs := 0;
               local_strong_refs := 0;
               tmp_refs := 1;
               node_ptr := ptr;
               node_cookie := cookie;
               has_strong_ref := false;
               pending_strong_ref := false;
               has_weak_ref := false;
               pending_weak_ref := false;
               accept_fds := bool_decide (Z.land flags FLAT_BINDER_FLAG_ACCEPTS_FDS ≠ 0);
               min_priority := Z.land flags FLAT_BINDER_FLAG_PRIORITY_MASK mod 2 ^ 8;
               has_async_transaction := false;
               async_todo := [] |};;
          mret (Some node)
      end
  end.

Definition binder_free_node (node : nat) : kernel unit := kfree_node node.

(** [node->proc && node == node->proc->context->binder_context_mgr_node] *)
Definition is_context_mgr_node (node : nat) : kernel bool :=
  n ← get_node node;
  match node_proc n with
  | None => mret false
  | Some proc =>
      p ← get_proc proc;
      c ← get_context (context p);
      mret (bool_decide (binder_context_mgr_node c = Some node))
  end.

Definition binder_inc_node_nilocked (node : nat) (strong internal : bool)
    (target_list : option worklist) : kernel (option errno) :=
  n ← get_node node;
  if strong then
    r ← (if internal then
           mgr ← is_context_mgr_node node;
           if bool_decide (target_list = None) && bool_decide (internal_strong_refs n = 0)
              && negb (mgr && has_strong_ref n)
           then pr_err "invalid inc strong node";; mret (Some EINVAL)
           else upd_node node (λ n, set_internal_strong_refs (internal_strong_refs n + 1) n);;
                mret None
         else upd_node node (λ n, set_local_strong_refs (local_strong_refs n + 1) n);;
              mret None);
    match r with
    | Some e => mret (Some e)
    | None =>
        match target_list with
        | Some l =>
            if negb (has_strong_ref n) then
              binder_dequeue_work_ilocked (W_node node);;
              binder_enqueue_work_ilocked (W_node node) l;;
              mret None
            else mret None
        | None => mret None
        end
    end
  else
    (if negb internal
     then upd_node node (λ n, set_local_weak_refs (local_weak_refs n + 1) n)
     else mret tt);;
    unlinked ← list_empty_entry (W_node node);
    if negb (has_weak_ref n) && unlinked then
      match target_list with
      | None => pr_err "invalid inc weak node";; mret (Some EINVAL)
      | Some l => binder_enqueue_work_ilocked (W_node node) l;; mret None
      end
    else mret None.

Definition binder_inc_node (node : nat) (strong internal : bool)
    (target_list : option worklist) : kernel (option errno) :=
  binder_inc_node_nilocked node strong internal target_list.

Definition binder_dec_node_nilocked (node : nat) (strong internal : bool) : kernel bool :=
  n0 ← get_node node;
  let proc := node_proc n0 in
  (if strong then
     if internal
     then upd_node node (λ n, set_internal_strong_refs (internal_strong_refs n - 1) n)
     else upd_node node (λ n, set_local_strong_refs (local_strong_refs n - 1) n)
   else
     if negb internal
     then upd_node node (λ n, set_local_weak_refs (local_weak_refs n - 1) n)
     else mret tt);;
  n ← get_node node;
  if (if strong
      then bool_decide (local_strong_refs n ≠ 0) || bool_decide (internal_strong_refs n ≠ 0)
      else bool_decide (local_weak_refs n ≠ 0) || bool_decide (tmp_refs n ≠ 0)
           || bool_decide (node_refs n ≠ []))
  then mret false
  else
    match proc with
    | Some p =>
        if has_strong_ref n || has_weak_ref n then
          unlinked ← list_empty_entry (W_node node);
          (if unlinked : bool then
             binder_enqueue_work_ilocked (W_node node) (proc_todo p);;
             wake_up_interruptible (proc_todo p)
           else mret tt);;
          mret false
        else if bool_decide (node_refs n = []) && bool_decide (local_strong_refs n = 0)
                && bool_decide (local_weak_refs n = 0) && bool_decide (tmp_refs n = 0)
        then
          binder_dequeue_work_ilocked (W_node node);;
          upd_proc p (λ x, set_proc_nodes (rb_erase node (proc_nodes x)) x);;
          mret true
        else mret false
    | None =>
        if bool_decide (node_refs n = []) && bool_decide (local_strong_refs n = 0)
           && bool_decide (local_weak_refs n = 0) && bool_decide (tmp_refs n = 0)
        then
          unlinked ← list_empty_entry (W_node node);
          BUG_ON (negb unlinked);;
          modify (λ s, set_binder_dead_nodes (hlist_del node (binder_dead_nodes s)) s);;
          mret true
        else mret false
    end.

Definition binder_dec_node (node : nat) (strong internal : bool) : kernel unit :=
  free_node ← binder_dec_node_nilocked node strong internal;
  if free_node : bool then binder_free_node node else mret tt.

Definition binder_dec_node_tmpref (node : nat) : kernel unit :=
  upd_node node (λ n, set_tmp_refs (tmp_refs n - 1) n);;
  n ← get_node node;
  BUG_ON (bool_decide (tmp_refs n < 0));;
  free_node ← binder_dec_node_nilocked node false true;
  if free_node : bool then binder_free_node node else mret tt.

Definition binder_put_node (node : nat) : kernel unit := binder_dec_node_tmpref node.

(** ** References *)

Definition binder_get_ref (proc : nat) (desc : Z) (need_strong_ref : bool) : kernel (option nat) :=
  p ← get_proc proc;
  match rb_search desc (refs_by_desc p) with
  | None => mret None
  | Some ref =>
      r ← get_ref ref;
      if need_strong_ref && bool_decide (strong (ref_data r) = 0)
      then binder_user_error "tried to use weak ref as strong ref";; mret None
      else mret (Some ref)
  end.

(** The walk of [refs_by_desc] in key order that picks the handle of a
    new reference: the first gap at or after [desc]. *)
Fixpoint binder_first_free_desc (desc : Z) (tree : list (Z * nat)) : Z :=
  match tree with
  | [] => desc
  | (d, _) :: tree' =>
      if decide (d > desc) then desc else binder_first_free_desc (u32 (d + 1)) tree'
  end.

Definition zero_ref : binder_ref :=
  Build_binder_ref (Build_binder_ref_data 0 0 0 0) None None None.

Definition binder_get_ref_for_node (proc node : nat) (new_ref : option nat) : kernel (option nat) :=
  p ← get_proc proc;
  c ← get_context (context p);
  match refs_by_node p !! node with
  | Some ref => mret (Some ref)
  | None =>
      match new_ref with
      | None => mret None
      | Some new_ref =>
          id ← binder_next_id;
          let start := if bool_decide (Some node = binder_context_mgr_node c) then 0 else 1 in
          let new_desc := binder_first_free_desc start (refs_by_desc p) in
          upd_ref new_ref (λ r,
            set_ref_node (Some node) (set_ref_proc (Some proc)
              (set_ref_data (set_desc new_desc (set_rd_debug_id id (ref_data r))) r)));;
          upd_proc proc (λ x, set_refs_by_node (<[node := new_ref]> (refs_by_node x)) x);;
          BUG_ON (bool_decide (is_Some (rb_search new_desc (refs_by_desc p))));;
          upd_proc proc (λ x, set_refs_by_desc (rb_insert new_desc new_ref (refs_by_desc x)) x);;
          upd_node node (λ n, set_node_refs (new_ref :: node_refs n) n);;
          mret (Some new_ref)
      end
  end.

Definition binder_cleanup_ref (ref : nat) : kernel unit :=
  r ← get_ref ref;
  match ref_proc r, ref_node r with
  | Some proc, Some node =>
      upd_proc proc (λ x, set_refs_by_desc (rb_erase ref (refs_by_desc x)) x);;
      upd_proc proc (λ x, set_refs_by_node (delete node (refs_by_node x)) x);;
      (if bool_decide (strong (ref_data r) ≠ 0)
       then binder_dec_node_nilocked node true true;; mret tt
       else mret tt);;
      upd_node node (λ n, set_node_refs (hlist_del ref (node_refs n)) n);;
      delete_node ← binder_dec_node_nilocked node false true;
      (if delete_node : bool then mret tt else upd_ref ref (set_ref_node None));;
      match ref_death r with
      | Some death => binder_dequeue_work proc (W_death death)
      | None => mret tt
      end
  | _, _ => oops
  end.

Definition binder_inc_ref (ref : nat) (is_strong : bool) (target_list : option worklist)
    : kernel (option errno) :=
  r ← get_ref ref;
  node ← (match ref_node r with Some n => mret n | None => oops end);
  if is_strong then
    ret ← (if bool_decide (strong (ref_data r) = 0)
           then binder_inc_node node true true target_list else mret None);
    match ret with
    | Some e => mret (Some e)
    | None =>
        upd_ref ref (λ r,
          set_ref_data (set_strong (s32 (strong (ref_data r) + 1)) (ref_data r)) r);;
        mret None
    end
  else
    ret ← (if bool_decide (weak (ref_data r) = 0)
           then binder_inc_node node false true target_list else mret None);
    match ret with
    | Some e => mret (Some e)
    | None =>
        upd_ref ref (λ r,
          set_ref_data (set_weak (s32 (weak (ref_data r) + 1)) (ref_data r)) r);;
        mret None
    end.

Definition binder_dec_ref (ref : nat) (is_strong : bool) : kernel bool :=
  r ← get_ref ref;
  bad ← (if is_strong then
           if bool_decide (strong (ref_data r) = 0)
           then binder_user_error "invalid dec strong";; mret true
           else
             upd_ref ref (λ r, set_ref_data (set_strong (strong (ref_data r) - 1) (ref_data r)) r);;
             (if bool_decide (strong (ref_data r) - 1 = 0)
              then match ref_node r with
                   | Some node => binder_dec_node node true true
                   | None => oops
                   end
              else mret tt);;
             mret false
         else
           if bool_decide (weak (ref_data r) = 0)
           then binder_user_error "invalid dec weak";; mret true
           else
             upd_ref ref (λ r, set_ref_data (set_weak (weak (ref_data r) - 1) (ref_data r)) r);;
             mret false);
  if bad : bool then mret false
  else
    r ← get_ref ref;
    if bool_decide (strong (ref_data r) = 0) && bool_decide (weak (ref_data r) = 0)
    then binder_cleanup_ref ref;; mret true
    else mret false.

Definition binder_get_node_from_ref (proc : nat) (desc : Z) (need_strong_ref : bool)
    : kernel (option (nat * binder_ref_data)) :=
  ref ← binder_get_ref proc desc need_strong_ref;
  match ref with
  | None => mret None
  | Some ref =>
      r ← get_ref ref;
      match ref_node r with
      | None => oops
      | Some node => binder_inc_node_tmpref node;; mret (Some (node, ref_data r))
      end
  end.

Definition binder_free_ref (ref : nat) : kernel unit :=
  r ← get_ref ref;
  (match ref_node r with Some node => binder_free_node node | None => mret tt end);;
  (match ref_death r with Some death => kfree_death death | None => mret tt end);;
  kfree_ref ref.

(** The second component is what is left in [*rdata]: nothing when the
    function never wrote it. *)
Definition binder_update_ref_for_handle (proc : nat) (desc : Z) (increment is_strong : bool)
    : kernel (option errno * option binder_ref_data) :=
  ref ← binder_get_ref proc desc is_strong;
  match ref with
  | None => mret (Some EINVAL, None)
  | Some ref =>
      '(ret, delete_ref) ←
        (if increment
         then ret ← binder_inc_ref ref is_strong None; mret (ret, false)
         else delete_ref ← binder_dec_ref ref is_strong; mret (None, delete_ref));
      r ← get_ref ref;
      (if delete_ref : bool then binder_free_ref ref else mret tt);;
      mret (ret, Some (ref_data r))
  end.

Definition binder_dec_ref_for_handle (proc : nat) (desc : Z) (is_strong : bool)
    : kernel (option errno * option binder_ref_data) :=
  binder_update_ref_for_handle proc desc false is_strong.

Definition kzalloc_ref : kernel (option nat) :=
  a ← kzalloc;
  match a with
  | Some p => put_ref p zero_ref;; mret (Some p)
  | None => mret None
  end.

Definition binder_inc_ref_for_node (proc node : nat) (is_strong : bool)
    (target_list : option worklist) : kernel (option errno * option binder_ref_data) :=
  ref ← binder_get_ref_for_node proc node None;
  r ← (match ref with
       | Some ref => mret (Some (ref, None))
       | None =>
           new_ref ← kzalloc_ref;
           match new_ref with
           | None => mret None
           | Some new_ref =>
               ref ← binder_get_ref_for_node proc node (Some new_ref);
               match ref with
               | Some ref => mret (Some (ref, Some new_ref))
               | None => oops
               end
           end
       end);
  match r with
  | None => mret (Some ENOMEM, None)
  | Some (ref, new_ref) =>
      ret ← binder_inc_ref ref is_strong target_list;
      x ← get_ref ref;
      (match new_ref with
       | Some new_ref => if bool_decide (ref ≠ new_ref) then kfree_ref new_ref else mret tt
       | None => mret tt
       end);;
      mret (ret, Some (ref_data x))
  end.

(** ** Threads, processes and transactions kept alive *)

Definition binder_pop_transaction (target_thread : option nat) (t : nat) : kernel unit :=
  match target_thread with
  | None => oops
  | Some target_thread =>
      th ← get_thread target_thread;
      BUG_ON (bool_decide (transaction_stack th ≠ Some t));;
      x ← get_transaction t;
      BUG_ON (bool_decide (t_from x ≠ Some target_thread));;
      upd_thread target_thread (set_transaction_stack (t_from_parent x));;
      upd_transaction t (set_t_from None)
  end.

(** Modelled from the spec: [binder_alloc_deferred_release] of
    [binder_alloc.c], which gives back every buffer of the process. *)
Definition binder_alloc_deferred_release (proc : nat) : kernel unit :=
  p ← get_proc proc;
  modify (λ s, set_st_buffers (foldr delete (st_buffers s) (alloc_buffers p)) s);;
  upd_proc proc (set_alloc_buffers []).

Definition binder_free_proc (proc : nat) : kernel unit :=
  p ← get_proc proc;
  BUG_ON (bool_decide (proc_todo_list p ≠ []));;
  BUG_ON (bool_decide (delivered_death p ≠ []));;
  binder_alloc_deferred_release proc;;
  kfree_proc proc.

Definition binder_proc_dec_tmpref (proc : nat) : kernel unit :=
  upd_proc proc (λ p, set_proc_tmp_ref (proc_tmp_ref p - 1) p);;
  p ← get_proc proc;
  if proc_is_dead p && bool_decide (proc_threads p = []) && bool_decide (proc_tmp_ref p = 0)
  then binder_free_proc proc
  else mret tt.

Definition binder_free_thread (thread : nat) : kernel unit :=
  th ← get_thread thread;
  BUG_ON (bool_decide (thread_todo_list th ≠ []));;
  binder_proc_dec_tmpref (thread_proc th);;
  kfree_thread thread.

Definition binder_thread_dec_tmpref (thread : nat) : kernel unit :=
  upd_thread thread (λ th, set_thread_tmp_ref (thread_tmp_ref th - 1) th);;
  th ← get_thread thread;
  if thread_is_dead th && bool_decide (thread_tmp_ref th = 0)
  then binder_free_thread thread
  else mret tt.

Definition binder_get_txn_from (t : nat) : kernel (option nat) :=
  x ← get_transaction t;
  match t_from x with
  | Some from =>
      upd_thread from (λ th, set_thread_tmp_ref (thread_tmp_ref th + 1) th);;
      mret (Some from)
  | None => mret None
  end.

Definition binder_free_transaction (t : nat) : kernel unit :=
  x ← get_transaction t;
  (match t_buffer x with
   | Some b => upd_buffer b (set_b_transaction None)
   | None => mret tt
   end);;
  kfree_transaction t.

(** The [while (1)] of [binder_send_failed_reply]; every turn frees the
    transaction it looked at. *)
Fixpoint binder_send_failed_reply_loop (fuel : nat) (t : nat)
    (error_code : binder_driver_return_protocol) : kernel unit :=
  match fuel with
  | O => out_of_fuel
  | S fuel =>
      target_thread ← binder_get_txn_from t;
      match target_thread with
      | Some target_thread =>
          binder_pop_transaction (Some target_thread) t;;
          th ← get_thread target_thread;
          (if bool_decide (err_cmd (reply_error th) = BR_OK) then
             upd_thread target_thread (λ th,
               set_reply_error (set_err_cmd error_code (reply_error th)) th);;
             binder_enqueue_work (thread_proc th) (W_reply_error target_thread)
               (thread_todo target_thread);;
             wake_up_interruptible (thread_todo target_thread)
           else mret tt);;
          binder_thread_dec_tmpref target_thread;;
          binder_free_transaction t
      | None =>
          x ← get_transaction t;
          let next := t_from_parent x in
          binder_free_transaction t;;
          match next with
          | None => mret tt
          | Some next => binder_send_failed_reply_loop fuel next error_code
          end
      end
  end.

Definition binder_send_failed_reply (t : nat) (error_code : binder_driver_return_protocol)
    : kernel unit :=
  x ← get_transaction t;
  BUG_ON (bool_decide (Z.land (t_flags x) TF_ONE_WAY ≠ 0));;
  s ← get_state;
  binder_send_failed_reply_loop (S (size (st_transactions s))) t error_code.

(** ** The objects of a payload *)

Definition IS_ALIGNED (x a : Z) : bool := bool_decide (x mod a = 0).
Definition ALIGN (x a : Z) : Z := (x + a - 1) / a * a.

Definition sizeof_void_p : Z := 8.
Definition sizeof_u32 : Z := 4.
Definition sizeof_u64 : Z := 8.
Definition sizeof_binder_size_t : Z := 8.
Definition sizeof_binder_uintptr_t : Z := 8.
Definition SIZE_MAX : Z := 2 ^ 64 - 1.

(** [hdr->type], read at an offset of the data area. *)
Definition object_at (buffer : binder_buffer) (offset : Z) : binder_object :=
  default (Obj_unknown 0) (b_objects buffer !! offset).

Definition binder_validate_object (buffer : binder_buffer) (offset : Z) : Z :=
  if bool_decide (offset > u64 (b_data_size buffer - sizeof_binder_object_header))
     || bool_decide (b_data_size buffer < sizeof_binder_object_header)
     || negb (IS_ALIGNED offset sizeof_u32)
  then 0
  else
    match
      match object_at buffer offset with
      | Obj_flat _ => Some sizeof_flat_binder_object
      | Obj_fd _ => Some sizeof_binder_fd_object
      | Obj_ptr _ => Some sizeof_binder_buffer_object
      | Obj_fda _ => Some sizeof_binder_fd_array_object
      | Obj_unknown _ => None
      end
    with
    | None => 0
    | Some object_size =>
        if bool_decide (offset ≤ u64 (b_data_size buffer - object_size))
           && bool_decide (object_size ≤ b_data_size buffer)
        then object_size
        else 0
    end.

(** A [struct binder_buffer_object *] into the data area is the offset it
    points at; [start + index] is a lookup in the offsets array, and a
    read past the array finds nothing of type PTR. *)
Definition buffer_object_at (b : binder_buffer) (offset : Z) : option binder_buffer_object :=
  match object_at b offset with Obj_ptr bp => Some bp | _ => None end.

Definition binder_validate_ptr (b : binder_buffer) (index : Z) (num_valid : Z) : option Z :=
  if bool_decide (num_valid ≤ index) then None
  else
    match b_offsets b !! Z.to_nat index with
    | None => None
    | Some offp =>
        match buffer_object_at b offp with
        | Some _ => Some offp
        | None => None
        end
    end.

(** The [while (last_obj != buffer)] of [binder_validate_fixup].  The third
    outcome, [None], is a walk that leaves the verified objects or does
    not end within the budget. *)
Fixpoint binder_validate_fixup_loop (fuel : nat) (b : binder_buffer) (buffer : Z)
    (fixup_offset : Z) (last_obj : Z) (last_min_offset : Z) : option bool :=
  if decide (last_obj = buffer) then Some (bool_decide (last_min_offset ≤ fixup_offset))
  else
    match fuel with
    | O => None
    | S fuel =>
        match buffer_object_at b last_obj with
        | None => None
        | Some lo =>
            if bool_decide (Z.land (bbo_flags lo) BINDER_BUFFER_FLAG_HAS_PARENT = 0)
            then Some false
            else
              match b_offsets b !! Z.to_nat (bbo_parent lo) with
              | None => None
              | Some parent =>
                  binder_validate_fixup_loop fuel b buffer fixup_offset parent
                    (u64 (bbo_parent_offset lo + sizeof_void_p))
              end
        end
    end.

Definition binder_validate_fixup (b : binder_buffer) (buffer : Z) (fixup_offset : Z)
    (last_obj : option Z) (last_min_offset : Z) : option bool :=
  match last_obj with
  | None => Some false
  | Some last_obj =>
      binder_validate_fixup_loop (length (b_offsets b)) b buffer fixup_offset
        last_obj last_min_offset
  end.

(** ** The file table, [fs/file.c] *)

Definition task_get_unused_fd_flags (proc : nat) : kernel (errno + Z) :=
  p ← get_proc proc;
  match files p with
  | None => mret (inl ESRCH)
  | Some fs =>
      s ← get_state;
      match __alloc_fd (default ∅ (st_fds s !! fs)) with
      | Some fd => mret (inr fd)
      | None => mret (inl EMFILE)
      end
  end.

Definition task_fd_install (proc : nat) (fd : Z) (file : nat) : kernel unit :=
  p ← get_proc proc;
  match files p with
  | None => mret tt
  | Some fs =>
      modify (λ s, set_st_fds (<[fs := <[fd := file]> (default ∅ (st_fds s !! fs))]> (st_fds s)) s)
  end.

Definition task_close_fd (proc : nat) (fd : Z) : kernel unit :=
  p ← get_proc proc;
  match files p with
  | None => mret tt
  | Some fs =>
      modify (λ s, set_st_fds (<[fs := delete fd (default ∅ (st_fds s !! fs))]> (st_fds s)) s)
  end.

(** ** Memory of the extra-buffers area: little-endian words over bytes *)

Definition load_byte (m : gmap Z Z) (a : Z) : Z := default 0 (m !! a).

Fixpoint load_bytes (n : nat) (m : gmap Z Z) (a : Z) : Z :=
  match n with
  | O => 0
  | S n => load_byte m a + 2 ^ 8 * load_bytes n m (a + 1)
  end.

Fixpoint store_bytes (n : nat) (a : Z) (v : Z) (m : gmap Z Z) : gmap Z Z :=
  match n with
  | O => m
  | S n => store_bytes n (a + 1) (v / 2 ^ 8) (<[a := v mod 2 ^ 8]> m)
  end.

Fixpoint store_list (a : Z) (l : list Z) (m : gmap Z Z) : gmap Z Z :=
  match l with
  | [] => m
  | x :: l => store_list (a + 1) l (<[a := x mod 2 ^ 8]> m)
  end.

Definition load_u32 := load_bytes 4.
Definition store_u32 := store_bytes 4.
Definition store_u64 := store_bytes 8.

(** ** The buffer allocator, [binder_alloc.c] *)

(** Modelled from the spec: [binder_alloc_new_buf] of [binder_alloc.c],
    which reserves a sized region of the mapping of the process or fails.
    A new buffer holds no transaction, no target node, and may not yet be
    freed by the user. *)
Definition binder_alloc_new_buf (proc : nat) (data_size offsets_size extra_buffers_size : Z)
    (is_async : bool) : kernel (errno + nat) :=
  s ← get_state;
  let buffer := st_brk s in
  match binder_alloc_reserve proc data_size offsets_size extra_buffers_size is_async with
  | inl e => mret (inl e)
  | inr data =>
      modify (set_st_brk (S buffer));;
      put_buffer buffer
        {| b_data := data; b_data_size := data_size; b_offsets_size := offsets_size;
           allow_user_free := false; async_transaction := is_async; b_debug_id := 0;
           b_transaction := None; b_target_node := None;
           b_objects := ∅; b_offsets := []; b_sg := ∅ |};;
      upd_proc proc (λ p, set_alloc_buffers (buffer :: alloc_buffers p) p);;
      mret (inr buffer)
  end.

(** Modelled from the spec: [binder_alloc_free_buf] of [binder_alloc.c],
    which gives the region back. *)
Definition binder_alloc_free_buf (proc : nat) (buffer : nat) : kernel unit :=
  upd_proc proc (λ p, set_alloc_buffers (hlist_del buffer (alloc_buffers p)) p);;
  modify (λ s, set_st_buffers (delete buffer (st_buffers s)) s).

(** Modelled from the spec: [binder_alloc_get_user_buffer_offset] of
    [binder_alloc.h], the distance between the two mappings. *)
Definition binder_alloc_get_user_buffer_offset (proc : nat) : kernel Z :=
  p ← get_proc proc; mret (user_buffer_offset p).

Fixpoint find_buffer (heap : gmap nat binder_buffer) (data : Z) (l : list nat) : option nat :=
  match l with
  | [] => None
  | b :: l =>
      match heap !! b with
      | Some x => if decide (b_data x = data) then Some b else find_buffer heap data l
      | None => find_buffer heap data l
      end
  end.

(** Modelled from the spec: [binder_alloc_prepare_to_free] of
    [binder_alloc.c], which finds the buffer of the process whose data
    area the user pointer names. *)
Definition binder_alloc_prepare_to_free (proc : nat) (user_ptr : Z) : kernel (option nat) :=
  p ← get_proc proc;
  s ← get_state;
  mret (find_buffer (st_buffers s) (u64 (user_ptr - user_buffer_offset p)) (alloc_buffers p)).

(** ** Undoing and doing the translation of payload objects *)

Definition fbo_handle (fp : flat_binder_object) : Z := u32 (fbo_binder fp).

Fixpoint close_fd_array (proc : nat) (m : gmap Z Z) (fd_array : Z) (n : nat) : kernel unit :=
  match n with
  | O => mret tt
  | S n =>
      close_fd_array proc m fd_array n;;
      task_close_fd proc (load_u32 m (u64 (fd_array + sizeof_u32 * Z.of_nat n)))
  end.

(** One turn of the [for] of [binder_transaction_buffer_release], at
    index [offp - off_start] of the offsets array. *)
Definition binder_transaction_buffer_release_object (proc : nat) (buffer : nat)
    (failed_at : bool) (index : nat) : kernel unit :=
  b ← get_buffer buffer;
  match b_offsets b !! index with
  | None => oops
  | Some offp =>
      let object_size := binder_validate_object b offp in
      if bool_decide (object_size = 0) then pr_err "transaction release bad object"
      else
        match object_at b offp with
        | Obj_flat fp =>
            match fbo_type fp with
            | BINDER_TYPE_BINDER | BINDER_TYPE_WEAK_BINDER =>
                node ← binder_get_node proc (fbo_binder fp);
                match node with
                | None => pr_err "transaction release bad node"
                | Some node =>
                    binder_dec_node node (bool_decide (fbo_type fp = BINDER_TYPE_BINDER)) false;;
                    binder_put_node node
                end
            | BINDER_TYPE_HANDLE | BINDER_TYPE_WEAK_HANDLE =>
                '(ret, _) ← binder_dec_ref_for_handle proc (fbo_handle fp)
                              (bool_decide (fbo_type fp = BINDER_TYPE_HANDLE));
                match ret with
                | Some _ => pr_err "transaction release bad handle"
                | None => mret tt
                end
            end
        | Obj_fd fp =>
            if failed_at then task_close_fd proc (u32 (fdo_fd fp)) else mret tt
        | Obj_ptr _ => mret tt
        | Obj_fda fda =>
            match binder_validate_ptr b (fda_parent fda) (Z.of_nat index) with
            | None => pr_err "transaction release bad parent offset"
            | Some parent =>
                match buffer_object_at b parent with
                | None => oops
                | Some parent =>
                    offset ← binder_alloc_get_user_buffer_offset proc;
                    let parent_buffer := u64 (bbo_buffer parent - offset) in
                    let fd_buf_size := u64 (sizeof_u32 * fda_num_fds fda) in
                    if bool_decide (SIZE_MAX / sizeof_u32 ≤ fda_num_fds fda)
                    then pr_err "transaction release invalid number of fds"
                    else if bool_decide (fd_buf_size > bbo_length parent)
                            || bool_decide (fda_parent_offset fda > u64 (bbo_length parent - fd_buf_size))
                    then pr_err "transaction release not enough space for fds in buffer"
                    else
                      close_fd_array proc (b_sg b) (u64 (parent_buffer + fda_parent_offset fda))
                        (Z.to_nat (fda_num_fds fda))
                end
            end
        | Obj_unknown _ => pr_err "transaction release bad object type"
        end
  end.

Fixpoint binder_transaction_buffer_release_loop (proc buffer : nat) (failed_at : bool)
    (n : nat) : kernel unit :=
  match n with
  | O => mret tt
  | S n =>
      binder_transaction_buffer_release_loop proc buffer failed_at n;;
      binder_transaction_buffer_release_object proc buffer failed_at n
  end.

(** [failed_at] is the index [failed_at - off_start] when the pointer is not
    NULL; with NULL the walk ends at [off_start + buffer->offsets_size]. *)
Definition binder_transaction_buffer_release (proc buffer : nat) (failed_at : option nat)
    : kernel unit :=
  b ← get_buffer buffer;
  (match b_target_node b with
   | Some node => binder_dec_node node true false
   | None => mret tt
   end);;
  let off_end :=
    match failed_at with
    | Some i => i
    | None => Z.to_nat ((b_offsets_size b + sizeof_binder_size_t - 1) / sizeof_binder_size_t)
    end in
  binder_transaction_buffer_release_loop proc buffer (bool_decide (is_Some failed_at)) off_end.

Definition deref_opt {A} (p : option A) : kernel A :=
  match p with Some x => mret x | None => oops end.

Definition binder_translate_binder (fp : flat_binder_object) (t thread : nat)
    : kernel (option errno * flat_binder_object) :=
  th ← get_thread thread;
  let proc := thread_proc th in
  x ← get_transaction t;
  target_proc ← deref_opt (t_to_proc x);
  found ← binder_get_node proc (fbo_binder fp);
  node ← (match found with
          | Some node => mret (Some node)
          | None => binder_new_node proc (Some fp)
          end);
  match node with
  | None => mret (Some ENOMEM, fp)
  | Some node =>
      n ← get_node node;
      p ← get_proc proc;
      tp ← get_proc target_proc;
      r ← (if bool_decide (fbo_cookie fp ≠ node_cookie n) then
             binder_user_error "sending node, cookie mismatch";;
             mret (Some EINVAL, fp)
           else if bool_decide (is_Some (security_binder_transfer_binder (tsk p) (tsk tp))) then
             mret (Some EPERM, fp)
           else
             '(ret, rdata) ← binder_inc_ref_for_node target_proc node
                               (bool_decide (fbo_type fp = BINDER_TYPE_BINDER))
                               (Some (thread_todo thread));
             match ret, rdata with
             | Some e, _ => mret (Some e, fp)
             | None, None => oops
             | None, Some rdata =>
                 mret (None,
                       set_fbo_cookie 0
                         (set_fbo_binder (desc rdata)
                            (set_fbo_type
                               (if bool_decide (fbo_type fp = BINDER_TYPE_BINDER)
                                then BINDER_TYPE_HANDLE else BINDER_TYPE_WEAK_HANDLE) fp)))
             end);
      binder_put_node node;;
      mret r
  end.

(** In the branch for a node of another process the source declares a
    second [ret]; a failure of [binder_inc_ref_for_node] there leaves the
    outer [ret], which is what the function returns, at 0. *)
Definition binder_translate_handle (fp : flat_binder_object) (t thread : nat)
    : kernel (option errno * flat_binder_object) :=
  th ← get_thread thread;
  let proc := thread_proc th in
  x ← get_transaction t;
  target_proc ← deref_opt (t_to_proc x);
  found ← binder_get_node_from_ref proc (fbo_handle fp)
            (bool_decide (fbo_type fp = BINDER_TYPE_HANDLE));
  match found with
  | None =>
      binder_user_error "got transaction with invalid handle";;
      mret (Some EINVAL, fp)
  | Some (node, src_rdata) =>
      p ← get_proc proc;
      tp ← get_proc target_proc;
      r ← (if bool_decide (is_Some (security_binder_transfer_binder (tsk p) (tsk tp))) then
             mret (Some EPERM, fp)
           else
             n ← get_node node;
             if bool_decide (node_proc n = Some target_proc) then
               let fp' :=
                 set_fbo_cookie (node_cookie n)
                   (set_fbo_binder (node_ptr n)
                      (set_fbo_type
                         (if bool_decide (fbo_type fp = BINDER_TYPE_HANDLE)
                          then BINDER_TYPE_BINDER else BINDER_TYPE_WEAK_BINDER) fp)) in
               binder_inc_node_nilocked node
                 (bool_decide (fbo_type fp' = BINDER_TYPE_BINDER)) false None;;
               mret (None, fp')
             else
               '(ret, dest_rdata) ← binder_inc_ref_for_node target_proc node
                                      (bool_decide (fbo_type fp = BINDER_TYPE_HANDLE)) None;
               match ret, dest_rdata with
               | Some _, _ => mret (None, fp)
               | None, None => oops
               | None, Some dest_rdata =>
                   mret (None, set_fbo_cookie 0 (set_fbo_binder (desc dest_rdata) fp))
               end);
      binder_put_node node;;
      mret r
  end.

Definition binder_translate_fd (fd : Z) (t thread : nat) (in_reply_to : option nat)
    : kernel (errno + Z) :=
  th ← get_thread thread;
  let proc := thread_proc th in
  x ← get_transaction t;
  target_proc ← deref_opt (t_to_proc x);
  target_allows_fd ←
    (match in_reply_to with
     | Some in_reply_to =>
         irt ← get_transaction in_reply_to;
         mret (bool_decide (Z.land (t_flags irt) TF_ACCEPT_FDS ≠ 0))
     | None =>
         buffer ← deref_opt (t_buffer x);
         b ← get_buffer buffer;
         target_node ← deref_opt (b_target_node b);
         n ← get_node target_node;
         mret (accept_fds n)
     end);
  if negb target_allows_fd then
    binder_user_error "got transaction or reply with fd, but target does not allow fds";;
    mret (inl EPERM)
  else
    p ← get_proc proc;
    tp ← get_proc target_proc;
    match fget (tsk p) fd with
    | None =>
        binder_user_error "got transaction with invalid fd";;
        mret (inl EBADF)
    | Some file =>
        if bool_decide (is_Some (security_binder_transfer_file (tsk p) (tsk tp) file))
        then mret (inl EPERM)
        else
          target_fd ← task_get_unused_fd_flags target_proc;
          match target_fd with
          | inl _ => mret (inl ENOMEM)
          | inr target_fd =>
              task_fd_install target_proc target_fd file;;
              mret (inr target_fd)
          end
    end.

(** The [for] of [binder_translate_fd_array]: the result is the error of
    the first fd that does not translate, with the count of fds installed
    before it. *)
Fixpoint binder_translate_fd_array_loop (buffer : nat) (fd_array : Z) (t thread : nat)
    (in_reply_to : option nat) (fdi : Z) (n : nat) : kernel (option (errno * Z)) :=
  match n with
  | O => mret None
  | S n =>
      b ← get_buffer buffer;
      let slot := u64 (fd_array + sizeof_u32 * fdi) in
      target_fd ← binder_translate_fd (s32 (load_u32 (b_sg b) slot)) t thread in_reply_to;
      match target_fd with
      | inl e => mret (Some (e, fdi))
      | inr target_fd =>
          upd_buffer buffer (λ b, set_b_sg (store_u32 slot (u32 target_fd) (b_sg b)) b);;
          binder_translate_fd_array_loop buffer fd_array t thread in_reply_to (fdi + 1) n
      end
  end.

Definition binder_translate_fd_array (fda : binder_fd_array_object)
    (parent : binder_buffer_object) (t thread : nat) (in_reply_to : option nat)
    : kernel (option errno) :=
  th ← get_thread thread;
  x ← get_transaction t;
  target_proc ← deref_opt (t_to_proc x);
  buffer ← deref_opt (t_buffer x);
  let fd_buf_size := u64 (sizeof_u32 * fda_num_fds fda) in
  if bool_decide (SIZE_MAX / sizeof_u32 ≤ fda_num_fds fda) then
    binder_user_error "got transaction with invalid number of fds";;
    mret (Some EINVAL)
  else if bool_decide (fd_buf_size > bbo_length parent)
          || bool_decide (fda_parent_offset fda > u64 (bbo_length parent - fd_buf_size)) then
    binder_user_error "not enough space to store fds in buffer";;
    mret (Some EINVAL)
  else
    offset ← binder_alloc_get_user_buffer_offset target_proc;
    let parent_buffer := u64 (bbo_buffer parent - offset) in
    let fd_array := u64 (parent_buffer + fda_parent_offset fda) in
    if negb (IS_ALIGNED fd_array sizeof_u32) then
      binder_user_error "parent offset not aligned correctly.";;
      mret (Some EINVAL)
    else
      r ← binder_translate_fd_array_loop buffer fd_array t thread in_reply_to 0
            (Z.to_nat (fda_num_fds fda));
      match r with
      | None => mret None
      | Some (e, num_installed_fds) =>
          b ← get_buffer buffer;
          close_fd_array target_proc (b_sg b) fd_array (Z.to_nat num_installed_fds);;
          mret (Some e)
      end.

Definition binder_fixup_parent (t thread : nat) (bp : binder_buffer_object)
    (num_valid : Z) (last_fixup_obj : option Z) (last_fixup_min_off : Z)
    : kernel (option errno) :=
  x ← get_transaction t;
  buffer ← deref_opt (t_buffer x);
  target_proc ← deref_opt (t_to_proc x);
  b ← get_buffer buffer;
  if bool_decide (Z.land (bbo_flags bp) BINDER_BUFFER_FLAG_HAS_PARENT = 0) then mret None
  else
    match binder_validate_ptr b (bbo_parent bp) num_valid with
    | None =>
        binder_user_error "got transaction with invalid parent offset or type";;
        mret (Some EINVAL)
    | Some parent_at =>
        parent ← deref_opt (buffer_object_at b parent_at);
        match binder_validate_fixup b parent_at (bbo_parent_offset bp)
                last_fixup_obj last_fixup_min_off with
        | None => out_of_fuel
        | Some false =>
            binder_user_error "got transaction with out-of-order buffer fixup";;
            mret (Some EINVAL)
        | Some true =>
            if bool_decide (bbo_length parent < sizeof_binder_uintptr_t)
               || bool_decide (bbo_parent_offset bp > u64 (bbo_length parent - sizeof_binder_uintptr_t))
            then
              binder_user_error "got transaction with invalid parent offset";;
              mret (Some EINVAL)
            else
              offset ← binder_alloc_get_user_buffer_offset target_proc;
              let parent_buffer := u64 (bbo_buffer parent - offset) in
              upd_buffer buffer (λ b,
                set_b_sg (store_u64 (u64 (parent_buffer + bbo_parent_offset bp)) (bbo_buffer bp)
                            (b_sg b)) b);;
              mret None
        end
    end.

(** ** [binder_transaction] *)

Definition one_way (flags : Z) : bool := bool_decide (Z.land flags TF_ONE_WAY ≠ 0).

(** [copy_from_user] of an array of [n] words of [width] bytes each. *)
Fixpoint copy_words_from_user (read : Z → option Z) (width : Z) (ptr : Z) (n : nat)
    : option (list Z) :=
  match n with
  | O => Some []
  | S n =>
      match read ptr, copy_words_from_user read width (ptr + width) n with
      | Some x, Some l => Some (x :: l)
      | _, _ => None
      end
  end.

(** The locals of [binder_transaction] that the error labels look at. *)
Record binder_transaction_targets : Type := Build_binder_transaction_targets {
  in_reply_to : option nat;
  target_thread : option nat;
  target_proc : option nat;
  target_node : option nat
}.

Definition set_in_reply_to (v : option nat) (x : binder_transaction_targets) : binder_transaction_targets :=
  Build_binder_transaction_targets v (target_thread x) (target_proc x) (target_node x).
Definition set_target_thread (v : option nat) (x : binder_transaction_targets) : binder_transaction_targets :=
  Build_binder_transaction_targets (in_reply_to x) v (target_proc x) (target_node x).
Definition set_target_proc (v : option nat) (x : binder_transaction_targets) : binder_transaction_targets :=
  Build_binder_transaction_targets (in_reply_to x) (target_thread x) v (target_node x).
Definition set_target_node (v : option nat) (x : binder_transaction_targets) : binder_transaction_targets :=
  Build_binder_transaction_targets (in_reply_to x) (target_thread x) (target_proc x) v.

Definition no_targets : binder_transaction_targets :=
  Build_binder_transaction_targets None None None None.

(** The locals of the translation loop that one turn hands to the next. *)
Record binder_fixup_cursor : Type := Build_binder_fixup_cursor {
  off_min : Z;
  last_fixup_obj : option Z;
  last_fixup_min_off : Z;
  sg_bufp : Z
}.

Definition set_off_min (v : Z) (x : binder_fixup_cursor) : binder_fixup_cursor :=
  Build_binder_fixup_cursor v (last_fixup_obj x) (last_fixup_min_off x) (sg_bufp x).
Definition set_last_fixup_obj (v : option Z) (x : binder_fixup_cursor) : binder_fixup_cursor :=
  Build_binder_fixup_cursor (off_min x) v (last_fixup_min_off x) (sg_bufp x).
Definition set_last_fixup_min_off (v : Z) (x : binder_fixup_cursor) : binder_fixup_cursor :=
  Build_binder_fixup_cursor (off_min x) (last_fixup_obj x) v (sg_bufp x).
Definition set_sg_bufp (v : Z) (x : binder_fixup_cursor) : binder_fixup_cursor :=
  Build_binder_fixup_cursor (off_min x) (last_fixup_obj x) (last_fixup_min_off x) v.

Definition binder_failure : Type := binder_driver_return_protocol * option errno.

(** The labels [err_alloc_t_failed] to [err_no_context_mgr_node], and the
    rest of the function below them. *)
Definition binder_transaction_failed (thread : nat) (tg : binder_transaction_targets)
    (err : binder_failure) : kernel unit :=
  (match target_thread tg with
   | Some target_thread => binder_thread_dec_tmpref target_thread
   | None => mret tt
   end);;
  (match target_proc tg with
   | Some target_proc => binder_proc_dec_tmpref target_proc
   | None => mret tt
   end);;
  (match target_node tg with
   | Some target_node => binder_dec_node target_node true false
   | None => mret tt
   end);;
  modify (λ s, set_binder_transaction_log_failed (binder_transaction_log_failed s ++ [err]) s);;
  th ← get_thread thread;
  BUG_ON (bool_decide (err_cmd (return_error th) ≠ BR_OK));;
  match in_reply_to tg with
  | Some in_reply_to =>
      upd_thread thread (λ th,
        set_return_error (set_err_cmd BR_TRANSACTION_COMPLETE (return_error th)) th);;
      binder_enqueue_work (thread_proc th) (W_return_error thread) (thread_todo thread);;
      binder_send_failed_reply in_reply_to (fst err)
  | None =>
      upd_thread thread (λ th, set_return_error (set_err_cmd (fst err) (return_error th)) th);;
      binder_enqueue_work (thread_proc th) (W_return_error thread) (thread_todo thread)
  end.

(** The labels [err_translate_failed] to [err_copy_data_failed], then the
    labels below them. *)
Definition binder_transaction_failed_buffer (thread : nat) (tg : binder_transaction_targets)
    (t tcomplete buffer : nat) (offp : nat) (err : binder_failure) : kernel unit :=
  target_proc ← deref_opt (target_proc tg);
  binder_transaction_buffer_release target_proc buffer (Some offp);;
  upd_buffer buffer (set_b_transaction None);;
  binder_alloc_free_buf target_proc buffer;;
  kfree_tcomplete tcomplete;;
  kfree_transaction t;;
  binder_transaction_failed thread (set_target_node None tg) err.

(** [if (reply)]: the target of a reply. *)
Definition binder_transaction_reply_target (thread : nat)
    : kernel (binder_failure * binder_transaction_targets + binder_transaction_targets) :=
  th ← get_thread thread;
  match transaction_stack th with
  | None =>
      binder_user_error "got reply transaction with no transaction stack";;
      mret (inl ((BR_FAILED_REPLY, Some EPROTO), no_targets))
  | Some in_reply_to =>
      irt ← get_transaction in_reply_to;
      binder_set_nice (t_saved_priority irt);;
      if bool_decide (t_to_thread irt ≠ Some thread) then
        binder_user_error "got reply transaction with bad transaction stack";;
        mret (inl ((BR_FAILED_REPLY, Some EPROTO), no_targets))
      else
        upd_thread thread (set_transaction_stack (t_to_parent irt));;
        target_thread ← binder_get_txn_from in_reply_to;
        match target_thread with
        | None =>
            mret (inl ((BR_DEAD_REPLY, None), set_in_reply_to (Some in_reply_to) no_targets))
        | Some target_thread =>
            tth ← get_thread target_thread;
            if bool_decide (transaction_stack tth ≠ Some in_reply_to) then
              binder_user_error "got reply transaction with bad target transaction stack";;
              mret (inl ((BR_FAILED_REPLY, Some EPROTO), no_targets))
            else
              let target_proc := thread_proc tth in
              upd_proc target_proc (λ p, set_proc_tmp_ref (proc_tmp_ref p + 1) p);;
              mret (inr (Build_binder_transaction_targets
                           (Some in_reply_to) (Some target_thread) (Some target_proc) None))
        end
  end.

(** The [while (tmp)] that looks down the stack of the caller for a thread
    of the target process. *)
Fixpoint binder_transaction_find_thread (fuel : nat) (tmp : option nat) (target_proc : nat)
    : kernel (option nat) :=
  match tmp with
  | None => mret None
  | Some tmp =>
      match fuel with
      | O => out_of_fuel
      | S fuel =>
          x ← get_transaction tmp;
          found ← (match t_from x with
                   | Some from =>
                       fth ← get_thread from;
                       mret (if bool_decide (thread_proc fth = target_proc)
                             then Some from else None)
                   | None => mret None
                   end);
          match found with
          | Some from =>
              upd_thread from (λ th, set_thread_tmp_ref (thread_tmp_ref th + 1) th);;
              mret (Some from)
          | None => binder_transaction_find_thread fuel (t_from_parent x) target_proc
          end
      end
  end.

(** [else]: the target of a call. *)
Definition binder_transaction_call_target (proc thread : nat) (tr : binder_transaction_data)
    : kernel (binder_failure * binder_transaction_targets + binder_transaction_targets) :=
  p ← get_proc proc;
  r ← (if bool_decide (u32 (tr_target tr) ≠ 0) then
         ref ← binder_get_ref proc (u32 (tr_target tr)) true;
         match ref with
         | Some ref =>
             x ← get_ref ref;
             node ← deref_opt (ref_node x);
             binder_inc_node node true false None;;
             mret (inr node)
         | None =>
             binder_user_error "got transaction to invalid handle";;
             mret (inl (BR_FAILED_REPLY, Some EINVAL))
         end
       else
         c ← get_context (context p);
         match binder_context_mgr_node c with
         | None => mret (inl (BR_DEAD_REPLY, None))
         | Some node => binder_inc_node node true false None;; mret (inr node)
         end);
  match r with
  | inl err => mret (inl (err, no_targets))
  | inr target_node =>
      n ← get_node target_node;
      match node_proc n with
      | None =>
          mret (inl ((BR_DEAD_REPLY, None), set_target_node (Some target_node) no_targets))
      | Some target_proc =>
          let tg := Build_binder_transaction_targets None None (Some target_proc)
                      (Some target_node) in
          upd_proc target_proc (λ p, set_proc_tmp_ref (proc_tmp_ref p + 1) p);;
          tp ← get_proc target_proc;
          if bool_decide (is_Some (security_binder_transaction (tsk p) (tsk tp))) then
            mret (inl ((BR_FAILED_REPLY, Some EPERM), tg))
          else
            th ← get_thread thread;
            match transaction_stack th with
            | Some tmp =>
                if negb (one_way (tr_flags tr)) then
                  x ← get_transaction tmp;
                  if bool_decide (t_to_thread x ≠ Some thread) then
                    binder_user_error "got new transaction with bad transaction stack";;
                    mret (inl ((BR_FAILED_REPLY, Some EPROTO), tg))
                  else
                    s ← get_state;
                    target_thread ← binder_transaction_find_thread
                                      (S (size (st_transactions s))) (Some tmp) target_proc;
                    mret (inr (set_target_thread target_thread tg))
                else mret (inr tg)
            | None => mret (inr tg)
            end
      end
  end.

(** One turn of the [for (; offp < off_end; offp++)] of the translation,
    at index [offp - off_start]. *)
Definition binder_transaction_object (t thread buffer : nat) (in_reply_to : option nat)
    (sg_buf_end : Z) (index : nat) (c : binder_fixup_cursor)
    : kernel (binder_failure + binder_fixup_cursor) :=
  b ← get_buffer buffer;
  offp ← deref_opt (b_offsets b !! index);
  let object_size := binder_validate_object b offp in
  if bool_decide (object_size = 0) || bool_decide (offp < off_min c) then
    binder_user_error "got transaction with invalid offset or object.";;
    mret (inl (BR_FAILED_REPLY, Some EINVAL))
  else
    let c := set_off_min (u64 (offp + object_size)) c in
    match object_at b offp with
    | Obj_flat fp =>
        '(ret, fp') ←
          (match fbo_type fp with
           | BINDER_TYPE_BINDER | BINDER_TYPE_WEAK_BINDER => binder_translate_binder fp t thread
           | BINDER_TYPE_HANDLE | BINDER_TYPE_WEAK_HANDLE => binder_translate_handle fp t thread
           end);
        upd_buffer buffer (λ b, set_b_objects (<[offp := Obj_flat fp']> (b_objects b)) b);;
        match ret with
        | Some e => mret (inl (BR_FAILED_REPLY, Some e))
        | None => mret (inr c)
        end
    | Obj_fd fp =>
        target_fd ← binder_translate_fd (s32 (fdo_fd fp)) t thread in_reply_to;
        match target_fd with
        | inl e => mret (inl (BR_FAILED_REPLY, Some e))
        | inr target_fd =>
            upd_buffer buffer (λ b,
              set_b_objects (<[offp := Obj_fd (set_fdo_fd (u32 target_fd) fp)]> (b_objects b)) b);;
            mret (inr c)
        end
    | Obj_fda fda =>
        match binder_validate_ptr b (fda_parent fda) (Z.of_nat index) with
        | None =>
            binder_user_error "got transaction with invalid parent offset or type";;
            mret (inl (BR_FAILED_REPLY, Some EINVAL))
        | Some parent_at =>
            parent ← deref_opt (buffer_object_at b parent_at);
            match binder_validate_fixup b parent_at (fda_parent_offset fda)
                    (last_fixup_obj c) (last_fixup_min_off c) with
            | None => out_of_fuel
            | Some false =>
                binder_user_error "got transaction with out-of-order buffer fixup";;
                mret (inl (BR_FAILED_REPLY, Some EINVAL))
            | Some true =>
                ret ← binder_translate_fd_array fda parent t thread in_reply_to;
                match ret with
                | Some e => mret (inl (BR_FAILED_REPLY, Some e))
                | None =>
                    mret (inr (set_last_fixup_min_off
                                 (u64 (fda_parent_offset fda + sizeof_u32 * fda_num_fds fda))
                                 (set_last_fixup_obj (Some parent_at) c)))
                end
            end
        end
    | Obj_ptr bp =>
        let buf_left := u64 (sg_buf_end - sg_bufp c) in
        if bool_decide (bbo_length bp > buf_left) then
          binder_user_error "got transaction with too large buffer";;
          mret (inl (BR_FAILED_REPLY, Some EINVAL))
        else
          match copy_words_from_user get_user_u8 1 (bbo_buffer bp) (Z.to_nat (bbo_length bp)) with
          | None =>
              binder_user_error "got transaction with invalid offsets ptr";;
              mret (inl (BR_FAILED_REPLY, Some EFAULT))
          | Some bytes =>
              x ← get_transaction t;
              target_proc ← deref_opt (t_to_proc x);
              offset ← binder_alloc_get_user_buffer_offset target_proc;
              let bp := set_bbo_buffer (u64 (sg_bufp c + offset)) bp in
              upd_buffer buffer (λ b,
                set_b_objects (<[offp := Obj_ptr bp]> (b_objects b))
                  (set_b_sg (store_list (sg_bufp c) bytes (b_sg b)) b));;
              let c := set_sg_bufp (u64 (sg_bufp c + ALIGN (bbo_length bp) sizeof_u64)) c in
              ret ← binder_fixup_parent t thread bp (Z.of_nat index)
                      (last_fixup_obj c) (last_fixup_min_off c);
              match ret with
              | Some e => mret (inl (BR_FAILED_REPLY, Some e))
              | None =>
                  mret (inr (set_last_fixup_min_off 0 (set_last_fixup_obj (Some offp) c)))
              end
          end
    | Obj_unknown _ =>
        binder_user_error "got transaction with invalid object type";;
        mret (inl (BR_FAILED_REPLY, Some EINVAL))
    end.

(** The loop itself, over [n] offsets from [index] on.  A failure names the
    index it happened at. *)
Fixpoint binder_transaction_objects (t thread buffer : nat) (in_reply_to : option nat)
    (sg_buf_end : Z) (index n : nat) (c : binder_fixup_cursor)
    : kernel (binder_failure * nat + binder_fixup_cursor) :=
  match n with
  | O => mret (inr c)
  | S n =>
      r ← binder_transaction_object t thread buffer in_reply_to sg_buf_end index c;
      match r with
      | inl err => mret (inl (err, index))
      | inr c => binder_transaction_objects t thread buffer in_reply_to sg_buf_end (S index) n c
      end
  end.

(** From the two [copy_from_user] to the end of the translation. *)
Definition binder_transaction_copy (t thread buffer : nat) (tr : binder_transaction_data)
    (extra_buffers_size : Z) (in_reply_to : option nat)
    : kernel (binder_failure * nat + binder_fixup_cursor) :=
  b ← get_buffer buffer;
  let off_start := u64 (b_data b + ALIGN (tr_data_size tr) sizeof_void_p) in
  match copy_objects_from_user (tr_data_ptr_buffer tr) (tr_data_size tr) with
  | None =>
      binder_user_error "got transaction with invalid data ptr";;
      mret (inl ((BR_FAILED_REPLY, Some EFAULT), O))
  | Some objects =>
      upd_buffer buffer (set_b_objects objects);;
      match copy_words_from_user get_user_u64 sizeof_binder_size_t (tr_data_ptr_offsets tr)
              (Z.to_nat ((tr_offsets_size tr + sizeof_binder_size_t - 1) / sizeof_binder_size_t)) with
      | None =>
          binder_user_error "got transaction with invalid offsets ptr";;
          mret (inl ((BR_FAILED_REPLY, Some EFAULT), O))
      | Some offsets =>
          upd_buffer buffer (set_b_offsets offsets);;
          if negb (IS_ALIGNED (tr_offsets_size tr) sizeof_binder_size_t) then
            binder_user_error "got transaction with invalid offsets size";;
            mret (inl ((BR_FAILED_REPLY, Some EINVAL), O))
          else if negb (IS_ALIGNED extra_buffers_size sizeof_u64) then
            binder_user_error "got transaction with unaligned buffers size";;
            mret (inl ((BR_FAILED_REPLY, Some EINVAL), O))
          else
            let off_end := u64 (off_start + tr_offsets_size tr) in
            let sg_bufp := ALIGN off_end sizeof_void_p in
            let sg_buf_end := u64 (sg_bufp + extra_buffers_size) in
            binder_transaction_objects t thread buffer in_reply_to sg_buf_end O
              (Z.to_nat (tr_offsets_size tr / sizeof_binder_size_t))
              (Build_binder_fixup_cursor 0 None 0 sg_bufp)
      end
  end.

(** After the translation: queue the work.  [false] is the jump to
    [err_dead_proc_or_thread]. *)
Definition binder_transaction_dispatch (proc thread : nat) (tr : binder_transaction_data)
    (reply : bool) (tg : binder_transaction_targets) (t tcomplete buffer : nat) : kernel bool :=
  target_proc ← deref_opt (target_proc tg);
  let target_list :=
    match target_thread tg with
    | Some target_thread => thread_todo target_thread
    | None => proc_todo target_proc
    end in
  x ← get_tcomplete tcomplete;
  put_tcomplete tcomplete (set_w_type BINDER_WORK_TRANSACTION_COMPLETE x);;
  binder_enqueue_work proc (W_tcomplete tcomplete) (thread_todo thread);;
  upd_transaction t (λ x, set_t_work (set_w_type BINDER_WORK_TRANSACTION (t_work x)) x);;
  x ← get_transaction t;
  b ← get_buffer buffer;
  tp ← get_proc target_proc;
  target_dead ←
    (match target_thread tg with
     | Some target_thread => tth ← get_thread target_thread; mret (thread_is_dead tth)
     | None => mret false
     end);
  if reply then
    target_thread ← deref_opt (target_thread tg);
    in_reply_to ← deref_opt (in_reply_to tg);
    if target_dead : bool then mret false
    else
      BUG_ON (async_transaction b);;
      binder_pop_transaction (Some target_thread) in_reply_to;;
      binder_free_transaction in_reply_to;;
      binder_enqueue_work target_proc (W_transaction t) target_list;;
      wake_up_interruptible target_list;;
      mret true
  else if negb (one_way (t_flags x)) then
    BUG_ON (async_transaction b);;
    th ← get_thread thread;
    upd_transaction t (λ x, set_t_from_parent (transaction_stack th) (set_t_need_reply true x));;
    upd_thread thread (set_transaction_stack (Some t));;
    if proc_is_dead tp || target_dead then
      binder_pop_transaction (Some thread) t;;
      mret false
    else
      binder_enqueue_work target_proc (W_transaction t) target_list;;
      wake_up_interruptible target_list;;
      mret true
  else
    target_node ← deref_opt (target_node tg);
    BUG_ON (negb (async_transaction b));;
    n ← get_node target_node;
    let target_list :=
      if has_async_transaction n then node_async_todo target_node else target_list in
    (if has_async_transaction n then mret tt
     else upd_node target_node (set_has_async_transaction true));;
    if proc_is_dead tp || target_dead then mret false
    else
      binder_enqueue_work target_proc (W_transaction t) target_list;;
      (if has_async_transaction n then mret tt else wake_up_interruptible target_list);;
      mret true.

Definition zero_transaction : struct_binder_transaction :=
  Build_binder_transaction 0 zero_work None None None None None false None 0 0 0 0 0.

(** From the allocation of [t] to the end of the function. *)
Definition binder_transaction_send (proc thread : nat) (tr : binder_transaction_data)
    (reply : bool) (extra_buffers_size : Z) (tg : binder_transaction_targets)
    (t_debug_id : Z) : kernel unit :=
  target_proc ← deref_opt (target_proc tg);
  a ← kzalloc;
  match a with
  | None => binder_transaction_failed thread tg (BR_FAILED_REPLY, Some ENOMEM)
  | Some t =>
      put_transaction t zero_transaction;;
      w ← kzalloc;
      match w with
      | None =>
          kfree_transaction t;;
          binder_transaction_failed thread tg (BR_FAILED_REPLY, Some ENOMEM)
      | Some tcomplete =>
          put_tcomplete tcomplete zero_work;;
          p ← get_proc proc;
          s ← get_state;
          upd_transaction t (λ x,
            set_t_priority (st_nice s)
              (set_t_flags (tr_flags tr)
                 (set_t_code (tr_code tr)
                    (set_t_to_thread (target_thread tg)
                       (set_t_to_proc (Some target_proc)
                          (set_t_sender_euid (task_euid (tsk p))
                             (set_t_from
                                (if negb reply && negb (one_way (tr_flags tr))
                                 then Some thread else None)
                                (set_t_debug_id t_debug_id x))))))));;
          buffer ← binder_alloc_new_buf target_proc (tr_data_size tr) (tr_offsets_size tr)
                     extra_buffers_size (negb reply && one_way (tr_flags tr));
          match buffer with
          | inl e =>
              upd_transaction t (set_t_buffer None);;
              kfree_tcomplete tcomplete;;
              kfree_transaction t;;
              binder_transaction_failed thread tg
                (if bool_decide (e = ESRCH) then BR_DEAD_REPLY else BR_FAILED_REPLY, Some e)
          | inr buffer =>
              upd_transaction t (set_t_buffer (Some buffer));;
              upd_buffer buffer (λ b,
                set_b_target_node (target_node tg)
                  (set_b_transaction (Some t)
                     (set_b_debug_id t_debug_id (set_allow_user_free false b))));;
              r ← binder_transaction_copy t thread buffer tr extra_buffers_size (in_reply_to tg);
              match r with
              | inl (err, offp) =>
                  binder_transaction_failed_buffer thread tg t tcomplete buffer offp err
              | inr _ =>
                  sent ← binder_transaction_dispatch proc thread tr reply tg t tcomplete buffer;
                  if sent : bool then
                    (match target_thread tg with
                     | Some target_thread => binder_thread_dec_tmpref target_thread
                     | None => mret tt
                     end);;
                    binder_proc_dec_tmpref target_proc
                  else
                    binder_transaction_failed_buffer thread tg t tcomplete buffer
                      (Z.to_nat (tr_offsets_size tr / sizeof_binder_size_t))
                      (BR_DEAD_REPLY, None)
              end
          end
      end
  end.

Definition binder_transaction (proc thread : nat) (tr : binder_transaction_data)
    (reply : bool) (extra_buffers_size : Z) : kernel unit :=
  t_debug_id ← binder_next_id;
  r ← (if reply then binder_transaction_reply_target thread
       else binder_transaction_call_target proc thread tr);
  match r with
  | inl (err, tg) => binder_transaction_failed thread tg err
  | inr tg => binder_transaction_send proc thread tr reply extra_buffers_size tg t_debug_id
  end.

(** ** [binder_thread_write] *)

Definition BINDER_LOOPER_STATE_REGISTERED : Z := 0x01.
Definition BINDER_LOOPER_STATE_ENTERED : Z := 0x02.
Definition BINDER_LOOPER_STATE_EXITED : Z := 0x04.
Definition BINDER_LOOPER_STATE_INVALID : Z := 0x08.
Definition BINDER_LOOPER_STATE_WAITING : Z := 0x10.

Definition looper_is (th : binder_thread) (mask : Z) : bool :=
  bool_decide (Z.land (looper th) mask ≠ 0).

Definition looper_or (mask : Z) (th : binder_thread) : binder_thread :=
  set_looper (Z.lor (looper th) mask) th.

(** The list a death work goes on: the todo of a looper thread, else the
    todo of its process, whose waiters are woken. *)
Definition binder_enqueue_death_work (proc thread : nat) (work : work_ptr) : kernel unit :=
  th ← get_thread thread;
  if looper_is th (Z.lor BINDER_LOOPER_STATE_REGISTERED BINDER_LOOPER_STATE_ENTERED)
  then binder_enqueue_work_ilocked work (thread_todo thread)
  else binder_enqueue_work_ilocked work (proc_todo proc);;
       wake_up_interruptible (proc_todo proc).

(** [case BC_INCREFS: case BC_ACQUIRE: case BC_RELEASE: case BC_DECREFS:] *)
Definition binder_thread_write_refs (proc thread : nat) (cmd : binder_driver_command_protocol)
    (ptr : Z) : kernel (errno + Z) :=
  let is_strong := bool_decide (cmd = BC_ACQUIRE) || bool_decide (cmd = BC_RELEASE) in
  let increment := bool_decide (cmd = BC_INCREFS) || bool_decide (cmd = BC_ACQUIRE) in
  match get_user_u32 ptr with
  | None => mret (inl EFAULT)
  | Some target =>
      let ptr := ptr + sizeof_u32 in
      p ← get_proc proc;
      '(ret, rdata) ←
        (if increment && bool_decide (target = 0) then
           c ← get_context (context p);
           match binder_context_mgr_node c with
           | Some ctx_mgr_node => binder_inc_ref_for_node proc ctx_mgr_node is_strong None
           | None => mret (Some EPERM, None)
           end
         else mret (Some EPERM, None));
      '(ret, rdata) ←
        (match ret with
         | Some _ => binder_update_ref_for_handle proc target increment is_strong
         | None => mret (ret, rdata)
         end);
      (match ret, rdata with
       | None, Some rdata =>
           if bool_decide (desc rdata ≠ target)
           then binder_user_error "tried to acquire reference to desc, got another instead"
           else mret tt
       | None, None => oops
       | Some _, _ => mret tt
       end);;
      (match ret with
       | Some _ => binder_user_error "refcount change on invalid ref"
       | None => mret tt
       end);;
      mret (inr ptr)
  end.

(** [case BC_INCREFS_DONE: case BC_ACQUIRE_DONE:] *)
Definition binder_thread_write_done (proc thread : nat) (cmd : binder_driver_command_protocol)
    (ptr : Z) : kernel (errno + Z) :=
  match get_user_u64 ptr, get_user_u64 (ptr + sizeof_binder_uintptr_t) with
  | Some node_ptr, Some cookie =>
      let ptr := ptr + sizeof_binder_uintptr_t + sizeof_binder_uintptr_t in
      node ← binder_get_node proc node_ptr;
      match node with
      | None => binder_user_error "BC_INCREFS_DONE or BC_ACQUIRE_DONE no match";; mret (inr ptr)
      | Some node =>
          n ← get_node node;
          if bool_decide (cookie ≠ node_cookie n) then
            binder_user_error "BC_INCREFS_DONE or BC_ACQUIRE_DONE node cookie mismatch";;
            binder_put_node node;;
            mret (inr ptr)
          else if bool_decide (cmd = BC_ACQUIRE_DONE) && negb (pending_strong_ref n) then
            binder_user_error "BC_ACQUIRE_DONE node has no pending acquire request";;
            binder_put_node node;;
            mret (inr ptr)
          else if negb (bool_decide (cmd = BC_ACQUIRE_DONE)) && negb (pending_weak_ref n) then
            binder_user_error "BC_INCREFS_DONE node has no pending increfs request";;
            binder_put_node node;;
            mret (inr ptr)
          else
            upd_node node (if bool_decide (cmd = BC_ACQUIRE_DONE)
                           then set_pending_strong_ref false
                           else set_pending_weak_ref false);;
            binder_dec_node_nilocked node (bool_decide (cmd = BC_ACQUIRE_DONE)) false;;
            binder_put_node node;;
            mret (inr ptr)
      end
  | _, _ => mret (inl EFAULT)
  end.

(** [case BC_FREE_BUFFER:] *)
Definition binder_thread_write_free_buffer (proc thread : nat) (ptr : Z) : kernel (errno + Z) :=
  match get_user_u64 ptr with
  | None => mret (inl EFAULT)
  | Some data_ptr =>
      let ptr := ptr + sizeof_binder_uintptr_t in
      buffer ← binder_alloc_prepare_to_free proc data_ptr;
      match buffer with
      | None => binder_user_error "BC_FREE_BUFFER no match";; mret (inr ptr)
      | Some buffer =>
          b ← get_buffer buffer;
          if negb (allow_user_free b) then
            binder_user_error "BC_FREE_BUFFER matched unreturned buffer";;
            mret (inr ptr)
          else
            (match b_transaction b with
             | Some t =>
                 upd_transaction t (set_t_buffer None);;
                 upd_buffer buffer (set_b_transaction None)
             | None => mret tt
             end);;
            (match b_target_node b with
             | Some buf_node =>
                 if async_transaction b then
                   n ← get_node buf_node;
                   BUG_ON (negb (has_async_transaction n));;
                   BUG_ON (bool_decide (node_proc n ≠ Some proc));;
                   w ← binder_dequeue_work_head_ilocked (node_async_todo buf_node);
                   match w with
                   | None => upd_node buf_node (set_has_async_transaction false)
                   | Some w => binder_enqueue_work_ilocked w (thread_todo thread)
                   end
                 else mret tt
             | None => mret tt
             end);;
            binder_transaction_buffer_release proc buffer None;;
            binder_alloc_free_buf proc buffer;;
            mret (inr ptr)
      end
  end.

(** [case BC_REGISTER_LOOPER:], [case BC_ENTER_LOOPER:], [case BC_EXIT_LOOPER:] *)
Definition binder_thread_write_looper (proc thread : nat) (cmd : binder_driver_command_protocol)
    : kernel unit :=
  th ← get_thread thread;
  p ← get_proc proc;
  match cmd with
  | BC_REGISTER_LOOPER =>
      (if looper_is th BINDER_LOOPER_STATE_ENTERED then
         upd_thread thread (looper_or BINDER_LOOPER_STATE_INVALID);;
         binder_user_error "ERROR: BC_REGISTER_LOOPER called after BC_ENTER_LOOPER"
       else if bool_decide (requested_threads p = 0) then
         upd_thread thread (looper_or BINDER_LOOPER_STATE_INVALID);;
         binder_user_error "ERROR: BC_REGISTER_LOOPER called without request"
       else
         upd_proc proc (λ p,
           set_requested_threads_started (requested_threads_started p + 1)
             (set_requested_threads (requested_threads p - 1) p)));;
      upd_thread thread (looper_or BINDER_LOOPER_STATE_REGISTERED)
  | BC_ENTER_LOOPER =>
      (if looper_is th BINDER_LOOPER_STATE_REGISTERED then
         upd_thread thread (looper_or BINDER_LOOPER_STATE_INVALID);;
         binder_user_error "ERROR: BC_ENTER_LOOPER called after BC_REGISTER_LOOPER"
       else mret tt);;
      upd_thread thread (looper_or BINDER_LOOPER_STATE_ENTERED)
  | _ => upd_thread thread (looper_or BINDER_LOOPER_STATE_EXITED)
  end.

(** [case BC_REQUEST_DEATH_NOTIFICATION: case BC_CLEAR_DEATH_NOTIFICATION:] *)
Definition binder_thread_write_death (proc thread : nat) (cmd : binder_driver_command_protocol)
    (ptr : Z) : kernel (errno + Z) :=
  match get_user_u32 ptr, get_user_u64 (ptr + sizeof_u32) with
  | Some target, Some cookie =>
      let ptr := ptr + sizeof_u32 + sizeof_binder_uintptr_t in
      ref ← binder_get_ref proc target false;
      match ref with
      | None =>
          binder_user_error "BC_REQUEST_DEATH_NOTIFICATION or BC_CLEAR_DEATH_NOTIFICATION invalid ref";;
          mret (inr ptr)
      | Some ref =>
          r ← get_ref ref;
          node ← deref_opt (ref_node r);
          (if bool_decide (cmd = BC_REQUEST_DEATH_NOTIFICATION) then
             match ref_death r with
             | Some _ =>
                 binder_user_error "BC_REQUEST_DEATH_NOTIFICATION death notification already set"
             | None =>
                 a ← kzalloc;
                 match a with
                 | None =>
                     upd_thread thread (λ th,
                       set_return_error (set_err_cmd BR_ERROR (return_error th)) th);;
                     binder_enqueue_work proc (W_return_error thread) (thread_todo thread)
                 | Some death =>
                     put_death death (Build_binder_ref_death zero_work cookie);;
                     upd_ref ref (set_ref_death (Some death));;
                     n ← get_node node;
                     match node_proc n with
                     | None =>
                         upd_death death (λ d,
                           set_death_work (set_w_type BINDER_WORK_DEAD_BINDER (death_work d)) d);;
                         binder_enqueue_death_work proc thread (W_death death)
                     | Some _ => mret tt
                     end
                 end
             end
           else
             match ref_death r with
             | None =>
                 binder_user_error "BC_CLEAR_DEATH_NOTIFICATION death notification not active"
             | Some death =>
                 d ← get_death death;
                 if bool_decide (death_cookie d ≠ cookie) then
                   binder_user_error "BC_CLEAR_DEATH_NOTIFICATION death notification cookie mismatch"
                 else
                   upd_ref ref (set_ref_death None);;
                   match w_entry (death_work d) with
                   | None =>
                       upd_death death (λ d,
                         set_death_work
                           (set_w_type BINDER_WORK_CLEAR_DEATH_NOTIFICATION (death_work d)) d);;
                       binder_enqueue_death_work proc thread (W_death death)
                   | Some _ =>
                       BUG_ON (bool_decide (w_type (death_work d) ≠ BINDER_WORK_DEAD_BINDER));;
                       upd_death death (λ d,
                         set_death_work
                           (set_w_type BINDER_WORK_DEAD_BINDER_AND_CLEAR (death_work d)) d)
                   end
             end);;
          mret (inr ptr)
      end
  | _, _ => mret (inl EFAULT)
  end.

(** The [list_for_each_entry] of [BC_DEAD_BINDER_DONE]. *)
Fixpoint binder_find_delivered_death (l : list work_ptr) (cookie : Z) : kernel (option nat) :=
  match l with
  | [] => mret None
  | W_death tmp_death :: l =>
      d ← get_death tmp_death;
      if bool_decide (death_cookie d = cookie) then mret (Some tmp_death)
      else binder_find_delivered_death l cookie
  | _ :: _ => oops
  end.

(** [case BC_DEAD_BINDER_DONE:] *)
Definition binder_thread_write_dead_binder_done (proc thread : nat) (ptr : Z)
    : kernel (errno + Z) :=
  match get_user_u64 ptr with
  | None => mret (inl EFAULT)
  | Some cookie =>
      let ptr := ptr + sizeof_binder_uintptr_t in
      p ← get_proc proc;
      death ← binder_find_delivered_death (delivered_death p) cookie;
      match death with
      | None => binder_user_error "BC_DEAD_BINDER_DONE not found";; mret (inr ptr)
      | Some death =>
          binder_dequeue_work_ilocked (W_death death);;
          d ← get_death death;
          (if bool_decide (w_type (death_work d) = BINDER_WORK_DEAD_BINDER_AND_CLEAR) then
             upd_death death (λ d,
               set_death_work
                 (set_w_type BINDER_WORK_CLEAR_DEATH_NOTIFICATION (death_work d)) d);;
             binder_enqueue_death_work proc thread (W_death death)
           else mret tt);;
          mret (inr ptr)
      end
  end.

(** The [switch (cmd)] of [binder_thread_write], entered with [ptr] just
    past the command word.  The result is a [return] with an error, or
    [ptr] at the [break]. *)
Definition binder_thread_write_cmd (proc thread : nat) (cmd : Z) (ptr : Z)
    : kernel (errno + Z) :=
  match bc_of_u32 cmd with
  | Some ((BC_INCREFS | BC_ACQUIRE | BC_RELEASE | BC_DECREFS) as c) =>
      binder_thread_write_refs proc thread c ptr
  | Some ((BC_INCREFS_DONE | BC_ACQUIRE_DONE) as c) =>
      binder_thread_write_done proc thread c ptr
  | Some BC_ATTEMPT_ACQUIRE =>
      pr_err "BC_ATTEMPT_ACQUIRE not supported";; mret (inl EINVAL)
  | Some BC_ACQUIRE_RESULT =>
      pr_err "BC_ACQUIRE_RESULT not supported";; mret (inl EINVAL)
  | Some BC_FREE_BUFFER => binder_thread_write_free_buffer proc thread ptr
  | Some ((BC_TRANSACTION_SG | BC_REPLY_SG) as c) =>
      match copy_tr_sg_from_user ptr with
      | None => mret (inl EFAULT)
      | Some (transaction_data, buffers_size) =>
          binder_transaction proc thread transaction_data (bool_decide (c = BC_REPLY_SG))
            buffers_size;;
          mret (inr (ptr + sizeof_binder_transaction_data_sg))
      end
  | Some ((BC_TRANSACTION | BC_REPLY) as c) =>
      match copy_tr_from_user ptr with
      | None => mret (inl EFAULT)
      | Some tr =>
          binder_transaction proc thread tr (bool_decide (c = BC_REPLY)) 0;;
          mret (inr (ptr + sizeof_binder_transaction_data))
      end
  | Some ((BC_REGISTER_LOOPER | BC_ENTER_LOOPER | BC_EXIT_LOOPER) as c) =>
      binder_thread_write_looper proc thread c;; mret (inr ptr)
  | Some ((BC_REQUEST_DEATH_NOTIFICATION | BC_CLEAR_DEATH_NOTIFICATION) as c) =>
      binder_thread_write_death proc thread c ptr
  | Some BC_DEAD_BINDER_DONE => binder_thread_write_dead_binder_done proc thread ptr
  | None => pr_err "unknown command";; mret (inl EINVAL)
  end.

(** The [while (ptr < end && thread->return_error.cmd == BR_OK)].  The
    result is the value returned and what is left in [*consumed], a
    [binder_size_t] that takes the difference [ptr - buffer]. *)
Fixpoint binder_thread_write_loop (fuel : nat) (proc thread : nat) (buffer ptr end_ : Z)
    (consumed : Z) : kernel (option errno * Z) :=
  th ← get_thread thread;
  if bool_decide (ptr < end_) && bool_decide (err_cmd (return_error th) = BR_OK) then
    match fuel with
    | O => out_of_fuel
    | S fuel =>
        match get_user_u32 ptr with
        | None => mret (Some EFAULT, consumed)
        | Some cmd =>
            r ← binder_thread_write_cmd proc thread cmd (ptr + sizeof_u32);
            match r with
            | inl e => mret (Some e, consumed)
            | inr ptr =>
                binder_thread_write_loop fuel proc thread buffer ptr end_ (u64 (ptr - buffer))
            end
        end
    end
  else mret (None, consumed).

(** [ptr = buffer + *consumed] and [end = buffer + size] are sums of
    pointers, which wrap around at 2^64; every turn of the loop takes
    [ptr] up by 4 at least, so that [end - ptr] turns are enough. *)
Definition binder_thread_write (proc thread : nat) (binder_buffer size : Z) (consumed : Z)
    : kernel (option errno * Z) :=
  let ptr := u64 (binder_buffer + consumed) in
  let end_ := u64 (binder_buffer + size) in
  binder_thread_write_loop (Z.to_nat (end_ - ptr)) proc thread binder_buffer ptr end_ consumed.

(** ** [binder_thread_read] *)

Definition binder_has_proc_work (proc thread : nat) : kernel bool :=
  empty ← binder_worklist_empty proc (proc_todo proc);
  th ← get_thread thread;
  mret (negb empty || looper_need_return th).

Definition binder_has_thread_work (thread : nat) : kernel bool :=
  th ← get_thread thread;
  empty ← binder_worklist_empty (thread_proc th) (thread_todo thread);
  mret (negb empty || looper_need_return th).

(** The result is the error of the first store that faults, or the new
    [*ptrp]. *)
Definition binder_put_node_cmd (proc thread : nat) (ptr : Z) (node_ptr node_cookie : Z)
    (cmd : binder_driver_return_protocol) : kernel (errno + Z) :=
  fault ← put_user (U_cmd cmd) ptr;
  if fault : bool then mret (inl EFAULT)
  else
    fault ← put_user (U_ptr node_ptr) (ptr + sizeof_u32);
    if fault : bool then mret (inl EFAULT)
    else
      fault ← put_user (U_ptr node_cookie) (ptr + sizeof_u32 + sizeof_binder_uintptr_t);
      if fault : bool then mret (inl EFAULT)
      else mret (inr (ptr + sizeof_u32 + sizeof_binder_uintptr_t + sizeof_binder_uintptr_t)).

(** How one turn of the [while (1)] of [binder_thread_read] ends. *)
Inductive binder_read_exit : Type :=
  | Read_continue (ptr : Z)  (* continue, or the break of the switch with t NULL *)
  | Read_retry (ptr : Z)  (* goto retry *)
  | Read_break (ptr : Z)  (* break out of the while *)
  | Read_done (ptr : Z)  (* goto done *)
  | Read_return (e : errno).

(** [case BINDER_WORK_NODE:] *)
Definition binder_thread_read_node (proc thread : nat) (node : nat) (ptr : Z)
    : kernel binder_read_exit :=
  n ← get_node node;
  BUG_ON (bool_decide (node_proc n ≠ Some proc));;
  let is_strong :=
    bool_decide (internal_strong_refs n ≠ 0) || bool_decide (local_strong_refs n ≠ 0) in
  let is_weak :=
    bool_decide (node_refs n ≠ []) || bool_decide (local_weak_refs n ≠ 0)
    || bool_decide (tmp_refs n ≠ 0) || is_strong in
  let had_strong_ref := has_strong_ref n in
  let had_weak_ref := has_weak_ref n in
  (if is_weak && negb had_weak_ref then
     upd_node node (λ n,
       set_local_weak_refs (local_weak_refs n + 1)
         (set_pending_weak_ref true (set_has_weak_ref true n)))
   else mret tt);;
  (if is_strong && negb had_strong_ref then
     upd_node node (λ n,
       set_local_strong_refs (local_strong_refs n + 1)
         (set_pending_strong_ref true (set_has_strong_ref true n)))
   else mret tt);;
  (if negb is_strong && had_strong_ref
   then upd_node node (set_has_strong_ref false) else mret tt);;
  (if negb is_weak && had_weak_ref
   then upd_node node (set_has_weak_ref false) else mret tt);;
  (if negb is_weak && negb is_strong then
     upd_proc proc (λ p, set_proc_nodes (rb_erase node (proc_nodes p)) p);;
     binder_free_node node
   else mret tt);;
  r ← (if is_weak && negb had_weak_ref
       then binder_put_node_cmd proc thread ptr (node_ptr n) (node_cookie n) BR_INCREFS
       else mret (inr ptr));
  r ← (match r with
       | inr ptr =>
           if is_strong && negb had_strong_ref
           then binder_put_node_cmd proc thread ptr (node_ptr n) (node_cookie n) BR_ACQUIRE
           else mret (inr ptr)
       | inl e => mret (inl e)
       end);
  r ← (match r with
       | inr ptr =>
           if negb is_strong && had_strong_ref
           then binder_put_node_cmd proc thread ptr (node_ptr n) (node_cookie n) BR_RELEASE
           else mret (inr ptr)
       | inl e => mret (inl e)
       end);
  r ← (match r with
       | inr ptr =>
           if negb is_weak && had_weak_ref
           then binder_put_node_cmd proc thread ptr (node_ptr n) (node_cookie n) BR_DECREFS
           else mret (inr ptr)
       | inl e => mret (inl e)
       end);
  match r with
  | inl e => mret (Read_return e)
  | inr ptr => mret (Read_continue ptr)
  end.

(** [case BINDER_WORK_DEAD_BINDER: case BINDER_WORK_DEAD_BINDER_AND_CLEAR:
    case BINDER_WORK_CLEAR_DEATH_NOTIFICATION:] *)
Definition binder_thread_read_death (proc thread : nat) (w : work_ptr) (type : work_type)
    (death : nat) (ptr : Z) : kernel binder_read_exit :=
  d ← get_death death;
  let cmd :=
    if bool_decide (type = BINDER_WORK_CLEAR_DEATH_NOTIFICATION)
    then BR_CLEAR_DEATH_NOTIFICATION_DONE else BR_DEAD_BINDER in
  fault ← put_user (U_cmd cmd) ptr;
  if fault : bool then mret (Read_return EFAULT)
  else
    let ptr := ptr + sizeof_u32 in
    fault ← put_user (U_ptr (death_cookie d)) ptr;
    if fault : bool then mret (Read_return EFAULT)
    else
      let ptr := ptr + sizeof_binder_uintptr_t in
      (if bool_decide (type = BINDER_WORK_CLEAR_DEATH_NOTIFICATION)
       then kfree_death death
       else binder_enqueue_work_ilocked w (proc_delivered_death proc));;
      if bool_decide (cmd = BR_DEAD_BINDER) then mret (Read_done ptr)
      else mret (Read_continue ptr).

(** From [BUG_ON(t->buffer == NULL)] to the [break] that ends the while:
    the delivery of a transaction or of a reply. *)
Definition binder_thread_read_transaction (proc thread : nat) (t : nat) (ptr : Z)
    : kernel binder_read_exit :=
  x ← get_transaction t;
  buffer ← deref_opt (t_buffer x);
  b ← get_buffer buffer;
  '(cmd, target_ptr, cookie) ←
    (match b_target_node b with
     | Some target_node =>
         n ← get_node target_node;
         s ← get_state;
         upd_transaction t (set_t_saved_priority (st_nice s));;
         (if bool_decide (t_priority x < min_priority n) && negb (one_way (t_flags x))
          then binder_set_nice (t_priority x)
          else if negb (one_way (t_flags x)) || bool_decide (st_nice s > min_priority n)
          then binder_set_nice (min_priority n)
          else mret tt);;
         mret (BR_TRANSACTION, node_ptr n, node_cookie n)
     | None => mret (BR_REPLY, 0, 0)
     end);
  t_from ← binder_get_txn_from t;
  sender_pid ←
    (match t_from with
     | Some t_from =>
         fth ← get_thread t_from;
         sender ← get_proc (thread_proc fth);
         mret (pid sender)
     | None => mret 0
     end);
  offset ← binder_alloc_get_user_buffer_offset proc;
  let data_ptr_buffer := u64 (b_data b + offset) in
  let tr :=
    {| tr_target := target_ptr; tr_cookie := cookie; tr_code := t_code x;
       tr_flags := t_flags x; tr_sender_pid := sender_pid;
       tr_sender_euid := t_sender_euid x; tr_data_size := b_data_size b;
       tr_offsets_size := b_offsets_size b; tr_data_ptr_buffer := data_ptr_buffer;
       tr_data_ptr_offsets := u64 (data_ptr_buffer + ALIGN (b_data_size b) sizeof_void_p) |} in
  let dec_from :=
    match t_from with
    | Some t_from => binder_thread_dec_tmpref t_from
    | None => mret tt
    end in
  fault ← put_user (U_cmd cmd) ptr;
  if fault : bool then dec_from;; mret (Read_return EFAULT)
  else
    let ptr := ptr + sizeof_u32 in
    fault ← put_user (U_tr tr) ptr;
    if fault : bool then dec_from;; mret (Read_return EFAULT)
    else
      let ptr := ptr + sizeof_binder_transaction_data in
      dec_from;;
      upd_buffer buffer (set_allow_user_free true);;
      (if bool_decide (cmd = BR_TRANSACTION) && negb (one_way (t_flags x)) then
         th ← get_thread thread;
         upd_transaction t (λ x,
           set_t_to_thread (Some thread) (set_t_to_parent (transaction_stack th) x));;
         upd_thread thread (set_transaction_stack (Some t))
       else binder_free_transaction t);;
      mret (Read_break ptr).

(** One turn of the [while (1)]. *)
Definition binder_thread_read_work (proc thread : nat) (buffer ptr end_ : Z)
    (wait_for_proc_work : bool) : kernel binder_read_exit :=
  th ← get_thread thread;
  p ← get_proc proc;
  match
    if negb (bool_decide (thread_todo_list th = [])) then Some (thread_todo thread)
    else if negb (bool_decide (proc_todo_list p = [])) && wait_for_proc_work
    then Some (proc_todo proc)
    else None
  with
  | None =>
      if bool_decide (ptr - buffer = 4) && negb (looper_need_return th)
      then mret (Read_retry ptr)
      else mret (Read_break ptr)
  | Some list =>
      if bool_decide (u64 (end_ - ptr) < sizeof_binder_transaction_data + 4)
      then mret (Read_break ptr)
      else
        w ← binder_dequeue_work_head_ilocked list;
        w ← deref_opt w;
        work ← get_work w;
        match w_type work, w with
        | BINDER_WORK_TRANSACTION, W_transaction t =>
            binder_thread_read_transaction proc thread t ptr
        | BINDER_WORK_RETURN_ERROR, (W_return_error e | W_reply_error e) =>
            eth ← get_thread e;
            let cmd := err_cmd (match w with
                                | W_reply_error _ => reply_error eth
                                | _ => return_error eth
                                end) in
            fault ← put_user (U_cmd cmd) ptr;
            if fault : bool then mret (Read_return EFAULT)
            else
              upd_thread e (λ eth,
                match w with
                | W_reply_error _ => set_reply_error (set_err_cmd BR_OK (reply_error eth)) eth
                | _ => set_return_error (set_err_cmd BR_OK (return_error eth)) eth
                end);;
              mret (Read_continue (ptr + sizeof_u32))
        | BINDER_WORK_TRANSACTION_COMPLETE, W_tcomplete c =>
            fault ← put_user (U_cmd BR_TRANSACTION_COMPLETE) ptr;
            if fault : bool then mret (Read_return EFAULT)
            else
              kfree_tcomplete c;;
              mret (Read_continue (ptr + sizeof_u32))
        | BINDER_WORK_NODE, W_node node => binder_thread_read_node proc thread node ptr
        | (BINDER_WORK_DEAD_BINDER | BINDER_WORK_DEAD_BINDER_AND_CLEAR
           | BINDER_WORK_CLEAR_DEATH_NOTIFICATION), W_death death =>
            binder_thread_read_death proc thread w (w_type work) death ptr
        | BINDER_WORK_ZERO, _ => mret (Read_continue ptr)
        | _, _ => oops
        end
  end.

Fixpoint binder_thread_read_loop (fuel : nat) (proc thread : nat) (buffer ptr end_ : Z)
    (wait_for_proc_work : bool) : kernel binder_read_exit :=
  match fuel with
  | O => out_of_fuel
  | S fuel =>
      r ← binder_thread_read_work proc thread buffer ptr end_ wait_for_proc_work;
      match r with
      | Read_continue ptr =>
          binder_thread_read_loop fuel proc thread buffer ptr end_ wait_for_proc_work
      | _ => mret r
      end
  end.

(** What an interruptible wait comes to when its condition does not
    hold: -ERESTARTSYS when a signal is pending, and else the task
    sleeps. *)
Definition wait_interrupted : kernel (option errno) :=
  if signal_pending then mret (Some ERESTARTSYS) else sleeps.

(** [wait_event_interruptible(binder_user_error_wait,
    binder_stop_on_user_error < 2)], with its value: 0, or -ERESTARTSYS. *)
Definition binder_wait_user_error : kernel (option errno) :=
  s ← get_state;
  if bool_decide (binder_stop_on_user_error s < 2) then mret None else wait_interrupted.

(** The label [done:]. *)
Definition binder_thread_read_done (proc thread : nat) (buffer ptr : Z)
    : kernel (option errno * Z) :=
  p ← get_proc proc;
  th ← get_thread thread;
  if bool_decide (requested_threads p + ready_threads p = 0)
     && bool_decide (requested_threads_started p < max_threads p)
     && looper_is th (Z.lor BINDER_LOOPER_STATE_REGISTERED BINDER_LOOPER_STATE_ENTERED)
  then
    upd_proc proc (λ p, set_requested_threads (requested_threads p + 1) p);;
    fault ← put_user (U_cmd BR_SPAWN_LOOPER) buffer;
    if fault : bool then mret (Some EFAULT, ptr - buffer)
    else mret (None, ptr - buffer)
  else mret (None, ptr - buffer).

(** From the label [retry:] on.  A [return] before [done:] leaves
    [*consumed] as it was. *)
Fixpoint binder_thread_read_retry (fuel : nat) (proc thread : nat) (buffer ptr end_ : Z)
    (consumed : Z) (non_block : bool) : kernel (option errno * Z) :=
  match fuel with
  | O => out_of_fuel
  | S fuel =>
      th ← get_thread thread;
      empty ← binder_worklist_empty proc (thread_todo thread);
      let wait_for_proc_work := bool_decide (transaction_stack th = None) && empty in
      upd_thread thread (looper_or BINDER_LOOPER_STATE_WAITING);;
      (if wait_for_proc_work
       then upd_proc proc (λ p, set_ready_threads (ready_threads p + 1) p)
       else mret tt);;
      ret ←
        (if wait_for_proc_work then
           (if negb (looper_is th (Z.lor BINDER_LOOPER_STATE_REGISTERED
                                      BINDER_LOOPER_STATE_ENTERED))
            then
              binder_user_error
                "ERROR: Thread waiting for process work before calling BC_REGISTER_LOOPER or BC_ENTER_LOOPER";;
              binder_wait_user_error;;
              mret tt
            else mret tt);;
           p ← get_proc proc;
           binder_set_nice (default_priority p);;
           has_work ← binder_has_proc_work proc thread;
           if has_work : bool then mret None
           else if non_block then mret (Some EAGAIN) else wait_interrupted
         else
           has_work ← binder_has_thread_work thread;
           if has_work : bool then mret None
           else if non_block then mret (Some EAGAIN) else wait_interrupted);
      (if wait_for_proc_work
       then upd_proc proc (λ p, set_ready_threads (ready_threads p - 1) p)
       else mret tt);;
      upd_thread thread (λ th,
        set_looper (Z.land (looper th) (Z.lnot BINDER_LOOPER_STATE_WAITING)) th);;
      match ret with
      | Some e => mret (Some e, consumed)
      | None =>
          r ← binder_thread_read_loop (S fuel) proc thread buffer ptr end_ wait_for_proc_work;
          match r with
          | Read_continue _ => oops
          | Read_retry ptr =>
              binder_thread_read_retry fuel proc thread buffer ptr end_ consumed non_block
          | Read_break ptr | Read_done ptr => binder_thread_read_done proc thread buffer ptr
          | Read_return e => mret (Some e, consumed)
          end
      end
  end.

Definition binder_thread_read (proc thread : nat) (binder_buffer size : Z) (consumed : Z)
    (non_block : bool) : kernel (option errno * Z) :=
  let ptr := binder_buffer + consumed in
  r ← (if bool_decide (consumed = 0) then
         fault ← put_user (U_cmd BR_NOOP) ptr;
         mret (if fault : bool then inl EFAULT else inr (ptr + sizeof_u32))
       else mret (inr ptr));
  match r with
  | inl e => mret (Some e, consumed)
  | inr ptr =>
      th ← get_thread thread;
      p ← get_proc proc;
      binder_thread_read_retry
        (S (S (length (thread_todo_list th) + length (proc_todo_list p))))
        proc thread binder_buffer ptr (binder_buffer + size) consumed non_block
  end.

(** ** The context manager and the release of a process *)

Definition binder_ioctl_set_ctx_mgr (proc : nat) : kernel (option errno) :=
  p ← get_proc proc;
  c ← get_context (context p);
  let curr_euid := task_euid (tsk p) in
  match binder_context_mgr_node c with
  | Some _ => pr_err "BINDER_SET_CONTEXT_MGR already set";; mret (Some EBUSY)
  | None =>
      match security_binder_set_context_mgr (tsk p) with
      | Some e => mret (Some e)
      | None =>
          uid_ok ←
            (match binder_context_mgr_uid c with
             | Some uid =>
                 if bool_decide (uid ≠ curr_euid)
                 then pr_err "BINDER_SET_CONTEXT_MGR bad uid";; mret false
                 else mret true
             | None =>
                 upd_context (context p) (set_binder_context_mgr_uid (Some curr_euid));;
                 mret true
             end);
          if uid_ok : bool then
            new_node ← binder_new_node proc None;
            match new_node with
            | None => mret (Some ENOMEM)
            | Some new_node =>
                upd_node new_node (λ n,
                  set_has_weak_ref true
                    (set_has_strong_ref true
                       (set_local_strong_refs (local_strong_refs n + 1)
                          (set_local_weak_refs (local_weak_refs n + 1) n))));;
                upd_context (context p) (set_binder_context_mgr_node (Some new_node));;
                binder_put_node new_node;;
                mret None
            end
          else mret (Some EPERM)
      end
  end.

(** The [while (1)] of [binder_release_work]. *)
Fixpoint binder_release_work_loop (fuel : nat) (proc : nat) (list : worklist) : kernel unit :=
  match fuel with
  | O => out_of_fuel
  | S fuel =>
      w ← binder_dequeue_work_head proc list;
      match w with
      | None => mret tt
      | Some w =>
          work ← get_work w;
          (match w_type work, w with
           | BINDER_WORK_TRANSACTION, W_transaction t =>
               x ← get_transaction t;
               buffer ← deref_opt (t_buffer x);
               b ← get_buffer buffer;
               if bool_decide (is_Some (b_target_node b)) && negb (one_way (t_flags x))
               then binder_send_failed_reply t BR_DEAD_REPLY
               else binder_free_transaction t
           | BINDER_WORK_RETURN_ERROR, (W_return_error _ | W_reply_error _) => mret tt
           | BINDER_WORK_TRANSACTION_COMPLETE, W_tcomplete c => kfree_tcomplete c
           | (BINDER_WORK_DEAD_BINDER_AND_CLEAR | BINDER_WORK_CLEAR_DEATH_NOTIFICATION),
             W_death death => kfree_death death
           | (BINDER_WORK_ZERO | BINDER_WORK_NODE | BINDER_WORK_DEAD_BINDER), _ =>
               pr_err "unexpected work type, not freed"
           | _, _ => oops
           end);;
          binder_release_work_loop fuel proc list
      end
  end.

Definition binder_release_work (proc : nat) (list : worklist) : kernel unit :=
  l ← get_list list;
  s ← get_state;
  binder_release_work_loop (S (length l + size (st_threads s))) proc list.

(** The [while (t)] of [binder_thread_release]; the result is the number
    of transactions it walked over. *)
Fixpoint binder_thread_release_loop (fuel : nat) (thread : nat) (t : option nat)
    (active_transactions : Z) : kernel Z :=
  match t with
  | None => mret active_transactions
  | Some t =>
      match fuel with
      | O => out_of_fuel
      | S fuel =>
          x ← get_transaction t;
          if bool_decide (t_to_thread x = Some thread) then
            upd_transaction t (λ x, set_t_to_thread None (set_t_to_proc None x));;
            (match t_buffer x with
             | Some b =>
                 upd_buffer b (set_b_transaction None);;
                 upd_transaction t (set_t_buffer None)
             | None => mret tt
             end);;
            binder_thread_release_loop fuel thread (t_to_parent x) (active_transactions + 1)
          else if bool_decide (t_from x = Some thread) then
            upd_transaction t (set_t_from None);;
            binder_thread_release_loop fuel thread (t_from_parent x) (active_transactions + 1)
          else oops
      end
  end.

Definition binder_thread_release (proc thread : nat) : kernel Z :=
  upd_proc proc (λ p, set_proc_tmp_ref (proc_tmp_ref p + 1) p);;
  upd_thread thread (λ th, set_thread_tmp_ref (thread_tmp_ref th + 1) th);;
  upd_proc proc (λ p, set_proc_threads (rb_erase thread (proc_threads p)) p);;
  th ← get_thread thread;
  let t := transaction_stack th in
  send_reply ←
    (match t with
     | Some t =>
         x ← get_transaction t;
         mret (if bool_decide (t_to_thread x = Some thread) then Some t else None)
     | None => mret None
     end);
  upd_thread thread (set_thread_is_dead true);;
  s ← get_state;
  active_transactions ←
    binder_thread_release_loop (S (2 * size (st_transactions s))) thread t 0;
  (match send_reply with
   | Some send_reply => binder_send_failed_reply send_reply BR_DEAD_REPLY
   | None => mret tt
   end);;
  binder_release_work proc (thread_todo thread);;
  binder_thread_dec_tmpref thread;;
  mret active_transactions.

(** The [hlist_for_each_entry] of [binder_node_release]. *)
Fixpoint binder_node_release_refs (l : list nat) (refs : Z) : kernel Z :=
  match l with
  | [] => mret refs
  | ref :: l =>
      r ← get_ref ref;
      match ref_death r with
      | None => binder_node_release_refs l (refs + 1)
      | Some death =>
          holder ← deref_opt (ref_proc r);
          unlinked ← list_empty_entry (W_death death);
          (if unlinked : bool then
             upd_death death (λ d,
               set_death_work (set_w_type BINDER_WORK_DEAD_BINDER (death_work d)) d);;
             binder_enqueue_work_ilocked (W_death death) (proc_todo holder);;
             wake_up_interruptible (proc_todo holder)
           else oops);;
          binder_node_release_refs l (refs + 1)
      end
  end.

Definition binder_node_release (node : nat) (refs : Z) : kernel Z :=
  n ← get_node node;
  proc ← deref_opt (node_proc n);
  binder_release_work proc (node_async_todo node);;
  binder_dequeue_work_ilocked (W_node node);;
  n ← get_node node;
  BUG_ON (bool_decide (tmp_refs n = 0));;
  if bool_decide (node_refs n = []) && bool_decide (tmp_refs n = 1) then
    binder_free_node node;;
    mret refs
  else
    upd_node node (λ n,
      set_local_weak_refs 0 (set_local_strong_refs 0 (set_node_proc None n)));;
    modify (λ s, set_binder_dead_nodes (node :: binder_dead_nodes s) s);;
    refs ← binder_node_release_refs (node_refs n) refs;
    binder_put_node node;;
    mret refs.

(** The three [while ((n = rb_first(...)))] of [binder_deferred_release]. *)
Fixpoint binder_deferred_release_threads (fuel : nat) (proc : nat) : kernel unit :=
  p ← get_proc proc;
  match proc_threads p, fuel with
  | [], _ => mret tt
  | _ :: _, O => out_of_fuel
  | (_, thread) :: _, S fuel =>
      binder_thread_release proc thread;;
      binder_deferred_release_threads fuel proc
  end.

Fixpoint binder_deferred_release_nodes (fuel : nat) (proc : nat) (incoming_refs : Z)
    : kernel Z :=
  p ← get_proc proc;
  match proc_nodes p, fuel with
  | [], _ => mret incoming_refs
  | _ :: _, O => out_of_fuel
  | (_, node) :: _, S fuel =>
      binder_inc_node_tmpref node;;
      upd_proc proc (λ p, set_proc_nodes (rb_erase node (proc_nodes p)) p);;
      incoming_refs ← binder_node_release node incoming_refs;
      binder_deferred_release_nodes fuel proc incoming_refs
  end.

Fixpoint binder_deferred_release_refs (fuel : nat) (proc : nat) : kernel unit :=
  p ← get_proc proc;
  match refs_by_desc p, fuel with
  | [], _ => mret tt
  | _ :: _, O => out_of_fuel
  | (_, ref) :: _, S fuel =>
      binder_cleanup_ref ref;;
      binder_free_ref ref;;
      binder_deferred_release_refs fuel proc
  end.

Definition binder_deferred_release (proc : nat) : kernel unit :=
  p ← get_proc proc;
  BUG_ON (bool_decide (is_Some (files p)));;
  c ← get_context (context p);
  mgr_is_ours ←
    (match binder_context_mgr_node c with
     | Some node =>
         n ← get_node node;
         mret (bool_decide (node_proc n = Some proc))
     | None => mret false
     end);
  (if mgr_is_ours : bool
   then upd_context (context p) (set_binder_context_mgr_node None)
   else mret tt);;
  upd_proc proc (λ p, set_proc_tmp_ref (proc_tmp_ref p + 1) p);;
  upd_proc proc (set_proc_is_dead true);;
  binder_deferred_release_threads (length (proc_threads p)) proc;;
  p ← get_proc proc;
  binder_deferred_release_nodes (length (proc_nodes p)) proc 0;;
  p ← get_proc proc;
  binder_deferred_release_refs (length (refs_by_desc p)) proc;;
  binder_release_work proc (proc_todo proc);;
  binder_release_work proc (proc_delivered_death proc);;
  binder_proc_dec_tmpref proc.

(** ** The BINDER_WRITE_READ ioctl *)

(** [size] is [_IOC_SIZE(cmd)] and [non_block] is
    [filp->f_flags & O_NONBLOCK]. *)
Definition binder_ioctl_write_read (proc thread : nat) (size : Z) (ubuf : Z)
    (non_block : bool) : kernel (option errno) :=
  if bool_decide (size ≠ sizeof_binder_write_read) then mret (Some EINVAL)
  else
    match copy_bwr_from_user ubuf with
    | None => mret (Some EFAULT)
    | Some bwr =>
        w ← (if bool_decide (0 < write_size bwr) then
               '(ret, consumed) ← binder_thread_write proc thread (write_buffer bwr)
                                    (write_size bwr) (write_consumed bwr);
               let bwr := set_write_consumed consumed bwr in
               match ret with
               | Some e =>
                   fault ← put_user (U_bwr (set_read_consumed 0 bwr)) ubuf;
                   mret (inl (if fault : bool then EFAULT else e))
               | None => mret (inr bwr)
               end
             else mret (inr bwr));
        match w with
        | inl e => mret (Some e)
        | inr bwr =>
            r ← (if bool_decide (0 < read_size bwr) then
                   '(ret, consumed) ← binder_thread_read proc thread (read_buffer bwr)
                                        (read_size bwr) (read_consumed bwr) non_block;
                   let bwr := set_read_consumed consumed bwr in
                   empty ← binder_worklist_empty proc (proc_todo proc);
                   (if empty : bool then mret tt else wake_up_interruptible (proc_todo proc));;
                   match ret with
                   | Some e =>
                       fault ← put_user (U_bwr bwr) ubuf;
                       mret (inl (if fault : bool then EFAULT else e))
                   | None => mret (inr bwr)
                   end
                 else mret (inr bwr));
            match r with
            | inl e => mret (Some e)
            | inr bwr =>
                fault ← put_user (U_bwr bwr) ubuf;
                mret (if fault : bool then Some EFAULT else None)
            end
        end
    end.

End driver.

(** ** The entry points: [binder_ioctl], [binder_poll], [binder_flush] *)

(** The [cmd] values of the [switch] of [binder_ioctl]. *)
Inductive binder_ioctl_cmd : Type :=
  | BINDER_WRITE_READ
  | BINDER_SET_MAX_THREADS
  | BINDER_SET_CONTEXT_MGR
  | BINDER_THREAD_EXIT
  | BINDER_VERSION.

#[global] Instance binder_ioctl_cmd_eq_dec : EqDecision binder_ioctl_cmd.
Proof. solve_decision. Defined.

(** What [binder_ioctl] takes from the ioctl headers: which command a
    [cmd] word is, [_IOC_SIZE(cmd)], [sizeof(struct binder_version)] and
    the protocol version; and from [copy_from_user], what a copy that
    faults leaves in a 32-bit destination that held [old]. *)
Class binder_ioctl_abi : Type := {
  ioctl_of_u32 : Z → option binder_ioctl_cmd;
  _IOC_SIZE : Z → Z;
  sizeof_binder_version : Z;
  BINDER_CURRENT_PROTOCOL_VERSION : Z;
  copy_from_user_left : Z → Z → Z
}.

Definition POLLIN : Z := 0x0001.

Section entry.
Context `{!binder_uapi, !kernel_env, !binder_ioctl_abi}.

(** [current_pid] is [current->pid]. *)
Definition binder_get_thread (proc : nat) (current_pid : Z) : kernel (option nat) :=
  p ← get_proc proc;
  match rb_search current_pid (proc_threads p) with
  | Some thread => mret (Some thread)
  | None =>
      a ← kzalloc;
      match a with
      | None => mret None
      | Some thread =>
          put_thread thread
            {| thread_proc := proc;
               thread_pid := current_pid;
               looper := 0;
               looper_need_return := true;
               transaction_stack := None;
               thread_todo_list := [];
               return_error :=
                 Build_binder_error (Build_binder_work None BINDER_WORK_RETURN_ERROR) BR_OK;
               reply_error :=
                 Build_binder_error (Build_binder_work None BINDER_WORK_RETURN_ERROR) BR_OK;
               thread_tmp_ref := 0;
               thread_is_dead := false |};;
          upd_proc proc (λ p,
            set_proc_threads (rb_insert current_pid thread (proc_threads p)) p);;
          mret (Some thread)
      end
  end.

(** [poll_wait] puts the task on a wait queue and returns. *)
Definition poll_wait (wq : worklist) : kernel unit := mret tt.

Definition binder_poll (proc : nat) (current_pid : Z) : kernel Z :=
  thread ← binder_get_thread proc current_pid;
  thread ← deref_opt thread;
  th ← get_thread thread;
  empty ← binder_worklist_empty proc (thread_todo thread);
  let wait_for_proc_work := bool_decide (transaction_stack th = None) && empty in
  if wait_for_proc_work then
    has_work ← binder_has_proc_work proc thread;
    if has_work : bool then mret POLLIN
    else
      poll_wait (proc_todo proc);;
      has_work ← binder_has_proc_work proc thread;
      if has_work : bool then mret POLLIN else mret 0
  else
    has_work ← binder_has_thread_work thread;
    if has_work : bool then mret POLLIN
    else
      poll_wait (thread_todo thread);;
      has_work ← binder_has_thread_work thread;
      if has_work : bool then mret POLLIN else mret 0.

(** The [switch (cmd)] of [binder_ioctl]: the value of [ret], and whether
    [thread] is still the thread and not NULL. *)
Definition binder_ioctl_cmd_switch (proc thread : nat) (cmd arg : Z) (non_block : bool)
    : kernel (option errno * bool) :=
  match ioctl_of_u32 cmd with
  | Some BINDER_WRITE_READ =>
      ret ← binder_ioctl_write_read proc thread (_IOC_SIZE cmd) arg non_block;
      mret (ret, true)
  | Some BINDER_SET_MAX_THREADS =>
      match get_user_u32 arg with
      | None =>
          upd_proc proc (λ p, set_max_threads (s32 (copy_from_user_left arg (max_threads p))) p);;
          mret (Some EINVAL, true)
      | Some v => upd_proc proc (set_max_threads (s32 v));; mret (None, true)
      end
  | Some BINDER_SET_CONTEXT_MGR =>
      ret ← binder_ioctl_set_ctx_mgr proc;
      mret (ret, true)
  | Some BINDER_THREAD_EXIT =>
      binder_thread_release proc thread;;
      mret (None, false)
  | Some BINDER_VERSION =>
      if bool_decide (_IOC_SIZE cmd ≠ sizeof_binder_version) then mret (Some EINVAL, true)
      else
        fault ← put_user (U_ptr BINDER_CURRENT_PROTOCOL_VERSION) arg;
        mret (if fault : bool then Some EINVAL else None, true)
  | None => mret (Some EINVAL, true)
  end.

(** [binder_ioctl], for the task [current_pid] on the file of [proc].
    When the first wait for [binder_stop_on_user_error] is interrupted,
    the call returns -ERESTARTSYS through [err_unlocked], before it has
    a thread; the value of the wait at [err:] is not looked at.  The
    [pr_info] line of a failing call is not kept. *)
Definition binder_ioctl (proc : nat) (current_pid : Z) (cmd arg : Z) (non_block : bool)
    : kernel (option errno) :=
  ret ← binder_wait_user_error;
  match ret with
  | Some e => mret (Some e)
  | None =>
      thread ← binder_get_thread proc current_pid;
      match thread with
      | None =>
          binder_wait_user_error;;
          mret (Some ENOMEM)
      | Some thread =>
          '(ret, alive) ← binder_ioctl_cmd_switch proc thread cmd arg non_block;
          (if alive : bool then upd_thread thread (set_looper_need_return false) else mret tt);;
          binder_wait_user_error;;
          mret ret
      end
  end.

(** The [for] of [binder_deferred_flush], over the threads in the order
    of their pids; the result is [wake_count]. *)
Fixpoint binder_deferred_flush_threads (l : list (Z * nat)) (wake_count : Z) : kernel Z :=
  match l with
  | [] => mret wake_count
  | (_, thread) :: l =>
      upd_thread thread (set_looper_need_return true);;
      th ← get_thread thread;
      if looper_is th BINDER_LOOPER_STATE_WAITING then
        wake_up_interruptible (thread_todo thread);;
        binder_deferred_flush_threads l (wake_count + 1)
      else binder_deferred_flush_threads l wake_count
  end.

Definition binder_deferred_flush (proc : nat) : kernel unit :=
  p ← get_proc proc;
  binder_deferred_flush_threads (proc_threads p) 0;;
  wake_up_interruptible (proc_todo proc).

End entry.

(** ** A concrete kernel

    The constants of the uapi header on a 64-bit build, and a kernel that
    lets everything through, for the examples below. *)

Definition bc_abi64 (cmd : Z) : option binder_driver_command_protocol :=
  if decide (cmd = 0x40406300) then Some BC_TRANSACTION
  else if decide (cmd = 0x40406301) then Some BC_REPLY
  else if decide (cmd = 0x40046302) then Some BC_ACQUIRE_RESULT
  else if decide (cmd = 0x40086303) then Some BC_FREE_BUFFER
  else if decide (cmd = 0x40046304) then Some BC_INCREFS
  else if decide (cmd = 0x40046305) then Some BC_ACQUIRE
  else if decide (cmd = 0x40046306) then Some BC_RELEASE
  else if decide (cmd = 0x40046307) then Some BC_DECREFS
  else if decide (cmd = 0x40106308) then Some BC_INCREFS_DONE
  else if decide (cmd = 0x40106309) then Some BC_ACQUIRE_DONE
  else if decide (cmd = 0x4008630a) then Some BC_ATTEMPT_ACQUIRE
  else if decide (cmd = 0x630b) then Some BC_REGISTER_LOOPER
  else if decide (cmd = 0x630c) then Some BC_ENTER_LOOPER
  else if decide (cmd = 0x630d) then Some BC_EXIT_LOOPER
  else if decide (cmd = 0x400c630e) then Some BC_REQUEST_DEATH_NOTIFICATION
  else if decide (cmd = 0x400c630f) then Some BC_CLEAR_DEATH_NOTIFICATION
  else if decide (cmd = 0x40086310) then Some BC_DEAD_BINDER_DONE
  else if decide (cmd = 0x40486311) then Some BC_TRANSACTION_SG
  else if decide (cmd = 0x40486312) then Some BC_REPLY_SG
  else None.

Definition abi64 : binder_uapi :=
  {| TF_ONE_WAY := 0x01; TF_ACCEPT_FDS := 0x10;
     FLAT_BINDER_FLAG_PRIORITY_MASK := 0xff; FLAT_BINDER_FLAG_ACCEPTS_FDS := 0x100;
     BINDER_BUFFER_FLAG_HAS_PARENT := 0x01;
     sizeof_binder_object_header := 4; sizeof_flat_binder_object := 24;
     sizeof_binder_fd_object := 24; sizeof_binder_buffer_object := 40;
     sizeof_binder_fd_array_object := 32; sizeof_binder_transaction_data := 64;
     sizeof_binder_transaction_data_sg := 72; sizeof_binder_write_read := 48;
     bc_of_u32 := bc_abi64 |}.

(** User memory is the maps: 32-bit words, 64-bit words, transaction
    structs and ioctl arguments by address, and one payload; every byte
    reads as zero. *)
Definition permissive_kernel (words32 words64 : gmap Z Z)
    (trs : gmap Z binder_transaction_data) (payload : gmap Z binder_object)
    (bwrs : gmap Z binder_write_read) : kernel_env :=
  {| can_nice := λ _, true; rlimit_nice := 0; MIN_NICE := -20; MAX_NICE := 19;
     signal_pending := false;
     security_binder_set_context_mgr := λ _, None;
     security_binder_transaction := λ _ _, None;
     security_binder_transfer_binder := λ _ _, None;
     security_binder_transfer_file := λ _ _ _, None;
     task_euid := λ _, 1000;
     kzalloc_fails := λ _, false;
     get_user_u32 := λ a, words32 !! a;
     get_user_u64 := λ a, words64 !! a;
     copy_tr_from_user := λ a, trs !! a;
     copy_tr_sg_from_user := λ a, (λ tr, (tr, 64)) <$> trs !! a;
     copy_bwr_from_user := λ a, bwrs !! a;
     copy_objects_from_user := λ _ _, Some payload;
     get_user_u8 := λ _, Some 0;
     put_user_ok := λ _, true;
     fget := λ _ _, None;
     __alloc_fd := λ _, None;
     binder_alloc_reserve := λ _ _ _ _ _, inr 0x10000 |}.

Definition new_error : binder_error :=
  Build_binder_error (Build_binder_work None BINDER_WORK_RETURN_ERROR) BR_OK.

(** A thread as [binder_get_thread] makes it, and a process as
    [binder_open] makes it, in context 0. *)
Definition new_thread (proc : nat) (pid : Z) : binder_thread :=
  Build_binder_thread proc pid 0 true None [] new_error new_error 0 false.

Definition new_proc (pid : Z) (tsk : nat) (threads : list (Z * nat)) : binder_proc :=
  Build_binder_proc threads [] [] ∅ pid tsk None false [] [] 15 0 0 0 0 0 [] 0x7000 0%nat.

Definition empty_state : binder_state :=
  {| st_contexts := {[ 0%nat := Build_binder_context None None ]};
     st_procs := ∅; st_threads := ∅; st_nodes := ∅; st_refs := ∅; st_deaths := ∅;
     st_transactions := ∅; st_tcompletes := ∅; st_buffers := ∅;
     binder_dead_nodes := []; binder_last_id := 0; binder_stop_on_user_error := 0;
     binder_transaction_log_failed := []; st_log := []; st_brk := 100; st_nice := 0;
     st_fds := ∅; st_user := [] |}.

(** Two processes with one thread each: 1 with thread 11, 2 with thread 21. *)
Definition two_procs : binder_state :=
  set_st_threads {[ 11%nat := new_thread 1 100; 21%nat := new_thread 2 200 ]}
    (set_st_procs {[ 1%nat := new_proc 100 1 [(100, 11%nat)];
                     2%nat := new_proc 200 2 [(200, 21%nat)] ]} empty_state).

Definition quiet_kernel : kernel_env := permissive_kernel ∅ ∅ ∅ ∅ ∅.

Definition empty_tr : binder_transaction_data :=
  Build_binder_transaction_data 0 0 0 0 0 0 0 0 0 0.

(** Thread 11 has transaction 70 on its stack, which came in to it from
    thread 21; the stack of thread 21 is empty. *)
Definition reply_state_bad_target : binder_state :=
  set_st_transactions
    {[ 70%nat := Build_binder_transaction 7 (Build_binder_work None BINDER_WORK_TRANSACTION)
                   (Some 21%nat) None (Some 1%nat) (Some 11%nat) None true None 0 0 0 0 1000 ]}
    (set_st_threads
       {[ 11%nat := set_transaction_stack (Some 70%nat) (new_thread 1 100);
          21%nat := new_thread 2 200 ]} two_procs).

(** A write buffer of one word at 0x5000 holding BC_ATTEMPT_ACQUIRE, and
    the BINDER_WRITE_READ argument at 0x4000 that submits it. *)
Definition attempt_acquire_bwr : binder_write_read :=
  Build_binder_write_read 4 0 0x5000 0 0 0.

Definition attempt_acquire_kernel : kernel_env :=
  permissive_kernel {[ 0x5000 := 0x4008630a ]} ∅ ∅ ∅ {[ 0x4000 := attempt_acquire_bwr ]}.

(** A node of process [proc] for the object at [ptr], as
    [binder_new_node] leaves it, and the node SET_CONTEXT_MGR makes of it. *)
Definition plain_node (id : Z) (proc : nat) (ptr : Z) : binder_node :=
  Build_binder_node id (Build_binder_work None BINDER_WORK_NODE) (Some proc) []
    0 0 0 0 ptr 0 false false false false false 0 false [].

Definition mgr_node (id : Z) (proc : nat) : binder_node :=
  set_has_weak_ref true (set_has_strong_ref true
    (set_local_strong_refs 1 (set_local_weak_refs 1 (plain_node id proc 0)))).

(** Process 2 is the context manager, with node 50. *)
Definition mgr_state : binder_state :=
  set_st_contexts {[ 0%nat := Build_binder_context (Some 50%nat) (Some 1000) ]}
    (set_st_nodes {[ 50%nat := mgr_node 1 2 ]}
       (set_st_procs {[ 1%nat := new_proc 100 1 [(100, 11%nat)];
                        2%nat := set_proc_nodes [(0, 50%nat)] (new_proc 200 2 [(200, 21%nat)]) ]}
          two_procs)).

Definition held_ref (id handle : Z) (proc node : nat) : binder_ref :=
  Build_binder_ref (Build_binder_ref_data id handle 1 1) (Some proc) (Some node) None.

(** Process 1 holds handles 1 and 3, on nodes 51 and 53 of process 2;
    node 52 of process 2 has no reference yet, and 35 is a fresh
    [struct binder_ref]. *)
Definition handles_state : binder_state :=
  set_st_refs {[ 31%nat := held_ref 5 1 1 51; 33%nat := held_ref 6 3 1 53; 35%nat := zero_ref ]}
    (set_st_nodes
       {[ 50%nat := mgr_node 1 2;
          51%nat := set_internal_strong_refs 1 (set_node_refs [31%nat] (plain_node 2 2 0x5100));
          52%nat := plain_node 3 2 0x5200;
          53%nat := set_internal_strong_refs 1 (set_node_refs [33%nat] (plain_node 4 2 0x5300)) ]}
       (set_st_procs
          {[ 1%nat := set_refs_by_node {[ 51%nat := 31%nat; 53%nat := 33%nat ]}
                        (set_refs_by_desc [(1, 31%nat); (3, 33%nat)]
                           (new_proc 100 1 [(100, 11%nat)]));
             2%nat := set_proc_nodes [(0, 50%nat); (0x5100, 51%nat); (0x5200, 52%nat);
                                      (0x5300, 53%nat)]
                        (new_proc 200 2 [(200, 21%nat)]) ]}
          (set_binder_last_id 6 mgr_state))).

(** As [handles_state], but the owner of node 52 has been told that the
    node is held strongly and weakly. *)
Definition unneeded_node_state : binder_state :=
  set_st_nodes
    (<[52%nat := set_has_weak_ref true (set_has_strong_ref true (plain_node 3 2 0x5200))]>
       (st_nodes handles_state)) handles_state.

(** User memory with the 32-bit word 0 at 0x5000: the handle that
    BC_INCREFS, BC_ACQUIRE, BC_RELEASE and BC_DECREFS name. *)
Definition handle_0_kernel : kernel_env :=
  permissive_kernel {[ 0x5000 := 0 ]} ∅ ∅ ∅ ∅.

(** Thread 11 has two items to do: death notification 60, of type
    BINDER_WORK_DEAD_BINDER, and behind it the completion 61. *)
Definition dead_binder_state : binder_state :=
  set_st_deaths
    {[ 60%nat := Build_binder_ref_death
                   (Build_binder_work (Some (thread_todo 11)) BINDER_WORK_DEAD_BINDER) 0xdead ]}
    (set_st_tcompletes
       {[ 61%nat := Build_binder_work (Some (thread_todo 11)) BINDER_WORK_TRANSACTION_COMPLETE ]}
       (set_st_threads
          {[ 11%nat := set_thread_todo_list [W_death 60; W_tcomplete 61] (new_thread 1 100);
             21%nat := new_thread 2 200 ]} two_procs)).

(** A kernel as [quiet_kernel], but for a task that may not go below
    nice 0: RLIMIT_NICE is 20. *)
Definition rlimit_kernel : kernel_env :=
  let k := quiet_kernel in
  {| can_nice := λ nice, bool_decide (0 ≤ nice); rlimit_nice := 0; MIN_NICE := -20;
     MAX_NICE := 19; signal_pending := false;
     security_binder_set_context_mgr := @security_binder_set_context_mgr k;
     security_binder_transaction := @security_binder_transaction k;
     security_binder_transfer_binder := @security_binder_transfer_binder k;
     security_binder_transfer_file := @security_binder_transfer_file k;
     task_euid := @task_euid k;
     kzalloc_fails := @kzalloc_fails k;
     get_user_u32 := @get_user_u32 k;
     get_user_u64 := @get_user_u64 k;
     copy_tr_from_user := @copy_tr_from_user k;
     copy_tr_sg_from_user := @copy_tr_sg_from_user k;
     copy_bwr_from_user := @copy_bwr_from_user k;
     copy_objects_from_user := @copy_objects_from_user k;
     get_user_u8 := @get_user_u8 k;
     put_user_ok := @put_user_ok k;
     fget := @fget k;
     __alloc_fd := @__alloc_fd k;
     binder_alloc_reserve := @binder_alloc_reserve k |}.

(** As [quiet_kernel], but for a task whose RLIMIT_NICE is not set: it
    may take no nice value, and the limit stands for nice 20. *)
Definition no_rlimit_kernel : kernel_env :=
  let k := quiet_kernel in
  {| can_nice := λ nice, bool_decide (20 ≤ nice); rlimit_nice := 20; MIN_NICE := -20;
     MAX_NICE := 19; signal_pending := false;
     security_binder_set_context_mgr := @security_binder_set_context_mgr k;
     security_binder_transaction := @security_binder_transaction k;
     security_binder_transfer_binder := @security_binder_transfer_binder k;
     security_binder_transfer_file := @security_binder_transfer_file k;
     task_euid := @task_euid k;
     kzalloc_fails := @kzalloc_fails k;
     get_user_u32 := @get_user_u32 k;
     get_user_u64 := @get_user_u64 k;
     copy_tr_from_user := @copy_tr_from_user k;
     copy_tr_sg_from_user := @copy_tr_sg_from_user k;
     copy_bwr_from_user := @copy_bwr_from_user k;
     copy_objects_from_user := @copy_objects_from_user k;
     get_user_u8 := @get_user_u8 k;
     put_user_ok := @put_user_ok k;
     fget := @fget k;
     __alloc_fd := @__alloc_fd k;
     binder_alloc_reserve := @binder_alloc_reserve k |}.

(** Thread 11 of process 1, at nice -10, has sent transaction 70 to node
    50 of process 2, whose [min_priority] is 0; it is in buffer 80 and on
    the todo list of thread 21, which runs at nice 5. *)
Definition delivery_transaction : struct_binder_transaction :=
  Build_binder_transaction 7 (Build_binder_work (Some (thread_todo 21)) BINDER_WORK_TRANSACTION)
    (Some 11%nat) None (Some 2%nat) (Some 21%nat) None true (Some 80%nat) 1 0 (-10) 0 1000.

Definition delivery_buffer : binder_buffer :=
  Build_binder_buffer 0x10000 0 0 false false 8 (Some 70%nat) (Some 50%nat) ∅ [] ∅.

Definition delivery_state : binder_state :=
  set_st_nice 5
    (set_st_transactions {[ 70%nat := delivery_transaction ]}
       (set_st_buffers {[ 80%nat := delivery_buffer ]}
          (set_st_threads
             {[ 11%nat := set_transaction_stack (Some 70%nat) (new_thread 1 100);
                21%nat := set_thread_todo_list [W_transaction 70] (new_thread 2 200) ]}
             (set_st_procs
                {[ 1%nat := new_proc 100 1 [(100, 11%nat)];
                   2%nat := set_alloc_buffers [80%nat]
                              (set_proc_nodes [(0, 50%nat)] (new_proc 200 2 [(200, 21%nat)])) ]}
                mgr_state)))).

(** Node 55 of process 2 has an asynchronous transaction out, in buffer
    80, which its user may free, and transaction 71 waiting on its
    [async_todo]; transaction 72, one-way as well, is about to be queued,
    with completion 90 for its sender, thread 11. *)
Definition async_node : binder_node :=
  set_has_async_transaction true
    (set_async_todo [W_transaction 71]
       (set_has_weak_ref true
          (set_has_strong_ref true (set_local_strong_refs 3 (plain_node 9 2 0x5500))))).

Definition async_transaction_71 : struct_binder_transaction :=
  Build_binder_transaction 11
    (Build_binder_work (Some (node_async_todo 55)) BINDER_WORK_TRANSACTION)
    None None (Some 2%nat) None None false (Some 81%nat) 1 1 0 0 1000.

Definition async_transaction_72 : struct_binder_transaction :=
  Build_binder_transaction 12 zero_work None None (Some 2%nat) None None false (Some 82%nat)
    1 1 0 0 1000.

Definition async_buffer (data id : Z) (free : bool) (t : option nat) : binder_buffer :=
  Build_binder_buffer data 0 0 free true id t (Some 55%nat) ∅ [] ∅.

Definition async_state : binder_state :=
  set_st_nodes {[ 55%nat := async_node ]}
    (set_st_buffers
       {[ 80%nat := async_buffer 0x10000 8 true None;
          81%nat := async_buffer 0x10100 9 false (Some 71%nat);
          82%nat := async_buffer 0x10200 10 false (Some 72%nat) ]}
       (set_st_transactions
          {[ 71%nat := async_transaction_71; 72%nat := async_transaction_72 ]}
          (set_st_tcompletes {[ 90%nat := zero_work ]}
             (set_st_procs
                {[ 1%nat := new_proc 100 1 [(100, 11%nat)];
                   2%nat := set_alloc_buffers [80%nat; 81%nat; 82%nat]
                              (set_proc_nodes [(0x5500, 55%nat)]
                                 (new_proc 200 2 [(200, 21%nat)])) ]}
                two_procs)))).

(** User memory with the address of the data of buffer 80, as process 2
    sees it, at 0x5000. *)
Definition free_buffer_kernel : kernel_env :=
  permissive_kernel ∅ {[ 0x5000 := 0x17000 ]} ∅ ∅ ∅.

(** Payloads of three objects with a pointer object of 16 bytes in
    front, at offset 0 of the data area.  In the first, an array of no
    file descriptors at offset 8 of the pointer object is followed by a
    pointer object that hangs at offset 8 as well.  In the second, two
    pointer objects hang at the offsets 0 and 8; in the third, at 8 and
    then at 0. *)
Definition ptr_object (flags length parent parent_offset : Z) : binder_object :=
  Obj_ptr (Build_binder_buffer_object flags 0x9000 length parent parent_offset).

Definition same_offset_payload : gmap Z binder_object :=
  {[ 0 := ptr_object 0 16 0 0;
     40 := Obj_fda (Build_binder_fd_array_object 0 0 8);
     72 := ptr_object 1 8 0 8 ]}.

Definition ordered_payload : gmap Z binder_object :=
  {[ 0 := ptr_object 0 16 0 0; 40 := ptr_object 1 8 0 0; 80 := ptr_object 1 8 0 8 ]}.

Definition decreasing_payload : gmap Z binder_object :=
  {[ 0 := ptr_object 0 16 0 0; 40 := ptr_object 1 8 0 8; 80 := ptr_object 1 8 0 0 ]}.

(** A call to handle 0 with a payload of [data_size] bytes at 0x8000 and
    three offsets at 0x8100, and user memory holding the payload and the
    offsets 0, [o1] and [o2]. *)
Definition fixup_tr (data_size : Z) : binder_transaction_data :=
  Build_binder_transaction_data 0 0 1 0 0 0 data_size 24 0x8000 0x8100.

Definition fixup_kernel (payload : gmap Z binder_object) (o1 o2 : Z) : kernel_env :=
  permissive_kernel ∅ {[ 0x8100 := 0; 0x8108 := o1; 0x8110 := o2 ]} ∅ payload ∅.

(** The state at the start of the translation loop for such a call from
    thread 11: transaction 100 to process 2, with buffer 102 holding the
    payload and the offsets, and the locals of the loop for a data area
    of 120 bytes at 0x10000. *)
Definition fixup_transaction : struct_binder_transaction :=
  Build_binder_transaction 1 zero_work (Some 11%nat) None (Some 2%nat) None None false
    (Some 102%nat) 1 0 0 0 1000.

Definition fixup_buffer (payload : gmap Z binder_object) (offsets : list Z) : binder_buffer :=
  Build_binder_buffer 0x10000 120 24 false false 1 (Some 100%nat) (Some 50%nat)
    payload offsets ∅.

Definition fixup_state (payload : gmap Z binder_object) (offsets : list Z) : binder_state :=
  set_st_transactions {[ 100%nat := fixup_transaction ]}
    (set_st_buffers {[ 102%nat := fixup_buffer payload offsets ]} mgr_state).

Definition fixup_locals : binder_fixup_cursor := Build_binder_fixup_cursor 0 None 0 65680.

(** The ioctl numbers of the uapi header on a 64-bit build, and a
    [copy_from_user] that zeroes the destination when it faults. *)
Definition ioctl_abi64 : binder_ioctl_abi :=
  {| ioctl_of_u32 := λ cmd,
       if decide (cmd = 0xc0306201) then Some BINDER_WRITE_READ
       else if decide (cmd = 0x40046205) then Some BINDER_SET_MAX_THREADS
       else if decide (cmd = 0x40046207) then Some BINDER_SET_CONTEXT_MGR
       else if decide (cmd = 0x40046208) then Some BINDER_THREAD_EXIT
       else if decide (cmd = 0xc0046209) then Some BINDER_VERSION
       else None;
     _IOC_SIZE := λ cmd, Z.land (Z.shiftr cmd 16) 0x3fff;
     sizeof_binder_version := 4;
     BINDER_CURRENT_PROTOCOL_VERSION := 8;
     copy_from_user_left := λ _ _, 0 |}.

(** User memory with the 32-bit word 4 at 0x5000: the argument of
    BINDER_SET_MAX_THREADS. *)
Definition max_threads_kernel : kernel_env :=
  permissive_kernel {[ 0x5000 := 4 ]} ∅ ∅ ∅ ∅.

(** A call to the handle [handle], without payload. *)
Definition call_tr (handle : Z) : binder_transaction_data :=
  Build_binder_transaction_data handle 0 1 0 0 0 0 0 0x8000 0x8100.

(** As [handles_state], but process 2 has died and left node 51, which
    process 1 holds as handle 1, without a process. *)
Definition dead_node : binder_node :=
  set_node_proc None (set_internal_strong_refs 1 (set_node_refs [31%nat] (plain_node 2 2 0x5100))).

Definition dead_node_state : binder_state :=
  set_st_nodes (<[ 51%nat := dead_node ]> (st_nodes handles_state)) handles_state.

(** As [two_procs], but thread 11 has been through an ioctl: it need not
    return to the user. *)
Definition idle_state : binder_state :=
  set_st_threads
    {[ 11%nat := set_looper_need_return false (new_thread 1 100); 21%nat := new_thread 2 200 ]}
    two_procs.

(** A binder object for the address 0x5100, with the cookie 0x77. *)
Definition local_object : flat_binder_object :=
  Build_flat_binder_object BINDER_TYPE_BINDER 0 0x5100 0x77.

(** The manager of context 0, of uid 1000, is gone, and the task of
    process 1 runs with euid 2000. *)
Definition no_mgr_state : binder_state :=
  set_st_contexts {[ 0%nat := Build_binder_context None (Some 1000) ]} two_procs.

Definition other_uid_kernel : kernel_env :=
  let k := quiet_kernel in
  {| can_nice := @can_nice k; rlimit_nice := @rlimit_nice k; MIN_NICE := @MIN_NICE k;
     MAX_NICE := @MAX_NICE k; signal_pending := @signal_pending k;
     security_binder_set_context_mgr := @security_binder_set_context_mgr k;
     security_binder_transaction := @security_binder_transaction k;
     security_binder_transfer_binder := @security_binder_transfer_binder k;
     security_binder_transfer_file := @security_binder_transfer_file k;
     task_euid := λ tsk, if decide (tsk = 1%nat) then 2000 else 1000;
     kzalloc_fails := @kzalloc_fails k;
     get_user_u32 := @get_user_u32 k;
     get_user_u64 := @get_user_u64 k;
     copy_tr_from_user := @copy_tr_from_user k;
     copy_tr_sg_from_user := @copy_tr_sg_from_user k;
     copy_bwr_from_user := @copy_bwr_from_user k;
     copy_objects_from_user := @copy_objects_from_user k;
     get_user_u8 := @get_user_u8 k;
     put_user_ok := @put_user_ok k;
     fget := @fget k;
     __alloc_fd := @__alloc_fd k;
     binder_alloc_reserve := @binder_alloc_reserve k |}.

(** As [handles_state], with transaction 70 on its way to process 1 and
    transaction 71 on its way to process 2. *)
Definition round_trip_state : binder_state :=
  set_st_transactions
    {[ 70%nat := Build_binder_transaction 7 zero_work (Some 21%nat) None (Some 1%nat) None None
                   true None 1 0 0 0 1000;
       71%nat := Build_binder_transaction 8 zero_work (Some 11%nat) None (Some 2%nat) None None
                   true None 1 0 0 0 1000 ]}
    handles_state.

(** The strong binder object of process 2 at 0x5100, the address of its
    node 51. *)
Definition object_5100 : flat_binder_object :=
  Build_flat_binder_object BINDER_TYPE_BINDER 0 0x5100 0.

(** Thread 11 has the error BR_FAILED_REPLY to report. *)
Definition queued_error : binder_error :=
  Build_binder_error
    (Build_binder_work (Some (thread_todo 11)) BINDER_WORK_RETURN_ERROR) BR_FAILED_REPLY.

Definition error_queued_state : binder_state :=
  set_st_threads
    {[ 11%nat := set_thread_todo_list [W_return_error 11]
                   (set_return_error queued_error (new_thread 1 100));
       21%nat := new_thread 2 200 ]}
    two_procs.

(** As [handles_state], but node 51 of process 2 has told its owner of
    the strong reference and waits for the answer; and user memory with
    the address 0x5100 and the cookie 0 at 0x5000. *)
Definition pending_node : binder_node :=
  set_pending_strong_ref true
    (set_has_strong_ref true
       (set_local_strong_refs 1
          (set_internal_strong_refs 1 (set_node_refs [31%nat] (plain_node 2 2 0x5100))))).

Definition pending_state : binder_state :=
  set_st_nodes (<[ 51%nat := pending_node ]> (st_nodes handles_state)) handles_state.

Definition acquire_done_kernel : kernel_env :=
  permissive_kernel ∅ {[ 0x5000 := 0x5100; 0x5008 := 0 ]} ∅ ∅ ∅.

(** User memory with the handle 1 and the cookie 0xdead at 0x5000, and
    with the handle 1 and the cookie 0xbeef at 0x5010. *)
Definition death_kernel : kernel_env :=
  permissive_kernel {[ 0x5000 := 1; 0x5010 := 1 ]} {[ 0x5004 := 0xdead; 0x5014 := 0xbeef ]}
    ∅ ∅ ∅.

(** As [handles_state], but process 1 holds handle 1 with two strong
    counts, one of them for buffer 80, which holds the strong handle 1
    at offset 0. *)
Definition handle_object : flat_binder_object :=
  Build_flat_binder_object BINDER_TYPE_HANDLE 0 1 0.

Definition handle_buffer : binder_buffer :=
  Build_binder_buffer 0x10000 24 8 true false 8 None None
    {[ 0 := Obj_flat handle_object ]} [0] ∅.

Definition release_state : binder_state :=
  set_st_buffers {[ 80%nat := handle_buffer ]}
    (set_st_refs
       (<[ 31%nat := Build_binder_ref (Build_binder_ref_data 5 1 2 1) (Some 1%nat) (Some 51%nat)
                       None ]> (st_refs handles_state))
       handles_state).

(** Node 61 of process 2 has one reference, 36 of process 1, with the
    death notification 62 of cookie 0xdead; the releaser of process 2
    holds a temporary reference on the node. *)
Definition dying_node : binder_node :=
  set_tmp_refs 1 (set_internal_strong_refs 1 (set_node_refs [36%nat] (plain_node 9 2 0x6100))).

Definition dying_state : binder_state :=
  set_st_deaths {[ 62%nat := Build_binder_ref_death zero_work 0xdead ]}
    (set_st_refs {[ 36%nat := set_ref_death (Some 62%nat) (held_ref 7 1 1 61) ]}
       (set_st_nodes {[ 61%nat := dying_node ]} two_procs)).

(** The lowest descriptor below 1024 that a file table does not use. *)
Definition lowest_free (m : gmap Z nat) : option Z :=
  find (λ fd, bool_decide (m !! fd = None)) (Z.of_nat <$> seq 0 1024).

(** A kernel in which descriptor 3 of every task is the file 7, and the
    next descriptor of a file table is the lowest one free; and a state as
    [delivery_state], in which process 2 has the file table 9 and its
    node 50 takes file descriptors. *)
Definition fd_kernel : kernel_env :=
  let k := quiet_kernel in
  {| can_nice := @can_nice k; rlimit_nice := @rlimit_nice k; MIN_NICE := @MIN_NICE k;
     MAX_NICE := @MAX_NICE k; signal_pending := @signal_pending k;
     security_binder_set_context_mgr := @security_binder_set_context_mgr k;
     security_binder_transaction := @security_binder_transaction k;
     security_binder_transfer_binder := @security_binder_transfer_binder k;
     security_binder_transfer_file := @security_binder_transfer_file k;
     task_euid := @task_euid k;
     kzalloc_fails := @kzalloc_fails k;
     get_user_u32 := @get_user_u32 k;
     get_user_u64 := @get_user_u64 k;
     copy_tr_from_user := @copy_tr_from_user k;
     copy_tr_sg_from_user := @copy_tr_sg_from_user k;
     copy_bwr_from_user := @copy_bwr_from_user k;
     copy_objects_from_user := @copy_objects_from_user k;
     get_user_u8 := @get_user_u8 k;
     put_user_ok := @put_user_ok k;
     fget := λ _ fd, if decide (fd = 3) then Some 7%nat else None;
     __alloc_fd := lowest_free;
     binder_alloc_reserve := @binder_alloc_reserve k |}.

Definition fd_node : binder_node :=
  Build_binder_node 1 (Build_binder_work None BINDER_WORK_NODE) (Some 2%nat) []
    0 1 1 0 0 0 true false true false true 0 false [].

Definition fd_state : binder_state :=
  set_st_nodes {[ 50%nat := fd_node ]}
    (set_st_procs
       {[ 1%nat := new_proc 100 1 [(100, 11%nat)];
          2%nat := set_files (Some 9%nat)
                     (set_alloc_buffers [80%nat]
                        (set_proc_nodes [(0, 50%nat)] (new_proc 200 2 [(200, 21%nat)]))) ]}
       delivery_state).

(** Process 1 has been told of the death of a node with notification 62,
    of cookie 0xdead, which it has since cleared. *)
Definition delivered_state : binder_state :=
  set_st_deaths
    {[ 62%nat := Build_binder_ref_death
                   (Build_binder_work (Some (proc_delivered_death 1))
                      BINDER_WORK_DEAD_BINDER_AND_CLEAR) 0xdead ]}
    (set_st_procs
       {[ 1%nat := set_delivered_death [W_death 62] (new_proc 100 1 [(100, 11%nat)]);
          2%nat := new_proc 200 2 [(200, 21%nat)] ]} two_procs).

(** As [fd_state], with the descriptors 3 and 4 of the sender in the
    extra part of buffer 80, at the kernel address 0x10040, which the
    target sees at 0x17040. *)
Definition fd_array_state : binder_state :=
  set_st_buffers {[ 80%nat := set_b_sg {[ 0x10040 := 3; 0x10044 := 4 ]} delivery_buffer ]}
    fd_state.

(** Thread 11 of process 1 has called thread 21 of process 2 with
    transaction 70, which thread 21 is serving; process 2 holds handle 1
    on node 51 of process 1. *)
Definition nested_state : binder_state :=
  set_st_refs {[ 31%nat := held_ref 5 1 2 51 ]}
    (set_st_nodes {[ 51%nat := plain_node 2 1 0x5100 ]}
       (set_st_threads
          {[ 11%nat := set_transaction_stack (Some 70%nat) (new_thread 1 100);
             21%nat := set_transaction_stack (Some 70%nat) (new_thread 2 200) ]}
          (set_st_procs
             {[ 1%nat := new_proc 100 1 [(100, 11%nat)];
                2%nat := set_refs_by_desc [(1, 31%nat)] (new_proc 200 2 [(200, 21%nat)]) ]}
             delivery_state))).

(** Process 3 has opened the driver and done nothing since; it holds
    buffer 85. *)
Definition lone_state : binder_state :=
  set_st_buffers {[ 85%nat := Build_binder_buffer 0x20000 0 0 false false 9 None None ∅ [] ∅ ]}
    (set_st_procs {[ 3%nat := set_alloc_buffers [85%nat] (new_proc 300 3 []) ]} empty_state).

(** As [quiet_kernel], with a signal pending for the task. *)
Definition signal_kernel : kernel_env :=
  let k := quiet_kernel in
  {| can_nice := @can_nice k; rlimit_nice := @rlimit_nice k; MIN_NICE := @MIN_NICE k;
     MAX_NICE := @MAX_NICE k; signal_pending := true;
     security_binder_set_context_mgr := @security_binder_set_context_mgr k;
     security_binder_transaction := @security_binder_transaction k;
     security_binder_transfer_binder := @security_binder_transfer_binder k;
     security_binder_transfer_file := @security_binder_transfer_file k;
     task_euid := @task_euid k;
     kzalloc_fails := @kzalloc_fails k;
     get_user_u32 := @get_user_u32 k;
     get_user_u64 := @get_user_u64 k;
     copy_tr_from_user := @copy_tr_from_user k;
     copy_tr_sg_from_user := @copy_tr_sg_from_user k;
     copy_bwr_from_user := @copy_bwr_from_user k;
     copy_objects_from_user := @copy_objects_from_user k;
     get_user_u8 := @get_user_u8 k;
     put_user_ok := @put_user_ok k;
     fget := @fget k;
     __alloc_fd := @__alloc_fd k;
     binder_alloc_reserve := @binder_alloc_reserve k |}.

(** ** Notions the properties are stated with *)

(** [runs m s a s']: from [s] the code [m] comes back with [a], in [s']. *)
Definition runs {A} (m : kernel A) (s : binder_state) (a : A) (s' : binder_state) : Prop :=
  m s = (Val a, s').

(** [post m s Q]: from [s] the code [m] comes back, with a result and in
    a state that [Q] holds of. *)
Definition post {A} (m : kernel A) (s : binder_state) (Q : A → binder_state → Prop) : Prop :=
  ∃ a s', runs m s a s' ∧ Q a s'.

(** [preserves f m]: however [m] ends, it leaves the part [f] of the
    state as it found it. *)
Definition preserves {A X} (f : binder_state → X) (m : kernel A) : Prop :=
  ∀ s, f (m s).2 = f s.

(** The state [binder_user_error] leaves. *)
Definition user_error_state (msg : string) (s : binder_state) : binder_state :=
  set_binder_stop_on_user_error
    (if bool_decide (binder_stop_on_user_error s ≠ 0) then 2 else binder_stop_on_user_error s)
    (set_st_log (st_log s ++ [User_error msg]) s).

Section notions.
Context `{!binder_uapi, !kernel_env}.

(** The nice value of a task after [set_user_nice], when it was [old]
    before. *)
Definition user_nice (nice old : Z) : Z :=
  if bool_decide (nice < MIN_NICE) || bool_decide (nice > MAX_NICE) then old else nice.

(** What [binder_set_nice] leaves in [st_nice], in the kernel log and in
    the stop-on-user-error latch. *)
Definition nice_granted (nice old : Z) : Z :=
  user_nice (if can_nice nice then nice else rlimit_nice) old.

Definition nice_complains (nice : Z) : bool :=
  negb (can_nice nice) && negb (bool_decide (rlimit_nice ≤ MAX_NICE)).

Definition binder_set_nice_state (nice : Z) (s : binder_state) : binder_state :=
  set_binder_stop_on_user_error
    (if nice_complains nice && bool_decide (binder_stop_on_user_error s ≠ 0)
     then 2 else binder_stop_on_user_error s)
    (set_st_log
       (if nice_complains nice then st_log s ++ [User_error "RLIMIT_NICE not set"] else st_log s)
       (set_st_nice (nice_granted nice (st_nice s)) s)).

(** The nice value of the reading thread after the delivery of
    transaction [x] to node [n], when it was [nice] before. *)
Definition delivery_nice (x : struct_binder_transaction) (n : binder_node) (nice : Z) : Z :=
  if bool_decide (t_priority x < min_priority n) && negb (one_way (t_flags x))
  then nice_granted (t_priority x) nice
  else if negb (one_way (t_flags x)) || bool_decide (nice > min_priority n)
  then nice_granted (min_priority n) nice
  else nice.

(** The thread a transaction comes from is gone from the transaction, or
    it is a live thread of a process. *)
Definition sender_alive (s : binder_state) (x : struct_binder_transaction) : Prop :=
  match t_from x with
  | None => True
  | Some from =>
      ∃ fth fp, st_threads s !! from = Some fth ∧ st_procs s !! thread_proc fth = Some fp ∧
                thread_is_dead fth = false
  end.

(** Why [binder_transaction] turns a reply away with a protocol error: the
    stack of the replying thread is empty, its top entry is not a
    transaction that came in to this thread, or that entry is not the top
    of the stack of the thread it came from. *)
Inductive reply_rejection : Type :=
  | Reply_empty_stack
  | Reply_bad_stack
  | Reply_bad_target_stack.

Definition reply_rejected (s : binder_state) (thread : nat) : option reply_rejection :=
  th ← st_threads s !! thread;
  match transaction_stack th with
  | None => Some Reply_empty_stack
  | Some in_reply_to =>
      x ← st_transactions s !! in_reply_to;
      if bool_decide (t_to_thread x ≠ Some thread) then Some Reply_bad_stack
      else
        from ← t_from x;
        fth ← st_threads s !! from;
        if bool_decide ((if bool_decide (from = thread) then t_to_parent x
                         else transaction_stack fth) ≠ Some in_reply_to)
        then Some Reply_bad_target_stack else None
  end.

(** The entry under the top of the stack of a thread: [to_parent] of the
    top entry. *)
Definition stack_below_top (s : binder_state) (th : binder_thread) : option nat :=
  x ← (transaction_stack th ≫= λ t, st_transactions s !! t); t_to_parent x.

(** The command words [binder_thread_write] turns away: the two reserved
    commands, and every word that is no command of the protocol. *)
Definition bc_refused (cmd : Z) : Prop :=
  bc_of_u32 cmd = Some BC_ATTEMPT_ACQUIRE ∨ bc_of_u32 cmd = Some BC_ACQUIRE_RESULT
  ∨ bc_of_u32 cmd = None.

End notions.

(** The keys of an index, and an index in strictly increasing key order
    whose keys are [uint32_t] values not below [lo]. *)
Definition rb_keys (tree : list (Z * nat)) : list Z := tree.*1.

Fixpoint rb_ordered_from (lo : Z) (tree : list (Z * nat)) : bool :=
  match tree with
  | [] => true
  | (k, _) :: tree' => bool_decide (lo ≤ k < 2 ^ 32) && rb_ordered_from (k + 1) tree'
  end.

Definition rb_ordered (tree : list (Z * nat)) : bool := rb_ordered_from 0 tree.

(** Where the search for the handle of a new reference starts. *)
Definition first_desc (c : binder_context) (node : nat) : Z :=
  if bool_decide (Some node = binder_context_mgr_node c) then 0 else 1.

(** Whether a node is needed strongly, and weakly, as
    [binder_thread_read] works it out of the counts of the node. *)
Definition node_strong_need (n : binder_node) : bool :=
  bool_decide (internal_strong_refs n ≠ 0) || bool_decide (local_strong_refs n ≠ 0).

Definition node_weak_need (n : binder_node) : bool :=
  bool_decide (node_refs n ≠ []) || bool_decide (local_weak_refs n ≠ 0)
  || bool_decide (tmp_refs n ≠ 0) || node_strong_need n.

(** The command words among stores to user memory, in the order stored. *)
Definition emitted_cmds (stores : list (Z * user_value))
    : list binder_driver_return_protocol :=
  omap (λ st, match st.2 with U_cmd c => Some c | _ => None end) stores.

(** The records that tell the owner of a node that what it was told last
    about the node is not so any more. *)
Definition node_cmds (n : binder_node) : list binder_driver_return_protocol :=
  (if node_weak_need n && negb (has_weak_ref n) then [BR_INCREFS] else [])
  ++ (if node_strong_need n && negb (has_strong_ref n) then [BR_ACQUIRE] else [])
  ++ (if negb (node_strong_need n) && has_strong_ref n then [BR_RELEASE] else [])
  ++ (if negb (node_weak_need n) && has_weak_ref n then [BR_DECREFS] else []).

Definition sizeof_node_cmd : Z := sizeof_u32 + sizeof_binder_uintptr_t + sizeof_binder_uintptr_t.

(** [wlp m s Q]: when the code [m] comes back from [s], then with a
    result and in a state that [Q] holds of. *)
Definition wlp {A} (m : kernel A) (s : binder_state) (Q : A → binder_state → Prop) : Prop :=
  ∀ a s', m s = (Val a, s') → Q a s'.

(** [keeps P m]: however [m] ends, a state that [P] holds of is left in
    a state that [P] holds of. *)
Definition keeps {A} (P : binder_state → Prop) (m : kernel A) : Prop :=
  ∀ s, P s → P (m s).2.

(** The buffer at [buffer] is gone. *)
Definition buffer_freed (buffer : nat) (s : binder_state) : Prop :=
  st_buffers s !! buffer = None.

(** ** The fixups of a payload *)

(** What the translation of an object leaves as it is: the kind of the
    object and, of a pointer object, everything but the address. *)
Inductive object_layout : Type :=
  | Layout_flat
  | Layout_fd
  | Layout_ptr (flags length parent parent_offset : Z)
  | Layout_fda (fda : binder_fd_array_object)
  | Layout_unknown.

Definition layout_of (o : binder_object) : object_layout :=
  match o with
  | Obj_flat _ => Layout_flat
  | Obj_fd _ => Layout_fd
  | Obj_ptr bp =>
      Layout_ptr (bbo_flags bp) (bbo_length bp) (bbo_parent bp) (bbo_parent_offset bp)
  | Obj_fda fda => Layout_fda fda
  | Obj_unknown _ => Layout_unknown
  end.

Definition same_layout (b b' : binder_buffer) : Prop :=
  b_offsets b' = b_offsets b ∧ b_data_size b' = b_data_size b ∧
  ∀ off, layout_of (object_at b' off) = layout_of (object_at b off).

(** The sizes, indices and offsets of a payload are unsigned 64-bit
    numbers, as [binder_size_t] and [size_t] say. *)
Definition layout_unsigned (l : object_layout) : Prop :=
  match l with
  | Layout_ptr _ length parent parent_offset =>
      0 ≤ length < 2 ^ 64 ∧ 0 ≤ parent ∧ 0 ≤ parent_offset
  | Layout_fda fda => 0 ≤ fda_num_fds fda ∧ 0 ≤ fda_parent fda ∧ 0 ≤ fda_parent_offset fda
  | _ => True
  end.

Definition payload_unsigned (b : binder_buffer) : Prop :=
  0 ≤ b_data_size b < 2 ^ 64 ∧
  Forall (λ o, 0 ≤ o) (b_offsets b) ∧
  map_Forall (λ _ o, layout_unsigned (layout_of o)) (b_objects b).

(** What the translation of the objects leaves of the state: the
    transactions, which processes there are, and of the buffer all but
    the extra-buffers area. *)
Definition translation_frame (buffer : nat) (s : binder_state)
    : gmap nat struct_binder_transaction * gset nat *
      option (list Z * Z * gmap Z binder_object) :=
  (st_transactions s, dom (st_procs s),
   (λ b, (b_offsets b, b_data_size b, b_objects b)) <$> st_buffers s !! buffer).

(** What the translation of an object that carries no binder or handle
    leaves of the state: the processes, the threads, the nodes, the
    transactions, the log of failed transactions, and of the buffer the
    node it is for. *)
Definition plain_frame (buffer : nat) (s : binder_state) :=
  (st_procs s, st_threads s, st_nodes s, st_transactions s,
   binder_transaction_log_failed s, b_target_node <$> st_buffers s !! buffer).

(** None of the first [j] objects of the payload is a binder or a
    handle. *)
Definition plain_prefix (b : binder_buffer) (j : nat) : Prop :=
  ∀ i off, (i < j)%nat → b_offsets b !! i = Some off →
    layout_of (object_at b off) ≠ Layout_flat.

(** [s'] is [s] but for the file tables and the kernel log. *)
Definition closes_and_logs (s s' : binder_state) : Prop :=
  ∃ fds log, s' = set_st_log log (set_st_fds fds s).

Section fixups.
Context `{!binder_uapi}.

(** The object structs of the uapi header have a size. *)
Definition uapi_sizes_positive : Prop :=
  0 < sizeof_flat_binder_object ∧ 0 < sizeof_binder_fd_object ∧
  0 < sizeof_binder_buffer_object ∧ 0 < sizeof_binder_fd_array_object.

(** Where a pointer object hangs: the offset of its parent object and the
    offset in the parent that points at it. *)
Definition fixup_parent_of (b : binder_buffer) (obj : Z) : option (Z * Z) :=
  match buffer_object_at b obj with
  | Some lo =>
      if bool_decide (Z.land (bbo_flags lo) BINDER_BUFFER_FLAG_HAS_PARENT = 0) then None
      else
        match b_offsets b !! Z.to_nat (bbo_parent lo) with
        | Some p => Some (p, bbo_parent_offset lo)
        | None => None
        end
  | None => None
  end.

(** [on_frontier b last min P m]: [P] is the object at [last], with
    [m = min], or it is an ancestor of it, and then [m] is the end of the
    pointer, in [P], to the ancestor below. *)
Inductive on_frontier (b : binder_buffer) : Z → Z → Z → Z → Prop :=
  | frontier_here last min : on_frontier b last min last min
  | frontier_up last min p po P m :
      fixup_parent_of b last = Some (p, po) →
      on_frontier b p (u64 (po + sizeof_void_p)) P m →
      on_frontier b last min P m.

(** The fixup that the object at index [i] of the offsets asks for: the
    parent it writes into, where the write starts and where it ends. *)
Definition fixup_at (b : binder_buffer) (i : nat) : option (Z * Z * Z) :=
  match b_offsets b !! i with
  | Some offp =>
      match object_at b offp with
      | Obj_fda fda =>
          match b_offsets b !! Z.to_nat (fda_parent fda) with
          | Some P =>
              Some (P, fda_parent_offset fda,
                    fda_parent_offset fda + sizeof_u32 * fda_num_fds fda)
          | None => None
          end
      | Obj_ptr bp =>
          match fixup_parent_of b offp with
          | Some (P, po) => Some (P, po, po + sizeof_void_p)
          | None => None
          end
      | _ => None
      end
  | None => None
  end.

(** The object fixed up last before index [j], and the offset in it from
    which the next fixup may start: a pointer object itself, from 0 on,
    or the parent of an array of file descriptors, from the end of the
    array on. *)
Fixpoint fixup_cursor (b : binder_buffer) (j : nat) : option (Z * Z) :=
  match j with
  | O => None
  | S i =>
      match b_offsets b !! i with
      | Some offp =>
          match object_at b offp with
          | Obj_ptr _ => Some (offp, 0)
          | Obj_fda _ =>
              match fixup_at b i with
              | Some (P, _, e) => Some (P, e)
              | None => fixup_cursor b i
              end
          | _ => fixup_cursor b i
          end
      | None => fixup_cursor b i
      end
  end.

(** The order of the fixups of the first [n] objects: each goes into the
    object fixed up last or into an ancestor of it, not before the end of
    what was fixed up there; and of two fixups into one parent the later
    starts where the earlier ends, or behind. *)
Definition fixups_in_order (b : binder_buffer) (n : nat) : Prop :=
  (∀ j P s e, (j < n)%nat → fixup_at b j = Some (P, s, e) →
     ∃ L min m, fixup_cursor b j = Some (L, min) ∧ on_frontier b L min P m ∧ m ≤ s) ∧
  (∀ i j P si ei sj ej, (i < j < n)%nat →
     fixup_at b i = Some (P, si, ei) → fixup_at b j = Some (P, sj, ej) → ei ≤ sj).

(** In the words of the specification: of two fixups into one parent the
    later starts at a strictly higher offset than the earlier. *)
Definition fixups_strictly_increasing (b : binder_buffer) (n : nat) : Prop :=
  ∀ i j P si ei sj ej, (i < j < n)%nat →
    fixup_at b i = Some (P, si, ei) → fixup_at b j = Some (P, sj, ej) → si < sj.

(** The fixup of the object at index [j] starts before the end of an
    earlier fixup into the same parent. *)
Definition fixup_overlaps (b : binder_buffer) (j : nat) : Prop :=
  ∃ i P si ei sj ej, (i < j)%nat ∧ fixup_at b i = Some (P, si, ei) ∧
                     fixup_at b j = Some (P, sj, ej) ∧ sj < ei.

(** A pointer object among the first [j] of the offsets. *)
Definition verified_ptr (b : binder_buffer) (j : nat) (P : Z) : Prop :=
  ∃ i, (i < j)%nat ∧ b_offsets b !! i = Some P ∧ is_Some (buffer_object_at b P).

(** What a turn of the translation loop that succeeds has checked of the
    fixup of its object. *)
Definition fixup_checked (b : binder_buffer) (j : nat) (c : binder_fixup_cursor)
    (P s e : Z) : Prop :=
  verified_ptr b j P ∧
  0 ≤ s ≤ e ∧ e < 2 ^ 64 ∧
  ∃ L m, last_fixup_obj c = Some L ∧ on_frontier b L (last_fixup_min_off c) P m ∧ m ≤ s.

(** A turn of the loop at index [j] that succeeds, from the locals [c] to
    the locals [c']. *)
Definition step_ok (b : binder_buffer) (j : nat) (c c' : binder_fixup_cursor) : Prop :=
  ∃ offp, b_offsets b !! j = Some offp ∧ off_min c ≤ offp ∧ offp < off_min c' ∧
    match object_at b offp with
    | Obj_ptr bp =>
        last_fixup_obj c' = Some offp ∧ last_fixup_min_off c' = 0 ∧
        (Z.land (bbo_flags bp) BINDER_BUFFER_FLAG_HAS_PARENT ≠ 0 →
         is_Some (fixup_parent_of b offp)) ∧
        ∀ P s e, fixup_at b j = Some (P, s, e) → fixup_checked b j c P s e
    | Obj_fda fda =>
        ∃ P s e, fixup_at b j = Some (P, s, e) ∧
                 last_fixup_obj c' = Some P ∧ last_fixup_min_off c' = e ∧
                 fixup_checked b j c P s e
    | _ =>
        last_fixup_obj c' = last_fixup_obj c ∧
        last_fixup_min_off c' = last_fixup_min_off c
    end.

(** What holds of the locals [c] of the loop before the turn at index
    [j]: the offsets so far increase and lie below [off_min]; the cursor
    is the one of the payload; the fixups so far went into pointer
    objects verified before them and end below 2^64; no fixup so far ends
    behind the offset that the cursor allows the next one into the same
    object to start at. *)
Record fixup_inv (b : binder_buffer) (j : nat) (c : binder_fixup_cursor) : Prop := {
  inv_below : ∀ i o, (i < j)%nat → b_offsets b !! i = Some o → o < off_min c;
  inv_incr : ∀ i k oi ok, (i < k < j)%nat →
    b_offsets b !! i = Some oi → b_offsets b !! k = Some ok → oi < ok;
  inv_cursor :
    match fixup_cursor b j with
    | Some (L, m) => last_fixup_obj c = Some L ∧ last_fixup_min_off c = m
    | None => last_fixup_obj c = None
    end;
  inv_checked : ∀ i P s e, (i < j)%nat → fixup_at b i = Some (P, s, e) →
    verified_ptr b i P ∧ 0 ≤ s ≤ e ∧ e < 2 ^ 64;
  inv_parent : ∀ i offp lo, (i < j)%nat → b_offsets b !! i = Some offp →
    buffer_object_at b offp = Some lo →
    Z.land (bbo_flags lo) BINDER_BUFFER_FLAG_HAS_PARENT ≠ 0 →
    is_Some (fixup_parent_of b offp);
  inv_last : ∀ L m, fixup_cursor b j = Some (L, m) → verified_ptr b j L;
  inv_front : ∀ L min i P s e m, fixup_cursor b j = Some (L, min) →
    (i < j)%nat → fixup_at b i = Some (P, s, e) → on_frontier b L min P m → e ≤ m;
  inv_order : fixups_in_order b j
}.

(** What one turn of the loop leaves: a failure is BR_FAILED_REPLY; a
    success has checked the object at [j] and left the transactions, the
    processes and the layout of the payload as they were. *)
Definition turn_post (buffer : nat) (b : binder_buffer) (j : nat) (c : binder_fixup_cursor)
    (s : binder_state) (r : binder_failure + binder_fixup_cursor) (s' : binder_state) : Prop :=
  match r with
  | inl err => err.1 = BR_FAILED_REPLY
  | inr c' =>
      st_transactions s' = st_transactions s ∧ dom (st_procs s') = dom (st_procs s) ∧
      ∃ b', st_buffers s' !! buffer = Some b' ∧ same_layout b b' ∧ step_ok b j c c'
  end.

End fixups.

(** ** Notions for the entry points and for calls without a target *)

Section more_notions.
Context `{!binder_uapi}.

(** The size of the struct an object is. *)
Definition sizeof_object (o : binder_object) : Z :=
  match o with
  | Obj_flat _ => sizeof_flat_binder_object
  | Obj_fd _ => sizeof_binder_fd_object
  | Obj_ptr _ => sizeof_binder_buffer_object
  | Obj_fda _ => sizeof_binder_fd_array_object
  | Obj_unknown _ => 0
  end.

End more_notions.

(** The threads after [binder_deferred_flush] over the threads [l]. *)
Definition flushed_threads (l : list (Z * nat)) (m : gmap nat binder_thread)
    : gmap nat binder_thread :=
  foldl (λ m pt, alter (set_looper_need_return true) pt.2 m) m l.

(** Why a call finds no target node: the handle is one the calling
    process does not hold, or holds only weakly; or the handle is 0 and
    the context has no manager. *)
Definition call_refused (s : binder_state) (proc : nat) (tr : binder_transaction_data)
    : option binder_failure :=
  p ← st_procs s !! proc;
  if bool_decide (u32 (tr_target tr) ≠ 0) then
    match rb_search (u32 (tr_target tr)) (refs_by_desc p) with
    | None => Some (BR_FAILED_REPLY, Some EINVAL)
    | Some ref =>
        r ← st_refs s !! ref;
        if bool_decide (strong (ref_data r) = 0) then Some (BR_FAILED_REPLY, Some EINVAL)
        else None
    end
  else
    c ← st_contexts s !! context p;
    match binder_context_mgr_node c with
    | None => Some (BR_DEAD_REPLY, None)
    | Some _ => None
    end.

(** The counts of a reference are not negative. *)
Definition ref_counts_ok (r : binder_ref) : Prop :=
  0 ≤ strong (ref_data r) ∧ 0 ≤ weak (ref_data r).

Definition refs_counts_ok (s : binder_state) : Prop :=
  map_Forall (λ _ r, ref_counts_ok r) (st_refs s).

(** The looper accounting of a process: at most one spawn request is
    out, and no count is negative. *)
Definition proc_loopers_ok (p : binder_proc) : Prop :=
  0 ≤ requested_threads p ≤ 1 ∧ 0 ≤ ready_threads p ∧ 0 ≤ requested_threads_started p.

Definition loopers_ok (s : binder_state) : Prop :=
  map_Forall (λ _ p, proc_loopers_ok p) (st_procs s).

(** The context [c] has the uid [uid] on record for its manager. *)
Definition context_mgr_uid_is (c : nat) (uid : Z) (s : binder_state) : Prop :=
  ∃ x, st_contexts s !! c = Some x ∧ binder_context_mgr_uid x = Some uid.

(** What the commands of a write leave alone: the memory of the user
    and the contexts. *)
Definition write_frame (s : binder_state) : list (Z * user_value) * gmap nat binder_context :=
  (st_user s, st_contexts s).

(** What a read leaves alone: the references, the file tables and the
    contexts. *)
Definition read_frame (s : binder_state)
    : gmap nat binder_ref * gmap nat (gmap Z nat) * gmap nat binder_context :=
  (st_refs s, st_fds s, st_contexts s).

(** The thread [thread] is in the thread tree of no process. *)
Definition thread_unlisted (thread : nat) (s : binder_state) : Prop :=
  map_Forall (λ _ p, thread ∉ (proc_threads p).*2) (st_procs s).

(** The target of transaction [x] takes file descriptors: the call that
    is replied to said so, or the node that is called says so. *)
Definition target_accepts_fds `{!binder_uapi} (s : binder_state) (x : struct_binder_transaction)
    (in_reply_to : option nat) : Prop :=
  match in_reply_to with
  | Some irt =>
      ∃ xi, st_transactions s !! irt = Some xi ∧ Z.land (t_flags xi) TF_ACCEPT_FDS ≠ 0
  | None =>
      ∃ buffer b node n,
        t_buffer x = Some buffer ∧ st_buffers s !! buffer = Some b ∧
        b_target_node b = Some node ∧ st_nodes s !! node = Some n ∧ accept_fds n = true
  end.

(** The file table of a [files_struct], and what installing and closing
    a run of descriptors makes of one. *)
Definition fd_table (s : binder_state) (fs : nat) : gmap Z nat := default ∅ (st_fds s !! fs).

Definition install_fds (T : gmap Z nat) (L : list (Z * nat)) : gmap Z nat :=
  foldl (λ T e, <[e.1 := e.2]> T) T L.

Definition close_fds (T : gmap Z nat) (l : list Z) : gmap Z nat :=
  foldl (λ T fd, delete fd T) T l.

(** Each descriptor of the run was free when it was installed. *)
Fixpoint fresh_fds (T : gmap Z nat) (L : list (Z * nat)) : Prop :=
  match L with
  | [] => True
  | e :: L => T !! e.1 = None ∧ fresh_fds (<[e.1 := e.2]> T) L
  end.

(** [&fd_array[i]] *)
Definition fd_slot (fd_array : Z) (i : Z) : Z := u64 (fd_array + sizeof_u32 * i).

(** The file table that [proc] uses. *)
Definition files_of (s : binder_state) (proc : nat) : option nat :=
  st_procs s !! proc ≫= files.

(** The walk down a transaction stack from [tmp] along [from_parent]
    passes the transactions [chain], none of them sent by a live thread
    of [target_proc], and then comes to one that [from], a thread of
    [target_proc], has sent. *)
Fixpoint stack_senders (ts : gmap nat struct_binder_transaction)
    (ths : gmap nat binder_thread) (chain : list nat) (tmp : option nat)
    (target_proc from : nat) : Prop :=
  match chain with
  | [] =>
      ∃ t x fth,
        tmp = Some t ∧ ts !! t = Some x ∧ t_from x = Some from ∧
        ths !! from = Some fth ∧ thread_proc fth = target_proc
  | t :: chain =>
      tmp = Some t ∧
      ∃ x, ts !! t = Some x ∧
           match t_from x with
           | Some f => ∃ fth, ths !! f = Some fth ∧ thread_proc fth ≠ target_proc
           | None => True
           end ∧
           stack_senders ts ths chain (t_from_parent x) target_proc from
  end.

(** * Properties of the driver *)

Section proofs.
Context `{!binder_uapi, !kernel_env}.

(** ** Running driver code on a state *)

Lemma runs_ret {A} (a : A) s : runs (mret a) s a s.
Proof. reflexivity. Qed.

Lemma runs_bind {A B} (m : kernel A) (k : A → kernel B) s a s1 b s2 :
  runs m s a s1 → runs (k a) s1 b s2 → runs (m ≫= k) s b s2.
Proof. unfold runs. intros Hm Hk. cbv [mbind kernel_bind kbind]. rewrite Hm. exact Hk. Qed.

Lemma runs_deref {A} (heap : binder_state → gmap nat A) p s x :
  heap s !! p = Some x → runs (deref heap p) s x s.
Proof. unfold runs, deref. intros ->. reflexivity. Qed.

Lemma runs_modify f s s' : f s = s' → runs (modify f) s tt s'.
Proof. intros <-. reflexivity. Qed.

Lemma runs_get_state s : runs get_state s s s.
Proof. reflexivity. Qed.

Lemma runs_BUG_ON s : runs (BUG_ON false) s tt s.
Proof. reflexivity. Qed.

Lemma runs_binder_user_error msg s :
  runs (binder_user_error msg) s tt (user_error_state msg s).
Proof.
  unfold runs, binder_user_error, user_error_state.
  cbv [mbind kernel_bind kbind modify get_state]. simpl.
  case_bool_decide; [reflexivity|]. destruct s; reflexivity.
Qed.

Lemma runs_binder_set_nice nice s :
  runs (binder_set_nice nice) s tt (binder_set_nice_state nice s).
Proof.
  unfold runs, binder_set_nice, binder_set_nice_state, nice_complains, nice_granted, user_nice,
    set_user_nice.
  destruct (can_nice nice); simpl.
  - destruct (_ || _); unfold modify, mret, kernel_ret, kret; destruct s; reflexivity.
  - cbv [mbind kernel_bind kbind].
    destruct (bool_decide (rlimit_nice < MIN_NICE) || bool_decide (rlimit_nice > MAX_NICE));
      destruct (bool_decide (rlimit_nice ≤ MAX_NICE)); simpl.
    + unfold mret, kernel_ret, kret. destruct s; reflexivity.
    + pose proof (runs_binder_user_error "RLIMIT_NICE not set" s) as Hr.
      unfold runs in Hr. rewrite Hr. destruct s; reflexivity.
    + unfold modify, mret, kernel_ret, kret. destruct s; reflexivity.
    + pose proof (runs_binder_user_error "RLIMIT_NICE not set" (set_st_nice rlimit_nice s))
        as Hr.
      unfold runs in Hr. rewrite Hr. destruct s; reflexivity.
Qed.

Lemma runs_kzalloc s :
  kzalloc_fails (st_brk s) = false →
  runs kzalloc s (Some (st_brk s)) (set_st_brk (S (st_brk s)) s).
Proof.
  intros Halloc. unfold runs, kzalloc.
  cbv [mbind kernel_bind kbind kret modify get_state]. by rewrite Halloc.
Qed.

Lemma runs_inj {A} (m : kernel A) s a1 s1 a2 s2 :
  runs m s a1 s1 → runs m s a2 s2 → a1 = a2 ∧ s1 = s2.
Proof. unfold runs. intros H1 H2. rewrite H1 in H2. by inversion H2. Qed.

Ltac kheap :=
  lazymatch goal with
  | |- _ !! _ = Some _ =>
      first [ eassumption | simpl; simplify_map_eq; first [ eassumption | reflexivity ] ]
  end.

Ltac kside := simpl; first [ assumption | congruence | lia | done ].

(** Settle the condition of the branch the code is about to take. *)
Ltac kcond :=
  lazymatch goal with
  | |- runs ?m _ _ _ =>
      match m with
      | context [bool_decide ?P] =>
          first [ rewrite (bool_decide_eq_true_2 P) by kside
                | rewrite (bool_decide_eq_false_2 P) by kside ]
      end
  end.

(** Bring a state built from a record back to a record. *)
Ltac kstate :=
  cbv beta iota delta [set_st_contexts set_st_procs set_st_threads set_st_nodes set_st_refs set_st_deaths set_st_transactions set_st_tcompletes set_st_buffers set_binder_dead_nodes set_binder_last_id set_binder_stop_on_user_error set_binder_transaction_log_failed set_st_log set_st_brk set_st_nice set_st_fds set_st_user];
  cbn [st_contexts st_procs st_threads st_nodes st_refs st_deaths st_transactions st_tcompletes st_buffers binder_dead_nodes binder_last_id binder_stop_on_user_error binder_transaction_log_failed st_log st_brk st_nice st_fds st_user].

(** Read the fields of the records the code has just written. *)
Ltac kobj :=
  cbn [tr_target tr_cookie tr_code tr_flags tr_sender_pid tr_sender_euid tr_data_size
    tr_offsets_size tr_data_ptr_buffer tr_data_ptr_offsets write_size write_consumed
    set_write_consumed write_buffer read_size read_consumed set_read_consumed read_buffer
    fbo_type set_fbo_type fbo_flags fbo_binder set_fbo_binder fbo_cookie set_fbo_cookie
    fdo_pad_flags fdo_fd set_fdo_fd fdo_cookie bbo_flags bbo_buffer set_bbo_buffer bbo_length
    bbo_parent bbo_parent_offset fda_num_fds fda_parent fda_parent_offset w_entry set_w_entry
    w_type set_w_type err_work set_err_work err_cmd set_err_cmd binder_context_mgr_node
    set_binder_context_mgr_node binder_context_mgr_uid set_binder_context_mgr_uid
    node_debug_id node_work set_node_work node_proc set_node_proc node_refs set_node_refs
    internal_strong_refs set_internal_strong_refs local_weak_refs set_local_weak_refs
    local_strong_refs set_local_strong_refs tmp_refs set_tmp_refs node_ptr node_cookie
    has_strong_ref set_has_strong_ref pending_strong_ref set_pending_strong_ref has_weak_ref
    set_has_weak_ref pending_weak_ref set_pending_weak_ref accept_fds min_priority
    has_async_transaction set_has_async_transaction async_todo set_async_todo death_work
    set_death_work death_cookie rd_debug_id set_rd_debug_id desc set_desc strong set_strong
    weak set_weak ref_data set_ref_data ref_proc set_ref_proc ref_node set_ref_node ref_death
    set_ref_death proc_threads set_proc_threads proc_nodes set_proc_nodes refs_by_desc
    set_refs_by_desc refs_by_node set_refs_by_node pid tsk files set_files proc_is_dead
    set_proc_is_dead proc_todo_list set_proc_todo_list delivered_death set_delivered_death
    max_threads set_max_threads requested_threads set_requested_threads
    requested_threads_started set_requested_threads_started ready_threads set_ready_threads
    proc_tmp_ref set_proc_tmp_ref default_priority alloc_buffers set_alloc_buffers
    user_buffer_offset context thread_proc thread_pid looper set_looper looper_need_return
    set_looper_need_return transaction_stack set_transaction_stack thread_todo_list
    set_thread_todo_list return_error set_return_error reply_error set_reply_error
    thread_tmp_ref set_thread_tmp_ref thread_is_dead set_thread_is_dead t_debug_id
    set_t_debug_id t_work set_t_work t_from set_t_from t_from_parent set_t_from_parent
    t_to_proc set_t_to_proc t_to_thread set_t_to_thread t_to_parent set_t_to_parent
    t_need_reply set_t_need_reply t_buffer set_t_buffer t_code set_t_code t_flags set_t_flags
    t_priority set_t_priority t_saved_priority set_t_saved_priority t_sender_euid
    set_t_sender_euid b_data b_data_size b_offsets_size allow_user_free set_allow_user_free
    async_transaction b_debug_id set_b_debug_id b_transaction set_b_transaction b_target_node
    set_b_target_node b_objects set_b_objects b_offsets set_b_offsets b_sg set_b_sg
    in_reply_to set_in_reply_to target_thread set_target_thread target_proc set_target_proc
    target_node set_target_node off_min set_off_min last_fixup_obj set_last_fixup_obj
    last_fixup_min_off set_last_fixup_min_off sg_bufp set_sg_bufp].

Ltac krun1 :=
  first [ progress cbv beta iota | progress cbn [andb orb negb]
        | progress kstate | progress kobj
        | lazymatch goal with
  | |- runs (mret _) _ _ _ => apply runs_ret
  | |- runs (kret _) _ _ _ => apply runs_ret
  | |- runs (deref _ _) _ _ _ => eapply runs_deref; kheap
  | |- runs (modify _) _ _ _ => eapply runs_modify; kstate; reflexivity
  | |- runs get_state _ _ _ => apply runs_get_state
  | |- runs (BUG_ON false) _ _ _ => apply runs_BUG_ON
  | |- runs (BUG_ON (bool_decide _)) _ _ _ => kcond
  | |- runs (if _ then _ else _) _ _ _ => kcond
  | |- runs (binder_user_error _) _ _ _ => apply runs_binder_user_error
  | |- runs (binder_set_nice _) _ _ _ => apply runs_binder_set_nice
  | |- runs (get_context _) _ _ _ => unfold get_context
  | |- runs (get_proc _) _ _ _ => unfold get_proc
  | |- runs (get_thread _) _ _ _ => unfold get_thread
  | |- runs (get_node _) _ _ _ => unfold get_node
  | |- runs (get_ref _) _ _ _ => unfold get_ref
  | |- runs (get_death _) _ _ _ => unfold get_death
  | |- runs (get_transaction _) _ _ _ => unfold get_transaction
  | |- runs (get_tcomplete _) _ _ _ => unfold get_tcomplete
  | |- runs (get_buffer _) _ _ _ => unfold get_buffer
  | |- runs (put_context _ _) _ _ _ => unfold put_context
  | |- runs (put_proc _ _) _ _ _ => unfold put_proc
  | |- runs (put_thread _ _) _ _ _ => unfold put_thread
  | |- runs (put_node _ _) _ _ _ => unfold put_node
  | |- runs (put_ref _ _) _ _ _ => unfold put_ref
  | |- runs (put_death _ _) _ _ _ => unfold put_death
  | |- runs (put_transaction _ _) _ _ _ => unfold put_transaction
  | |- runs (put_tcomplete _ _) _ _ _ => unfold put_tcomplete
  | |- runs (put_buffer _ _) _ _ _ => unfold put_buffer
  | |- runs (upd_context _ _) _ _ _ => unfold upd_context
  | |- runs (upd_proc _ _) _ _ _ => unfold upd_proc
  | |- runs (upd_thread _ _) _ _ _ => unfold upd_thread
  | |- runs (upd_node _ _) _ _ _ => unfold upd_node
  | |- runs (upd_ref _ _) _ _ _ => unfold upd_ref
  | |- runs (upd_death _ _) _ _ _ => unfold upd_death
  | |- runs (upd_transaction _ _) _ _ _ => unfold upd_transaction
  | |- runs (upd_buffer _ _) _ _ _ => unfold upd_buffer
  | |- runs (kfree_node _) _ _ _ => unfold kfree_node
  | |- runs (kfree_ref _) _ _ _ => unfold kfree_ref
  | |- runs (kfree_death _) _ _ _ => unfold kfree_death
  | |- runs (kfree_transaction _) _ _ _ => unfold kfree_transaction
  | |- runs (kfree_tcomplete _) _ _ _ => unfold kfree_tcomplete
  | |- runs (pr_err _) _ _ _ => unfold pr_err
  | |- runs (get_work _) _ _ _ => cbn [get_work]
  | |- runs (upd_work _ _) _ _ _ => cbn [upd_work]
  | |- runs (get_list _) _ _ _ => cbn [get_list]
  | |- runs (put_list _ _) _ _ _ => cbn [put_list]
  | |- runs (list_add_tail _ _) _ _ _ => unfold list_add_tail
  | |- runs (list_empty_entry _) _ _ _ => unfold list_empty_entry
  | |- runs (binder_enqueue_work _ _ _) _ _ _ => unfold binder_enqueue_work
  | |- runs (binder_enqueue_work_ilocked _ _) _ _ _ => unfold binder_enqueue_work_ilocked
  | |- runs (binder_dequeue_work _ _) _ _ _ => unfold binder_dequeue_work
  | |- runs (binder_dequeue_work_ilocked _) _ _ _ => unfold binder_dequeue_work_ilocked
  | |- runs (binder_worklist_empty _ _) _ _ _ => unfold binder_worklist_empty
  | |- runs (binder_worklist_empty_ilocked _) _ _ _ => unfold binder_worklist_empty_ilocked
  | |- runs binder_next_id _ _ _ => unfold binder_next_id
  | |- runs kzalloc _ _ _ => apply runs_kzalloc; simpl; assumption
  | |- runs (wake_up_interruptible _) _ _ _ => apply runs_ret
  | |- runs (deref_opt (Some _)) _ _ _ => apply runs_ret
  end ].

(** Run the head of the code as far as it goes; what follows a bind is
    only entered once its head has run to the end. *)
Ltac krun :=
  repeat krun1;
  lazymatch goal with
  | |- runs (_ ≫= _) _ _ _ =>
      first [ eapply runs_bind; [ solve [krun] | cbv beta; krun ]
            | eapply runs_bind; [ krun | cbv beta ] ]
  | |- _ => idtac
  end.


(** [krun] on the goal and on what it leaves, in order. *)
Ltac kgo := repeat (progress krun).

(** [krun] with the facts of the case at hand: [hint] is tried where the
    run would stop. *)
Ltac krunh hint :=
  repeat first [ krun1 | progress hint ];
  lazymatch goal with
  | |- runs (_ ≫= _) _ _ _ =>
      first [ eapply runs_bind; [ solve [krunh hint] | cbv beta; krunh hint ]
            | eapply runs_bind; [ krunh hint | cbv beta ] ]
  | |- _ => idtac
  end.

(** ** Running code towards a postcondition *)

Lemma post_runs {A} (m : kernel A) s a s' Q : runs m s a s' → Q a s' → post m s Q.
Proof. intros Hrun HQ. by exists a, s'. Qed.

Lemma post_ret {A} (a : A) s Q : Q a s → post (mret a) s Q.
Proof. apply post_runs, runs_ret. Qed.

Lemma post_bind {A B} (m : kernel A) (k : A → kernel B) s Q :
  post m s (λ a s1, post (k a) s1 Q) → post (m ≫= k) s Q.
Proof.
  intros (a & s1 & Hm & b & s2 & Hk & HQ). exists b, s2. split; [|exact HQ].
  by eapply runs_bind.
Qed.

Lemma post_deref {A} (heap : binder_state → gmap nat A) p s x Q :
  heap s !! p = Some x → Q x s → post (deref heap p) s Q.
Proof. intros Hp. by apply post_runs, runs_deref. Qed.

Lemma post_modify f s Q : Q tt (f s) → post (modify f) s Q.
Proof. by apply post_runs, runs_modify. Qed.

Lemma post_get_state s Q : Q s s → post get_state s Q.
Proof. apply post_runs, runs_get_state. Qed.

Lemma post_put_user v ptr s Q :
  (if put_user_ok ptr then Q false (set_st_user (st_user s ++ [(ptr, v)]) s) else Q true s) →
  post (put_user v ptr) s Q.
Proof.
  unfold put_user. destruct (put_user_ok ptr); intros HQ.
  - apply post_bind, post_modify, post_ret, HQ.
  - apply post_ret, HQ.
Qed.

Lemma post_mono {A} (m : kernel A) s (Q Q' : A → binder_state → Prop) :
  post m s Q → (∀ a s', Q a s' → Q' a s') → post m s Q'.
Proof. intros (a & s' & Hrun & HQ) Himp. exists a, s'. auto. Qed.

Ltac kpcond :=
  lazymatch goal with
  | |- post ?m _ _ =>
      match m with
      | context [bool_decide ?P] =>
          first [ rewrite (bool_decide_eq_true_2 P) by kside
                | rewrite (bool_decide_eq_false_2 P) by kside ]
      end
  end.

Ltac kwp1 :=
  first [ progress cbv beta iota | progress cbn [andb orb negb]
        | progress kstate | progress kobj
        | lazymatch goal with
  | |- post (_ ≫= _) _ _ => apply post_bind
  | |- post (mret _) _ _ => apply post_ret
  | |- post (kret _) _ _ => apply post_ret
  | |- post (deref _ _) _ _ => eapply post_deref; [ kheap | ]
  | |- post (modify _) _ _ => apply post_modify
  | |- post get_state _ _ => apply post_get_state
  | |- post (put_user _ _) _ _ => apply post_put_user
  | |- post (BUG_ON false) _ _ => apply post_ret
  | |- post (BUG_ON (bool_decide _)) _ _ => kpcond
  | |- post (if _ then _ else _) _ _ => kpcond
  | |- post (binder_user_error _) _ _ => eapply post_runs; [ apply runs_binder_user_error | ]
  | |- post (binder_set_nice _) _ _ => eapply post_runs; [ apply runs_binder_set_nice | ]
  | |- post kzalloc _ _ => eapply post_runs; [ apply runs_kzalloc; simpl; assumption | ]
  | |- post (wake_up_interruptible _) _ _ => apply post_ret
  | |- post (deref_opt (Some _)) _ _ => apply post_ret
  | |- post ?m _ _ =>
      first
        [ progress unfold get_context, get_proc, get_thread, get_node, get_ref, get_death,
            get_transaction, get_tcomplete, get_buffer
        | progress unfold put_context, put_proc, put_thread, put_node, put_ref, put_death,
            put_transaction, put_tcomplete, put_buffer
        | progress unfold upd_context, upd_proc, upd_thread, upd_node, upd_ref, upd_death,
            upd_transaction, upd_buffer
        | progress unfold kfree_node, kfree_ref, kfree_death, kfree_transaction, kfree_tcomplete,
            kfree_thread, kfree_proc
        | progress unfold pr_err
        | progress cbn [get_work upd_work get_list put_list]
        | progress unfold list_add_tail, list_empty_entry, binder_enqueue_work,
            binder_enqueue_work_ilocked, binder_dequeue_work, binder_dequeue_work_ilocked,
            binder_worklist_empty, binder_worklist_empty_ilocked, binder_next_id ]
  end ].

(** Run the code to its end; [hint] is tried where the run would stop,
    and a condition anywhere in the code is settled when that does not
    help either. *)
Ltac kwp hint := repeat first [ kwp1 | progress hint | kpcond ].

(** ** What code leaves alone *)

Lemma preserves_ret {A X} (f : binder_state → X) (a : A) : preserves f (mret a).
Proof. by intros s. Qed.

Lemma preserves_bind {A B X} (f : binder_state → X) (m : kernel A) (k : A → kernel B) :
  preserves f m → (∀ a, preserves f (k a)) → preserves f (m ≫= k).
Proof.
  intros Hm Hk s. specialize (Hm s). unfold mbind, kernel_bind, kbind.
  destruct (m s) as [[a| | |] s1]; simpl in *; [|done..].
  by rewrite Hk.
Qed.

Lemma preserves_oops {A X} (f : binder_state → X) : preserves f (@oops A).
Proof. by intros s. Qed.

Lemma preserves_sleeps {A X} (f : binder_state → X) : preserves f (@sleeps A).
Proof. by intros s. Qed.

Lemma preserves_out_of_fuel {A X} (f : binder_state → X) : preserves f (@out_of_fuel A).
Proof. by intros s. Qed.

Lemma preserves_get_state {X} (f : binder_state → X) : preserves f get_state.
Proof. by intros s. Qed.

Lemma preserves_deref {A X} (f : binder_state → X) (heap : binder_state → gmap nat A) p :
  preserves f (deref heap p).
Proof. intros s. unfold deref. by destruct (heap s !! p). Qed.

Lemma preserves_modify {X} (f : binder_state → X) g :
  (∀ s, f (g s) = f s) → preserves f (modify g).
Proof. intros Hg s. apply Hg. Qed.

Lemma preserves_BUG_ON {X} (f : binder_state → X) b : preserves f (BUG_ON b).
Proof. by destruct b. Qed.

(** What is left of a bind once its head has run. *)
Lemma snd_bind_runs {A B} (m : kernel A) (k : A → kernel B) s a s1 :
  runs m s a s1 → (m ≫= k) s = k a s1.
Proof. unfold runs, mbind, kernel_bind, kbind. by intros ->. Qed.

Create HintDb kframe discriminated.

Ltac khead t := lazymatch t with ?g _ => khead g | _ => t end.

Ltac kframe1 :=
  lazymatch goal with
  | |- preserves _ (_ ≫= _) => apply preserves_bind; [ | intros ? ]
  | |- preserves _ (mret _) => apply preserves_ret
  | |- preserves _ (kret _) => apply preserves_ret
  | |- preserves _ oops => apply preserves_oops
  | |- preserves _ sleeps => apply preserves_sleeps
  | |- preserves _ out_of_fuel => apply preserves_out_of_fuel
  | |- preserves _ get_state => apply preserves_get_state
  | |- preserves _ (deref _ _) => apply preserves_deref
  | |- preserves _ (modify _) => apply preserves_modify; intros ?; reflexivity
  | |- preserves _ (BUG_ON _) => apply preserves_BUG_ON
  | |- preserves _ (match ?x with _ => _ end) => destruct x
  | |- preserves _ ?m =>
      first [ solve [ auto 1 with kframe nocore ]
            | let h := khead m in unfold h ]
  end.

(** [preserves f m] by the structure of [m]; loops come from the hints
    and from the hypotheses. *)
Ltac kframe := repeat kframe1.

(** ** What holds when code comes back *)

Lemma wlp_ret {A} (a : A) s (Q : A → binder_state → Prop) : Q a s → wlp (mret a) s Q.
Proof. intros HQ a' s' [= <- <-]. done. Qed.

Lemma wlp_bind {A B} (m : kernel A) (k : A → kernel B) s (Q : B → binder_state → Prop) :
  wlp m s (λ a s1, wlp (k a) s1 Q) → wlp (m ≫= k) s Q.
Proof.
  intros Hm r s'. unfold mbind, kernel_bind, kbind.
  destruct (m s) as [[a| | |] s1] eqn:Hms; try done. intros Hk. by eapply Hm.
Qed.

Lemma wlp_any {A} (m : kernel A) s (Q : A → binder_state → Prop) :
  (∀ a s', Q a s') → wlp m s Q.
Proof. intros HQ a s' _. apply HQ. Qed.

Lemma wlp_oops {A} s (Q : A → binder_state → Prop) : wlp oops s Q.
Proof. by intros a s'. Qed.

Lemma wlp_out_of_fuel {A} s (Q : A → binder_state → Prop) : wlp out_of_fuel s Q.
Proof. by intros a s'. Qed.

Lemma wlp_deref {A} (heap : binder_state → gmap nat A) p s (Q : A → binder_state → Prop) :
  (∀ x, heap s !! p = Some x → Q x s) → wlp (deref heap p) s Q.
Proof.
  intros HQ a s'. unfold deref. destruct (heap s !! p); [|done]. intros [= <- <-]. by apply HQ.
Qed.

Lemma wlp_deref_opt {A} (p : option A) s (Q : A → binder_state → Prop) :
  (∀ x, p = Some x → Q x s) → wlp (deref_opt p) s Q.
Proof. intros HQ. destruct p; [apply wlp_ret; by apply HQ|apply wlp_oops]. Qed.

Lemma wlp_modify f s (Q : unit → binder_state → Prop) : Q tt (f s) → wlp (modify f) s Q.
Proof. intros HQ a s' [= <- <-]. done. Qed.

Lemma wlp_frame {A X} (f : binder_state → X) (m : kernel A) s (Q : A → binder_state → Prop) :
  preserves f m → (∀ a s', f s' = f s → Q a s') → wlp m s Q.
Proof. intros Hm HQ a s' Hms. apply HQ. specialize (Hm s). by rewrite Hms in Hm. Qed.

Lemma wlp_preserves {A X} (f : binder_state → X) (m : kernel A) s :
  preserves f m → wlp m s (λ _ s', f s' = f s).
Proof. intros Hm. by apply (wlp_frame f). Qed.

Lemma wlp_mono {A} (m : kernel A) s (Q Q' : A → binder_state → Prop) :
  wlp m s Q → (∀ a s', Q a s' → Q' a s') → wlp m s Q'.
Proof. intros Hm HQ a s' Hms. eauto. Qed.

Lemma wlp_conj {A} (m : kernel A) s (Q1 Q2 : A → binder_state → Prop) :
  wlp m s Q1 → wlp m s Q2 → wlp m s (λ a s', Q1 a s' ∧ Q2 a s').
Proof. intros H1 H2 a s' Hm. split; eauto. Qed.

Lemma wlp_upd_buffer p f s b (Q : unit → binder_state → Prop) :
  st_buffers s !! p = Some b →
  Q tt (set_st_buffers (<[p := f b]> (st_buffers s)) s) →
  wlp (upd_buffer p f) s Q.
Proof.
  intros Hb HQ. unfold upd_buffer, get_buffer, put_buffer. apply wlp_bind, wlp_deref.
  intros x Hx. apply wlp_modify. congruence.
Qed.

Lemma post_deref_opt {A} (p : option A) s x (Q : A → binder_state → Prop) :
  p = Some x → Q x s → post (deref_opt p) s Q.
Proof. intros -> HQ. by apply post_ret. Qed.

Lemma post_upd_buffer p f s b (Q : unit → binder_state → Prop) :
  st_buffers s !! p = Some b →
  Q tt (set_st_buffers (<[p := f b]> (st_buffers s)) s) →
  post (upd_buffer p f) s Q.
Proof.
  intros Hb HQ. unfold upd_buffer, get_buffer, put_buffer.
  eapply post_bind, post_deref; [exact Hb|]. by apply post_modify.
Qed.

(** ** What code keeps true *)

Lemma keeps_ret {A} P (a : A) : keeps P (mret a).
Proof. by intros s. Qed.

Lemma keeps_bind {A B} P (m : kernel A) (k : A → kernel B) :
  keeps P m → (∀ a, keeps P (k a)) → keeps P (m ≫= k).
Proof.
  intros Hm Hk s HP. specialize (Hm s HP). unfold mbind, kernel_bind, kbind.
  destruct (m s) as [[a| | |] s1]; simpl in *; [|done..].
  by apply Hk.
Qed.

Lemma keeps_oops {A} P : keeps P (@oops A).
Proof. by intros s. Qed.

Lemma keeps_sleeps {A} P : keeps P (@sleeps A).
Proof. by intros s. Qed.

Lemma keeps_out_of_fuel {A} P : keeps P (@out_of_fuel A).
Proof. by intros s. Qed.

Lemma keeps_get_state P : keeps P get_state.
Proof. by intros s. Qed.

Lemma keeps_deref {A} P (heap : binder_state → gmap nat A) p : keeps P (deref heap p).
Proof. intros s. unfold deref. by destruct (heap s !! p). Qed.

Lemma keeps_modify P g : (∀ s, P s → P (g s)) → keeps P (modify g).
Proof. intros Hg s. apply Hg. Qed.

Lemma keeps_BUG_ON P b : keeps P (BUG_ON b).
Proof. destruct b; by intros s. Qed.

Lemma wlp_keeps {A} P (m : kernel A) s : keeps P m → P s → wlp m s (λ _ s', P s').
Proof. intros Hm HP a s' Hms. specialize (Hm s HP). by rewrite Hms in Hm. Qed.

Lemma keeps_upd_buffer_freed buffer p f : keeps (buffer_freed buffer) (upd_buffer p f).
Proof.
  intros s Hs. unfold upd_buffer, get_buffer, put_buffer, deref, modify, buffer_freed in *.
  unfold mbind, kernel_bind, kbind.
  destruct (st_buffers s !! p) as [x|] eqn:Hp; [|done]. destruct s; simpl in *.
  rewrite lookup_insert_ne; [done|]. congruence.
Qed.

Lemma lookup_foldr_delete_None {A} (m : gmap nat A) l k :
  m !! k = None → foldr delete m l !! k = None.
Proof.
  intros Hk. induction l as [|x l IH]; simpl; [done|].
  destruct (decide (x = k)) as [->|]; [apply lookup_delete_eq|by rewrite lookup_delete_ne].
Qed.

Create HintDb kkeep discriminated.

#[local] Hint Resolve keeps_upd_buffer_freed : kkeep.

Ltac kkeep1 :=
  lazymatch goal with
  | |- keeps _ (_ ≫= _) => apply keeps_bind; [ | intros ? ]
  | |- keeps _ (mret _) => apply keeps_ret
  | |- keeps _ (kret _) => apply keeps_ret
  | |- keeps _ oops => apply keeps_oops
  | |- keeps _ sleeps => apply keeps_sleeps
  | |- keeps _ out_of_fuel => apply keeps_out_of_fuel
  | |- keeps _ get_state => apply keeps_get_state
  | |- keeps _ (deref _ _) => apply keeps_deref
  | |- keeps (buffer_freed _) (modify _) =>
      apply keeps_modify; unfold buffer_freed; intros ? ?; cbv beta; kstate;
      first [ assumption
            | by apply lookup_foldr_delete_None
            | by apply lookup_delete_None; right ]
  | |- keeps _ (BUG_ON _) => apply keeps_BUG_ON
  | |- keeps _ (match ?x with _ => _ end) => destruct x
  | |- keeps _ ?m =>
      first [ solve [ auto 1 with kkeep nocore ]
            | let h := khead m in unfold h ]
  end.

(** [keeps P m] by the structure of [m]; loops come from the hints and
    from the hypotheses. *)
Ltac kkeep := repeat kkeep1.

(** ** Unsigned 64-bit arithmetic *)

Lemma u64_small x : 0 ≤ x < 2 ^ 64 → u64 x = x.
Proof. intros Hx. unfold u64. by apply Z.mod_small. Qed.

(** ** C1: a reply that does not match the transaction stacks *)

(** C1, as amended: a BC_REPLY whose stacks do not match is turned away
    with BR_FAILED_REPLY and EPROTO, queued on the todo of the replying
    thread.  Its transaction stack is as before when the stack is empty or
    its top entry did not come in to this thread; when the top entry is not
    the top of the stack of the thread it came from, the stack has lost
    that entry. *)
Theorem reply_rejected_failed_reply proc thread tr extra s th why :
  st_threads s !! thread = Some th →
  err_cmd (return_error th) = BR_OK →
  w_entry (err_work (return_error th)) = None →
  reply_rejected s thread = Some why →
  ∃ s' th',
    runs (binder_transaction proc thread tr true extra) s tt s' ∧
    st_threads s' !! thread = Some th' ∧
    err_cmd (return_error th') = BR_FAILED_REPLY ∧
    thread_todo_list th' = thread_todo_list th ++ [W_return_error thread] ∧
    last (binder_transaction_log_failed s') = Some (BR_FAILED_REPLY, Some EPROTO) ∧
    transaction_stack th' =
      match why with
      | Reply_empty_stack | Reply_bad_stack => transaction_stack th
      | Reply_bad_target_stack => stack_below_top s th
      end.
Proof.
  intros Hth Hok Hent Hwhy.
  unfold reply_rejected in Hwhy. rewrite Hth in Hwhy. simpl in Hwhy.
  unfold stack_below_top.
  destruct s; simpl in *.
  destruct (transaction_stack th) as [irt|] eqn:Hst.
  - destruct (st_transactions0 !! irt) as [x|] eqn:Hx; simpl in Hwhy; [|done].
    case_bool_decide as Hto.
    + (* the top entry did not come in to this thread *)
      injection Hwhy as <-.
      eexists _, _. split.
      { unfold binder_transaction. kgo.
        unfold binder_transaction_reply_target. kgo. rewrite Hst. kgo.
        try kcond. kgo.
        unfold binder_transaction_failed. simpl. kgo. }
      simpl. rewrite lookup_insert_eq. split; [reflexivity|]. simpl.
      rewrite last_snoc. done.
    + (* the top entry is not on top of the stack it came from *)
      destruct (t_from x) as [from|] eqn:Hfrom; simpl in Hwhy; [|done].
      destruct (st_threads0 !! from) as [fth|] eqn:Hfth; simpl in Hwhy; [|done].
      case_bool_decide as Htop; [|done]. injection Hwhy as <-.
      case_bool_decide as Hself.
      * subst from. assert (fth = th) as -> by congruence.
        eexists _, _. split.
        { unfold binder_transaction. kgo.
          unfold binder_transaction_reply_target. kgo. rewrite Hst. kgo.
          try kcond. kgo.
          unfold binder_get_txn_from. kgo. rewrite Hfrom. kgo. kgo.
          try kcond. kgo.
          unfold binder_transaction_failed. simpl. kgo. }
        simpl. rewrite lookup_insert_eq. split; [reflexivity|]. simpl.
        rewrite last_snoc, Hx. done.
      * eexists _, _. split.
        { unfold binder_transaction. kgo.
          unfold binder_transaction_reply_target. kgo. rewrite Hst. kgo.
          try kcond. kgo.
          unfold binder_get_txn_from. kgo. rewrite Hfrom. kgo. kgo.
          try kcond. kgo.
          unfold binder_transaction_failed. simpl. kgo. }
        simpl. rewrite lookup_insert_eq. split; [reflexivity|]. simpl.
        rewrite last_snoc, Hx. done.
  - (* the stack is empty *)
    injection Hwhy as <-.
    eexists _, _. split.
    { unfold binder_transaction. kgo.
      unfold binder_transaction_reply_target. kgo. rewrite Hst. kgo.
      unfold binder_transaction_failed. simpl. kgo. }
    simpl. rewrite lookup_insert_eq. split; [reflexivity|]. simpl.
    rewrite last_snoc. done.
Qed.

(** ** C8: reserved and unknown commands *)

Lemma binder_thread_write_cmd_refuses proc thread cmd ptr s :
  bc_refused cmd →
  ∃ msg, runs (binder_thread_write_cmd proc thread cmd ptr) s (inl EINVAL)
           (set_st_log (st_log s ++ [Pr_err msg]) s).
Proof.
  unfold binder_thread_write_cmd.
  intros [-> | [-> | ->]]; eexists; krun.
Qed.

(** C8: wherever [binder_thread_write] stands in a command stream, if the
    next word is BC_ATTEMPT_ACQUIRE, BC_ACQUIRE_RESULT or no command at
    all, it returns -EINVAL there: nothing is consumed and nothing but the
    kernel log changes.  A BINDER_WRITE_READ whose write half starts at
    such a word, [ptr] and [end_] being the sums [write_buffer +
    write_consumed] and [write_buffer + write_size] as the pointers have
    them, modulo 2^64, fails with that error, or with -EFAULT when it
    cannot copy the argument back, and does not get to its read half. *)
Theorem binder_thread_write_refuses proc thread buffer ptr end_ consumed fuel s th cmd :
  st_threads s !! thread = Some th →
  err_cmd (return_error th) = BR_OK →
  ptr < end_ →
  get_user_u32 ptr = Some cmd →
  bc_refused cmd →
  (∃ msg, runs (binder_thread_write_loop (S fuel) proc thread buffer ptr end_ consumed) s
            (Some EINVAL, consumed) (set_st_log (st_log s ++ [Pr_err msg]) s)) ∧
  (∀ ubuf bwr non_block,
     copy_bwr_from_user ubuf = Some bwr →
     u64 (write_buffer bwr + write_consumed bwr) = ptr →
     u64 (write_buffer bwr + write_size bwr) = end_ →
     0 < write_size bwr →
     ∃ msg,
       runs (binder_ioctl_write_read proc thread sizeof_binder_write_read ubuf non_block) s
         (Some (if put_user_ok ubuf then EINVAL else EFAULT))
         (set_st_user
            (if put_user_ok ubuf
             then st_user s ++ [(ubuf, U_bwr (set_read_consumed 0 bwr))] else st_user s)
            (set_st_log (st_log s ++ [Pr_err msg]) s))).
Proof.
  intros Hth Hok Hlt Hcmd Hbad.
  assert (∀ buffer fuel consumed,
    ∃ msg, runs (binder_thread_write_loop (S fuel) proc thread buffer ptr end_ consumed) s
             (Some EINVAL, consumed) (set_st_log (st_log s ++ [Pr_err msg]) s)) as Hloop.
  { clear buffer fuel consumed. intros buffer fuel consumed.
    destruct (binder_thread_write_cmd_refuses proc thread cmd (ptr + sizeof_u32) s Hbad)
      as [msg Hrun].
    exists msg. cbn [binder_thread_write_loop]. krun.
    rewrite ?bool_decide_eq_true_2 by done.
    simpl. rewrite Hcmd. eapply runs_bind; [exact Hrun|]. krun. }
  split; [apply Hloop|].
  intros ubuf bwr non_block Hbwr Hptr Hend Hsize.
  destruct (Hloop (write_buffer bwr) (pred (Z.to_nat (end_ - ptr))) (write_consumed bwr))
    as [msg Hrun].
  replace (S (pred (Z.to_nat (end_ - ptr)))) with (Z.to_nat (end_ - ptr)) in Hrun by lia.
  exists msg. unfold binder_ioctl_write_read.
  rewrite bool_decide_eq_false_2 by (intros Hne; by apply Hne).
  rewrite Hbwr. rewrite bool_decide_eq_true_2 by done.
  unfold binder_thread_write, put_user. cbv zeta. rewrite Hptr, Hend.
  destruct (put_user_ok ubuf).
  all: eapply runs_bind;
    [ eapply runs_bind; [ exact Hrun | krun ] | krun ].
  all: destruct bwr; destruct s; reflexivity.
Qed.

(** ** C2: the handle of a new reference *)

Lemma rb_ordered_from_weaken lo lo' tree :
  lo' ≤ lo → rb_ordered_from lo tree = true → rb_ordered_from lo' tree = true.
Proof.
  destruct tree as [|[k p] tree]; [done|]. simpl. intros Hle.
  rewrite !andb_true_iff, !bool_decide_eq_true. intros [Hk Ht]. split; [lia | exact Ht].
Qed.

Lemma rb_ordered_from_keys lo tree k :
  rb_ordered_from lo tree = true → k ∈ rb_keys tree → lo ≤ k < 2 ^ 32.
Proof.
  revert lo. induction tree as [|[k' p] tree IH]; intros lo; simpl.
  - intros _ Hin. by apply elem_of_nil in Hin.
  - rewrite andb_true_iff, bool_decide_eq_true. intros [Hk Ht] Hin.
    apply elem_of_cons in Hin as [-> | Hin]; [exact Hk|].
    specialize (IH _ Ht Hin). lia.
Qed.

Lemma rb_ordered_NoDup lo tree : rb_ordered_from lo tree = true → NoDup (rb_keys tree).
Proof.
  revert lo. induction tree as [|[k p] tree IH]; intros lo; simpl.
  - intros _. constructor.
  - rewrite andb_true_iff. intros [_ Ht]. constructor; [|by eapply IH].
    intros Hin. pose proof (rb_ordered_from_keys _ _ _ Ht Hin). lia.
Qed.

Lemma rb_search_None key tree : rb_search key tree = None ↔ key ∉ rb_keys tree.
Proof.
  induction tree as [|[k p] tree IH]; simpl.
  - split; [intros _ Hin; by apply elem_of_nil in Hin | done].
  - rewrite not_elem_of_cons. case_decide; subst.
    + split; [done | intros [Hne _]; done].
    + rewrite IH. split; [intros Hn; split; [congruence | exact Hn] | intros [_ Hn]; exact Hn].
Qed.

Lemma rb_insert_keys key p tree k :
  k ∈ rb_keys (rb_insert key p tree) ↔ k = key ∨ k ∈ rb_keys tree.
Proof.
  induction tree as [|[k' q] tree IH]; simpl.
  - unfold rb_keys. simpl. rewrite elem_of_cons, elem_of_nil. tauto.
  - case_decide; unfold rb_keys in *; simpl; rewrite !elem_of_cons.
    + tauto.
    + rewrite IH. tauto.
Qed.

Lemma rb_insert_ordered lo key p tree :
  rb_ordered_from lo tree = true → lo ≤ key < 2 ^ 32 → key ∉ rb_keys tree →
  rb_ordered_from lo (rb_insert key p tree) = true.
Proof.
  revert lo. induction tree as [|[k q] tree IH]; intros lo; simpl.
  - intros _ Hk _. rewrite andb_true_iff, bool_decide_eq_true. done.
  - rewrite andb_true_iff, bool_decide_eq_true. intros [Hk Ht] Hkey Hnin.
    apply not_elem_of_cons in Hnin as [Hne Hnin].
    case_decide; simpl; rewrite !andb_true_iff, !bool_decide_eq_true.
    + repeat split; [lia | lia | lia | lia | exact Ht].
    + split; [exact Hk|]. apply IH; [exact Ht | lia | exact Hnin].
Qed.

(** The walk stops at the smallest handle from [desc] on that the index
    does not hold, when there is one. *)
Lemma binder_first_free_desc_least desc tree free :
  rb_ordered_from (desc - 1) tree = true →
  0 ≤ desc ≤ free → free < 2 ^ 32 → free ∉ rb_keys tree →
  (desc ≤ binder_first_free_desc desc tree ≤ free) ∧
  (binder_first_free_desc desc tree ∉ rb_keys tree) ∧
  ∀ x, desc ≤ x < binder_first_free_desc desc tree → x ∈ rb_keys tree.
Proof.
  revert desc. induction tree as [|[k p] tree IH]; intros desc; simpl.
  - intros _ Hfree _ _. split; [lia|]. split; [apply not_elem_of_nil | intros x Hx; exfalso; lia].
  - rewrite andb_true_iff, bool_decide_eq_true. intros [Hk Ht] Hfree Hmax Hnin.
    apply not_elem_of_cons in Hnin as [Hne Hnin].
    case_decide as Hgt.
    + split; [lia|]. split; [|intros x Hx; exfalso; lia].
      intros Hin. apply elem_of_cons in Hin as [-> | Hin]; [lia|].
      pose proof (rb_ordered_from_keys _ _ _ Ht Hin). lia.
    + assert (u32 (k + 1) = k + 1) as -> by (unfold u32; apply Z.mod_small; lia).
      destruct (IH (k + 1)) as (Hd & Hdn & Hall).
      { replace (k + 1 - 1) with k by lia. eapply rb_ordered_from_weaken; [|exact Ht]. lia. }
      { lia. }
      { exact Hmax. }
      { exact Hnin. }
      split; [lia|]. split.
      * intros Hin. apply elem_of_cons in Hin as [Heq | Hin]; [lia | done].
      * intros x Hx. apply elem_of_cons.
        destruct (decide (x = k)) as [-> | Hxk]; [by left | right].
        apply Hall. lia.
Qed.

Lemma binder_first_free_desc_first c node tree free :
  rb_ordered tree = true →
  first_desc c node ≤ free < 2 ^ 32 → free ∉ rb_keys tree →
  (first_desc c node ≤ binder_first_free_desc (first_desc c node) tree ≤ free) ∧
  (binder_first_free_desc (first_desc c node) tree ∉ rb_keys tree) ∧
  (∀ x, first_desc c node ≤ x < binder_first_free_desc (first_desc c node) tree →
       x ∈ rb_keys tree).
Proof.
  intros Hord Hfree Hnin.
  assert (0 ≤ first_desc c node ≤ 1) as Hfirst
    by (unfold first_desc; case_bool_decide; lia).
  apply binder_first_free_desc_least; [|lia|lia|exact Hnin].
  eapply rb_ordered_from_weaken; [|exact Hord]. lia.
Qed.

(** C2: a new reference gets the smallest handle, from 1 on, that the
    process does not use yet, and from 0 on when the node is the context
    manager's; it goes into [refs_by_desc] under that handle, and the
    handles of the process stay pairwise distinct. *)
Theorem binder_get_ref_for_node_smallest_handle proc node new_ref s p c n r free :
  st_procs s !! proc = Some p →
  st_contexts s !! context p = Some c →
  st_nodes s !! node = Some n →
  st_refs s !! new_ref = Some r →
  refs_by_node p !! node = None →
  rb_ordered (refs_by_desc p) = true →
  first_desc c node ≤ free < 2 ^ 32 → free ∉ rb_keys (refs_by_desc p) →
  ∃ s' p' r' d,
    runs (binder_get_ref_for_node proc node (Some new_ref)) s (Some new_ref) s' ∧
    st_procs s' !! proc = Some p' ∧ st_refs s' !! new_ref = Some r' ∧
    desc (ref_data r') = d ∧ ref_proc r' = Some proc ∧ ref_node r' = Some node ∧
    refs_by_desc p' = rb_insert d new_ref (refs_by_desc p) ∧
    first_desc c node ≤ d ∧ (d ∉ rb_keys (refs_by_desc p)) ∧
    (∀ x, first_desc c node ≤ x < d → x ∈ rb_keys (refs_by_desc p)) ∧
    rb_ordered (refs_by_desc p') = true ∧ NoDup (rb_keys (refs_by_desc p')).
Proof.
  intros Hp Hc Hn Hr Hnone Hord Hfree Hnin.
  destruct (binder_first_free_desc_first c node _ free Hord Hfree Hnin) as (Hd & Hdn & Hall).
  apply rb_search_None in Hdn as Hsearch.
  unfold first_desc in *.
  assert (rb_ordered (rb_insert (binder_first_free_desc
            (if bool_decide (Some node = binder_context_mgr_node c) then 0 else 1)
            (refs_by_desc p)) new_ref (refs_by_desc p)) = true) as Hord'.
  { apply rb_insert_ordered; [exact Hord | case_bool_decide; lia | exact Hdn]. }
  destruct s, p, r as [[] ? ? ?]; simpl in *.
  do 4 eexists. split.
  { unfold binder_get_ref_for_node. krun. cbn [refs_by_node]. rewrite Hnone. krun.
    cbn [refs_by_desc context]. rewrite Hsearch.
    rewrite bool_decide_eq_false_2 by (by intros [? ?]). krun. krun. }
  simpl. split; [apply lookup_insert_eq|]. split; [apply lookup_insert_eq|].
  split; [reflexivity|]. split; [reflexivity|]. split; [reflexivity|].
  split; [reflexivity|]. split; [apply Hd|]. split; [exact Hdn|]. split; [exact Hall|].
  split; [exact Hord'|]. by eapply rb_ordered_NoDup.
Qed.

(** ** C10: reference counts on handle 0 and on unknown handles *)

Lemma rb_search_insert key p tree :
  key ∉ rb_keys tree → rb_search key (rb_insert key p tree) = Some p.
Proof.
  induction tree as [|[k q] tree IH]; simpl.
  - intros _. by rewrite decide_True.
  - intros Hnin. apply not_elem_of_cons in Hnin as [Hne Hnin].
    case_decide; simpl.
    + by rewrite decide_True.
    + rewrite decide_False by congruence. by apply IH.
Qed.

Lemma binder_first_free_desc_0 tree :
  rb_ordered tree = true → rb_search 0 tree = None → binder_first_free_desc 0 tree = 0.
Proof.
  destruct tree as [|[k q] tree]; [done|]. unfold rb_ordered. simpl.
  rewrite andb_true_iff, bool_decide_eq_true. intros [Hk _].
  case_decide; [done|]. intros _. rewrite decide_True by lia. reflexivity.
Qed.

(** [binder_inc_ref_for_node] on the context manager's node, for a
    process that holds neither a reference on it nor handle 0. *)
Lemma runs_binder_inc_ref_for_node_mgr proc is_strong s p c node n owner po :
  st_procs s !! proc = Some p →
  rb_search 0 (refs_by_desc p) = None →
  st_contexts s !! context p = Some c → binder_context_mgr_node c = Some node →
  st_nodes s !! node = Some n → has_strong_ref n = true → has_weak_ref n = true →
  node_proc n = Some owner → st_procs s !! owner = Some po → context po = context p →
  refs_by_node p !! node = None → rb_ordered (refs_by_desc p) = true →
  kzalloc_fails (st_brk s) = false →
  ∃ s' p' r' n' rdata,
    runs (binder_inc_ref_for_node proc node is_strong None) s (None, Some rdata) s' ∧
    st_procs s' !! proc = Some p' ∧
    refs_by_node p' !! node = Some (st_brk s) ∧
    rb_search 0 (refs_by_desc p') = Some (st_brk s) ∧
    st_refs s' !! st_brk s = Some r' ∧
    ref_data r' = rdata ∧
    ref_proc r' = Some proc ∧ ref_node r' = Some node ∧
    desc (ref_data r') = 0 ∧
    strong (ref_data r') = (if is_strong then 1 else 0) ∧
    weak (ref_data r') = (if is_strong then 0 else 1) ∧
    st_nodes s' !! node = Some n' ∧
    node_refs n' = st_brk s :: node_refs n ∧
    internal_strong_refs n' = internal_strong_refs n + (if is_strong then 1 else 0) ∧
    st_log s' = st_log s.
Proof.
  intros Hp Hfree Hc Hmgr Hn Hstrong Hweak Howner Hpo Hctx Hnone Hord Halloc.
  pose proof (binder_first_free_desc_0 _ Hord Hfree) as Hd.
  apply rb_search_None in Hfree as Hnin.
  destruct is_strong;
    (destruct (decide (owner = proc)) as [-> | Hne];
       [ assert (po = p) as -> by congruence; clear Hctx | ]);
    (destruct s; simpl in *; do 5 eexists; split;
       [ krunh ltac:(first
           [ rewrite Hnone | rewrite Hmgr | rewrite Hd | rewrite Hfree | rewrite Howner
           | rewrite Hctx | rewrite Hstrong | rewrite Hweak | rewrite andb_false_r
           | rewrite (bool_decide_eq_true_2 (Some node = Some node)) by done
           | unfold binder_inc_ref_for_node, binder_get_ref_for_node, kzalloc_ref,
               binder_inc_ref, binder_inc_node, binder_inc_node_nilocked,
               is_context_mgr_node, list_empty_entry ])
       | kstate; rewrite !lookup_insert_eq; kobj;
         split; [reflexivity|]; kobj; rewrite lookup_insert_eq;
         split; [reflexivity|]; split; [by apply rb_search_insert|];
         repeat (split; [kobj; first [reflexivity | lia]|]); reflexivity ]).
Qed.

(** C10: BC_INCREFS and BC_ACQUIRE on handle 0 take a reference on the
    context manager's node for a process that has none, under handle 0;
    BC_RELEASE and BC_DECREFS on a handle the process does not hold leave
    a user error behind and nothing else, and the write goes on with the
    next command. *)
Theorem binder_thread_write_refs_handle proc thread cmd ptr target s p :
  st_procs s !! proc = Some p →
  get_user_u32 ptr = Some target →
  rb_search target (refs_by_desc p) = None →
  (cmd = BC_RELEASE ∨ cmd = BC_DECREFS →
   runs (binder_thread_write_refs proc thread cmd ptr) s (inr (ptr + sizeof_u32))
     (user_error_state "refcount change on invalid ref" s)) ∧
  (cmd = BC_INCREFS ∨ cmd = BC_ACQUIRE → target = 0 →
   ∀ c node n owner po,
     st_contexts s !! context p = Some c → binder_context_mgr_node c = Some node →
     st_nodes s !! node = Some n → has_strong_ref n = true → has_weak_ref n = true →
     node_proc n = Some owner → st_procs s !! owner = Some po → context po = context p →
     refs_by_node p !! node = None → rb_ordered (refs_by_desc p) = true →
     kzalloc_fails (st_brk s) = false →
     ∃ s' p' r' n',
       runs (binder_thread_write_refs proc thread cmd ptr) s (inr (ptr + sizeof_u32)) s' ∧
       st_procs s' !! proc = Some p' ∧
       refs_by_node p' !! node = Some (st_brk s) ∧
       rb_search 0 (refs_by_desc p') = Some (st_brk s) ∧
       st_refs s' !! st_brk s = Some r' ∧
       ref_proc r' = Some proc ∧ ref_node r' = Some node ∧
       desc (ref_data r') = 0 ∧
       strong (ref_data r') = (if bool_decide (cmd = BC_ACQUIRE) then 1 else 0) ∧
       weak (ref_data r') = (if bool_decide (cmd = BC_ACQUIRE) then 0 else 1) ∧
       st_nodes s' !! node = Some n' ∧
       node_refs n' = st_brk s :: node_refs n ∧
       internal_strong_refs n' =
         internal_strong_refs n + (if bool_decide (cmd = BC_ACQUIRE) then 1 else 0) ∧
       st_log s' = st_log s).
Proof.
  intros Hp Hptr Hfree. split.
  - intros Hcmd. unfold binder_thread_write_refs. rewrite Hptr.
    assert ((bool_decide (cmd = BC_INCREFS) || bool_decide (cmd = BC_ACQUIRE)) = false) as ->
      by (destruct Hcmd as [-> | ->]; reflexivity).
    krunh ltac:(first [ rewrite Hfree | unfold binder_update_ref_for_handle, binder_get_ref ]).
  - intros Hcmd -> c node n owner po Hc Hmgr Hn Hstrong Hweak Howner Hpo Hctx Hnone Hord Halloc.
    destruct (runs_binder_inc_ref_for_node_mgr proc
                (bool_decide (cmd = BC_ACQUIRE) || bool_decide (cmd = BC_RELEASE))
                s p c node n owner po)
      as (s' & p' & r' & n' & rdata & Hrun & Hp' & Hbn & Hbd & Hr' & Hrd & Hrp & Hrn & Hdesc
          & Hs & Hw & Hn' & Hrefs & Hint & Hlog); try assumption.
    assert ((bool_decide (cmd = BC_ACQUIRE) || bool_decide (cmd = BC_RELEASE))
            = bool_decide (cmd = BC_ACQUIRE)) as Hflag
      by (destruct Hcmd as [-> | ->]; reflexivity).
    rewrite Hflag in *. subst rdata.
    exists s', p', r', n'. split.
    { unfold binder_thread_write_refs. rewrite Hptr.
      assert ((bool_decide (cmd = BC_INCREFS) || bool_decide (cmd = BC_ACQUIRE)) = true) as ->
        by (destruct Hcmd as [-> | ->]; reflexivity).
      rewrite Hflag.
      krunh ltac:(first [ rewrite Hmgr | exact Hrun | rewrite Hdesc ]). }
    repeat (split; [assumption|]). assumption.
Qed.

(** ** C6: node work *)

(** What [rb_erase] takes out of a tree in which it is linked once is in
    the tree no more, and all else stays. *)
Lemma rb_erase_unlisted thread (tree : list (Z * nat)) :
  NoDup tree.*2 → thread ∉ (rb_erase thread tree).*2.
Proof.
  induction tree as [|[k q] tree IH]; simpl; intros Hnd; [apply not_elem_of_nil|].
  apply NoDup_cons in Hnd as [Hq Hnd]. destruct (decide (q = thread)) as [->|Hne]; [done|].
  simpl. rewrite elem_of_cons. intros [->|Hin]; [done|]. by apply IH.
Qed.

Lemma rb_erase_others p (tree : list (Z * nat)) k q :
  q ≠ p → (k, q) ∈ rb_erase p tree ↔ (k, q) ∈ tree.
Proof.
  intros Hne. induction tree as [|[k' q'] tree IH]; simpl; [done|].
  destruct (decide (q' = p)) as [->|Hne'].
  - rewrite elem_of_cons. split; [by right|]. intros [[= -> ->]|Hin]; [done|done].
  - rewrite !elem_of_cons, IH. done.
Qed.

(** C6: serving the work item of a node of the process that reads, the
    driver stores command words that form a sublist of BR_INCREFS,
    BR_ACQUIRE, BR_RELEASE, BR_DECREFS, in this order, and when no store
    faults exactly those that the needs and the flags of the node call
    for.  A node still needed stays, with [has_strong_ref] and
    [has_weak_ref] equal to the needs and a request pending for each flag
    that went up; a node not needed at all is freed and is unlinked from
    the index of nodes of its process, in which it was linked once: no
    entry of the index names the node any more, and every entry for
    another node is still there. *)
Theorem binder_thread_read_node_records proc thread node ptr s n p :
  st_nodes s !! node = Some n →
  node_proc n = Some proc →
  st_procs s !! proc = Some p →
  NoDup (proc_nodes p).*2 →
  ∃ out s' stores,
    runs (binder_thread_read_node proc thread node ptr) s out s' ∧
    st_user s' = st_user s ++ stores ∧
    emitted_cmds stores `sublist_of` [BR_INCREFS; BR_ACQUIRE; BR_RELEASE; BR_DECREFS] ∧
    ((∀ a, put_user_ok a = true) →
       emitted_cmds stores = node_cmds n ∧
       out = Read_continue (ptr + Z.of_nat (length (node_cmds n)) * sizeof_node_cmd)) ∧
    (if node_weak_need n then
       ∃ n', st_nodes s' !! node = Some n' ∧
             has_strong_ref n' = node_strong_need n ∧
             has_weak_ref n' = node_weak_need n ∧
             pending_strong_ref n' =
               pending_strong_ref n || (node_strong_need n && negb (has_strong_ref n)) ∧
             pending_weak_ref n' =
               pending_weak_ref n || (node_weak_need n && negb (has_weak_ref n)) ∧
             st_procs s' = st_procs s
     else
       st_nodes s' !! node = None ∧
       ∃ p', st_procs s' !! proc = Some p' ∧ proc_nodes p' = rb_erase node (proc_nodes p) ∧
             (node ∉ (proc_nodes p').*2) ∧
             ∀ k other, other ≠ node →
               (k, other) ∈ proc_nodes p' ↔ (k, other) ∈ proc_nodes p).
Proof.
  intros Hn Hproc Hp Hlinked.
  cut (post (binder_thread_read_node proc thread node ptr) s (λ out s',
         ∃ stores,
           st_user s' = st_user s ++ stores ∧
           emitted_cmds stores `sublist_of` [BR_INCREFS; BR_ACQUIRE; BR_RELEASE; BR_DECREFS] ∧
           ((∀ a, put_user_ok a = true) →
              emitted_cmds stores = node_cmds n ∧
              out = Read_continue (ptr + Z.of_nat (length (node_cmds n)) * sizeof_node_cmd)) ∧
           (if node_weak_need n then
              ∃ n', st_nodes s' !! node = Some n' ∧
                    has_strong_ref n' = node_strong_need n ∧
                    has_weak_ref n' = node_weak_need n ∧
                    pending_strong_ref n' =
                      pending_strong_ref n || (node_strong_need n && negb (has_strong_ref n)) ∧
                    pending_weak_ref n' =
                      pending_weak_ref n || (node_weak_need n && negb (has_weak_ref n)) ∧
                    st_procs s' = st_procs s
            else
              st_nodes s' !! node = None ∧
              ∃ p', st_procs s' !! proc = Some p' ∧
                    proc_nodes p' = rb_erase node (proc_nodes p)))).
  { intros (out & s' & Hrun & stores & Huser & Hsub & Hcmds & HQ). exists out, s', stores.
    do 4 (split; [done|]). destruct (node_weak_need n); [done|].
    destruct HQ as (Hfreed & p' & Hp' & Herase). split; [done|]. exists p'.
    do 2 (split; [done|]). rewrite Herase. split; [by apply rb_erase_unlisted|].
    intros k other Hne. by apply rb_erase_others. }
  unfold node_cmds.
  pose proof (eq_refl : node_weak_need n = _) as Hw. unfold node_weak_need at 2 in Hw.
  destruct (node_strong_need n) eqn:Hs, (node_weak_need n) eqn:Hwn,
    (has_strong_ref n) eqn:Hhs, (has_weak_ref n) eqn:Hhw;
    try (rewrite ?orb_true_r in Hw; discriminate Hw).
  all: unfold node_strong_need in Hs.
  all: destruct s; simpl in *.
  all: unfold binder_thread_read_node.
  all: kwp ltac:(first
         [ rewrite Hproc | rewrite Hs | rewrite <- Hw | rewrite Hhs | rewrite Hhw
         | progress cbv zeta | progress unfold binder_free_node, binder_put_node_cmd
         | lazymatch goal with
           | |- if put_user_ok ?a then _ else _ => destruct (put_user_ok a) eqn:?
           end ]).
  all: eexists; split;
    [ first [ symmetry; apply app_nil_r | rewrite <- ?app_assoc; reflexivity ] | ].
  all: split;
    [ cbn; repeat first [ apply sublist_nil | apply sublist_skip | apply sublist_cons ] | ].
  all: split;
    [ intros Hok;
      first [ congruence
            | split; [ reflexivity | f_equal; unfold sizeof_node_cmd; simpl; lia ] ] | ].
  all: first
    [ eexists; split;
      [ first [ eassumption | rewrite ?lookup_insert_eq; reflexivity ] | ];
      kobj; rewrite ?orb_false_r, ?orb_true_r;
      repeat (split; [ first [ reflexivity | assumption ] | ]); reflexivity
    | split;
      [ apply lookup_delete_eq
      | eexists; split; [ apply lookup_insert_eq | reflexivity ] ] ].
Qed.

(** ** C9: death notifications end the read *)

Lemma remove_work_head w l : remove_work w (w :: l) = l.
Proof. simpl. by rewrite decide_True. Qed.

(** C9: when the work item the read takes next is a death notification
    of type BINDER_WORK_DEAD_BINDER or BINDER_WORK_DEAD_BINDER_AND_CLEAR,
    the read stores BR_DEAD_BINDER and the cookie, moves the item to the
    delivered-death list of the process and goes to [done]: the loop is
    over whatever the fuel, and what was queued behind the item is still
    queued.  An item of type BINDER_WORK_CLEAR_DEATH_NOTIFICATION, which
    the same case serves, is freed and the loop goes on with the next
    item. *)
Theorem binder_thread_read_dead_binder_done
    proc thread buffer ptr end_ wait fuel s th p death d list rest :
  st_threads s !! thread = Some th →
  st_procs s !! proc = Some p →
  st_deaths s !! death = Some d →
  w_entry (death_work d) = Some list →
  (list = thread_todo thread ∧ thread_todo_list th = W_death death :: rest) ∨
  (list = proc_todo proc ∧ thread_todo_list th = [] ∧ wait = true ∧
   proc_todo_list p = W_death death :: rest) →
  ¬ u64 (end_ - ptr) < sizeof_binder_transaction_data + 4 →
  put_user_ok ptr = true →
  put_user_ok (ptr + sizeof_u32) = true →
  (w_type (death_work d) = BINDER_WORK_DEAD_BINDER ∨
   w_type (death_work d) = BINDER_WORK_DEAD_BINDER_AND_CLEAR →
   ∃ s',
     runs (binder_thread_read_loop (S fuel) proc thread buffer ptr end_ wait) s
       (Read_done (ptr + sizeof_u32 + sizeof_binder_uintptr_t)) s' ∧
     st_user s' = st_user s ++ [(ptr, U_cmd BR_DEAD_BINDER);
                                (ptr + sizeof_u32, U_ptr (death_cookie d))] ∧
     runs (get_list list) s' rest s' ∧
     runs (get_list (proc_delivered_death proc)) s' (delivered_death p ++ [W_death death]) s' ∧
     runs (get_work (W_death death)) s'
       (set_w_entry (Some (proc_delivered_death proc)) (death_work d)) s') ∧
  (w_type (death_work d) = BINDER_WORK_CLEAR_DEATH_NOTIFICATION →
   ∃ s1,
     runs (binder_thread_read_work proc thread buffer ptr end_ wait) s
       (Read_continue (ptr + sizeof_u32 + sizeof_binder_uintptr_t)) s1 ∧
     st_user s1 = st_user s ++ [(ptr, U_cmd BR_CLEAR_DEATH_NOTIFICATION_DONE);
                                (ptr + sizeof_u32, U_ptr (death_cookie d))] ∧
     st_deaths s1 !! death = None ∧
     runs (get_list list) s1 rest s1 ∧
     binder_thread_read_loop (S fuel) proc thread buffer ptr end_ wait s =
     binder_thread_read_loop fuel proc thread buffer
       (ptr + sizeof_u32 + sizeof_binder_uintptr_t) end_ wait s1).
Proof.
  intros Hth Hp Hd Hentry Hlist Hroom Hput1 Hput2. split.
  - intros Htype.
    cut (post (binder_thread_read_loop (S fuel) proc thread buffer ptr end_ wait) s
           (λ out s',
              out = Read_done (ptr + sizeof_u32 + sizeof_binder_uintptr_t) ∧
              st_user s' = st_user s ++ [(ptr, U_cmd BR_DEAD_BINDER);
                                         (ptr + sizeof_u32, U_ptr (death_cookie d))] ∧
              runs (get_list list) s' rest s' ∧
              runs (get_list (proc_delivered_death proc)) s'
                (delivered_death p ++ [W_death death]) s' ∧
              runs (get_work (W_death death)) s'
                (set_w_entry (Some (proc_delivered_death proc)) (death_work d)) s')).
    { intros (out & s' & Hrun & -> & HQ). by exists s'. }
    cbn [binder_thread_read_loop].
    destruct Hlist as [[-> Htodo] | (-> & Htodo & -> & Hptodo)];
      destruct Htype as [Htype | Htype]; destruct s; simpl in *.
    all: kwp ltac:(first
        [ rewrite Htodo | rewrite Hptodo | rewrite Hentry | rewrite Hput1 | rewrite Hput2
        | rewrite Htype
        | progress unfold binder_thread_read_work, binder_dequeue_work_head_ilocked,
            list_del_init, binder_thread_read_death ]).
    all: rewrite ?remove_work_head.
    all: split; [reflexivity|]; split; [by rewrite <- app_assoc|].
    all: split; [krun|]; split; krun.
  - intros Htype.
    cut (post (binder_thread_read_work proc thread buffer ptr end_ wait) s
           (λ out s1,
              out = Read_continue (ptr + sizeof_u32 + sizeof_binder_uintptr_t) ∧
              st_user s1 = st_user s ++ [(ptr, U_cmd BR_CLEAR_DEATH_NOTIFICATION_DONE);
                                         (ptr + sizeof_u32, U_ptr (death_cookie d))] ∧
              st_deaths s1 !! death = None ∧
              runs (get_list list) s1 rest s1)).
    { intros (out & s1 & Hrun & -> & Huser & Hgone & Hrest). exists s1.
      repeat (split; [assumption|]).
      cbn [binder_thread_read_loop]. unfold mbind, kernel_bind, kbind.
      unfold runs in Hrun. by rewrite Hrun. }
    destruct Hlist as [[-> Htodo] | (-> & Htodo & -> & Hptodo)]; destruct s; simpl in *.
    all: kwp ltac:(first
        [ rewrite Htodo | rewrite Hptodo | rewrite Hentry | rewrite Hput1 | rewrite Hput2
        | rewrite Htype
        | progress unfold binder_thread_read_work, binder_dequeue_work_head_ilocked,
            list_del_init, binder_thread_read_death ]).
    all: rewrite ?remove_work_head.
    all: split; [reflexivity|]; split; [by rewrite <- app_assoc|].
    all: split; [apply lookup_delete_eq | krun].
Qed.

(** ** C5: the priority of the thread that takes a transaction *)

(** C5, as amended: the delivery of a transaction with a target node
    saves the nice value of the reading thread in the transaction and
    then asks for the priority of the sender, when that is below the
    [min_priority] of the node and the transaction is not one-way, and
    else for [min_priority], unless the transaction is one-way and the
    thread is at [min_priority] or below already.  When [can_nice] does
    not allow what it asks for, it asks for the nice value of
    RLIMIT_NICE instead; and the thread gets the value asked for last
    when that is a nice value, from MIN_NICE to MAX_NICE, and stays as
    it is when not: so with a [min_priority] above MAX_NICE, which may
    be up to 255, an allowed request for it changes nothing. *)
Theorem binder_thread_read_transaction_priority
    proc thread t ptr s x buffer b target n p th :
  st_transactions s !! t = Some x →
  t_buffer x = Some buffer →
  st_buffers s !! buffer = Some b →
  b_target_node b = Some target →
  st_nodes s !! target = Some n →
  st_procs s !! proc = Some p →
  st_threads s !! thread = Some th →
  sender_alive s x →
  put_user_ok ptr = true →
  put_user_ok (ptr + sizeof_u32) = true →
  ∃ s',
    runs (binder_thread_read_transaction proc thread t ptr) s
      (Read_break (ptr + sizeof_u32 + sizeof_binder_transaction_data)) s' ∧
    st_nice s' = delivery_nice x n (st_nice s) ∧
    (if one_way (t_flags x) then st_transactions s' !! t = None
     else ∃ x', st_transactions s' !! t = Some x' ∧ t_saved_priority x' = st_nice s) ∧
    (t_priority x < min_priority n → one_way (t_flags x) = false →
     can_nice (t_priority x) = true → MIN_NICE ≤ t_priority x ≤ MAX_NICE →
     st_nice s' = t_priority x) ∧
    (¬ (t_priority x < min_priority n ∧ one_way (t_flags x) = false) →
     can_nice (min_priority n) = true → MIN_NICE ≤ min_priority n ≤ MAX_NICE →
     st_nice s' ≤ min_priority n) ∧
    (¬ (t_priority x < min_priority n ∧ one_way (t_flags x) = false) →
     can_nice (min_priority n) = true → MAX_NICE < min_priority n →
     st_nice s' = st_nice s).
Proof.
  intros Ht Hbuf Hb Htarget Hn Hp Hth Hfrom Hput1 Hput2.
  cut (post (binder_thread_read_transaction proc thread t ptr) s (λ out s',
         out = Read_break (ptr + sizeof_u32 + sizeof_binder_transaction_data) ∧
         st_nice s' = delivery_nice x n (st_nice s) ∧
         (if one_way (t_flags x) then st_transactions s' !! t = None
          else ∃ x', st_transactions s' !! t = Some x' ∧ t_saved_priority x' = st_nice s))).
  { intros (out & s' & Hrun & -> & Hnice & Hsaved). exists s'.
    split; [exact Hrun|]. split; [exact Hnice|]. split; [exact Hsaved|].
    rewrite Hnice. unfold delivery_nice, nice_granted, user_nice. split; [|split].
    - intros Hlt Hsync Hcan Hrange. rewrite Hsync, Hcan.
      rewrite bool_decide_eq_true_2 by done. simpl.
      by rewrite !bool_decide_eq_false_2 by lia.
    - intros Hnot Hcan Hrange. rewrite Hcan.
      rewrite (bool_decide_eq_false_2 (min_priority n < MIN_NICE)) by lia.
      rewrite (bool_decide_eq_false_2 (min_priority n > MAX_NICE)) by lia.
      destruct (one_way (t_flags x)); simpl.
      + rewrite andb_false_r. case_bool_decide; lia.
      + rewrite andb_true_r. rewrite bool_decide_eq_false_2; [lia|]. intros Hlt. by apply Hnot.
    - intros Hnot Hcan Hrange. rewrite Hcan.
      rewrite (bool_decide_eq_true_2 (min_priority n > MAX_NICE)) by lia.
      rewrite orb_true_r.
      destruct (one_way (t_flags x)); simpl.
      + rewrite andb_false_r. by case_bool_decide.
      + rewrite andb_true_r. rewrite bool_decide_eq_false_2; [done|]. intros Hlt. by apply Hnot. }
  unfold sender_alive in Hfrom. unfold delivery_nice.
  destruct (t_from x) as [from|] eqn:Hx.
  - destruct Hfrom as (fth & fp & Hfth & Hfp & Halive).
    destruct (decide (from = thread)) as [-> | Hne];
      [ assert (fth = th) as -> by congruence | ].
    all: destruct (one_way (t_flags x)) eqn:Hone,
      (bool_decide (t_priority x < min_priority n)) eqn:Hlt,
      (bool_decide (st_nice s > min_priority n)) eqn:Hgt;
      destruct s; simpl in *.
    all: unfold binder_thread_read_transaction.
    all: kwp ltac:(first
           [ rewrite Hbuf | rewrite Htarget | rewrite Hone | rewrite Hlt | rewrite Hgt
           | rewrite Hx | rewrite Hput1 | rewrite Hput2 | rewrite Halive
           | progress unfold binder_get_txn_from, binder_alloc_get_user_buffer_offset,
               binder_free_transaction, binder_set_nice_state, binder_thread_dec_tmpref ]).
    all: split; [reflexivity|]; split; [reflexivity|].
    all: first [ apply lookup_delete_eq
               | eexists; split; [ apply lookup_insert_eq | reflexivity ] ].
  - destruct (one_way (t_flags x)) eqn:Hone,
      (bool_decide (t_priority x < min_priority n)) eqn:Hlt,
      (bool_decide (st_nice s > min_priority n)) eqn:Hgt;
      destruct s; simpl in *.
    all: unfold binder_thread_read_transaction.
    all: kwp ltac:(first
           [ rewrite Hbuf | rewrite Htarget | rewrite Hone | rewrite Hlt | rewrite Hgt
           | rewrite Hx | rewrite Hput1 | rewrite Hput2
           | progress unfold binder_get_txn_from, binder_alloc_get_user_buffer_offset,
               binder_free_transaction, binder_set_nice_state ]).
    all: split; [reflexivity|]; split; [reflexivity|].
    all: first [ apply lookup_delete_eq
               | eexists; split; [ apply lookup_insert_eq | reflexivity ] ].
Qed.

(** ** C7: the context manager *)

Lemma binder_send_failed_reply_loop_contexts fuel t error_code :
  preserves st_contexts (binder_send_failed_reply_loop fuel t error_code).
Proof.
  revert t. induction fuel as [|fuel IH]; intros t; cbn [binder_send_failed_reply_loop]; kframe.
Qed.

#[local] Hint Resolve binder_send_failed_reply_loop_contexts : kframe.

Lemma binder_release_work_loop_contexts fuel proc list :
  preserves st_contexts (binder_release_work_loop fuel proc list).
Proof.
  induction fuel as [|fuel IH]; cbn [binder_release_work_loop]; kframe.
Qed.

#[local] Hint Resolve binder_release_work_loop_contexts : kframe.

Lemma binder_thread_release_loop_contexts fuel thread t active :
  preserves st_contexts (binder_thread_release_loop fuel thread t active).
Proof.
  revert t active.
  induction fuel as [|fuel IH]; intros [t|] active; cbn [binder_thread_release_loop]; kframe.
Qed.

#[local] Hint Resolve binder_thread_release_loop_contexts : kframe.

Lemma binder_node_release_refs_contexts l refs :
  preserves st_contexts (binder_node_release_refs l refs).
Proof.
  revert refs. induction l as [|ref l IH]; intros refs; cbn [binder_node_release_refs]; kframe.
Qed.

#[local] Hint Resolve binder_node_release_refs_contexts : kframe.

Lemma binder_deferred_release_threads_contexts fuel proc :
  preserves st_contexts (binder_deferred_release_threads fuel proc).
Proof.
  induction fuel as [|fuel IH]; cbn [binder_deferred_release_threads]; kframe.
Qed.

Lemma binder_deferred_release_nodes_contexts fuel proc refs :
  preserves st_contexts (binder_deferred_release_nodes fuel proc refs).
Proof.
  revert refs.
  induction fuel as [|fuel IH]; intros refs; cbn [binder_deferred_release_nodes]; kframe.
Qed.

Lemma binder_deferred_release_refs_contexts fuel proc :
  preserves st_contexts (binder_deferred_release_refs fuel proc).
Proof.
  induction fuel as [|fuel IH]; cbn [binder_deferred_release_refs]; kframe.
Qed.

#[local] Hint Resolve binder_deferred_release_threads_contexts
  binder_deferred_release_nodes_contexts binder_deferred_release_refs_contexts : kframe.

(** C7: a context has one slot for its manager.  BINDER_SET_CONTEXT_MGR
    on a taken slot fails with -EBUSY and leaves the slot as it is.  On a
    free slot, for a process that passes the security hook and the uid
    check, it makes a node for the object 0 of the process, with one
    local strong and one local weak count and with [has_strong_ref] and
    [has_weak_ref] set, and puts it in the slot.  The release of the
    process that owns the node in the slot empties the slot, however the
    release goes on from there. *)
Theorem binder_context_mgr_slot proc s p c :
  st_procs s !! proc = Some p →
  st_contexts s !! context p = Some c →
  (∀ node, binder_context_mgr_node c = Some node →
     runs (binder_ioctl_set_ctx_mgr proc) s (Some EBUSY)
       (set_st_log (st_log s ++ [Pr_err "BINDER_SET_CONTEXT_MGR already set"]) s)) ∧
  (binder_context_mgr_node c = None →
   security_binder_set_context_mgr (tsk p) = None →
   binder_context_mgr_uid c = None ∨ binder_context_mgr_uid c = Some (task_euid (tsk p)) →
   rb_search 0 (proc_nodes p) = None →
   kzalloc_fails (st_brk s) = false →
   ∃ s' c' n',
     runs (binder_ioctl_set_ctx_mgr proc) s None s' ∧
     st_contexts s' !! context p = Some c' ∧
     binder_context_mgr_node c' = Some (st_brk s) ∧
     binder_context_mgr_uid c' = Some (task_euid (tsk p)) ∧
     st_nodes s' !! st_brk s = Some n' ∧
     node_proc n' = Some proc ∧ node_ptr n' = 0 ∧ node_refs n' = [] ∧
     local_strong_refs n' = 1 ∧ local_weak_refs n' = 1 ∧ tmp_refs n' = 0 ∧
     has_strong_ref n' = true ∧ has_weak_ref n' = true) ∧
  (∀ node n, binder_context_mgr_node c = Some node →
     st_nodes s !! node = Some n → node_proc n = Some proc → files p = None →
     st_contexts (binder_deferred_release proc s).2 =
     <[context p := set_binder_context_mgr_node None c]> (st_contexts s)).
Proof.
  intros Hp Hc. split; [|split].
  - intros node Hmgr. unfold binder_ioctl_set_ctx_mgr.
    krunh ltac:(first [ rewrite Hmgr ]).
  - intros Hmgr Hsec Huid Hptr Halloc.
    cut (post (binder_ioctl_set_ctx_mgr proc) s (λ out s',
           out = None ∧
           ∃ c' n',
             st_contexts s' !! context p = Some c' ∧
             binder_context_mgr_node c' = Some (st_brk s) ∧
             binder_context_mgr_uid c' = Some (task_euid (tsk p)) ∧
             st_nodes s' !! st_brk s = Some n' ∧
             node_proc n' = Some proc ∧ node_ptr n' = 0 ∧ node_refs n' = [] ∧
             local_strong_refs n' = 1 ∧ local_weak_refs n' = 1 ∧ tmp_refs n' = 0 ∧
             has_strong_ref n' = true ∧ has_weak_ref n' = true)).
    { intros (out & s' & Hrun & -> & c' & n' & HQ). by exists s', c', n'. }
    unfold binder_ioctl_set_ctx_mgr.
    destruct Huid as [Huid | Huid]; destruct s; simpl in *.
    all: kwp ltac:(first
           [ rewrite Hmgr | rewrite Hsec | rewrite Huid | rewrite Hptr
           | progress unfold binder_new_node, binder_put_node, binder_dec_node_tmpref,
               binder_dec_node_nilocked ]).
    all: split; [reflexivity|]; eexists _, _.
    all: split; [apply lookup_insert_eq|]; kobj.
    all: split; [reflexivity|]; split; [first [reflexivity | assumption]|].
    all: split; [apply lookup_insert_eq|]; kobj.
    all: repeat (split; [reflexivity|]); reflexivity.
  - intros node n Hmgr Hn Hproc Hfiles.
    unfold binder_deferred_release.
    erewrite snd_bind_runs; [|krun]. rewrite Hfiles.
    erewrite snd_bind_runs; [|krun].
    erewrite snd_bind_runs; [|krun]. rewrite Hmgr.
    erewrite snd_bind_runs; [|krunh ltac:(rewrite Hproc)].
    rewrite bool_decide_eq_true_2 by done.
    erewrite snd_bind_runs; [|krun].
    lazymatch goal with
    | |- st_contexts (?m ?s1).2 = _ =>
        assert (preserves st_contexts m) as Hframe by kframe; rewrite (Hframe s1)
    end.
    reflexivity.
Qed.

(** ** C4: one asynchronous transaction per node at a time *)

(** What BC_FREE_BUFFER does before it releases and frees the buffer of
    an asynchronous transaction. *)
Lemma binder_thread_write_free_buffer_async proc thread node s n th :
  st_nodes s !! node = Some n →
  st_threads s !! thread = Some th →
  (∀ ptr data_ptr p buffer b,
     get_user_u64 ptr = Some data_ptr →
     st_procs s !! proc = Some p →
     find_buffer (st_buffers s) (u64 (data_ptr - user_buffer_offset p)) (alloc_buffers p)
       = Some buffer →
     st_buffers s !! buffer = Some b →
     allow_user_free b = true → b_transaction b = None →
     async_transaction b = true → b_target_node b = Some node →
     has_async_transaction n = true → node_proc n = Some proc →
     let rest_of_free_buffer :=
       binder_transaction_buffer_release proc buffer None;;
       binder_alloc_free_buf proc buffer;;
       mret (inr (ptr + sizeof_binder_uintptr_t)) in
     (async_todo n = [] →
      binder_thread_write_free_buffer proc thread ptr s =
      rest_of_free_buffer
        (set_st_nodes (<[node := set_has_async_transaction false n]> (st_nodes s)) s)) ∧
     (∀ t x rest,
        async_todo n = W_transaction t :: rest →
        st_transactions s !! t = Some x →
        w_entry (t_work x) = Some (node_async_todo node) →
        binder_thread_write_free_buffer proc thread ptr s =
        rest_of_free_buffer
          (set_st_transactions
             (<[t := set_t_work (set_w_entry (Some (thread_todo thread)) (t_work x)) x]>
                (st_transactions s))
             (set_st_threads
                (<[thread := set_thread_todo_list (thread_todo_list th ++ [W_transaction t]) th]>
                   (st_threads s))
                (set_st_nodes (<[node := set_async_todo rest n]> (st_nodes s)) s))))).
Proof.
  intros Hn Hth ptr data_ptr p buffer b Hptr Hp Hfind Hb Hallow Htxn Hasync Htarget
    Hflag Hproc rest_of_free_buffer.
  split.
  - intros Htodo. unfold binder_thread_write_free_buffer. rewrite Hptr.
    destruct s; simpl in *.
    erewrite snd_bind_runs;
      [|unfold binder_alloc_prepare_to_free; krunh ltac:(idtac)].
    rewrite Hfind. erewrite snd_bind_runs; [|krun].
    rewrite Hallow, Htxn. cbn [negb]. erewrite snd_bind_runs; [|krun].
    rewrite Htarget, Hasync.
    erewrite snd_bind_runs;
      [|krunh ltac:(first [ rewrite Hflag | rewrite Hproc | rewrite Htodo
                          | progress unfold binder_dequeue_work_head_ilocked ])].
    reflexivity.
  - intros t x rest Htodo Ht Hentry. unfold binder_thread_write_free_buffer. rewrite Hptr.
    destruct s; simpl in *.
    erewrite snd_bind_runs;
      [|unfold binder_alloc_prepare_to_free; krunh ltac:(idtac)].
    rewrite Hfind. erewrite snd_bind_runs; [|krun].
    rewrite Hallow, Htxn. cbn [negb]. erewrite snd_bind_runs; [|krun].
    rewrite Htarget, Hasync.
    erewrite snd_bind_runs;
      [|krunh ltac:(first [ rewrite Hflag | rewrite Hproc | rewrite Htodo | rewrite Hentry
                          | progress unfold binder_dequeue_work_head_ilocked, list_del_init ])].
    rewrite remove_work_head, insert_insert_eq.
    reflexivity.
Qed.

Lemma runs_state_eq {A} (m : kernel A) s a s1 s2 : runs m s a s1 → s1 = s2 → runs m s a s2.
Proof. by intros Hrun <-. Qed.

(** The queueing of a one-way transaction, for a target that is alive. *)
Lemma binder_transaction_dispatch_async
    proc thread tr tg t tcomplete buffer tproc node s th xc x b tp n :
  target_proc tg = Some tproc → target_thread tg = None → target_node tg = Some node →
  st_threads s !! thread = Some th →
  st_tcompletes s !! tcomplete = Some xc → w_entry xc = None →
  st_transactions s !! t = Some x → one_way (t_flags x) = true →
  w_entry (t_work x) = None →
  st_buffers s !! buffer = Some b → async_transaction b = true →
  st_procs s !! tproc = Some tp → proc_is_dead tp = false →
  st_nodes s !! node = Some n →
  let queued_on list :=
    set_st_transactions
      (<[t := set_t_work (Build_binder_work (Some list) BINDER_WORK_TRANSACTION) x]>
         (st_transactions s))
      (set_st_tcompletes
         (<[tcomplete := Build_binder_work (Some (thread_todo thread))
                           BINDER_WORK_TRANSACTION_COMPLETE]> (st_tcompletes s))
         (set_st_threads
            (<[thread := set_thread_todo_list (thread_todo_list th ++ [W_tcomplete tcomplete])
                           th]> (st_threads s)) s)) in
  runs (binder_transaction_dispatch proc thread tr false tg t tcomplete buffer) s true
    (if has_async_transaction n then
       set_st_nodes (<[node := set_async_todo (async_todo n ++ [W_transaction t]) n]>
                       (st_nodes s))
         (queued_on (node_async_todo node))
     else
       set_st_procs (<[tproc := set_proc_todo_list (proc_todo_list tp ++ [W_transaction t]) tp]>
                       (st_procs s))
         (set_st_nodes (<[node := set_has_async_transaction true n]> (st_nodes s))
            (queued_on (proc_todo tproc)))).
Proof.
  intros Htp Htt Htn Hth Hxc Hxce Ht Hone Hte Hb Hasync Hp Halive Hn queued_on.
  unfold binder_transaction_dispatch.
  destruct (has_async_transaction n) eqn:Hflag; destruct s; simpl in *.
  - eapply runs_state_eq.
    { krunh ltac:(first [ rewrite Htp | rewrite Htt | rewrite Htn | rewrite Hxce | rewrite Hone
                        | rewrite Hte | rewrite Hasync | rewrite Halive | rewrite Hflag ]). }
    rewrite !insert_insert_eq. reflexivity.
  - eapply runs_state_eq.
    { krunh ltac:(first [ rewrite Htp | rewrite Htt | rewrite Htn | rewrite Hxce | rewrite Hone
                        | rewrite Hte | rewrite Hasync | rewrite Halive | rewrite Hflag ]). }
    rewrite !insert_insert_eq. reflexivity.
Qed.

(** C4: BC_FREE_BUFFER on the buffer of an asynchronous transaction to
    node [node] takes the first transaction off the [async_todo] of the
    node, if there is one, and queues it on the todo list of the thread
    that frees, and clears [has_async_transaction] of the node if there is
    none; then it releases and frees the buffer.  A one-way transaction
    sent to a node with [has_async_transaction] set is queued at the tail
    of the [async_todo] of the node, and the todo list of the target
    process stays as it is; with the flag clear, the flag goes up and the
    transaction is queued on the todo list of the process. *)
Theorem binder_async_todo_one_at_a_time proc thread node s n th :
  st_nodes s !! node = Some n →
  st_threads s !! thread = Some th →
  (∀ ptr data_ptr p buffer b,
     get_user_u64 ptr = Some data_ptr →
     st_procs s !! proc = Some p →
     find_buffer (st_buffers s) (u64 (data_ptr - user_buffer_offset p)) (alloc_buffers p)
       = Some buffer →
     st_buffers s !! buffer = Some b →
     allow_user_free b = true → b_transaction b = None →
     async_transaction b = true → b_target_node b = Some node →
     has_async_transaction n = true → node_proc n = Some proc →
     let rest_of_free_buffer :=
       binder_transaction_buffer_release proc buffer None;;
       binder_alloc_free_buf proc buffer;;
       mret (inr (ptr + sizeof_binder_uintptr_t)) in
     (async_todo n = [] →
      binder_thread_write_free_buffer proc thread ptr s =
      rest_of_free_buffer
        (set_st_nodes (<[node := set_has_async_transaction false n]> (st_nodes s)) s)) ∧
     (∀ t x rest,
        async_todo n = W_transaction t :: rest →
        st_transactions s !! t = Some x →
        w_entry (t_work x) = Some (node_async_todo node) →
        binder_thread_write_free_buffer proc thread ptr s =
        rest_of_free_buffer
          (set_st_transactions
             (<[t := set_t_work (set_w_entry (Some (thread_todo thread)) (t_work x)) x]>
                (st_transactions s))
             (set_st_threads
                (<[thread := set_thread_todo_list (thread_todo_list th ++ [W_transaction t]) th]>
                   (st_threads s))
                (set_st_nodes (<[node := set_async_todo rest n]> (st_nodes s)) s))))) ∧
  (∀ tr tg t tcomplete buffer tproc xc x b tp,
    target_proc tg = Some tproc → target_thread tg = None → target_node tg = Some node →
    st_tcompletes s !! tcomplete = Some xc → w_entry xc = None →
    st_transactions s !! t = Some x → one_way (t_flags x) = true →
    w_entry (t_work x) = None →
    st_buffers s !! buffer = Some b → async_transaction b = true →
    st_procs s !! tproc = Some tp → proc_is_dead tp = false →
    let queued_on list :=
      set_st_transactions
        (<[t := set_t_work (Build_binder_work (Some list) BINDER_WORK_TRANSACTION) x]>
           (st_transactions s))
        (set_st_tcompletes
           (<[tcomplete := Build_binder_work (Some (thread_todo thread))
                             BINDER_WORK_TRANSACTION_COMPLETE]> (st_tcompletes s))
           (set_st_threads
              (<[thread := set_thread_todo_list (thread_todo_list th ++ [W_tcomplete tcomplete])
                             th]> (st_threads s)) s)) in
    runs (binder_transaction_dispatch proc thread tr false tg t tcomplete buffer) s true
      (if has_async_transaction n then
         set_st_nodes (<[node := set_async_todo (async_todo n ++ [W_transaction t]) n]>
                         (st_nodes s))
           (queued_on (node_async_todo node))
       else
         set_st_procs (<[tproc := set_proc_todo_list (proc_todo_list tp ++ [W_transaction t]) tp]>
                         (st_procs s))
           (set_st_nodes (<[node := set_has_async_transaction true n]> (st_nodes s))
              (queued_on (proc_todo tproc))))).
Proof.
  intros Hn Hth. split.
  - by apply binder_thread_write_free_buffer_async.
  - intros. by eapply binder_transaction_dispatch_async.
Qed.
(** ** C3: the order of the fixups *)

Lemma same_layout_refl b : same_layout b b.
Proof. by repeat split. Qed.

Lemma same_layout_trans b1 b2 b3 :
  same_layout b1 b2 → same_layout b2 b3 → same_layout b1 b3.
Proof.
  intros (Ho & Hd & Hl) (Ho' & Hd' & Hl'). repeat split; congruence.
Qed.

Lemma buffer_object_at_layout b off lo :
  buffer_object_at b off = Some lo →
  layout_of (object_at b off) =
    Layout_ptr (bbo_flags lo) (bbo_length lo) (bbo_parent lo) (bbo_parent_offset lo).
Proof.
  unfold buffer_object_at. destruct (object_at b off); try done. by intros [= ->].
Qed.

Lemma layout_buffer_object_at b off flags len parent po :
  layout_of (object_at b off) = Layout_ptr flags len parent po →
  ∃ lo, buffer_object_at b off = Some lo ∧ bbo_flags lo = flags ∧ bbo_length lo = len ∧
        bbo_parent lo = parent ∧ bbo_parent_offset lo = po.
Proof.
  unfold buffer_object_at. destruct (object_at b off); try done.
  intros [= <- <- <- <-]. by eexists.
Qed.

Lemma same_layout_parent_of b b' obj :
  same_layout b b' → fixup_parent_of b' obj = fixup_parent_of b obj.
Proof.
  intros (Ho & _ & Hl). unfold fixup_parent_of, buffer_object_at. specialize (Hl obj).
  rewrite Ho.
  destruct (object_at b obj), (object_at b' obj); try done.
  simpl in Hl. injection Hl as -> _ -> ->. done.
Qed.

Lemma same_layout_fixup_at b b' i :
  same_layout b b' → fixup_at b' i = fixup_at b i.
Proof.
  intros Hs. unfold fixup_at. pose proof Hs as (Ho & _ & Hl). rewrite Ho.
  destruct (b_offsets b !! i) as [offp|]; [|done]. specialize (Hl offp).
  rewrite (same_layout_parent_of b b') by done.
  destruct (object_at b offp), (object_at b' offp); try done.
  simpl in Hl. by injection Hl as ->.
Qed.

Lemma same_layout_fixup_cursor b b' j :
  same_layout b b' → fixup_cursor b' j = fixup_cursor b j.
Proof.
  intros Hs. induction j as [|j IH]; [done|]. simpl.
  rewrite (same_layout_fixup_at b b') by done. rewrite IH.
  destruct Hs as (Ho & _ & Hl). rewrite Ho.
  destruct (b_offsets b !! j) as [offp|]; [|done]. specialize (Hl offp).
  destruct (object_at b offp), (object_at b' offp); done.
Qed.

Lemma same_layout_on_frontier b b' L min P m :
  same_layout b b' → on_frontier b L min P m → on_frontier b' L min P m.
Proof.
  intros Hs. induction 1 as [|last min p po P m Hp _ IH]; [constructor|].
  eapply frontier_up; [|exact IH]. by rewrite (same_layout_parent_of b b').
Qed.

Lemma same_layout_sym b b' : same_layout b b' → same_layout b' b.
Proof. intros (Ho & Hd & Hl). by repeat split. Qed.

Lemma same_layout_fixups_in_order b b' n :
  same_layout b b' → fixups_in_order b n → fixups_in_order b' n.
Proof.
  intros Hs [H1 H2]. split.
  - intros j P s e Hj. rewrite (same_layout_fixup_at b b'), (same_layout_fixup_cursor b b') by done.
    intros Hf. destruct (H1 j P s e Hj Hf) as (L & min & m & Hc & Hfr & Hm).
    exists L, min, m. eauto using same_layout_on_frontier.
  - intros i j P si ei sj ej Hij. rewrite !(same_layout_fixup_at b b') by done. eauto.
Qed.

Lemma payload_unsigned_at b :
  payload_unsigned b →
  0 ≤ b_data_size b < 2 ^ 64 ∧ (∀ i o, b_offsets b !! i = Some o → 0 ≤ o) ∧
  ∀ off, layout_unsigned (layout_of (object_at b off)).
Proof.
  intros (Hsize & Hoffs & Hobjs). split; [done|]. split.
  - intros i o Ho. by apply (Forall_lookup_1 _ _ _ _ Hoffs Ho).
  - intros off. unfold object_at. destruct (b_objects b !! off) as [o|] eqn:Ho; [|done].
    by apply (Hobjs off o).
Qed.

Lemma same_layout_payload_unsigned b b' :
  same_layout b b' → payload_unsigned b → payload_unsigned b'.
Proof.
  intros (Ho & Hd & Hl) Hpay. pose proof Hpay as (Hsize & Hoffs & _).
  apply payload_unsigned_at in Hpay as (_ & _ & Hat).
  unfold payload_unsigned. rewrite Ho, Hd. do 2 (split; [done|]).
  intros off o Hoff. specialize (Hl off). specialize (Hat off).
  unfold object_at in Hl. rewrite Hoff in Hl. simpl in Hl. by rewrite Hl.
Qed.

Lemma same_layout_is_ptr b b' off :
  same_layout b b' → is_Some (buffer_object_at b off) → is_Some (buffer_object_at b' off).
Proof.
  intros (_ & _ & Hl) [lo Hlo]. specialize (Hl off). unfold buffer_object_at in *.
  destruct (object_at b off); try done. by destruct (object_at b' off).
Qed.

Lemma same_layout_verified_ptr b b' j P :
  same_layout b b' → verified_ptr b j P → verified_ptr b' j P.
Proof.
  intros Hs (i & Hi & Ho & Hptr). pose proof Hs as (Hoffs & _).
  exists i. rewrite Hoffs. eauto using same_layout_is_ptr.
Qed.

Lemma same_layout_fixup_inv b b' j c :
  same_layout b b' → fixup_inv b j c → fixup_inv b' j c.
Proof.
  intros Hs [H1 H2 H3 H4 Hp H5 H6 H7].
  pose proof Hs as (Ho & _ & _). pose proof (same_layout_sym _ _ Hs) as Hs'.
  split; rewrite ?Ho, ?(same_layout_fixup_cursor b b') by done; try done.
  - intros i P s e Hi. rewrite (same_layout_fixup_at b b') by done. intros Hf.
    destruct (H4 i P s e Hi Hf) as (Hv & ?). eauto using same_layout_verified_ptr.
  - intros i offp lo Hi Hoffp Hlo. rewrite (same_layout_parent_of b b') by done.
    destruct (layout_buffer_object_at b offp (bbo_flags lo) (bbo_length lo) (bbo_parent lo)
                (bbo_parent_offset lo)) as (lo' & Hlo' & <- & _).
    { destruct Hs as (_ & _ & Hl). rewrite <- Hl. by apply buffer_object_at_layout. }
    eauto.
  - intros L m Hc. eauto using same_layout_verified_ptr.
  - intros L min i P s e m Hc Hi. rewrite (same_layout_fixup_at b b') by done.
    intros Hf Hfr. eapply H6; eauto using same_layout_on_frontier.
  - by apply (same_layout_fixups_in_order b).
Qed.

Lemma fixup_inv_start b c : last_fixup_obj c = None → fixup_inv b 0 c.
Proof.
  intros Hc. split; try (intros; lia); try done.
  split; intros; lia.
Qed.

Lemma fixup_parent_of_at b k L p po :
  b_offsets b !! k = Some L → fixup_parent_of b L = Some (p, po) →
  fixup_at b k = Some (p, po, po + sizeof_void_p).
Proof.
  intros Hk Hp. unfold fixup_at. rewrite Hk, Hp.
  unfold fixup_parent_of, buffer_object_at in Hp.
  destruct (object_at b L); done.
Qed.

Lemma on_frontier_trans b L min p m0 p' po' P m :
  on_frontier b L min p m0 → fixup_parent_of b p = Some (p', po') →
  on_frontier b p' (u64 (po' + sizeof_void_p)) P m →
  on_frontier b L min P m.
Proof.
  induction 1; intros Hp Hf; eapply frontier_up; eauto.
Qed.

Section prefix.
Variable b : binder_buffer.
Variable n : nat.
Hypothesis Hincr : ∀ i k oi ok, (i < k < n)%nat →
  b_offsets b !! i = Some oi → b_offsets b !! k = Some ok → oi < ok.
Hypothesis Hchk : ∀ i P s e, (i < n)%nat → fixup_at b i = Some (P, s, e) →
  verified_ptr b i P ∧ 0 ≤ s ≤ e ∧ e < 2 ^ 64.

Lemma prefix_index_inj i k o :
  (i < n)%nat → (k < n)%nat →
  b_offsets b !! i = Some o → b_offsets b !! k = Some o → i = k.
Proof.
  intros Hi Hk Hio Hko.
  destruct (Nat.lt_trichotomy i k) as [Hlt|[->|Hlt]]; [|done|].
  - pose proof (Hincr i k o o ltac:(lia) Hio Hko). lia.
  - pose proof (Hincr k i o o ltac:(lia) Hko Hio). lia.
Qed.

Lemma on_frontier_strict L min P m :
  on_frontier b L min P m → ∀ k, (k < n)%nat → b_offsets b !! k = Some L →
  (P = L ∧ m = min) ∨ (∃ i', (i' < k)%nat ∧ b_offsets b !! i' = Some P).
Proof.
  induction 1 as [|last min p po P m Hp _ IH]; intros k Hk Hl; [by left|right].
  pose proof (fixup_parent_of_at _ _ _ _ _ Hl Hp) as Hf.
  destruct (Hchk _ _ _ _ Hk Hf) as ((i' & Hi' & Hpi & _) & _).
  destruct (IH i' ltac:(lia) Hpi) as [[-> _]|(i'' & Hi'' & HP)].
  - by exists i'.
  - exists i''. split; [lia|done].
Qed.

Lemma on_frontier_self L min m k :
  (k < n)%nat → b_offsets b !! k = Some L → on_frontier b L min L m → m = min.
Proof.
  intros Hk Hl Hf. destruct (on_frontier_strict _ _ _ _ Hf k Hk Hl) as [[_ ->]|(i' & Hi' & HP)];
    [done|].
  pose proof (prefix_index_inj i' k L ltac:(lia) Hk HP Hl). lia.
Qed.
End prefix.

Lemma fixup_at_other b j offp :
  b_offsets b !! j = Some offp →
  match object_at b offp with Obj_ptr _ | Obj_fda _ => False | _ => True end →
  fixup_at b j = None.
Proof. intros Hj. unfold fixup_at. rewrite Hj. by destruct (object_at b offp). Qed.

Lemma fixup_inv_cursor b j c L :
  fixup_inv b j c → last_fixup_obj c = Some L →
  fixup_cursor b j = Some (L, last_fixup_min_off c).
Proof.
  intros [_ _ Hcur _ _ _ _] HL.
  destruct (fixup_cursor b j) as [[L' m']|]; [|congruence].
  destruct Hcur as [Hcur <-]. congruence.
Qed.

(** The fixups before index [j] end where the frontier of the cursor
    allows the next one to start, also seen from a parent that passed the
    check of the turn at [j]. *)
Lemma fixup_inv_behind b j c P s e i Pi si ei m :
  fixup_inv b j c → fixup_checked b j c P s e →
  (i < j)%nat → fixup_at b i = Some (Pi, si, ei) →
  (Pi = P ∧ m = s) ∨
    (∃ p' po', fixup_parent_of b P = Some (p', po') ∧
               on_frontier b p' (u64 (po' + sizeof_void_p)) Pi m) →
  ei ≤ m.
Proof.
  intros Hinv (_ & _ & _ & L & m0 & HL & Hfr & Hm0) Hi Hf Hcase.
  pose proof (fixup_inv_cursor _ _ _ _ Hinv HL) as Hc.
  destruct Hcase as [[-> ->]|(p' & po' & Hp & Hfr')].
  - pose proof (inv_front _ _ _ Hinv _ _ _ _ _ _ _ Hc Hi Hf Hfr). lia.
  - eapply (inv_front _ _ _ Hinv); eauto using on_frontier_trans.
Qed.

Lemma on_frontier_inv b L min P m :
  on_frontier b L min P m →
  (P = L ∧ m = min) ∨
    (∃ p po, fixup_parent_of b L = Some (p, po) ∧
             on_frontier b p (u64 (po + sizeof_void_p)) P m).
Proof. destruct 1; eauto 6. Qed.

Lemma fixup_inv_step b j c c' :
  fixup_inv b j c → step_ok b j c c' → fixup_inv b (S j) c'.
Proof.
  intros Hinv (offp & Hj & Hmin & Hmin' & Hobj).
  assert (Hbelow' : ∀ i o, (i < S j)%nat → b_offsets b !! i = Some o → o < off_min c').
  { intros i o Hi Ho. destruct (decide (i = j)) as [->|Hne]; [congruence|].
    pose proof (inv_below _ _ _ Hinv i o ltac:(lia) Ho). lia. }
  assert (Hincr' : ∀ i k oi ok, (i < k < S j)%nat →
    b_offsets b !! i = Some oi → b_offsets b !! k = Some ok → oi < ok).
  { intros i k oi ok Hik Hi Hk. destruct (decide (k = j)) as [->|Hne].
    - pose proof (inv_below _ _ _ Hinv i oi ltac:(lia) Hi).
      assert (ok = offp) by congruence. lia.
    - eapply (inv_incr _ _ _ Hinv i k); [lia|done..]. }
  assert (Hnew : ∀ P s e, fixup_at b j = Some (P, s, e) → fixup_checked b j c P s e).
  { intros P s e Hf. destruct (object_at b offp) eqn:Ho.
    - rewrite (fixup_at_other b j offp) in Hf; [done|done|by rewrite Ho].
    - rewrite (fixup_at_other b j offp) in Hf; [done|done|by rewrite Ho].
    - by apply Hobj.
    - destruct Hobj as (P' & s' & e' & Hf' & _ & _ & Hck). congruence.
    - rewrite (fixup_at_other b j offp) in Hf; [done|done|by rewrite Ho]. }
  assert (Hchk' : ∀ i P s e, (i < S j)%nat → fixup_at b i = Some (P, s, e) →
    verified_ptr b i P ∧ 0 ≤ s ≤ e ∧ e < 2 ^ 64).
  { intros i P s e Hi Hf. destruct (decide (i = j)) as [->|Hne].
    - destruct (Hnew _ _ _ Hf) as (? & ? & ? & _). done.
    - eapply (inv_checked _ _ _ Hinv); [|done]. lia. }
  assert (Hord' : fixups_in_order b (S j)).
  { destruct (inv_order _ _ _ Hinv) as [Hord1 Hord2]. split.
    - intros k P s e Hk Hf. destruct (decide (k = j)) as [->|Hne].
      + destruct (Hnew _ _ _ Hf) as (_ & _ & _ & L & m & HL & Hfr & Hm).
        exists L, (last_fixup_min_off c), m. eauto using fixup_inv_cursor.
      + eapply Hord1; [lia|done].
    - intros i k P si ei sk ek Hik Hfi Hfk. destruct (decide (k = j)) as [->|Hne].
      + eapply (fixup_inv_behind b j c P sk ek i P si ei sk); eauto. lia.
      + eapply Hord2; [|done..]. lia. }
  assert (Hcases :
    (fixup_cursor b (S j) = fixup_cursor b j ∧ fixup_at b j = None ∧
     last_fixup_obj c' = last_fixup_obj c ∧ last_fixup_min_off c' = last_fixup_min_off c) ∨
    (fixup_cursor b (S j) = Some (offp, 0) ∧
     last_fixup_obj c' = Some offp ∧ last_fixup_min_off c' = 0 ∧
     is_Some (buffer_object_at b offp) ∧
     ∀ P s e, fixup_at b j = Some (P, s, e) →
       fixup_parent_of b offp = Some (P, s) ∧ e = s + sizeof_void_p) ∨
    (∃ P s e, fixup_cursor b (S j) = Some (P, e) ∧ fixup_at b j = Some (P, s, e) ∧
     last_fixup_obj c' = Some P ∧ last_fixup_min_off c' = e ∧
     ∀ p po, fixup_parent_of b offp ≠ Some (p, po))).
  { simpl. rewrite Hj. destruct (object_at b offp) eqn:Ho.
    - left. destruct Hobj. rewrite (fixup_at_other b j offp); [done|done|by rewrite Ho].
    - left. destruct Hobj. rewrite (fixup_at_other b j offp); [done|done|by rewrite Ho].
    - right; left. destruct Hobj as (? & ? & _). do 3 (split; [done|]).
      split; [unfold buffer_object_at; by rewrite Ho|].
      intros P s e Hf. unfold fixup_at in Hf. rewrite Hj, Ho in Hf.
      destruct (fixup_parent_of b offp) as [[??]|]; [|done].
      by injection Hf as -> -> <-.
    - right; right. destruct Hobj as (P & s & e & Hf & ? & ? & _).
      exists P, s, e. rewrite Hf. repeat split; try done.
      intros p po. unfold fixup_parent_of, buffer_object_at. by rewrite Ho.
    - left. destruct Hobj. rewrite (fixup_at_other b j offp); [done|done|by rewrite Ho]. }
  split; try done.
  - (* the cursor *)
    destruct Hcases as [(-> & _ & -> & ->)|[(-> & ? & ? & _)|(P & s & e & -> & _ & ? & ? & _)]];
      [apply (inv_cursor _ _ _ Hinv)|done..].
  - (* a pointer object with a parent has passed the check of its parent *)
    intros i o lo Hi Ho Hlo Hflag. destruct (decide (i = j)) as [->|Hne].
    + assert (o = offp) as -> by congruence. unfold buffer_object_at in Hlo.
      destruct (object_at b offp) as [| |bp| |]; try done.
      injection Hlo as ->. by apply Hobj.
    + eapply (inv_parent _ _ _ Hinv i); eauto. lia.
  - (* the last fixed-up object is a verified one *)
    intros L m. destruct Hcases as [(-> & _)|[(-> & _ & _ & Hptr & _)|(P & s & e & -> & Hf & _)]].
    + intros Hc. destruct (inv_last _ _ _ Hinv _ _ Hc) as (i & Hi & Ho). exists i. split; [lia|done].
    + intros Hc. assert (L = offp) as -> by congruence. exists j. split; [lia|done].
    + intros Hc. assert (L = P) as -> by congruence.
      destruct (Hnew _ _ _ Hf) as ((i' & Hi' & Ho) & _).
      exists i'. split; [lia|done].
  - (* the frontier is behind no fixup *)
    intros L min i Pi si ei m Hc Hi Hfi Hfr.
    destruct Hcases as [(Hc' & Hnone & _)|[(Hc' & _ & _ & _ & Hptr)|(P & s & e & Hc' & Hf & _ & _ & Hnp)]];
      rewrite Hc' in Hc.
    + destruct (decide (i = j)) as [->|Hne]; [congruence|].
      eapply (inv_front _ _ _ Hinv); eauto. lia.
    + assert (L = offp ∧ min = 0) as [-> ->] by (split; congruence). clear Hc.
      destruct (on_frontier_inv _ _ _ _ _ Hfr) as [[-> ->]|(p & po & Hp & Hfr')].
      * (* a fixup into the object at [j] itself: its parent is verified earlier *)
        destruct (Hchk' _ _ _ _ Hi Hfi) as ((i' & Hi' & Ho' & _) & _).
        pose proof (prefix_index_inj b (S j) Hincr' i' j offp ltac:(lia) ltac:(lia) Ho' Hj). lia.
      * pose proof (fixup_parent_of_at _ _ _ _ _ Hj Hp) as Hfj.
        pose proof (Hnew _ _ _ Hfj) as Hck.
        destruct (Hchk' j _ _ _ ltac:(lia) Hfj) as ((ip & Hip & Hop & _) & Hrange & He).
        rewrite u64_small in Hfr' by lia.
        destruct (decide (i = j)) as [->|Hne].
        -- assert (Pi = p ∧ ei = po + sizeof_void_p) as [-> ->] by (split; congruence).
           rewrite (on_frontier_self b (S j) Hincr' Hchk' _ _ _ ip ltac:(lia) Hop Hfr'). lia.
        -- destruct (on_frontier_inv _ _ _ _ _ Hfr') as [[-> ->]|(p' & po' & Hp' & Hfr'')].
           ++ pose proof (fixup_inv_behind b j c p po _ i p si ei po Hinv Hck ltac:(lia) Hfi
                            ltac:(by left)).
              unfold sizeof_void_p. lia.
           ++ eapply (fixup_inv_behind b j c p po _ i Pi si ei m Hinv Hck ltac:(lia) Hfi).
              right. eauto.
    + assert (L = P ∧ min = e) as [-> ->] by (split; congruence). clear Hc.
      pose proof (Hnew _ _ _ Hf) as Hck.
      destruct (Hchk' j _ _ _ ltac:(lia) Hf) as ((ip & Hip & Hop & _) & Hrange & He).
      destruct (decide (i = j)) as [->|Hne].
      * assert (Pi = P ∧ ei = e) as [-> ->] by (split; congruence).
        rewrite (on_frontier_self b (S j) Hincr' Hchk' _ _ _ ip ltac:(lia) Hop Hfr). lia.
      * destruct (on_frontier_inv _ _ _ _ _ Hfr) as [[-> ->]|(p' & po' & Hp' & Hfr'')].
        -- pose proof (fixup_inv_behind b j c P s e i P si ei s Hinv Hck ltac:(lia) Hfi
                         ltac:(by left)). lia.
        -- eapply (fixup_inv_behind b j c P s e i Pi si ei m Hinv Hck ltac:(lia) Hfi).
           right. eauto.
Qed.
Lemma preserves_upd_buffer_sg buffer p f :
  (∀ b, (b_offsets (f b), b_data_size (f b), b_objects (f b)) =
        (b_offsets b, b_data_size b, b_objects b)) →
  preserves (translation_frame buffer) (upd_buffer p f).
Proof.
  intros Hf s. unfold upd_buffer, get_buffer, put_buffer, deref, modify, translation_frame.
  unfold mbind, kernel_bind, kbind.
  destruct (st_buffers s !! p) as [x|] eqn:Hp; [|done]. destruct s; simpl in *. f_equal.
  destruct (decide (p = buffer)) as [->|Hne].
  - rewrite lookup_insert_eq, Hp. simpl. by rewrite Hf.
  - by rewrite lookup_insert_ne.
Qed.

Lemma preserves_upd_proc_frame buffer p f :
  preserves (translation_frame buffer) (upd_proc p f).
Proof.
  intros s. unfold upd_proc, get_proc, put_proc, deref, modify, translation_frame.
  unfold mbind, kernel_bind, kbind.
  destruct (st_procs s !! p) as [x|] eqn:Hp; [|done]. destruct s; simpl in *. do 2 f_equal.
  rewrite dom_insert_L. apply elem_of_dom_2 in Hp.
  apply subseteq_union_1_L. by apply singleton_subseteq_l.
Qed.

#[local] Hint Extern 1 (preserves (translation_frame _) (upd_buffer _ _)) =>
  apply preserves_upd_buffer_sg; intros ?; reflexivity : kframe.
#[local] Hint Resolve preserves_upd_proc_frame : kframe.

Lemma binder_translate_binder_frame buffer fp t thread :
  preserves (translation_frame buffer) (binder_translate_binder fp t thread).
Proof. kframe. Qed.

Lemma binder_translate_handle_frame buffer fp t thread :
  preserves (translation_frame buffer) (binder_translate_handle fp t thread).
Proof. kframe. Qed.

Lemma binder_translate_fd_frame buffer fd t thread in_reply_to :
  preserves (translation_frame buffer) (binder_translate_fd fd t thread in_reply_to).
Proof. kframe. Qed.


Lemma binder_translate_fd_array_loop_frame buffer q fd_array t thread in_reply_to fdi n :
  preserves (translation_frame buffer)
    (binder_translate_fd_array_loop q fd_array t thread in_reply_to fdi n).
Proof.
  revert fdi. induction n as [|n IH]; intros fdi; cbn [binder_translate_fd_array_loop]; kframe.
Qed.

#[local] Hint Resolve binder_translate_fd_array_loop_frame binder_translate_fd_frame : kframe.

Lemma close_fd_array_frame buffer proc sg fd_array n :
  preserves (translation_frame buffer) (close_fd_array proc sg fd_array n).
Proof. induction n as [|n IH]; cbn [close_fd_array]; kframe. Qed.

#[local] Hint Resolve close_fd_array_frame : kframe.

Lemma binder_translate_fd_array_frame buffer fda parent t thread in_reply_to :
  preserves (translation_frame buffer)
    (binder_translate_fd_array fda parent t thread in_reply_to).
Proof. kframe. Qed.

Lemma binder_user_error_frame buffer msg :
  preserves (translation_frame buffer) (binder_user_error msg).
Proof. kframe. Qed.


(** ** The checks of the translation loop *)

Lemma binder_validate_fixup_loop_sound fuel b P s L min :
  binder_validate_fixup_loop fuel b P s L min = Some true →
  ∃ m, on_frontier b L min P m ∧ m ≤ s.
Proof.
  revert L min. induction fuel as [|fuel IH]; intros L min; cbn [binder_validate_fixup_loop].
  - destruct (decide (L = P)) as [->|]; [|done].
    intros [= Hle%bool_decide_eq_true]. exists min. split; [constructor|done].
  - destruct (decide (L = P)) as [->|].
    { intros [= Hle%bool_decide_eq_true]. exists min. split; [constructor|done]. }
    destruct (buffer_object_at b L) as [lo|] eqn:Hlo; [|done].
    destruct (bool_decide (Z.land (bbo_flags lo) BINDER_BUFFER_FLAG_HAS_PARENT = 0)) eqn:Hflag;
      [done|].
    destruct (b_offsets b !! Z.to_nat (bbo_parent lo)) as [p|] eqn:Hp; [|done].
    intros (m & Hfr & Hm)%IH. exists m. split; [|done].
    eapply frontier_up; [|exact Hfr]. unfold fixup_parent_of. by rewrite Hlo, Hflag, Hp.
Qed.

Lemma binder_validate_fixup_sound b P s last min :
  binder_validate_fixup b P s last min = Some true →
  ∃ L m, last = Some L ∧ on_frontier b L min P m ∧ m ≤ s.
Proof.
  unfold binder_validate_fixup. destruct last as [L|]; [|done].
  intros (m & ? & ?)%binder_validate_fixup_loop_sound. by exists L, m.
Qed.

Lemma binder_validate_ptr_sound b index (j : nat) P :
  0 ≤ index → binder_validate_ptr b index (Z.of_nat j) = Some P →
  b_offsets b !! Z.to_nat index = Some P ∧ (Z.to_nat index < j)%nat ∧
  is_Some (buffer_object_at b P).
Proof.
  intros Hi. unfold binder_validate_ptr. case_bool_decide as Hlt; [done|].
  destruct (b_offsets b !! Z.to_nat index) as [offp|]; [|done].
  destruct (buffer_object_at b offp) eqn:Hb; [|done]. intros [= <-].
  split; [done|]. split; [lia|]. by rewrite Hb.
Qed.

Lemma binder_validate_object_bound b offp :
  uapi_sizes_positive → 0 ≤ b_data_size b < 2 ^ 64 → 0 ≤ offp →
  binder_validate_object b offp ≠ 0 →
  offp < u64 (offp + binder_validate_object b offp).
Proof.
  intros (Hflat & Hfd & Hptr & Hfda) Hsize Hoffp. unfold binder_validate_object.
  destruct (_ || _); [done|].
  assert (Hone : ∀ size, 0 < size →
    (if bool_decide (offp ≤ u64 (b_data_size b - size)) && bool_decide (size ≤ b_data_size b)
     then size else 0) ≠ 0 →
    offp < u64 (offp + (if bool_decide (offp ≤ u64 (b_data_size b - size))
                           && bool_decide (size ≤ b_data_size b) then size else 0))).
  { intros size Hpos. do 2 case_bool_decide; simpl; try done. intros _.
    rewrite u64_small in * by lia. rewrite u64_small by lia. lia. }
  destruct (object_at b offp); try done; by apply Hone.
Qed.

Lemma translation_frame_buffer buffer s s' b :
  translation_frame buffer s' = translation_frame buffer s →
  st_buffers s !! buffer = Some b →
  st_transactions s' = st_transactions s ∧ dom (st_procs s') = dom (st_procs s) ∧
  ∃ b', st_buffers s' !! buffer = Some b' ∧ b_offsets b' = b_offsets b ∧
        b_data_size b' = b_data_size b ∧ b_objects b' = b_objects b.
Proof.
  unfold translation_frame. intros [= Ht Hp Hb'] Hb. do 2 (split; [done|]).
  rewrite Hb in Hb'. destruct (st_buffers s' !! buffer) as [b'|]; [|done].
  injection Hb' as ? ? ?. by exists b'.
Qed.

Lemma same_layout_object b b' offp o :
  b_offsets b' = b_offsets b → b_data_size b' = b_data_size b →
  b_objects b' = <[offp := o]> (b_objects b) →
  layout_of o = layout_of (object_at b offp) →
  same_layout b b'.
Proof.
  intros Ho Hd Hobj Hl. repeat split; try done. intros off. unfold object_at in *.
  rewrite Hobj. destruct (decide (offp = off)) as [->|Hne].
  - by rewrite lookup_insert_eq.
  - by rewrite lookup_insert_ne.
Qed.

Lemma same_layout_objects b b' :
  b_offsets b' = b_offsets b → b_data_size b' = b_data_size b →
  b_objects b' = b_objects b → same_layout b b'.
Proof. intros Ho Hd Hobj. repeat split; try done. intros off. unfold object_at. by rewrite Hobj. Qed.

Lemma same_layout_fixup_checked b b' j c P s e :
  same_layout b b' → fixup_checked b j c P s e → fixup_checked b' j c P s e.
Proof.
  intros Hs (Hv & Hr & He & L & m & HL & Hfr & Hm).
  split; [by apply (same_layout_verified_ptr b)|]. do 2 (split; [done|]).
  exists L, m. eauto using same_layout_on_frontier.
Qed.

Lemma binder_translate_fd_array_range fda parent t thread in_reply_to s :
  0 ≤ fda_num_fds fda → 0 ≤ bbo_length parent < 2 ^ 64 →
  wlp (binder_translate_fd_array fda parent t thread in_reply_to) s
    (λ ret _, ret = None →
       fda_parent_offset fda + sizeof_u32 * fda_num_fds fda ≤ bbo_length parent).
Proof.
  intros Hn Hlen. unfold binder_translate_fd_array.
  apply wlp_bind, wlp_deref; intros th _. apply wlp_bind, wlp_deref; intros x _.
  apply wlp_bind, wlp_deref_opt; intros target_proc _.
  apply wlp_bind, wlp_deref_opt; intros buffer _. cbv zeta.
  case_bool_decide as Hmax.
  { apply wlp_bind, wlp_any. intros _ s'. by apply wlp_ret. }
  assert (sizeof_u32 * fda_num_fds fda < 2 ^ 64) as Hsmall.
  { assert (SIZE_MAX / sizeof_u32 = 4611686018427387903) as Heq by reflexivity.
    rewrite Heq in Hmax. unfold sizeof_u32. lia. }
  rewrite (u64_small (sizeof_u32 * fda_num_fds fda)) by (unfold sizeof_u32 in *; lia).
  destruct (_ || _) eqn:Hspace.
  { apply wlp_bind, wlp_any. intros _ s'. by apply wlp_ret. }
  apply orb_false_elim in Hspace as [Hfit%bool_decide_eq_false Hoff%bool_decide_eq_false].
  rewrite u64_small in Hoff by (unfold sizeof_u32 in *; lia).
  apply wlp_any. intros ret s' _. lia.
Qed.

Lemma binder_fixup_parent_frame buffer t thread bp num_valid last min :
  preserves (translation_frame buffer) (binder_fixup_parent t thread bp num_valid last min).
Proof. kframe. Qed.

Lemma payload_unsigned_ptr b off lo :
  payload_unsigned b → buffer_object_at b off = Some lo →
  0 ≤ bbo_length lo < 2 ^ 64 ∧ 0 ≤ bbo_parent lo ∧ 0 ≤ bbo_parent_offset lo.
Proof.
  intros (_ & _ & Hl)%payload_unsigned_at Hlo. specialize (Hl off).
  by rewrite (buffer_object_at_layout _ _ _ Hlo) in Hl.
Qed.

Lemma binder_fixup_parent_checked t thread bp j c s x buffer b :
  st_transactions s !! t = Some x → t_buffer x = Some buffer →
  st_buffers s !! buffer = Some b → payload_unsigned b →
  0 ≤ bbo_parent bp → 0 ≤ bbo_parent_offset bp →
  wlp (binder_fixup_parent t thread bp (Z.of_nat j) (last_fixup_obj c) (last_fixup_min_off c)) s
    (λ ret _, ret = None →
       Z.land (bbo_flags bp) BINDER_BUFFER_FLAG_HAS_PARENT ≠ 0 →
       ∃ P, b_offsets b !! Z.to_nat (bbo_parent bp) = Some P ∧
            fixup_checked b j c P (bbo_parent_offset bp)
              (bbo_parent_offset bp + sizeof_void_p)).
Proof.
  intros Ht Htb Hb Hpay Hparent Hpo. unfold binder_fixup_parent.
  apply wlp_bind, wlp_deref; intros x' Hx'. assert (x' = x) as -> by congruence.
  apply wlp_bind, wlp_deref_opt; intros buffer' Hbuf. assert (buffer' = buffer) as -> by congruence.
  apply wlp_bind, wlp_deref_opt; intros target_proc _.
  apply wlp_bind, wlp_deref; intros b' Hb'. assert (b' = b) as -> by (unfold get_buffer in *; congruence).
  case_bool_decide as Hflag.
  { apply wlp_ret. done. }
  destruct (binder_validate_ptr b (bbo_parent bp) (Z.of_nat j)) as [P|] eqn:Hptr.
  2:{ apply wlp_bind, wlp_any. intros _ s'. by apply wlp_ret. }
  apply binder_validate_ptr_sound in Hptr as (HP & Hlt & HPptr); [|done].
  apply wlp_bind, wlp_deref_opt; intros parent Hparent_at.
  destruct (binder_validate_fixup b P (bbo_parent_offset bp) (last_fixup_obj c)
              (last_fixup_min_off c)) as [[|]|] eqn:Hfix.
  - destruct (_ || _) eqn:Hroom.
    { apply wlp_bind, wlp_any. intros _ s'. by apply wlp_ret. }
    apply orb_false_elim in Hroom as [Hlen%bool_decide_eq_false Hoff%bool_decide_eq_false].
    destruct (payload_unsigned_ptr _ _ _ Hpay Hparent_at) as (Hl & _).
    unfold sizeof_binder_uintptr_t in *. rewrite u64_small in Hoff by lia.
    apply wlp_any. intros ret s' _ _. exists P. split; [done|].
    apply binder_validate_fixup_sound in Hfix as (L & m & HL & Hfr & Hm).
    split; [by exists (Z.to_nat (bbo_parent bp))|].
    unfold sizeof_void_p. split; [lia|]. split; [lia|]. by exists L, m.
  - apply wlp_bind, wlp_any. intros _ s'. by apply wlp_ret.
  - apply wlp_out_of_fuel.
Qed.

Ltac kcursor_in H :=
  cbn [off_min set_off_min last_fixup_obj set_last_fixup_obj last_fixup_min_off
    set_last_fixup_min_off sg_bufp set_sg_bufp bbo_flags bbo_buffer set_bbo_buffer
    bbo_length bbo_parent bbo_parent_offset] in H.

Ltac kcursor :=
  cbn [off_min set_off_min last_fixup_obj set_last_fixup_obj last_fixup_min_off
    set_last_fixup_min_off sg_bufp set_sg_bufp bbo_flags bbo_buffer set_bbo_buffer
    bbo_length bbo_parent bbo_parent_offset].

Ltac kfail := apply wlp_bind, wlp_any; intros ? ?; by apply wlp_ret.

Lemma binder_transaction_object_turn t thread buffer in_reply_to sg_buf_end j c s x b :
  uapi_sizes_positive →
  st_transactions s !! t = Some x → t_buffer x = Some buffer →
  st_buffers s !! buffer = Some b → payload_unsigned b →
  wlp (binder_transaction_object t thread buffer in_reply_to sg_buf_end j c) s
    (turn_post buffer b j c s).
Proof.
  intros Hsizes Ht Htb Hb Hpay. unfold binder_transaction_object.
  apply wlp_bind, wlp_deref; intros b0 Hb0.
  assert (b0 = b) as -> by congruence.
  apply wlp_bind, wlp_deref_opt; intros offp Hoffp.
  destruct (_ || _) eqn:Hval; [kfail|].
  apply orb_false_elim in Hval as [Hsz%bool_decide_eq_false Hmin%bool_decide_eq_false].
  assert (Hnext : offp < u64 (offp + binder_validate_object b offp)).
  { destruct (payload_unsigned_at _ Hpay) as (Hds & Hoffs & _).
    apply binder_validate_object_bound; eauto. }
  cbv zeta.
  destruct (object_at b offp) as [fp|fp|bp|fda|ty] eqn:Hobj.
  - (* a binder or a handle *)
    apply wlp_bind. apply (wlp_frame (translation_frame buffer)).
    { destruct (fbo_type fp);
        auto using binder_translate_binder_frame, binder_translate_handle_frame. }
    intros [ret fp'] s1 (Ht1 & Hp1 & b1 & Hb1 & Ho1 & Hd1 & Hobj1)%(translation_frame_buffer _ _ _ b); [|done].
    apply wlp_bind. eapply wlp_upd_buffer; [exact Hb1|].
    destruct ret as [e|]; apply wlp_ret; [done|]. do 2 (split; [done|]).
    eexists. split; [apply lookup_insert_eq|]. split.
    + eapply (same_layout_object b _ offp (Obj_flat fp')); [done|done|simpl; by rewrite Hobj1|].
      by rewrite Hobj.
    + exists offp. rewrite Hobj. repeat split; try done. lia.
  - (* a file descriptor *)
    apply wlp_bind. apply (wlp_frame (translation_frame buffer)).
    { apply binder_translate_fd_frame. }
    intros target_fd s1 (Ht1 & Hp1 & b1 & Hb1 & Ho1 & Hd1 & Hobj1)%(translation_frame_buffer _ _ _ b); [|done].
    destruct target_fd as [e|target_fd]; [by apply wlp_ret|].
    apply wlp_bind. eapply wlp_upd_buffer; [exact Hb1|].
    apply wlp_ret. do 2 (split; [done|]).
    eexists. split; [apply lookup_insert_eq|]. split.
    + eapply (same_layout_object b _ offp (Obj_fd _)); [done|done|simpl; by rewrite Hobj1|].
      by rewrite Hobj.
    + exists offp. rewrite Hobj. repeat split; try done. lia.
  - (* a pointer object *)
    pose proof (payload_unsigned_at _ Hpay) as (_ & _ & Hlay). specialize (Hlay offp). rewrite Hobj in Hlay.
    destruct Hlay as (Hlen & Hpar & Hpo).
    case_bool_decide; [kfail|].
    destruct (copy_words_from_user _ _ _ _) as [bytes|]; [|kfail].
    apply wlp_bind, wlp_deref; intros x' Hx'.
    apply wlp_bind, wlp_deref_opt; intros target_proc _.
    apply wlp_bind. unfold binder_alloc_get_user_buffer_offset.
    apply wlp_bind, wlp_deref; intros p _. apply wlp_ret. cbv zeta.
    apply wlp_bind. eapply wlp_upd_buffer; [exact Hb|].
    match goal with |- wlp _ (set_st_buffers (<[_ := ?b']> _) _) _ => set (b2 := b') end.
    assert (Hs2 : same_layout b b2).
    { eapply (same_layout_object b _ offp (Obj_ptr _)); [done|done|reflexivity|].
      by rewrite Hobj. }
    apply wlp_bind. eapply wlp_mono.
    { apply wlp_conj.
      - apply (wlp_preserves (translation_frame buffer)), binder_fixup_parent_frame.
      - kcursor. eapply (binder_fixup_parent_checked _ _ _ j c _ x buffer b2); kcursor; try done.
        + kstate. apply lookup_insert_eq.
        + by apply (same_layout_payload_unsigned b). }
    intros ret s3 [Hfr Hck]. cbv beta in Hfr, Hck. kcursor_in Hck.
    destruct ret as [e|]; apply wlp_ret; [done|].
    eapply (translation_frame_buffer _ _ _ b2) in Hfr as (Ht3 & Hp3 & b3 & Hb3 & Ho3 & Hd3 & Hobj3);
      [|kstate; apply lookup_insert_eq].
    do 2 (split; [done|]). exists b3. split; [done|]. split.
    { eapply same_layout_trans; [exact Hs2|]. by apply same_layout_objects. }
    exists offp. rewrite Hobj. kcursor.
    split; [done|]. split; [lia|]. do 3 (split; [done|]).
    assert (Hparent : Z.land (bbo_flags bp) BINDER_BUFFER_FLAG_HAS_PARENT ≠ 0 →
      ∃ P, fixup_parent_of b offp = Some (P, bbo_parent_offset bp) ∧
           fixup_checked b j c P (bbo_parent_offset bp) (bbo_parent_offset bp + sizeof_void_p)).
    { intros Hflag. destruct (Hck eq_refl Hflag) as (P & HP & Hchecked).
      pose proof Hs2 as (Hoffs2 & _). rewrite Hoffs2 in HP. exists P. split.
      - unfold fixup_parent_of, buffer_object_at. rewrite Hobj, HP.
        by rewrite bool_decide_eq_false_2.
      - eapply same_layout_fixup_checked; [|exact Hchecked]. by apply same_layout_sym. }
    split.
    { intros Hflag. destruct (Hparent Hflag) as (P & -> & _). by eexists. }
    intros P s0 e. unfold fixup_at. rewrite Hoffp, Hobj.
    destruct (decide (Z.land (bbo_flags bp) BINDER_BUFFER_FLAG_HAS_PARENT = 0)) as [Hflag|Hflag].
    { unfold fixup_parent_of, buffer_object_at. rewrite Hobj.
      by rewrite bool_decide_eq_true_2. }
    destruct (Hparent Hflag) as (P' & -> & Hchecked). by intros [= <- <- <-].
  - (* an array of file descriptors *)
    pose proof (payload_unsigned_at _ Hpay) as (_ & _ & Hlay). specialize (Hlay offp). rewrite Hobj in Hlay.
    destruct Hlay as (Hn & Hpar & Hpo).
    destruct (binder_validate_ptr b (fda_parent fda) (Z.of_nat j)) as [P|] eqn:Hptr; [|kfail].
    apply binder_validate_ptr_sound in Hptr as (HP & Hlt & HPptr); [|done].
    apply wlp_bind, wlp_deref_opt; intros parent Hparent.
    destruct (payload_unsigned_ptr _ _ _ Hpay Hparent) as (Hlen & _).
    destruct (binder_validate_fixup _ _ _ _ _) as [[|]|] eqn:Hfix;
      [|kfail|apply wlp_out_of_fuel].
    kcursor_in Hfix. apply binder_validate_fixup_sound in Hfix as (L & m & HL & Hfr & Hm).
    apply wlp_bind. eapply wlp_mono.
    { apply wlp_conj.
      - apply (wlp_preserves (translation_frame buffer)), binder_translate_fd_array_frame.
      - by apply binder_translate_fd_array_range. }
    intros ret s1 [Hframe Hrange]. cbv beta in Hframe, Hrange.
    destruct ret as [e|]; apply wlp_ret; [done|]. specialize (Hrange eq_refl).
    eapply (translation_frame_buffer _ _ _ b) in Hframe as (Ht1 & Hp1 & b1 & Hb1 & Ho1 & Hd1 & Hobj1);
      [|done].
    do 2 (split; [done|]). exists b1. split; [done|]. split; [by apply same_layout_objects|].
    exists offp. rewrite Hobj. kcursor.
    split; [done|]. split; [lia|]. split; [done|].
    exists P, (fda_parent_offset fda), (fda_parent_offset fda + sizeof_u32 * fda_num_fds fda).
    unfold fixup_at. rewrite Hoffp, Hobj, HP. split; [done|]. split; [done|].
    unfold sizeof_u32 in *. split; [apply u64_small; lia|].
    split; [by exists (Z.to_nat (fda_parent fda))|].
    split; [lia|]. split; [lia|]. by exists L, m.
  - kfail.
Qed.

(** ** Fixups out of order *)

Lemma binder_validate_fixup_loop_total b j c P s :
  fixup_inv b j c →
  ∀ fuel k L min, (k < fuel)%nat → (k < j)%nat → b_offsets b !! k = Some L →
    is_Some (buffer_object_at b L) →
    binder_validate_fixup_loop fuel b P s L min ≠ None.
Proof.
  intros Hinv. induction fuel as [|fuel IH]; intros k L min Hfuel Hk HL [lo Hlo]; [lia|].
  cbn [binder_validate_fixup_loop]. destruct (decide (L = P)); [done|]. rewrite Hlo.
  case_bool_decide as Hflag; [done|].
  destruct (inv_parent _ _ _ Hinv k L lo Hk HL Hlo Hflag) as [[p po] Hp].
  pose proof (fixup_parent_of_at _ _ _ _ _ HL Hp) as Hf.
  destruct (inv_checked _ _ _ Hinv _ _ _ _ Hk Hf) as ((i' & Hi' & Hpi & Hptr) & _).
  unfold fixup_parent_of in Hp. rewrite Hlo, bool_decide_eq_false_2 in Hp by done.
  destruct (b_offsets b !! Z.to_nat (bbo_parent lo)) as [p'|]; [|done].
  injection Hp as -> _. apply (IH i'); [lia|lia|done|done].
Qed.

Lemma binder_validate_fixup_total b j c P s :
  fixup_inv b j c → (j ≤ length (b_offsets b))%nat →
  binder_validate_fixup b P s (last_fixup_obj c) (last_fixup_min_off c) ≠ None.
Proof.
  intros Hinv Hj. unfold binder_validate_fixup.
  destruct (last_fixup_obj c) as [L|] eqn:HL; [|done].
  pose proof (fixup_inv_cursor _ _ _ _ Hinv HL) as Hc.
  destruct (inv_last _ _ _ Hinv _ _ Hc) as (k & Hk & HLk & Hptr).
  apply (binder_validate_fixup_loop_total b j c P s Hinv _ k); [lia|done..].
Qed.

(** A fixup that starts before the end of an earlier fixup into the same
    parent does not pass [binder_validate_fixup]. *)
Lemma binder_validate_fixup_overlap b j c i P si ei s :
  fixup_inv b j c → (j ≤ length (b_offsets b))%nat →
  (i < j)%nat → fixup_at b i = Some (P, si, ei) → s < ei →
  binder_validate_fixup b P s (last_fixup_obj c) (last_fixup_min_off c) = Some false.
Proof.
  intros Hinv Hj Hi Hfi Hs.
  destruct (binder_validate_fixup b P s (last_fixup_obj c) (last_fixup_min_off c))
    as [[|]|] eqn:Hfix; [|done|].
  - apply binder_validate_fixup_sound in Hfix as (L & m & HL & Hfr & Hm).
    pose proof (fixup_inv_cursor _ _ _ _ Hinv HL) as Hc.
    pose proof (inv_front _ _ _ Hinv _ _ _ _ _ _ _ Hc Hi Hfi Hfr). lia.
  - by apply (binder_validate_fixup_total b j c P s) in Hfix.
Qed.

Ltac kreject :=
  apply post_bind; eapply post_runs; [apply runs_binder_user_error|]; apply post_ret; eauto.

Lemma binder_fixup_parent_rejects t thread bp j c s x buffer b i P si ei :
  st_transactions s !! t = Some x → t_buffer x = Some buffer → is_Some (t_to_proc x) →
  st_buffers s !! buffer = Some b →
  fixup_inv b j c → (j ≤ length (b_offsets b))%nat →
  Z.land (bbo_flags bp) BINDER_BUFFER_FLAG_HAS_PARENT ≠ 0 →
  b_offsets b !! Z.to_nat (bbo_parent bp) = Some P →
  (i < j)%nat → fixup_at b i = Some (P, si, ei) → bbo_parent_offset bp < ei →
  post (binder_fixup_parent t thread bp (Z.of_nat j) (last_fixup_obj c) (last_fixup_min_off c)) s
    (λ ret _, is_Some ret).
Proof.
  intros Ht Htb [tp Htp] Hb Hinv Hj Hflag HP Hi Hfi Hlt. unfold binder_fixup_parent.
  eapply post_bind, post_deref; [exact Ht|].
  eapply post_bind, post_deref_opt; [exact Htb|].
  eapply post_bind, post_deref_opt; [exact Htp|].
  eapply post_bind, post_deref; [exact Hb|].
  rewrite bool_decide_eq_false_2 by done.
  destruct (binder_validate_ptr b (bbo_parent bp) (Z.of_nat j)) as [P'|] eqn:Hptr; [|kreject].
  assert (P' = P ∧ is_Some (buffer_object_at b P)) as [-> [parent Hparent]].
  { unfold binder_validate_ptr in Hptr. case_bool_decide; [done|]. rewrite HP in Hptr.
    destruct (buffer_object_at b P) eqn:Hpar; [|done]. injection Hptr as <-. eauto. }
  eapply post_bind, post_deref_opt; [exact Hparent|].
  rewrite (binder_validate_fixup_overlap b j c i P si ei) by done. kreject.
Qed.

Lemma same_layout_fixup_overlaps b b' j :
  same_layout b b' → fixup_overlaps b j → fixup_overlaps b' j.
Proof.
  intros Hs (i & P & si & ei & sj & ej & Hi & Hfi & Hfj & Hlt).
  exists i, P, si, ei, sj, ej. by rewrite !(same_layout_fixup_at b b').
Qed.

Lemma binder_transaction_object_rejects t thread buffer in_reply_to sg_buf_end j c s x b tp :
  st_transactions s !! t = Some x → t_buffer x = Some buffer →
  t_to_proc x = Some tp → tp ∈ dom (st_procs s) →
  st_buffers s !! buffer = Some b → fixup_inv b j c → fixup_overlaps b j →
  post (binder_transaction_object t thread buffer in_reply_to sg_buf_end j c) s
    (λ r _, ∃ e, r = inl (BR_FAILED_REPLY, e)).
Proof.
  intros Ht Htb Htp [p Hp]%elem_of_dom Hb Hinv
    (i & P & si & ei & sj & ej & Hi & Hfi & Hfj & Hlt).
  unfold binder_transaction_object.
  eapply post_bind, post_deref; [exact Hb|].
  destruct (b_offsets b !! j) as [offp|] eqn:Hoffp;
    [|by unfold fixup_at in Hfj; rewrite Hoffp in Hfj].
  assert (Hj : (j ≤ length (b_offsets b))%nat).
  { apply lookup_lt_Some in Hoffp. lia. }
  eapply post_bind, post_deref_opt; [reflexivity|].
  destruct (_ || _); [kreject|]. cbv zeta.
  unfold fixup_at in Hfj. rewrite Hoffp in Hfj.
  destruct (object_at b offp) as [fp|fp|bp|fda|ty] eqn:Hobj; try done.
  - (* a pointer object *)
    case_bool_decide; [kreject|].
    destruct (copy_words_from_user _ _ _ _) as [bytes|]; [|kreject].
    eapply post_bind, post_deref; [exact Ht|].
    eapply post_bind, post_deref_opt; [exact Htp|].
    apply post_bind. unfold binder_alloc_get_user_buffer_offset.
    eapply post_bind, post_deref; [exact Hp|]. apply post_ret. cbv zeta.
    apply post_bind. eapply post_upd_buffer; [exact Hb|].
    match goal with |- post _ (set_st_buffers (<[_ := ?b']> _) _) _ => set (b2 := b') end.
    assert (Hs2 : same_layout b b2).
    { eapply (same_layout_object b _ offp (Obj_ptr _)); [done|done|reflexivity|].
      by rewrite Hobj. }
    unfold fixup_parent_of, buffer_object_at in Hfj. rewrite Hobj in Hfj.
    case_bool_decide as Hflag; [done|].
    destruct (b_offsets b !! Z.to_nat (bbo_parent bp)) as [P'|] eqn:HP; [|done].
    injection Hfj as -> <- <-.
    apply post_bind. eapply post_mono.
    { kcursor.
      eapply (binder_fixup_parent_rejects t thread _ j c _ x buffer b2 i P si ei); kcursor;
        try done.
      - kstate. apply lookup_insert_eq.
      - by apply (same_layout_fixup_inv b).
      - by rewrite (same_layout_fixup_at b b2). }
    intros ret s3 [e ->]. apply post_ret. eauto.
  - (* an array of file descriptors *)
    destruct (b_offsets b !! Z.to_nat (fda_parent fda)) as [P'|] eqn:HP; [|done].
    injection Hfj as -> <- <-.
    destruct (binder_validate_ptr b (fda_parent fda) (Z.of_nat j)) as [P'|] eqn:Hptr; [|kreject].
    assert (P' = P ∧ is_Some (buffer_object_at b P)) as [-> [parent Hparent]].
    { unfold binder_validate_ptr in Hptr. case_bool_decide; [done|]. rewrite HP in Hptr.
      destruct (buffer_object_at b P) eqn:Hpar; [|done]. injection Hptr as <-. eauto. }
    eapply post_bind, post_deref_opt; [exact Hparent|]. kcursor.
    rewrite (binder_validate_fixup_overlap b j c i P si ei) by done. kreject.
Qed.

(** ** The translation loop *)

Lemma binder_transaction_objects_inv t thread buffer in_reply_to sg_buf_end n :
  ∀ j c s x b,
  uapi_sizes_positive →
  st_transactions s !! t = Some x → t_buffer x = Some buffer →
  st_buffers s !! buffer = Some b → payload_unsigned b → fixup_inv b j c →
  wlp (binder_transaction_objects t thread buffer in_reply_to sg_buf_end j n c) s
    (λ r s', match r with
             | inl (err, _) => err.1 = BR_FAILED_REPLY
             | inr c' =>
                 st_transactions s' = st_transactions s ∧
                 dom (st_procs s') = dom (st_procs s) ∧
                 (∃ b', st_buffers s' !! buffer = Some b' ∧ same_layout b b') ∧
                 fixup_inv b (j + n) c'
             end).
Proof.
  induction n as [|n IH]; intros j c s x b Hsizes Ht Htb Hb Hpay Hinv;
    cbn [binder_transaction_objects].
  { apply wlp_ret. rewrite Nat.add_0_r. eauto 10 using same_layout_refl. }
  apply wlp_bind. eapply wlp_mono; [by eapply binder_transaction_object_turn|].
  intros [err|c'] s1 Hturn; [by apply wlp_ret|].
  destruct Hturn as (Ht1 & Hp1 & b1 & Hb1 & Hsame & Hstep).
  eapply wlp_mono.
  { eapply (IH (S j) c' s1 x b1); try done.
    - by rewrite Ht1.
    - by apply (same_layout_payload_unsigned b).
    - apply (same_layout_fixup_inv b); [done|]. by apply (fixup_inv_step b j c). }
  intros [[err k]|c''] s2; [done|]. cbv beta.
  intros (Ht2 & Hp2 & (b2 & Hb2 & Hsame2) & Hinv2).
  split; [congruence|]. split; [congruence|]. split.
  { exists b2. eauto using same_layout_trans. }
  rewrite Nat.add_succ_r. apply (same_layout_fixup_inv b1); [|done]. by apply same_layout_sym.
Qed.

(** The turns after a run of turns that succeeded. *)
Lemma binder_transaction_objects_app t thread buffer in_reply_to sg_buf_end n1 n2 :
  ∀ j c s c1 s1,
  binder_transaction_objects t thread buffer in_reply_to sg_buf_end j n1 c s
    = (Val (inr c1), s1) →
  binder_transaction_objects t thread buffer in_reply_to sg_buf_end j (n1 + n2) c s
    = binder_transaction_objects t thread buffer in_reply_to sg_buf_end (j + n1) n2 c1 s1.
Proof.
  induction n1 as [|n1 IH]; intros j c s c1 s1; cbn [binder_transaction_objects Nat.add].
  { intros [= <- <-]. by rewrite Nat.add_0_r. }
  unfold mbind, kernel_bind, kbind.
  destruct (binder_transaction_object _ _ _ _ _ _ _ _) as [[[err|c']| | |] s'] eqn:Hturn;
    try done.
  intros Hrest. rewrite Nat.add_succ_r. by apply IH.
Qed.

Lemma preserves_upd_buffer_plain buffer p f :
  (∀ b, b_target_node (f b) = b_target_node b) →
  preserves (plain_frame buffer) (upd_buffer p f).
Proof.
  intros Hf s. unfold upd_buffer, get_buffer, put_buffer, deref, modify, plain_frame.
  unfold mbind, kernel_bind, kbind.
  destruct (st_buffers s !! p) as [x|] eqn:Hp; [|done]. destruct s; simpl in *. f_equal.
  destruct (decide (p = buffer)) as [->|Hne].
  - rewrite lookup_insert_eq, Hp. simpl. by rewrite Hf.
  - by rewrite lookup_insert_ne.
Qed.

#[local] Hint Extern 1 (preserves (plain_frame _) (upd_buffer _ _)) =>
  apply preserves_upd_buffer_plain; intros ?; reflexivity : kframe.

Lemma binder_translate_fd_plain buffer fd t thread in_reply_to :
  preserves (plain_frame buffer) (binder_translate_fd fd t thread in_reply_to).
Proof. kframe. Qed.

#[local] Hint Resolve binder_translate_fd_plain : kframe.

Lemma binder_translate_fd_array_loop_plain buffer q fd_array t thread in_reply_to fdi n :
  preserves (plain_frame buffer)
    (binder_translate_fd_array_loop q fd_array t thread in_reply_to fdi n).
Proof.
  revert fdi. induction n as [|n IH]; intros fdi; cbn [binder_translate_fd_array_loop]; kframe.
Qed.

Lemma close_fd_array_plain buffer proc sg fd_array n :
  preserves (plain_frame buffer) (close_fd_array proc sg fd_array n).
Proof. induction n as [|n IH]; cbn [close_fd_array]; kframe. Qed.

#[local] Hint Resolve binder_translate_fd_array_loop_plain close_fd_array_plain : kframe.

Lemma binder_translate_fd_array_plain buffer fda parent t thread in_reply_to :
  preserves (plain_frame buffer) (binder_translate_fd_array fda parent t thread in_reply_to).
Proof. kframe. Qed.

Lemma binder_fixup_parent_plain buffer t thread bp num_valid last min :
  preserves (plain_frame buffer) (binder_fixup_parent t thread bp num_valid last min).
Proof. kframe. Qed.

Lemma binder_user_error_plain buffer msg :
  preserves (plain_frame buffer) (binder_user_error msg).
Proof. kframe. Qed.

#[local] Hint Resolve binder_translate_fd_array_plain binder_fixup_parent_plain
  binder_user_error_plain : kframe.

(** A turn of the loop for an object that is no binder and no handle. *)
Lemma binder_transaction_object_plain t thread buffer in_reply_to sg_buf_end j c s b :
  st_buffers s !! buffer = Some b → plain_prefix b (S j) →
  wlp (binder_transaction_object t thread buffer in_reply_to sg_buf_end j c) s
    (λ _ s', plain_frame buffer s' = plain_frame buffer s).
Proof.
  intros Hb Hplain. unfold binder_transaction_object.
  apply wlp_bind, wlp_deref. intros b' Hb'. assert (b' = b) as -> by congruence.
  apply wlp_bind, wlp_deref_opt. intros offp Hoffp.
  specialize (Hplain j offp ltac:(lia) Hoffp).
  destruct (_ || _); [apply wlp_preserves; kframe|]. cbv zeta.
  destruct (object_at b offp) as [fp|fp|bp|fda|ty] eqn:Hobj; [done|..];
    apply wlp_preserves; kframe.
Qed.

Lemma same_layout_plain_prefix b b' j :
  same_layout b b' → plain_prefix b j → plain_prefix b' j.
Proof.
  intros (Hoff & _ & Hlay) Hplain i off Hi Hlook. rewrite Hlay.
  apply (Hplain i); [done|]. by rewrite <- Hoff.
Qed.

(** The loop over objects that are no binders and no handles. *)
Lemma binder_transaction_objects_plain t thread buffer in_reply_to sg_buf_end n :
  ∀ j c s x b,
  uapi_sizes_positive →
  st_transactions s !! t = Some x → t_buffer x = Some buffer →
  st_buffers s !! buffer = Some b → payload_unsigned b → plain_prefix b (j + n) →
  wlp (binder_transaction_objects t thread buffer in_reply_to sg_buf_end j n c) s
    (λ _ s', plain_frame buffer s' = plain_frame buffer s).
Proof.
  induction n as [|n IH]; intros j c s x b Hsizes Ht Htb Hb Hpay Hplain;
    cbn [binder_transaction_objects].
  { by apply wlp_ret. }
  apply wlp_bind. eapply wlp_mono.
  { apply wlp_conj.
    - by eapply binder_transaction_object_turn.
    - eapply (binder_transaction_object_plain _ _ _ _ _ j); [done|].
      intros i off Hi. apply Hplain. lia. }
  intros [err|c'] s1 [Hturn Hframe]; [by apply wlp_ret|].
  destruct Hturn as (Ht1 & Hp1 & b1 & Hb1 & Hsame & Hstep).
  eapply wlp_mono.
  { eapply (IH (S j) c' s1 x b1); try done.
    - by rewrite Ht1.
    - by apply (same_layout_payload_unsigned b).
    - apply (same_layout_plain_prefix b); [done|]. by rewrite Nat.add_succ_l, <- Nat.add_succ_r. }
  intros r s2. cbv beta. congruence.
Qed.

#[local] Hint Resolve binder_translate_binder_frame binder_translate_handle_frame
  binder_translate_fd_array_frame binder_fixup_parent_frame binder_user_error_frame : kframe.

Lemma wlp_same_layout {A} (m : kernel A) buffer s b :
  preserves (translation_frame buffer) m → st_buffers s !! buffer = Some b →
  wlp m s (λ _ s', ∃ b', st_buffers s' !! buffer = Some b' ∧ same_layout b b').
Proof.
  intros Hm Hb. apply (wlp_frame (translation_frame buffer)); [done|].
  intros _ s' (_ & _ & b' & Hb' & Ho & Hd & Hobj)%(translation_frame_buffer _ _ _ b); [|done].
  exists b'. split; [done|]. by apply same_layout_objects.
Qed.

(** However a turn of the loop ends, it leaves the layout of the
    payload as it was. *)
Lemma binder_transaction_object_layout t thread buffer in_reply_to sg_buf_end j c s b :
  st_buffers s !! buffer = Some b →
  wlp (binder_transaction_object t thread buffer in_reply_to sg_buf_end j c) s
    (λ _ s', ∃ b', st_buffers s' !! buffer = Some b' ∧ same_layout b b').
Proof.
  intros Hb. unfold binder_transaction_object.
  apply wlp_bind, wlp_deref; intros b0 Hb0.
  assert (b0 = b) as -> by congruence.
  apply wlp_bind, wlp_deref_opt; intros offp Hoffp.
  destruct (_ || _); [apply wlp_same_layout; [kframe|done]|]. cbv zeta.
  destruct (object_at b offp) as [fp|fp|bp|fda|ty] eqn:Hobj.
  - apply wlp_bind. apply (wlp_frame (translation_frame buffer)).
    { destruct (fbo_type fp); auto with kframe. }
    intros [ret fp'] s1 (Ht1 & Hp1 & b1 & Hb1 & Ho1 & Hd1 & Hobj1)%(translation_frame_buffer _ _ _ b); [|done].
    apply wlp_bind. eapply wlp_upd_buffer; [exact Hb1|].
    assert (same_layout b (set_b_objects (<[offp:=Obj_flat fp']> (b_objects b1)) b1)).
    { eapply (same_layout_object b _ offp (Obj_flat fp')); [done|done|simpl; by rewrite Hobj1|].
      by rewrite Hobj. }
    destruct ret as [e|]; apply wlp_ret; eexists; (split; [apply lookup_insert_eq|done]).
  - apply wlp_bind. apply (wlp_frame (translation_frame buffer)).
    { apply binder_translate_fd_frame. }
    intros target_fd s1 (Ht1 & Hp1 & b1 & Hb1 & Ho1 & Hd1 & Hobj1)%(translation_frame_buffer _ _ _ b); [|done].
    destruct target_fd as [e|target_fd].
    { apply wlp_ret. exists b1. split; [done|]. by apply same_layout_objects. }
    apply wlp_bind. eapply wlp_upd_buffer; [exact Hb1|].
    apply wlp_ret. eexists. split; [apply lookup_insert_eq|].
    eapply (same_layout_object b _ offp (Obj_fd _)); [done|done|simpl; by rewrite Hobj1|].
    by rewrite Hobj.
  - case_bool_decide; [apply wlp_same_layout; [kframe|done]|].
    destruct (copy_words_from_user _ _ _ _) as [bytes|]; [|apply wlp_same_layout; [kframe|done]].
    apply wlp_bind, wlp_deref; intros x' Hx'.
    apply wlp_bind, wlp_deref_opt; intros target_proc _.
    apply wlp_bind. unfold binder_alloc_get_user_buffer_offset.
    apply wlp_bind, wlp_deref; intros p _. apply wlp_ret. cbv zeta.
    apply wlp_bind. eapply wlp_upd_buffer; [exact Hb|].
    match goal with |- wlp _ (set_st_buffers (<[_ := ?b']> _) _) _ => set (b2 := b') end.
    assert (Hs2 : same_layout b b2).
    { eapply (same_layout_object b _ offp (Obj_ptr _)); [done|done|reflexivity|].
      by rewrite Hobj. }
    eapply wlp_mono.
    { apply (wlp_same_layout _ buffer _ b2); [kframe|kstate; apply lookup_insert_eq]. }
    intros ? s3 (b3 & Hb3 & Hs3). exists b3. split; [done|]. by eapply same_layout_trans.
  - apply wlp_same_layout; [|done].
    destruct (binder_validate_ptr _ _ _); [|kframe].
    apply preserves_bind; [kframe|]. intros parent.
    destruct (binder_validate_fixup _ _ _ _ _) as [[|]|]; kframe.
  - apply wlp_same_layout; [kframe|done].
Qed.

(** ** The error path, run to its end *)

Lemma closes_and_logs_refl s : closes_and_logs s s.
Proof. exists (st_fds s), (st_log s). by destruct s. Qed.

Lemma closes_and_logs_trans s1 s2 s3 :
  closes_and_logs s1 s2 → closes_and_logs s2 s3 → closes_and_logs s1 s3.
Proof. intros (f1 & l1 & ->) (f2 & l2 & ->). exists f2, l2. by destruct s1. Qed.

Lemma post_pr_err msg s : post (pr_err msg) s (λ _ s', closes_and_logs s s').
Proof.
  unfold pr_err. apply post_modify. exists (st_fds s), (st_log s ++ [Pr_err msg]).
  by destruct s.
Qed.

Lemma post_task_close_fd proc fd s p :
  st_procs s !! proc = Some p →
  post (task_close_fd proc fd) s (λ _ s', closes_and_logs s s').
Proof.
  intros Hp. unfold task_close_fd. eapply post_bind, post_deref; [exact Hp|].
  destruct (files p) as [fs|].
  - apply post_modify.
    exists (<[fs := delete fd (default ∅ (st_fds s !! fs))]> (st_fds s)), (st_log s).
    by destruct s.
  - apply post_ret, closes_and_logs_refl.
Qed.

Lemma post_close_fd_array proc sg fd_array n s p :
  st_procs s !! proc = Some p →
  post (close_fd_array proc sg fd_array n) s (λ _ s', closes_and_logs s s').
Proof.
  intros Hp. induction n as [|n IH]; cbn [close_fd_array].
  { apply post_ret, closes_and_logs_refl. }
  apply post_bind. eapply post_mono; [exact IH|]. intros _ s1 (f1 & l1 & ->). cbv beta.
  eapply post_mono; [eapply (post_task_close_fd _ _ _ p); exact Hp|].
  intros ? s2 Hs2. eapply closes_and_logs_trans; [|exact Hs2]. by exists f1, l1.
Qed.

(** Undoing an object that is no binder and no handle closes file
    descriptors at most. *)
Lemma post_binder_transaction_buffer_release_object proc buffer index s b p :
  st_buffers s !! buffer = Some b → st_procs s !! proc = Some p →
  (index < length (b_offsets b))%nat → plain_prefix b (S index) →
  post (binder_transaction_buffer_release_object proc buffer true index) s
    (λ _ s', closes_and_logs s s').
Proof.
  intros Hb Hp Hlen Hplain. unfold binder_transaction_buffer_release_object.
  eapply post_bind, post_deref; [exact Hb|].
  destruct (lookup_lt_is_Some_2 _ _ Hlen) as [offp Hoffp]. rewrite Hoffp.
  specialize (Hplain index offp ltac:(lia) Hoffp). cbv zeta.
  case_bool_decide; [apply post_pr_err|].
  destruct (object_at b offp) as [fp|fp|bp|fda|ty] eqn:Hobj; [done|..].
  - by eapply post_task_close_fd.
  - apply post_ret, closes_and_logs_refl.
  - destruct (binder_validate_ptr b _ _) as [parent|] eqn:Hptr; [|apply post_pr_err].
    assert (is_Some (buffer_object_at b parent)) as [lo ->].
    { unfold binder_validate_ptr in Hptr. destruct (bool_decide _) in Hptr; [done|].
      destruct (b_offsets b !! Z.to_nat (fda_parent fda)) as [q|]; [|done].
      destruct (buffer_object_at b q) eqn:Hpar; [|done]. injection Hptr as <-. eauto. }
    apply post_bind. unfold binder_alloc_get_user_buffer_offset.
    eapply post_bind, post_deref; [exact Hp|]. apply post_ret. cbv zeta.
    case_bool_decide; [apply post_pr_err|].
    destruct (_ || _); [apply post_pr_err|].
    by eapply post_close_fd_array.
  - apply post_pr_err.
Qed.

Lemma post_binder_transaction_buffer_release_loop proc buffer n s b p :
  st_buffers s !! buffer = Some b → st_procs s !! proc = Some p →
  (n ≤ length (b_offsets b))%nat → plain_prefix b n →
  post (binder_transaction_buffer_release_loop proc buffer true n) s
    (λ _ s', closes_and_logs s s').
Proof.
  intros Hb Hp. induction n as [|n IH]; intros Hlen Hplain;
    cbn [binder_transaction_buffer_release_loop].
  { apply post_ret, closes_and_logs_refl. }
  apply post_bind. eapply post_mono.
  { apply IH; [lia|]. intros i off Hi. apply Hplain. lia. }
  intros _ s1 (f1 & l1 & ->). cbv beta. eapply post_mono.
  { by eapply (post_binder_transaction_buffer_release_object _ _ _ _ b p). }
  intros ? s2 Hs2. eapply closes_and_logs_trans; [|exact Hs2]. by exists f1, l1.
Qed.

Lemma post_binder_dec_node_held node s n :
  st_nodes s !! node = Some n →
  local_strong_refs n ≠ 1 ∨ internal_strong_refs n ≠ 0 →
  post (binder_dec_node node true false) s (λ _ s', ∃ nodes, s' = set_st_nodes nodes s).
Proof.
  intros Hn Hheld. unfold binder_dec_node, binder_dec_node_nilocked.
  kwp ltac:(idtac).
  assert (bool_decide (local_strong_refs n - 1 ≠ 0) || bool_decide (internal_strong_refs n ≠ 0)
          = true) as ->.
  { apply orb_true_iff. rewrite !bool_decide_eq_true. lia. }
  kwp ltac:(idtac). eauto.
Qed.

(** Undoing a translation that stopped at index [j], when the objects
    before are no binders and no handles and the target node stays
    strongly held. *)
Lemma post_binder_transaction_buffer_release proc buffer j s b p :
  st_buffers s !! buffer = Some b → st_procs s !! proc = Some p →
  (∀ node, b_target_node b = Some node →
     ∃ n, st_nodes s !! node = Some n ∧
          (local_strong_refs n ≠ 1 ∨ internal_strong_refs n ≠ 0)) →
  (j ≤ length (b_offsets b))%nat → plain_prefix b j →
  post (binder_transaction_buffer_release proc buffer (Some j)) s
    (λ _ s', ∃ nodes, closes_and_logs (set_st_nodes nodes s) s').
Proof.
  intros Hb Hp Hnode Hlen Hplain. unfold binder_transaction_buffer_release.
  eapply post_bind, post_deref; [exact Hb|].
  rewrite (bool_decide_eq_true_2 (is_Some (Some j))) by eauto.
  apply post_bind.
  assert (post (match b_target_node b with
                | Some node => binder_dec_node node true false
                | None => mret tt
                end) s (λ _ s', ∃ nodes, s' = set_st_nodes nodes s)) as Hdec.
  { destruct (b_target_node b) as [node|].
    - destruct (Hnode node eq_refl) as (n & Hn & Hheld). by eapply post_binder_dec_node_held.
    - apply post_ret. exists (st_nodes s). by destruct s. }
  eapply post_mono; [exact Hdec|]. intros ? s1 (nodes & ->). cbv beta.
  eapply post_mono.
  { by eapply (post_binder_transaction_buffer_release_loop _ _ _ _ b p). }
  intros ? s2 Hs2. by exists nodes.
Qed.

(** The labels below the translation, for a call whose target process
    and target thread are alive and whose sender has no error pending. *)
Lemma post_binder_transaction_failed thread tg err s tp p th :
  target_proc tg = Some tp → in_reply_to tg = None → target_node tg = None →
  st_procs s !! tp = Some p → proc_is_dead p = false →
  st_threads s !! thread = Some th →
  err_cmd (return_error th) = BR_OK → w_entry (err_work (return_error th)) = None →
  (∀ tt, target_thread tg = Some tt →
     ∃ tth, st_threads s !! tt = Some tth ∧ thread_is_dead tth = false) →
  post (binder_transaction_failed thread tg err) s
    (λ _ s',
       st_buffers s' = st_buffers s ∧ st_transactions s' = st_transactions s ∧
       st_tcompletes s' = st_tcompletes s ∧
       (∃ p', st_procs s' !! tp = Some p' ∧ alloc_buffers p' = alloc_buffers p) ∧
       (∃ th', st_threads s' !! thread = Some th' ∧
               err_cmd (return_error th') = err.1 ∧
               thread_todo_list th' = thread_todo_list th ++ [W_return_error thread]) ∧
       binder_transaction_log_failed s' = binder_transaction_log_failed s ++ [err]).
Proof.
  intros Htp Hirt Hnode Hp Halive Hth Hok Hentry Htt. unfold binder_transaction_failed.
  rewrite Htp, Hirt, Hnode.
  destruct (target_thread tg) as [tt|].
  - destruct (Htt tt eq_refl) as (tth & Htth & Hlive).
    destruct (decide (tt = thread)) as [->|Hne].
    + assert (tth = th) as -> by congruence.
      unfold binder_thread_dec_tmpref, binder_proc_dec_tmpref.
      kwp ltac:(first [ rewrite Hlive | rewrite Halive | rewrite Hok | rewrite Hentry ]).
      repeat split; try done; eexists; (split; [kheap|]); done.
    + unfold binder_thread_dec_tmpref, binder_proc_dec_tmpref.
      kwp ltac:(first [ rewrite Hlive | rewrite Halive | rewrite Hok | rewrite Hentry ]).
      repeat split; try done; eexists; (split; [kheap|]); done.
  - unfold binder_proc_dec_tmpref.
    kwp ltac:(first [ rewrite Halive | rewrite Hok | rewrite Hentry ]).
    repeat split; try done; eexists; (split; [kheap|]); done.
Qed.

(** The error path of [binder_transaction] below the translation comes
    back: the buffer, the transaction and its completion are freed and
    the sender is told. *)
Lemma post_binder_transaction_failed_buffer thread tg t tcomplete buffer j err s tp p th b :
  target_proc tg = Some tp → in_reply_to tg = None →
  st_procs s !! tp = Some p → proc_is_dead p = false →
  st_threads s !! thread = Some th →
  err_cmd (return_error th) = BR_OK → w_entry (err_work (return_error th)) = None →
  (∀ tt, target_thread tg = Some tt →
     ∃ tth, st_threads s !! tt = Some tth ∧ thread_is_dead tth = false) →
  st_buffers s !! buffer = Some b →
  (∀ node, b_target_node b = Some node →
     ∃ n, st_nodes s !! node = Some n ∧
          (local_strong_refs n ≠ 1 ∨ internal_strong_refs n ≠ 0)) →
  (j ≤ length (b_offsets b))%nat → plain_prefix b j →
  post (binder_transaction_failed_buffer thread tg t tcomplete buffer j err) s
    (λ _ s',
       st_buffers s' = delete buffer (st_buffers s) ∧
       st_transactions s' = delete t (st_transactions s) ∧
       st_tcompletes s' = delete tcomplete (st_tcompletes s) ∧
       (∃ p', st_procs s' !! tp = Some p' ∧
              alloc_buffers p' = hlist_del buffer (alloc_buffers p)) ∧
       (∃ th', st_threads s' !! thread = Some th' ∧
               err_cmd (return_error th') = err.1 ∧
               thread_todo_list th' = thread_todo_list th ++ [W_return_error thread]) ∧
       binder_transaction_log_failed s' = binder_transaction_log_failed s ++ [err]).
Proof.
  intros Htp Hirt Hp Halive Hth Hok Hentry Htt Hb Hnode Hlen Hplain.
  unfold binder_transaction_failed_buffer. rewrite Htp.
  apply post_bind, post_ret. apply post_bind. eapply post_mono.
  { by eapply (post_binder_transaction_buffer_release _ _ _ _ b p). }
  intros ? s1 (nodes & fds & log & ->). cbv beta.
  apply post_bind. eapply post_upd_buffer; [kstate; exact Hb|].
  apply post_bind. unfold binder_alloc_free_buf.
  kwp ltac:(idtac).
  eapply post_mono.
  { eapply (post_binder_transaction_failed thread _ err _ tp _ th); kstate; kobj;
      try first [ eassumption | reflexivity | apply lookup_insert_eq ]. }
  intros ? s2. kstate. kobj. intros (Hbs & Hts & Htcs & Hps & Hths & Hlog).
  rewrite Hbs, Hts, Htcs, Hlog. repeat split; try done.
  by rewrite delete_insert_eq.
Qed.

Lemma post_wlp {A} (m : kernel A) s (Q1 Q2 : A → binder_state → Prop) :
  post m s Q1 → wlp m s Q2 → post m s (λ a s', Q1 a s' ∧ Q2 a s').
Proof. intros (a & s' & Hrun & HQ1) HQ2. exists a, s'. split; [done|]. split; [done|]. by apply HQ2. Qed.

Lemma fixup_at_plain b j f : fixup_at b j = Some f → plain_prefix b j → plain_prefix b (S j).
Proof.
  intros Hf Hplain i off Hi Hoff. destruct (decide (i = j)) as [->|Hne].
  - unfold fixup_at in Hf. rewrite Hoff in Hf. by destruct (object_at b off).
  - apply (Hplain i); [lia|done].
Qed.

(** The loop stops at an object whose fixup starts before the end of an
    earlier one into the same parent; when the objects before it are no
    binders and no handles, the processes, threads and nodes are as
    before the loop. *)
Lemma binder_transaction_objects_rejects t thread buffer in_reply_to sg_buf_end n c s x b
    j cj sj tp :
  uapi_sizes_positive →
  st_transactions s !! t = Some x → t_buffer x = Some buffer →
  st_buffers s !! buffer = Some b → payload_unsigned b →
  last_fixup_obj c = None →
  (j < n)%nat →
  binder_transaction_objects t thread buffer in_reply_to sg_buf_end 0 j c s
    = (Val (inr cj), sj) →
  fixup_overlaps b j →
  t_to_proc x = Some tp → tp ∈ dom (st_procs s) →
  post (binder_transaction_objects t thread buffer in_reply_to sg_buf_end 0 n c) s
    (λ r s',
       (∃ e, r = inl ((BR_FAILED_REPLY, e), j)) ∧
       (∃ b', st_buffers s' !! buffer = Some b' ∧ same_layout b b') ∧
       (plain_prefix b j → plain_frame buffer s' = plain_frame buffer s)).
Proof.
  intros Hsizes Ht Htb Hb Hpay Hc Hj Hrun Hover Htp Hdom.
  pose proof (binder_transaction_objects_inv t thread buffer in_reply_to sg_buf_end j
                0%nat c s x b Hsizes Ht Htb Hb Hpay (fixup_inv_start b c Hc) _ _ Hrun)
    as (Htj & Hpj & (bj & Hbj & Hsame) & Hinv).
  assert (∃ f, fixup_at b j = Some f) as [f Hf].
  { destruct Hover as (? & ? & ? & ? & ? & ? & _ & _ & ? & _). eauto. }
  unfold post, runs. replace n with (j + S (n - S j))%nat by lia.
  rewrite (binder_transaction_objects_app _ _ _ _ _ _ _ _ _ _ _ _ Hrun).
  cbn [binder_transaction_objects Nat.add].
  destruct (post_wlp _ _ _ _
              (post_wlp _ _ _ _
                 (binder_transaction_object_rejects t thread buffer in_reply_to sg_buf_end j cj
                    sj x bj tp ltac:(by rewrite Htj) Htb Htp ltac:(by rewrite Hpj) Hbj
                    ltac:(by apply (same_layout_fixup_inv b))
                    ltac:(by apply (same_layout_fixup_overlaps b)))
                 (binder_transaction_object_layout t thread buffer in_reply_to sg_buf_end j cj
                    sj bj Hbj))
              (λ a s' Hms Hplain,
                 binder_transaction_object_plain t thread buffer in_reply_to sg_buf_end
                   j cj sj bj Hbj Hplain a s' Hms))
    as (r & s' & Hturn & [[e ->] (b' & Hb' & Hsame')] & Hframe).
  exists (inl ((BR_FAILED_REPLY, e), j)), s'. split.
  { unfold runs, mbind, kernel_bind, kbind in *. by rewrite Hturn. }
  split; [eauto|]. split; [exists b'; eauto using same_layout_trans|].
  intros Hplain. rewrite Hframe.
  - by apply (binder_transaction_objects_plain t thread buffer in_reply_to sg_buf_end j
                0%nat c s x b Hsizes Ht Htb Hb Hpay Hplain _ _ Hrun).
  - apply (same_layout_plain_prefix b); [done|]. by eapply fixup_at_plain.
Qed.

(** The target of a call is not the answer to a transaction. *)
Lemma binder_transaction_call_target_no_reply proc thread tr s :
  wlp (binder_transaction_call_target proc thread tr) s
    (λ r _, ∀ tg, r = inr tg → in_reply_to tg = None).
Proof.
  unfold binder_transaction_call_target.
  apply wlp_bind, wlp_any; intros p sa.
  apply wlp_bind, wlp_any; intros [err|target_node] sb; [by apply wlp_ret|].
  apply wlp_bind, wlp_any; intros n sc.
  destruct (node_proc n) as [target_proc|]; [|by apply wlp_ret]. cbv zeta.
  apply wlp_bind, wlp_any; intros _ sd.
  apply wlp_bind, wlp_any; intros tp se.
  destruct (bool_decide _); [by apply wlp_ret|].
  apply wlp_bind, wlp_any; intros th sf.
  destruct (transaction_stack th) as [tmp|]; [|apply wlp_ret; by intros ? [= <-]].
  destruct (negb _); [|apply wlp_ret; by intros ? [= <-]].
  apply wlp_bind, wlp_any; intros x sg.
  destruct (bool_decide _).
  { apply wlp_bind, wlp_any; intros _ sh. by apply wlp_ret. }
  apply wlp_bind, wlp_any; intros s' si.
  apply wlp_bind, wlp_any; intros target_thread sj.
  apply wlp_ret. by intros ? [= <-].
Qed.

(** A call that has found its target, got its memory and its payload,
    and whose translation reaches an object whose fixup starts before the
    end of an earlier one into the same parent. *)
Lemma binder_transaction_rejects_overlap proc thread tr extra s0 tg s1 tp p0 tpp th
    data objects offsets j cj sj :
  uapi_sizes_positive →
  runs (binder_transaction_call_target proc thread tr)
    (set_binder_last_id (binder_last_id s0 + 1) s0) (inr tg) s1 →
  target_proc tg = Some tp →
  st_procs s1 !! proc = Some p0 →
  st_procs s1 !! tp = Some tpp → proc_is_dead tpp = false →
  st_threads s1 !! thread = Some th →
  err_cmd (return_error th) = BR_OK → w_entry (err_work (return_error th)) = None →
  (∀ tt, target_thread tg = Some tt →
     ∃ tth, st_threads s1 !! tt = Some tth ∧ thread_is_dead tth = false) →
  (∀ node, target_node tg = Some node →
     ∃ n, st_nodes s1 !! node = Some n ∧
          (local_strong_refs n ≠ 1 ∨ internal_strong_refs n ≠ 0)) →
  kzalloc_fails (st_brk s1) = false → kzalloc_fails (S (st_brk s1)) = false →
  binder_alloc_reserve tp (tr_data_size tr) (tr_offsets_size tr) extra
    (one_way (tr_flags tr)) = inr data →
  copy_objects_from_user (tr_data_ptr_buffer tr) (tr_data_size tr) = Some objects →
  copy_words_from_user get_user_u64 sizeof_binder_size_t (tr_data_ptr_offsets tr)
    (Z.to_nat ((tr_offsets_size tr + sizeof_binder_size_t - 1) / sizeof_binder_size_t))
    = Some offsets →
  IS_ALIGNED (tr_offsets_size tr) sizeof_binder_size_t = true →
  IS_ALIGNED extra sizeof_u64 = true →
  let t := st_brk s1 in
  let tcomplete := S t in
  let buffer := S (S t) in
  let x :=
    Build_binder_transaction (binder_last_id s0 + 1) zero_work
      (if negb (one_way (tr_flags tr)) then Some thread else None) None (Some tp)
      (target_thread tg) None false (Some buffer) (tr_code tr) (tr_flags tr) (st_nice s1) 0
      (task_euid (tsk p0)) in
  let b :=
    Build_binder_buffer data (tr_data_size tr) (tr_offsets_size tr) false
      (one_way (tr_flags tr)) (binder_last_id s0 + 1) (Some t) (target_node tg)
      objects offsets ∅ in
  let off_end := u64 (u64 (data + ALIGN (tr_data_size tr) sizeof_void_p) + tr_offsets_size tr) in
  let sg_bufp := ALIGN off_end sizeof_void_p in
  let s2 :=
    set_st_buffers (<[buffer := b]> (st_buffers s1))
      (set_st_tcompletes (<[tcomplete := zero_work]> (st_tcompletes s1))
         (set_st_transactions (<[t := x]> (st_transactions s1))
            (set_st_procs
               (<[tp := set_alloc_buffers (buffer :: alloc_buffers tpp) tpp]> (st_procs s1))
               (set_st_brk (S (S (S t))) s1)))) in
  payload_unsigned b →
  (j < Z.to_nat (tr_offsets_size tr / sizeof_binder_size_t))%nat →
  runs (binder_transaction_objects t thread buffer None (u64 (sg_bufp + extra)) 0 j
          (Build_binder_fixup_cursor 0 None 0 sg_bufp)) s2 (inr cj) sj →
  fixup_overlaps b j → plain_prefix b j →
  post (binder_transaction proc thread tr false extra) s0
    (λ _ s',
       st_buffers s' !! buffer = None ∧
       st_transactions s' = delete t (st_transactions s1) ∧
       st_tcompletes s' !! tcomplete = None ∧
       (∃ p', st_procs s' !! tp = Some p' ∧ alloc_buffers p' = alloc_buffers tpp) ∧
       (∃ th', st_threads s' !! thread = Some th' ∧
               err_cmd (return_error th') = BR_FAILED_REPLY ∧
               thread_todo_list th' = thread_todo_list th ++ [W_return_error thread]) ∧
       ∃ e, binder_transaction_log_failed s'
            = binder_transaction_log_failed s1 ++ [(BR_FAILED_REPLY, e)]).
Proof.
  intros Hsizes Htarget Htp Hp0 Htpp Halive Hth Hok Hentry Htt Hnode Hk1 Hk2 Hres Hobjs
    Hoffs Hal1 Hal2 t tcomplete buffer x b off_end sg_bufp s2 Hpay Hj Hprefix Hover Hplain.
  pose proof (binder_transaction_call_target_no_reply _ _ _ _ _ _ Htarget tg eq_refl) as Hirt.
  unfold binder_transaction. apply post_bind. unfold binder_next_id.
  kwp ltac:(idtac). eapply post_runs; [exact Htarget|]. cbv beta iota.
  unfold binder_transaction_send. rewrite Htp.
  kwp ltac:(first [ rewrite Hres | rewrite Hobjs | rewrite Hoffs | rewrite Hal1 | rewrite Hal2
                  | progress unfold binder_alloc_new_buf, binder_transaction_copy ]).
  rewrite Hirt.
  match goal with |- post _ ?S _ => replace S with s2 end.
  2:{ unfold s2, b, x, buffer, tcomplete, t. kstate. f_equal; by rewrite ?insert_insert_eq. }
  assert (Hx : st_transactions s2 !! t = Some x) by (unfold s2; kstate; apply lookup_insert_eq).
  assert (Hb : st_buffers s2 !! buffer = Some b) by (unfold s2; kstate; apply lookup_insert_eq).
  assert (Hdom : tp ∈ dom (st_procs s2)).
  { unfold s2. kstate. apply elem_of_dom. rewrite lookup_insert_eq. eauto. }
  eapply post_mono.
  { by eapply (binder_transaction_objects_rejects t thread buffer None _ _ _ s2 x b j cj sj tp). }
  intros r sf ([e ->] & (bf & Hbf & Hsame) & Hframe). cbv beta iota.
  specialize (Hframe Hplain). unfold plain_frame in Hframe. rewrite Hbf, Hb in Hframe.
  injection Hframe as Hprocs Hthreads Hnodes Htrans Hlog Htnode.
  assert (Hlen : (j ≤ length (b_offsets bf))%nat).
  { destruct Hsame as (-> & _). destruct Hover as (? & ? & ? & ? & ? & ? & _ & _ & Hf & _).
    unfold fixup_at in Hf. destruct (b_offsets b !! j) eqn:Hlook; [|done].
    apply lookup_lt_Some in Hlook. lia. }
  eapply post_mono.
  { eapply (post_binder_transaction_failed_buffer thread tg t tcomplete buffer j _ sf tp
              (set_alloc_buffers (buffer :: alloc_buffers tpp) tpp) th bf); try done.
    - rewrite Hprocs. unfold s2. kstate. apply lookup_insert_eq.
    - rewrite Hthreads. unfold s2. by kstate.
    - intros tt Htg. rewrite Hthreads. unfold s2. kstate. by apply Htt.
    - rewrite Htnode. intros node Hn. rewrite Hnodes. unfold s2. kstate. by apply Hnode.
    - by apply (same_layout_plain_prefix b). }
  intros ? s' (Hbs & Hts & Htcs & (p' & Hp' & Hbufs) & Hths & Hlogs). cbv beta.
  split; [rewrite Hbs; apply lookup_delete_eq|].
  split; [rewrite Hts, Htrans; unfold s2; kstate; by rewrite delete_insert_eq|].
  split; [rewrite Htcs; apply lookup_delete_eq|].
  split.
  { exists p'. split; [done|]. rewrite Hbufs. kobj. cbn [hlist_del]. by rewrite decide_True. }
  split; [done|]. exists e. rewrite Hlogs, Hlog. unfold s2. by kstate.
Qed.


(** * More properties of the driver *)

Lemma wlp_get_state s (Q : binder_state → binder_state → Prop) : Q s s → wlp get_state s Q.
Proof. intros HQ a s' [= <- <-]. done. Qed.

Lemma wlp_sleeps {A} s (Q : A → binder_state → Prop) : wlp sleeps s Q.
Proof. by intros a s'. Qed.

Context {ioctl_abi : binder_ioctl_abi}.

(** ** The objects of a payload *)

(** X1: an object that [binder_validate_object] accepts starts at a
    multiple of 4 and ends within the data of the buffer, and the size
    returned is the size of its struct. *)
Theorem binder_validate_object_in_bounds b offset :
  uapi_sizes_positive → 0 ≤ b_data_size b < 2 ^ 64 →
  binder_validate_object b offset ≠ 0 →
  offset mod 4 = 0 ∧
  binder_validate_object b offset = sizeof_object (object_at b offset) ∧
  offset + sizeof_object (object_at b offset) ≤ b_data_size b.
Proof.
  intros (Hflat & Hfd & Hptr & Hfda) Hsize. unfold binder_validate_object, IS_ALIGNED, sizeof_u32.
  destruct (_ || _) eqn:Hhdr; [done|].
  apply orb_false_elim in Hhdr as [_ Halign%negb_false_iff%bool_decide_eq_true].
  assert (Hone : ∀ size, 0 < size →
    (if bool_decide (offset ≤ u64 (b_data_size b - size)) && bool_decide (size ≤ b_data_size b)
     then size else 0) ≠ 0 →
    (if bool_decide (offset ≤ u64 (b_data_size b - size)) && bool_decide (size ≤ b_data_size b)
     then size else 0) = size ∧ offset + size ≤ b_data_size b).
  { intros size Hpos. do 2 case_bool_decide; simpl; try done. intros _.
    rewrite u64_small in * by lia. lia. }
  destruct (object_at b offset); simpl; try done; intros Hnz.
  all: split; [done|]; by apply Hone.
Qed.

(** ** The thread of a task *)

(** X2: what [binder_get_thread] has returned for a task it returns for
    that task again, and then it changes nothing: the thread of a task is
    made once. *)
Theorem binder_get_thread_again proc current_pid s thread s' :
  binder_get_thread proc current_pid s = (Val (Some thread), s') →
  binder_get_thread proc current_pid s' = (Val (Some thread), s').
Proof.
  unfold binder_get_thread, get_proc, deref, kzalloc, put_thread, upd_proc, get_proc, put_proc,
    deref, modify, get_state.
  unfold mbind, kernel_bind, kbind, mret, kernel_ret, kret.
  destruct (st_procs s !! proc) as [p|] eqn:Hp; [|done].
  destruct (rb_search current_pid (proc_threads p)) as [found|] eqn:Hfound.
  { intros [= <- <-]. by rewrite Hp, Hfound. }
  destruct s; simpl in *.
  unfold set_st_brk, set_st_threads, set_st_procs; simpl.
  destruct (kzalloc_fails _); [done|]. simpl. rewrite Hp.
  intros [= <- <-]. simpl. rewrite lookup_insert_eq. simpl.
  rewrite rb_search_insert; [done|]. by apply rb_search_None.
Qed.

(** ** [binder_ioctl] *)

Lemma wlp_binder_wait_user_error s (Q : option errno → binder_state → Prop) :
  (binder_stop_on_user_error s < 2 → Q None s) →
  (¬ binder_stop_on_user_error s < 2 → Q (Some ERESTARTSYS) s) →
  wlp binder_wait_user_error s Q.
Proof.
  intros HQ HQ'. unfold binder_wait_user_error, wait_interrupted.
  apply wlp_bind, wlp_get_state.
  case_bool_decide; [by apply wlp_ret, HQ|].
  destruct signal_pending; [by apply wlp_ret, HQ'|apply wlp_sleeps].
Qed.

(** X3: an ioctl other than BINDER_THREAD_EXIT that comes back has
    turned [looper_need_return] of the thread of the calling task off,
    whatever the command did and whether it failed, unless it was
    interrupted in its first wait: an ioctl that finds
    [binder_stop_on_user_error] at 2 or above and comes back returns
    -ERESTARTSYS and has changed nothing, [looper_need_return]
    included.  Without a thread for the task the call fails with
    -ENOMEM. *)
Theorem binder_ioctl_clears_need_return proc current_pid cmd arg non_block s ret s' :
  ioctl_of_u32 cmd ≠ Some BINDER_THREAD_EXIT →
  binder_ioctl proc current_pid cmd arg non_block s = (Val ret, s') →
  if bool_decide (binder_stop_on_user_error s < 2) then
    match (binder_get_thread proc current_pid s).1 with
    | Val (Some thread) =>
        ∃ th, st_threads s' !! thread = Some th ∧ looper_need_return th = false
    | _ => ret = Some ENOMEM
    end
  else ret = Some ERESTARTSYS ∧ s' = s.
Proof.
  intros Hcmd Hrun. revert ret s' Hrun. change (wlp (binder_ioctl proc current_pid cmd arg non_block) s
    (λ ret s',
       if bool_decide (binder_stop_on_user_error s < 2) then
         match (binder_get_thread proc current_pid s).1 with
         | Val (Some thread) =>
             ∃ th, st_threads s' !! thread = Some th ∧ looper_need_return th = false
         | _ => ret = Some ENOMEM
         end
       else ret = Some ERESTARTSYS ∧ s' = s)).
  unfold binder_ioctl. apply wlp_bind, wlp_binder_wait_user_error.
  2:{ intros Hstop. rewrite bool_decide_eq_false_2 by done. by apply wlp_ret. }
  intros Hstop. rewrite bool_decide_eq_true_2 by done.
  apply wlp_bind. intros [thread|] s1 Hget; rewrite Hget; simpl.
  2:{ apply wlp_bind, wlp_any. intros _ s2. by apply wlp_ret. }
  apply wlp_bind.
  assert (Halive : wlp (binder_ioctl_cmd_switch proc thread cmd arg non_block) s1
                     (λ r _, r.2 = true)).
  { unfold binder_ioctl_cmd_switch.
    destruct (ioctl_of_u32 cmd) as [[| | | |]|]; try done.
    - apply wlp_bind, wlp_any. intros ret s2. by apply wlp_ret.
    - destruct (get_user_u32 arg);
        apply wlp_bind, wlp_any; intros _ s2; by apply wlp_ret.
    - apply wlp_bind, wlp_any. intros ret s2. by apply wlp_ret.
    - case_bool_decide; [by apply wlp_ret|].
      apply wlp_bind, wlp_any. intros fault s2. by apply wlp_ret.
    - by apply wlp_ret. }
  eapply wlp_mono; [exact Halive|]. intros [ret alive] s2 Ha. simpl in Ha. subst alive.
  apply wlp_bind. unfold upd_thread, get_thread, put_thread.
  apply wlp_bind, wlp_deref. intros th Hth. apply wlp_modify.
  apply wlp_bind, wlp_binder_wait_user_error; intros _; apply wlp_ret.
  all: exists (set_looper_need_return false th); kstate; by rewrite lookup_insert_eq.
Qed.

Lemma binder_get_thread_stop proc current_pid :
  preserves binder_stop_on_user_error (binder_get_thread proc current_pid).
Proof. kframe. Qed.

Lemma runs_binder_wait_user_error s :
  binder_stop_on_user_error s < 2 → runs binder_wait_user_error s None s.
Proof.
  intros Hs. unfold runs, binder_wait_user_error, get_state.
  unfold mbind, kernel_bind, kbind. by rewrite bool_decide_eq_true_2.
Qed.

(** X4: BINDER_SET_MAX_THREADS.  The ioctl reads a 32-bit word at [arg],
    makes it the [max_threads] of the process and returns 0; when the
    read faults it returns -EINVAL, and [max_threads] is what the failed
    copy left.  Either way [looper_need_return] of the calling thread
    goes off, and nothing else changes after the lookup of the thread. *)
Theorem binder_ioctl_set_max_threads proc current_pid cmd arg non_block s thread s1 th p :
  ioctl_of_u32 cmd = Some BINDER_SET_MAX_THREADS →
  binder_stop_on_user_error s < 2 →
  binder_get_thread proc current_pid s = (Val (Some thread), s1) →
  st_threads s1 !! thread = Some th → st_procs s1 !! proc = Some p →
  binder_ioctl proc current_pid cmd arg non_block s =
    (Val (match get_user_u32 arg with Some _ => None | None => Some EINVAL end),
     set_st_threads (<[thread := set_looper_need_return false th]> (st_threads s1))
       (set_st_procs
          (<[proc := set_max_threads
                       (s32 (match get_user_u32 arg with
                             | Some v => v
                             | None => copy_from_user_left arg (max_threads p)
                             end)) p]> (st_procs s1)) s1)).
Proof.
  intros Hcmd Hstop Hget Hth Hp.
  assert (Hstop1 : binder_stop_on_user_error s1 < 2).
  { pose proof (binder_get_thread_stop proc current_pid s) as Hfr.
    rewrite Hget in Hfr. simpl in Hfr. by rewrite Hfr. }
  unfold binder_ioctl.
  rewrite (snd_bind_runs _ _ s None s) by by apply runs_binder_wait_user_error.
  cbv beta iota.
  rewrite (snd_bind_runs _ _ s (Some thread) s1 Hget).
  unfold binder_ioctl_cmd_switch. rewrite Hcmd.
  destruct (get_user_u32 arg) as [v|].
  - apply (runs_bind _ _ _ (None, true)
             (set_st_procs (<[proc := set_max_threads (s32 v) p]> (st_procs s1)) s1)).
    { krunh ltac:(first [rewrite Hp]). }
    cbv beta iota. krunh ltac:(first [rewrite Hth | apply runs_binder_wait_user_error]).
    all: first [done | apply runs_ret].
  - apply (runs_bind _ _ _ (Some EINVAL, true)
             (set_st_procs
                (<[proc := set_max_threads (s32 (copy_from_user_left arg (max_threads p))) p]>
                   (st_procs s1)) s1)).
    { krunh ltac:(first [rewrite Hp]). }
    cbv beta iota. krunh ltac:(first [rewrite Hth | apply runs_binder_wait_user_error]).
    all: first [done | apply runs_ret].
Qed.

(** ** [binder_flush] *)

Lemma lookup_flushed_threads l m thread :
  flushed_threads l m !! thread =
    (if bool_decide (thread ∈ l.*2) then set_looper_need_return true else id) <$> m !! thread.
Proof.
  revert m. induction l as [|[pid t] l IH]; intros m.
  { simpl. by destruct (m !! thread). }
  change (flushed_threads ((pid, t) :: l) m)
    with (flushed_threads l (alter (set_looper_need_return true) t m)).
  rewrite fmap_cons. cbn [snd].
  rewrite IH. destruct (decide (t = thread)) as [->|Hne].
  - rewrite lookup_alter_eq.
    rewrite (bool_decide_eq_true_2 (thread ∈ thread :: l.*2)) by apply list_elem_of_here.
    destruct (m !! thread) as [th|]; [|done]. simpl. by case_bool_decide.
  - rewrite lookup_alter_ne by done. destruct (m !! thread) as [th|]; [|done]. simpl.
    rewrite (bool_decide_ext (thread ∈ t :: l.*2) (thread ∈ l.*2)); [done|].
    rewrite elem_of_cons. split; [by intros [->|]|by right].
Qed.

Lemma runs_binder_deferred_flush_threads l :
  ∀ s wake_count,
  (∀ thread, thread ∈ l.*2 → is_Some (st_threads s !! thread)) →
  ∃ n, runs (binder_deferred_flush_threads l wake_count) s n
         (set_st_threads (flushed_threads l (st_threads s)) s).
Proof.
  induction l as [|[pid t] l IH]; intros s n Hl; cbn [binder_deferred_flush_threads].
  { exists n. destruct s. apply runs_ret. }
  destruct (Hl t) as [th Hth]; [apply list_elem_of_here|].
  set (s1 := set_st_threads (<[t := set_looper_need_return true th]> (st_threads s)) s).
  assert (Hrest : ∀ thread, thread ∈ l.*2 → is_Some (st_threads s1 !! thread)).
  { intros thread Hin. unfold s1. kstate. destruct (decide (t = thread)) as [->|Hne].
    - rewrite lookup_insert_eq. by eexists.
    - rewrite lookup_insert_ne by done. apply Hl. by apply list_elem_of_further. }
  assert (Hs1 : set_st_threads (flushed_threads l (st_threads s1)) s1 =
                set_st_threads (flushed_threads ((pid, t) :: l) (st_threads s)) s).
  { unfold s1. destruct s. kstate. simpl in *. do 2 f_equal.
    apply map_eq. intros i. destruct (decide (t = i)) as [->|Hne].
    - by rewrite lookup_insert_eq, lookup_alter_eq, Hth.
    - by rewrite lookup_insert_ne, lookup_alter_ne. }
  destruct (IH s1 n Hrest) as [n1 Hrun1]. destruct (IH s1 (n + 1) Hrest) as [n2 Hrun2].
  rewrite Hs1 in Hrun1, Hrun2.
  exists (if looper_is (set_looper_need_return true th) BINDER_LOOPER_STATE_WAITING
          then n2 else n1).
  eapply runs_bind; [unfold upd_thread, get_thread, put_thread; krunh ltac:(rewrite Hth)|].
  fold s1. eapply runs_bind.
  { apply runs_deref. unfold s1. kstate. apply lookup_insert_eq. }
  destruct (looper_is _ _); [|done].
  eapply runs_bind; [apply runs_ret|]. done.
Qed.

(** X5: [binder_deferred_flush] turns [looper_need_return] on in every
    thread of the process and changes nothing else; after it
    [binder_has_thread_work] is true of each of these threads, so none
    of them stays blocked in a read. *)
Theorem binder_deferred_flush_need_return proc s p :
  st_procs s !! proc = Some p →
  (∀ thread, thread ∈ (proc_threads p).*2 → is_Some (st_threads s !! thread)) →
  ∃ s',
    binder_deferred_flush proc s = (Val tt, s') ∧
    s' = set_st_threads (st_threads s') s ∧
    (∀ thread,
       st_threads s' !! thread =
         (if bool_decide (thread ∈ (proc_threads p).*2)
          then set_looper_need_return true else id) <$> st_threads s !! thread) ∧
    (∀ thread, thread ∈ (proc_threads p).*2 →
       binder_has_thread_work thread s' = (Val true, s')).
Proof.
  intros Hp Hthreads.
  destruct (runs_binder_deferred_flush_threads (proc_threads p) s 0 Hthreads) as [n Hrun].
  eexists. split; [|split; [|split]].
  - unfold binder_deferred_flush.
    eapply runs_bind; [by apply runs_deref|].
    eapply runs_bind; [exact Hrun|]. apply runs_ret.
  - by destruct s.
  - intros thread. kstate. apply lookup_flushed_threads.
  - intros thread Hin. destruct (Hthreads thread Hin) as [th Hth].
    unfold binder_has_thread_work, binder_worklist_empty, binder_worklist_empty_ilocked, get_list.
    eapply runs_bind.
    { apply runs_deref. kstate. rewrite lookup_flushed_threads, Hth, bool_decide_eq_true_2 by done.
      reflexivity. }
    eapply runs_bind.
    { eapply runs_bind; [eapply runs_bind; [|apply runs_ret]|apply runs_ret].
      apply runs_deref. kstate.
      rewrite lookup_flushed_threads, Hth, bool_decide_eq_true_2 by done. reflexivity. }
    cbn. rewrite orb_true_r. apply runs_ret.
Qed.

(** ** Calls that find no target *)

(** X6: a call that finds no target node is turned away: BR_FAILED_REPLY
    with EINVAL for a handle that the calling process does not hold or
    holds only weakly, BR_DEAD_REPLY for handle 0 without a context
    manager.  The error goes on the todo list of the caller; no
    transaction, buffer, node, reference or process is made or changed. *)
Theorem binder_transaction_no_target proc thread tr extra s th err :
  st_threads s !! thread = Some th →
  err_cmd (return_error th) = BR_OK →
  w_entry (err_work (return_error th)) = None →
  call_refused s proc tr = Some err →
  ∃ s' th',
    runs (binder_transaction proc thread tr false extra) s tt s' ∧
    st_threads s' !! thread = Some th' ∧
    err_cmd (return_error th') = err.1 ∧
    thread_todo_list th' = thread_todo_list th ++ [W_return_error thread] ∧
    transaction_stack th' = transaction_stack th ∧
    last (binder_transaction_log_failed s') = Some err ∧
    st_transactions s' = st_transactions s ∧ st_buffers s' = st_buffers s ∧
    st_nodes s' = st_nodes s ∧ st_refs s' = st_refs s ∧ st_procs s' = st_procs s.
Proof.
  intros Hth Hok Hent Hwhy. unfold call_refused in Hwhy.
  destruct (st_procs s !! proc) as [p|] eqn:Hp; simpl in Hwhy; [|done].
  case_bool_decide as Htarget.
  - destruct (rb_search (u32 (tr_target tr)) (refs_by_desc p)) as [ref|] eqn:Href.
    + destruct (st_refs s !! ref) as [r|] eqn:Hr; simpl in Hwhy; [|done].
      case_bool_decide as Hweak; [|done]. injection Hwhy as <-.
      destruct s; simpl in *.
      eexists _, _. split.
      { krunh ltac:(first [ rewrite Href | rewrite bool_decide_eq_true_2 by done
                          | progress unfold binder_transaction, binder_transaction_call_target,
                              binder_get_ref, binder_transaction_failed
                          | progress unfold no_targets
                          | progress cbn [target_thread target_proc target_node in_reply_to]
                          | progress unfold user_error_state
                          | progress simpl ]). }
      simpl. rewrite lookup_insert_eq. split; [reflexivity|]. simpl.
      rewrite last_snoc. done.
    + injection Hwhy as <-. destruct s; simpl in *.
      eexists _, _. split.
      { krunh ltac:(first [ rewrite Href | rewrite bool_decide_eq_true_2 by done
                          | progress unfold binder_transaction, binder_transaction_call_target,
                              binder_get_ref, binder_transaction_failed
                          | progress unfold no_targets
                          | progress cbn [target_thread target_proc target_node in_reply_to]
                          | progress unfold user_error_state
                          | progress simpl ]). }
      simpl. rewrite lookup_insert_eq. split; [reflexivity|]. simpl.
      rewrite last_snoc. done.
  - destruct (st_contexts s !! context p) as [c|] eqn:Hc; simpl in Hwhy; [|done].
    destruct (binder_context_mgr_node c) eqn:Hmgr; [done|]. injection Hwhy as <-.
    destruct s; simpl in *.
    eexists _, _. split.
    { krunh ltac:(first [ rewrite Hmgr | rewrite bool_decide_eq_false_2 by done
                        | progress unfold binder_transaction, binder_transaction_call_target,
                            binder_transaction_failed
                        | progress unfold no_targets
                        | progress cbn [target_thread target_proc target_node in_reply_to]
                        | progress simpl ]). }
    simpl. rewrite lookup_insert_eq. split; [reflexivity|]. simpl.
    rewrite last_snoc. done.
Qed.

(** X7: a call to a handle on a node whose process has died is turned
    away with BR_DEAD_REPLY.  The strong count that the call took on the
    node is given back: the nodes, like the transactions, buffers,
    references and processes, are as before. *)
Theorem binder_transaction_dead_node proc thread tr extra s p th ref r node n :
  st_procs s !! proc = Some p → st_threads s !! thread = Some th →
  err_cmd (return_error th) = BR_OK →
  w_entry (err_work (return_error th)) = None →
  u32 (tr_target tr) ≠ 0 →
  rb_search (u32 (tr_target tr)) (refs_by_desc p) = Some ref →
  st_refs s !! ref = Some r → strong (ref_data r) ≠ 0 → ref_node r = Some node →
  st_nodes s !! node = Some n → node_proc n = None → internal_strong_refs n ≠ 0 →
  ∃ s' th',
    runs (binder_transaction proc thread tr false extra) s tt s' ∧
    st_threads s' !! thread = Some th' ∧
    err_cmd (return_error th') = BR_DEAD_REPLY ∧
    thread_todo_list th' = thread_todo_list th ++ [W_return_error thread] ∧
    transaction_stack th' = transaction_stack th ∧
    last (binder_transaction_log_failed s') = Some (BR_DEAD_REPLY, None) ∧
    st_nodes s' = st_nodes s ∧
    st_transactions s' = st_transactions s ∧ st_buffers s' = st_buffers s ∧
    st_refs s' = st_refs s ∧ st_procs s' = st_procs s.
Proof.
  intros Hp Hth Hok Hent Htarget Href Hr Hstrong Hnode Hn Hdead Hint.
  destruct s; simpl in *.
  eexists _, _. split.
  { krunh ltac:(first [ rewrite Href | rewrite Hnode | rewrite Hdead | rewrite orb_true_r
                      | rewrite bool_decide_eq_true_2 by done
                      | rewrite bool_decide_eq_false_2 by done
                      | progress unfold binder_transaction, binder_transaction_call_target,
                          binder_get_ref, binder_transaction_failed, binder_inc_node,
                          binder_inc_node_nilocked, binder_dec_node, binder_dec_node_nilocked
                      | progress unfold no_targets
                      | progress cbn [target_thread target_proc target_node in_reply_to
                                      set_target_node]
                      | progress simpl ]). }
  simpl. rewrite lookup_insert_eq. split; [reflexivity|]. simpl.
  rewrite last_snoc. split; [done|]. split; [done|]. split; [done|]. split; [done|]. split; [|done].
  rewrite insert_insert_eq. apply insert_id. rewrite Hn. f_equal.
  destruct n; unfold set_local_strong_refs; simpl. f_equal. lia.
Qed.

(** ** Nodes by their address *)

(** X8: a node that [binder_new_node] has made for the address [ptr] is
    the node of the process at [ptr]: [binder_get_node] finds it there,
    taking a temporary reference, and a second [binder_new_node] for the
    same address makes nothing. *)
Theorem binder_new_node_found proc fp s node s' :
  binder_new_node proc fp s = (Val (Some node), s') →
  let ptr := match fp with Some fp => fbo_binder fp | None => 0 end in
  (∃ n, st_nodes s' !! node = Some n ∧ node_ptr n = ptr ∧ node_proc n = Some proc ∧
        tmp_refs n = 1 ∧
        binder_get_node proc ptr s' =
          (Val (Some node),
           set_st_nodes (<[node := set_tmp_refs 2 n]> (st_nodes s')) s')) ∧
  binder_new_node proc fp s' = (Val None, s').
Proof.
  intros Hnew ptr. revert Hnew.
  unfold binder_new_node, binder_get_node, binder_inc_node_tmpref, binder_inc_node_tmpref_ilocked,
    binder_next_id, upd_node, put_node, get_node, kzalloc, upd_proc, get_proc, put_proc,
    deref, modify, get_state.
  unfold mbind, kernel_bind, kbind, mret, kernel_ret, kret. fold ptr.
  destruct (st_procs s !! proc) as [p|] eqn:Hp; [|done].
  destruct (rb_search ptr (proc_nodes p)) as [found|] eqn:Hfound; [done|].
  kstate. destruct (kzalloc_fails _); [done|]. kstate. rewrite Hp.
  intros [= <- <-]. kstate. rewrite !lookup_insert_eq. kstate.
  assert (Hs : rb_search ptr (proc_nodes (set_proc_nodes
                 (rb_insert ptr (st_brk s) (proc_nodes p)) p)) = Some (st_brk s)).
  { destruct p; simpl in *. apply rb_search_insert. by apply rb_search_None. }
  rewrite Hs. split; [|done]. eexists. split; [reflexivity|]. kstate.
  rewrite lookup_insert_eq. done.
Qed.

(** ** Looper threads *)

Lemma wlp_upd_thread_procs thread f s (Q : unit → binder_state → Prop) :
  (∀ s', st_procs s' = st_procs s → st_user s' = st_user s → Q tt s') →
  wlp (upd_thread thread f) s Q.
Proof.
  intros HQ. unfold upd_thread, get_thread, put_thread.
  apply wlp_bind, wlp_deref. intros th Hth. apply wlp_modify. apply HQ; by destruct s.
Qed.

Lemma wlp_binder_user_error_procs msg s (Q : unit → binder_state → Prop) :
  (∀ s', st_procs s' = st_procs s → st_user s' = st_user s → Q tt s') →
  wlp (binder_user_error msg) s Q.
Proof.
  intros HQ. unfold binder_user_error.
  apply wlp_bind, wlp_modify. apply wlp_bind, wlp_get_state.
  case_bool_decide; [apply wlp_modify|apply wlp_ret]; apply HQ; by destruct s.
Qed.

(** X9: the accounting of looper threads.  With at most one spawn
    request out and no negative count of ready threads, a looper command
    leaves at most one request out and the sum of requested and started
    threads as it was: only BC_REGISTER_LOOPER changes them, by turning
    the one request into a started thread.  The end of a read leaves at
    most one request out as well: it asks for a thread, with
    BR_SPAWN_LOOPER at the start of the read buffer, only when none is
    requested or ready and fewer than [max_threads] were started. *)
Theorem looper_request_accounting proc thread s p :
  st_procs s !! proc = Some p →
  0 ≤ requested_threads p ≤ 1 → 0 ≤ ready_threads p →
  (∀ cmd r s', binder_thread_write_looper proc thread cmd s = (Val r, s') →
     ∃ p', st_procs s' !! proc = Some p' ∧ 0 ≤ requested_threads p' ≤ 1 ∧
       requested_threads p' + requested_threads_started p' =
         requested_threads p + requested_threads_started p ∧
       (requested_threads p' ≠ requested_threads p →
          cmd = BC_REGISTER_LOOPER ∧ requested_threads p = 1 ∧ requested_threads p' = 0)) ∧
  (∀ buffer ptr r s', binder_thread_read_done proc thread buffer ptr s = (Val r, s') →
     ∃ p', st_procs s' !! proc = Some p' ∧ 0 ≤ requested_threads p' ≤ 1 ∧
       requested_threads_started p' = requested_threads_started p ∧
       (requested_threads p' ≠ requested_threads p →
          requested_threads p = 0 ∧ requested_threads p' = 1 ∧ ready_threads p = 0 ∧
          requested_threads_started p < max_threads p ∧
          (r.1 = None → st_user s' = st_user s ++ [(buffer, U_cmd BR_SPAWN_LOOPER)]))).
Proof.
  intros Hp Hreq Hready. split.
  - intros cmd.
    change (wlp (binder_thread_write_looper proc thread cmd) s (λ _ s',
      ∃ p', st_procs s' !! proc = Some p' ∧ 0 ≤ requested_threads p' ≤ 1 ∧
        requested_threads p' + requested_threads_started p' =
          requested_threads p + requested_threads_started p ∧
        (requested_threads p' ≠ requested_threads p →
           cmd = BC_REGISTER_LOOPER ∧ requested_threads p = 1 ∧ requested_threads p' = 0))).
    assert (Hsame : ∀ s', st_procs s' = st_procs s →
      ∃ p', st_procs s' !! proc = Some p' ∧ 0 ≤ requested_threads p' ≤ 1 ∧
        requested_threads p' + requested_threads_started p' =
          requested_threads p + requested_threads_started p ∧
        (requested_threads p' ≠ requested_threads p →
           cmd = BC_REGISTER_LOOPER ∧ requested_threads p = 1 ∧ requested_threads p' = 0)).
    { intros s' Hs'. exists p. rewrite Hs'. done. }
    unfold binder_thread_write_looper.
    apply wlp_bind, wlp_deref. intros th Hth.
    apply wlp_bind, wlp_deref. intros p0 Hp0.
    assert (p0 = p) as -> by (unfold get_proc in *; congruence).
    destruct cmd;
      try (apply wlp_upd_thread_procs; intros s1 Hs1 _; by apply Hsame).
    + apply wlp_bind.
      destruct (looper_is th BINDER_LOOPER_STATE_ENTERED).
      { apply wlp_bind, wlp_upd_thread_procs. intros s1 Hs1 _.
        apply wlp_binder_user_error_procs. intros s2 Hs2 _.
        apply wlp_upd_thread_procs. intros s3 Hs3 _. apply Hsame. congruence. }
      case_bool_decide as Hzero.
      { apply wlp_bind, wlp_upd_thread_procs. intros s1 Hs1 _.
        apply wlp_binder_user_error_procs. intros s2 Hs2 _.
        apply wlp_upd_thread_procs. intros s3 Hs3 _. apply Hsame. congruence. }
      unfold upd_proc, get_proc, put_proc.
      apply wlp_bind, wlp_deref. intros p1 Hp1. assert (p1 = p) as -> by congruence.
      apply wlp_modify. apply wlp_upd_thread_procs. intros s3 Hs3 _.
      rewrite Hs3. kstate. rewrite lookup_insert_eq. eexists. split; [done|].
      destruct p; simpl in *. split; [lia|]. split; [lia|]. intros _. split; [done|]. lia.
    + apply wlp_bind.
      destruct (looper_is th BINDER_LOOPER_STATE_REGISTERED).
      { apply wlp_bind, wlp_upd_thread_procs. intros s1 Hs1 _.
        apply wlp_binder_user_error_procs. intros s2 Hs2 _.
        apply wlp_upd_thread_procs. intros s3 Hs3 _. apply Hsame. congruence. }
      apply wlp_ret. apply wlp_upd_thread_procs. intros s3 Hs3 _. by apply Hsame.
  - intros buffer ptr.
    change (wlp (binder_thread_read_done proc thread buffer ptr) s (λ r s',
     ∃ p', st_procs s' !! proc = Some p' ∧ 0 ≤ requested_threads p' ≤ 1 ∧
       requested_threads_started p' = requested_threads_started p ∧
       (requested_threads p' ≠ requested_threads p →
          requested_threads p = 0 ∧ requested_threads p' = 1 ∧ ready_threads p = 0 ∧
          requested_threads_started p < max_threads p ∧
          (r.1 = None → st_user s' = st_user s ++ [(buffer, U_cmd BR_SPAWN_LOOPER)])))).
    unfold binder_thread_read_done.
    apply wlp_bind, wlp_deref. intros p0 Hp0.
    assert (p0 = p) as -> by (unfold get_proc in *; congruence).
    apply wlp_bind, wlp_deref. intros th Hth.
    destruct (_ && _) eqn:Hcond; [|apply wlp_ret; exists p; done].
    apply andb_prop in Hcond as [[Hnone%bool_decide_eq_true Hmax%bool_decide_eq_true]%andb_prop _].
    unfold upd_proc, get_proc, put_proc.
    apply wlp_bind. apply wlp_bind, wlp_deref. intros p1 Hp1. assert (p1 = p) as -> by congruence.
    apply wlp_modify. unfold put_user.
    destruct (put_user_ok buffer).
    + apply wlp_bind. apply wlp_bind, wlp_modify, wlp_ret. apply wlp_ret.
      kstate. rewrite lookup_insert_eq. eexists. split; [done|].
      destruct p; simpl in *. split; [lia|]. split; [done|]. intros _.
      repeat split; try lia; done.
    + apply wlp_bind, wlp_ret. apply wlp_ret.
      kstate. rewrite lookup_insert_eq. eexists. split; [done|].
      destruct p; simpl in *. split; [lia|]. split; [done|]. intros _.
      repeat split; try lia; done.
Qed.

(** ** A read with nothing to do *)

Lemma binder_thread_read_retry_idle fuel proc thread buffer ptr end_ consumed s th p :
  st_threads s !! thread = Some th → st_procs s !! proc = Some p →
  thread_todo_list th = [] → looper_need_return th = false →
  (transaction_stack th = None → proc_todo_list p = []) →
  binder_stop_on_user_error s = 0 →
  ∃ s',
    runs (binder_thread_read_retry (S fuel) proc thread buffer ptr end_ consumed true) s
      (Some EAGAIN, consumed) s' ∧
    st_procs s' = st_procs s ∧
    st_threads s' =
      <[thread := set_looper (Z.land (Z.lor (looper th) BINDER_LOOPER_STATE_WAITING)
                                (Z.lnot BINDER_LOOPER_STATE_WAITING)) th]> (st_threads s) ∧
    st_user s' = st_user s ∧ st_transactions s' = st_transactions s ∧
    st_nodes s' = st_nodes s ∧ st_buffers s' = st_buffers s.
Proof.
  intros Hth Hp Htodo Hret Hproc Hstop.
  assert (Hready : ∀ m : gmap nat binder_proc, m !! proc = Some p →
    <[proc := set_ready_threads (ready_threads p + 1 - 1)
                (set_ready_threads (ready_threads p + 1) p)]>
      (<[proc := set_ready_threads (ready_threads p + 1) p]> m) = m).
  { intros m Hm. rewrite insert_insert_eq. apply insert_id. rewrite Hm. f_equal.
    destruct p; unfold set_ready_threads; simpl. f_equal. lia. }
  destruct (transaction_stack th) as [t|] eqn:Hstack.
  - eexists. split.
    { cbn [binder_thread_read_retry].
      krunh ltac:(first [ rewrite Hth | rewrite Hp | rewrite Htodo | rewrite Hret | rewrite Hstack
                        | progress unfold binder_has_thread_work, looper_or
                        | progress simpl ]). }
    kstate. rewrite insert_insert_eq. done.
  - specialize (Hproc eq_refl).
    destruct (looper_is th (Z.lor BINDER_LOOPER_STATE_REGISTERED BINDER_LOOPER_STATE_ENTERED))
      eqn:Hloop.
    + eexists. split.
      { cbn [binder_thread_read_retry].
        krunh ltac:(first [ rewrite Hth | rewrite Hp | rewrite Htodo | rewrite Hret
                          | rewrite Hstack | rewrite Hproc | rewrite Hloop
                          | progress unfold binder_has_proc_work, looper_or
                          | progress simpl ]). }
      kstate. rewrite Hready by done. rewrite insert_insert_eq. done.
    + eexists. split.
      { cbn [binder_thread_read_retry].
        krunh ltac:(first [ rewrite Hth | rewrite Hp | rewrite Htodo | rewrite Hret
                          | rewrite Hstack | rewrite Hproc | rewrite Hloop
                          | apply runs_binder_wait_user_error;
                            unfold user_error_state; kstate; rewrite Hstop; simpl; lia
                          | progress unfold binder_has_proc_work, looper_or
                          | progress simpl ]). }
      unfold user_error_state. kstate. rewrite Hready by done. rewrite insert_insert_eq. done.
Qed.

(** X10: a read that may not block and finds nothing to do.  The thread
    has an empty todo list and need not return, and when it has no
    transaction on its stack the todo list of the process is empty too:
    the read returns -EAGAIN at once and leaves [*consumed] as it was.
    It has written the BR_NOOP at the start of an unused buffer and
    nothing else to the user; the processes, transactions, nodes and
    buffers are as before, and of the thread only the WAITING bit was
    touched.  In the same state [binder_poll] reports nothing to read. *)
Theorem binder_thread_read_nothing_to_do
    proc thread binder_buffer size consumed current_pid s th p :
  st_threads s !! thread = Some th → st_procs s !! proc = Some p →
  thread_todo_list th = [] → looper_need_return th = false →
  (transaction_stack th = None → proc_todo_list p = []) →
  binder_stop_on_user_error s = 0 →
  put_user_ok binder_buffer = true →
  rb_search current_pid (proc_threads p) = Some thread →
  (∃ s',
     binder_thread_read proc thread binder_buffer size consumed true s =
       (Val (Some EAGAIN, consumed), s') ∧
     st_user s' =
       st_user s ++ (if bool_decide (consumed = 0) then [(binder_buffer, U_cmd BR_NOOP)] else []) ∧
     st_procs s' = st_procs s ∧
     st_threads s' =
       <[thread := set_looper (Z.land (Z.lor (looper th) BINDER_LOOPER_STATE_WAITING)
                                 (Z.lnot BINDER_LOOPER_STATE_WAITING)) th]> (st_threads s) ∧
     st_transactions s' = st_transactions s ∧ st_nodes s' = st_nodes s ∧
     st_buffers s' = st_buffers s) ∧
  binder_poll proc current_pid s = (Val 0, s).
Proof.
  intros Hth Hp Htodo Hret Hproc Hstop Hput Hpid. split.
  - unfold binder_thread_read. case_bool_decide as Hcons.
    + subst consumed. rewrite Z.add_0_r. unfold put_user. rewrite Hput.
      set (s0 := set_st_user (st_user s ++ [(binder_buffer, U_cmd BR_NOOP)]) s).
      destruct (binder_thread_read_retry_idle
                  (S (length (thread_todo_list th) + length (proc_todo_list p)))
                  proc thread binder_buffer (binder_buffer + sizeof_u32)
                  (binder_buffer + size) 0 s0 th p)
        as (s' & Hrun & Hprocs & Hthreads & Huser & Hrest); try done.
      exists s'. split; [|by rewrite Huser].
      eapply runs_bind.
      { eapply runs_bind; [|apply runs_ret].
        eapply runs_bind; [apply runs_modify; reflexivity|apply runs_ret]. }
      cbv beta iota. eapply runs_bind; [apply runs_deref; exact Hth|].
      eapply runs_bind; [apply runs_deref; exact Hp|]. exact Hrun.
    + destruct (binder_thread_read_retry_idle
                  (S (length (thread_todo_list th) + length (proc_todo_list p)))
                  proc thread binder_buffer (binder_buffer + consumed)
                  (binder_buffer + size) consumed s th p)
        as (s' & Hrun & Hprocs & Hthreads & Huser & Hrest); try done.
      exists s'. split; [|by rewrite Huser, app_nil_r].
      eapply runs_bind; [apply runs_ret|].
      cbv beta iota. eapply runs_bind; [apply runs_deref; exact Hth|].
      eapply runs_bind; [apply runs_deref; exact Hp|]. exact Hrun.
  - change (runs (binder_poll proc current_pid) s 0 s). unfold binder_poll, binder_get_thread.
    destruct (transaction_stack th) as [t|] eqn:Hstack.
    + krunh ltac:(first [ rewrite Hth | rewrite Hp | rewrite Htodo | rewrite Hret | rewrite Hstack
                        | rewrite Hpid
                        | progress unfold binder_has_thread_work, poll_wait
                        | progress simpl ]).
      all: first [done | apply runs_ret].
    + specialize (Hproc eq_refl).
      krunh ltac:(first [ rewrite Hth | rewrite Hp | rewrite Htodo | rewrite Hret | rewrite Hstack
                        | rewrite Hpid | rewrite Hproc
                        | progress unfold binder_has_proc_work, poll_wait
                        | progress simpl ]).
      all: first [done | apply runs_ret].
Qed.

(** ** Buffers that may not be freed *)

(** X11: BC_FREE_BUFFER for an address that is the data of no buffer of
    the process, or of a buffer that the driver has not handed to the
    user, frees nothing: the command is consumed and a user error
    logged, and the state is otherwise as before. *)
Theorem binder_thread_write_free_buffer_refused proc thread ptr s data_ptr p :
  get_user_u64 ptr = Some data_ptr → st_procs s !! proc = Some p →
  (∀ buffer b,
     find_buffer (st_buffers s) (u64 (data_ptr - user_buffer_offset p)) (alloc_buffers p)
       = Some buffer →
     st_buffers s !! buffer = Some b → allow_user_free b = false) →
  ∃ msg,
    binder_thread_write_free_buffer proc thread ptr s =
      (Val (inr (ptr + sizeof_binder_uintptr_t)), user_error_state msg s).
Proof.
  intros Hptr Hp Hfree.
  destruct (find_buffer (st_buffers s) (u64 (data_ptr - user_buffer_offset p)) (alloc_buffers p))
    as [buffer|] eqn:Hfind.
  - assert (∃ b, st_buffers s !! buffer = Some b) as [b Hb].
    { clear Hfree. induction (alloc_buffers p) as [|x l IH]; simpl in Hfind; [done|].
      destruct (st_buffers s !! x) as [bx|] eqn:Hx; [|by apply IH].
      destruct (decide _); [|by apply IH]. injection Hfind as <-. by exists bx. }
    specialize (Hfree buffer b eq_refl Hb).
    eexists. unfold binder_thread_write_free_buffer. rewrite Hptr.
    lazymatch goal with |- ?m s = (Val ?a, ?s') => change (runs m s a s') end.
    krunh ltac:(first [ rewrite Hfind | rewrite Hfree
                      | progress unfold binder_alloc_prepare_to_free
                      | progress simpl ]).
    all: first [done | apply runs_ret].
  - eexists. unfold binder_thread_write_free_buffer. rewrite Hptr.
    lazymatch goal with |- ?m s = (Val ?a, ?s') => change (runs m s a s') end.
    krunh ltac:(first [ rewrite Hfind
                      | progress unfold binder_alloc_prepare_to_free
                      | progress simpl ]).
    all: first [done | apply runs_ret].
Qed.

(** ** Failed replies *)

(** X12: the failure of a transaction whose sender still waits for the
    reply goes to that sender.  [binder_send_failed_reply] takes the
    transaction off the stack of the sender, sets the [reply_error] of
    the sender to the error code and puts it at the end of its todo
    list, and frees the transaction; the buffer of the transaction, if
    it has one, does not point to it any more. *)
Theorem binder_send_failed_reply_to_sender t error_code s x from th :
  st_transactions s !! t = Some x → Z.land (t_flags x) TF_ONE_WAY = 0 →
  t_from x = Some from → st_threads s !! from = Some th →
  transaction_stack th = Some t → thread_is_dead th = false →
  err_cmd (reply_error th) = BR_OK → w_entry (err_work (reply_error th)) = None →
  (∀ b, t_buffer x = Some b → is_Some (st_buffers s !! b)) →
  ∃ s' th',
    runs (binder_send_failed_reply t error_code) s tt s' ∧
    st_transactions s' = delete t (st_transactions s) ∧
    st_threads s' = <[from := th']> (st_threads s) ∧
    err_cmd (reply_error th') = error_code ∧
    thread_todo_list th' = thread_todo_list th ++ [W_reply_error from] ∧
    transaction_stack th' = t_from_parent x ∧
    thread_tmp_ref th' = thread_tmp_ref th ∧
    (∀ b, t_buffer x = Some b → b_transaction <$> st_buffers s' !! b = Some None) ∧
    st_procs s' = st_procs s ∧ st_nodes s' = st_nodes s.
Proof.
  intros Hx Hflags Hfrom Hth Hstack Hlive Hok Hent Hbuf.
  destruct (t_buffer x) as [b|] eqn:Hb.
  - destruct (Hbuf b eq_refl) as [bb Hbb].
    eexists _, _. split.
    { unfold binder_send_failed_reply.
      krunh ltac:(first [ rewrite Hflags | rewrite Hfrom | rewrite Hstack | rewrite Hlive
                        | rewrite Hok | rewrite Hent | rewrite Hb
                        | rewrite bool_decide_eq_true_2 by done
                        | rewrite bool_decide_eq_false_2 by done
                        | progress cbn [binder_send_failed_reply_loop]
                        | progress unfold binder_get_txn_from, binder_pop_transaction,
                            binder_thread_dec_tmpref, binder_free_transaction
                        | progress simpl ]). }
    kstate. rewrite !insert_insert_eq, !delete_insert_eq.
    split; [done|]. split; [reflexivity|]. kobj.
    do 4 (split; [first [done | lia]|]). split; [|done].
    intros ? [= <-]. by rewrite lookup_insert_eq.
  - eexists _, _. split.
    { unfold binder_send_failed_reply.
      krunh ltac:(first [ rewrite Hflags | rewrite Hfrom | rewrite Hstack | rewrite Hlive
                        | rewrite Hok | rewrite Hent | rewrite Hb
                        | rewrite bool_decide_eq_true_2 by done
                        | rewrite bool_decide_eq_false_2 by done
                        | progress cbn [binder_send_failed_reply_loop]
                        | progress unfold binder_get_txn_from, binder_pop_transaction,
                            binder_thread_dec_tmpref, binder_free_transaction
                        | progress simpl ]). }
    kstate. rewrite !insert_insert_eq, !delete_insert_eq.
    split; [done|]. split; [reflexivity|]. kobj.
    do 4 (split; [first [done | lia]|]). split; [|done]. by intros ?.
Qed.

(** ** The counts of references *)

Lemma keeps_counts_upd_ref ref f :
  (∀ x, ref_counts_ok x → ref_counts_ok (f x)) → keeps refs_counts_ok (upd_ref ref f).
Proof.
  intros Hf s Hs. unfold upd_ref, get_ref, put_ref, deref, modify.
  unfold mbind, kernel_bind, kbind.
  destruct (st_refs s !! ref) as [x|] eqn:Hx; [|done]. unfold refs_counts_ok in *. kstate.
  apply map_Forall_insert_2; [|done]. apply Hf. by apply (Hs ref).
Qed.

Lemma keeps_counts_put_ref ref x : ref_counts_ok x → keeps refs_counts_ok (put_ref ref x).
Proof.
  intros Hx s Hs. unfold put_ref, modify, refs_counts_ok in *. kstate.
  by apply map_Forall_insert_2.
Qed.

Lemma keeps_counts_kfree_ref ref : keeps refs_counts_ok (kfree_ref ref).
Proof.
  intros s Hs. unfold kfree_ref, modify, refs_counts_ok in *. kstate.
  by apply map_Forall_delete.
Qed.

Lemma keeps_bind_at {A B} P (m : kernel A) (k : A → kernel B) s :
  P (m s).2 → (∀ a, keeps P (k a)) → P ((m ≫= k) s).2.
Proof.
  intros Hm Hk. unfold mbind, kernel_bind, kbind.
  destruct (m s) as [[a| | |] s1]; simpl in *; [|done..]. by apply Hk.
Qed.

Lemma keeps_deref_bind_at {A B} P (heap : binder_state → gmap nat A) p (k : A → kernel B) s :
  P s → (∀ x, heap s !! p = Some x → P (k x s).2) → P ((deref heap p ≫= k) s).2.
Proof.
  intros Hs Hk. unfold mbind, kernel_bind, kbind, deref.
  destruct (heap s !! p) as [x|]; [by apply Hk|done].
Qed.

Ltac kcount_ref :=
  let x := fresh "x" in
  intros x [? ?]; destruct x as [[? ? ? ?] ? ? ?]; unfold ref_counts_ok in *; simpl in *;
  split; lia.

Ltac kcount1 :=
  lazymatch goal with
  | |- keeps _ (_ ≫= _) => apply keeps_bind; [ | intros ? ]
  | |- keeps _ (mret _) => apply keeps_ret
  | |- keeps _ (kret _) => apply keeps_ret
  | |- keeps _ oops => apply keeps_oops
  | |- keeps _ sleeps => apply keeps_sleeps
  | |- keeps _ out_of_fuel => apply keeps_out_of_fuel
  | |- keeps _ get_state => apply keeps_get_state
  | |- keeps _ (deref _ _) => apply keeps_deref
  | |- keeps _ (upd_ref _ _) => apply keeps_counts_upd_ref; kcount_ref
  | |- keeps _ (put_ref _ _) => apply keeps_counts_put_ref; unfold ref_counts_ok; simpl; lia
  | |- keeps _ (kfree_ref _) => apply keeps_counts_kfree_ref
  | |- keeps refs_counts_ok (modify _) =>
      apply keeps_modify; unfold refs_counts_ok; intros ? ?; cbv beta; kstate; assumption
  | |- keeps _ (BUG_ON _) => apply keeps_BUG_ON
  | |- keeps _ (match ?x with _ => _ end) => destruct x
  | |- keeps _ (let '(_, _) := ?x in _) => destruct x
  | |- keeps _ ?m =>
      first [ solve [ auto 1 with kkeep nocore ]
            | let h := khead m in unfold h ]
  end.

Ltac kcount := repeat kcount1.

Lemma keeps_counts_binder_dec_node_nilocked node strong internal :
  keeps refs_counts_ok (binder_dec_node_nilocked node strong internal).
Proof. kcount. Qed.

Lemma keeps_counts_binder_dec_node node strong internal :
  keeps refs_counts_ok (binder_dec_node node strong internal).
Proof. kcount. Qed.

Lemma keeps_counts_binder_inc_node node strong internal target_list :
  keeps refs_counts_ok (binder_inc_node node strong internal target_list).
Proof. kcount. Qed.

Lemma keeps_counts_binder_cleanup_ref ref : keeps refs_counts_ok (binder_cleanup_ref ref).
Proof. kcount. Qed.

Lemma keeps_counts_binder_free_ref ref : keeps refs_counts_ok (binder_free_ref ref).
Proof. kcount. Qed.

Lemma keeps_counts_binder_get_ref proc desc need_strong_ref :
  keeps refs_counts_ok (binder_get_ref proc desc need_strong_ref).
Proof. kcount. Qed.

#[local] Hint Resolve keeps_counts_binder_dec_node keeps_counts_binder_inc_node
  keeps_counts_binder_cleanup_ref keeps_counts_binder_free_ref keeps_counts_binder_get_ref
  keeps_counts_binder_dec_node_nilocked : kkeep.

Lemma binder_inc_node_refs node strong internal target_list :
  preserves st_refs (binder_inc_node node strong internal target_list).
Proof. kframe. Qed.

Lemma s32_small x : - 2 ^ 31 ≤ x < 2 ^ 31 → s32 x = x.
Proof.
  intros Hx. unfold s32, u32. destruct (decide (0 ≤ x)) as [Hpos|Hneg].
  - rewrite Z.mod_small by lia. destruct (decide _); lia.
  - replace (x mod 2 ^ 32) with (x + 2 ^ 32).
    + destruct (decide _); lia.
    + apply (Z.mod_unique_pos _ _ (-1)); lia.
Qed.

Lemma bind_ret_at {A B} (a : A) (k : A → kernel B) s : (mret a ≫= k) s = k a s.
Proof. reflexivity. Qed.

Lemma counts_binder_inc_ref ref is_strong target_list s r :
  refs_counts_ok s → st_refs s !! ref = Some r →
  (if is_strong : bool then strong (ref_data r) else weak (ref_data r)) < 2147483647 →
  refs_counts_ok (binder_inc_ref ref is_strong target_list s).2.
Proof.
  intros Hs Hr Hmax. unfold binder_inc_ref.
  unfold get_ref at 1. apply (keeps_deref_bind_at refs_counts_ok st_refs ref); [done|].
  intros r' Hr'. assert (r' = r) as -> by congruence.
  pose proof (Hs ref r Hr) as [Hstrong Hweak].
  destruct (ref_node r) as [node|]; [|done].
  rewrite bind_ret_at.
  assert (Hup : ∀ s1 f,
            refs_counts_ok s1 → st_refs s1 !! ref = Some r → ref_counts_ok (f r) →
            refs_counts_ok ((upd_ref ref f ≫= λ _, mret (None : option errno)) s1).2).
  { intros s1 f Hs1 Hr1 Hf. unfold upd_ref, get_ref, put_ref, deref, modify.
    unfold mbind, kernel_bind, kbind. rewrite Hr1. unfold refs_counts_ok in *. kstate.
    by apply map_Forall_insert_2. }
  assert (Hnode : ∀ strong internal s1,
            binder_inc_node node strong internal target_list s = (Val None, s1) →
            refs_counts_ok s1 ∧ st_refs s1 !! ref = Some r).
  { intros strong0 internal s1 Hrun. split.
    - pose proof (keeps_counts_binder_inc_node node strong0 internal target_list s Hs) as Hk.
      by rewrite Hrun in Hk.
    - pose proof (binder_inc_node_refs node strong0 internal target_list s) as Hk.
      rewrite Hrun in Hk. simpl in Hk. by rewrite Hk. }
  destruct is_strong.
  - assert (ref_counts_ok (set_ref_data (set_strong (s32 (strong (ref_data r) + 1)) (ref_data r)) r))
      as Hf.
    { rewrite s32_small by lia. destruct r as [[? ? ? ?] ? ? ?]; unfold ref_counts_ok in *;
        simpl in *. lia. }
    case_bool_decide as Hzero.
    + unfold mbind at 1, kernel_bind, kbind.
      destruct (binder_inc_node node true true target_list s) as [[[e|]| | |] s1] eqn:Hrun.
      2:{ destruct (Hnode _ _ _ Hrun) as [Hs1 Hr1]. by apply Hup. }
      all: pose proof (keeps_counts_binder_inc_node node true true target_list s Hs) as Hk;
        by rewrite Hrun in Hk.
    + by apply Hup.
  - assert (ref_counts_ok (set_ref_data (set_weak (s32 (weak (ref_data r) + 1)) (ref_data r)) r))
      as Hf.
    { rewrite s32_small by lia. destruct r as [[? ? ? ?] ? ? ?]; unfold ref_counts_ok in *;
        simpl in *. lia. }
    case_bool_decide as Hzero.
    + unfold mbind at 1, kernel_bind, kbind.
      destruct (binder_inc_node node false true target_list s) as [[[e|]| | |] s1] eqn:Hrun.
      2:{ destruct (Hnode _ _ _ Hrun) as [Hs1 Hr1]. by apply Hup. }
      all: pose proof (keeps_counts_binder_inc_node node false true target_list s Hs) as Hk;
        by rewrite Hrun in Hk.
    + by apply Hup.
Qed.

Lemma keeps_counts_binder_dec_ref ref is_strong :
  keeps refs_counts_ok (binder_dec_ref ref is_strong).
Proof.
  intros s Hs. unfold binder_dec_ref.
  unfold get_ref at 1. apply (keeps_deref_bind_at refs_counts_ok st_refs ref); [done|]. intros r Hr.
  pose proof (Hs ref r Hr) as [Hstrong Hweak].
  assert (Hdec : ∀ f, (strong (ref_data (f r)) = strong (ref_data r) - 1 ∧
                        weak (ref_data (f r)) = weak (ref_data r) ∧ 0 < strong (ref_data r)) ∨
                      (strong (ref_data (f r)) = strong (ref_data r) ∧
                        weak (ref_data (f r)) = weak (ref_data r) - 1 ∧ 0 < weak (ref_data r)) →
                      refs_counts_ok ((upd_ref ref f) s).2).
  { intros f Hf. unfold upd_ref, get_ref, put_ref, deref, modify.
    unfold mbind, kernel_bind, kbind. rewrite Hr. unfold refs_counts_ok in *. kstate.
    apply map_Forall_insert_2; [|done]. unfold ref_counts_ok. lia. }
  apply keeps_bind_at; [|intros bad; kcount].
  destruct is_strong.
  - case_bool_decide as Hzero; [refine ((_ : keeps refs_counts_ok _) s Hs); kcount|].
    apply keeps_bind_at; [|intros ?; kcount].
    apply Hdec. left. destruct r as [[? ? ? ?] ? ? ?]; simpl in *. lia.
  - case_bool_decide as Hzero; [refine ((_ : keeps refs_counts_ok _) s Hs); kcount|].
    apply keeps_bind_at; [|intros ?; kcount].
    apply Hdec. right. destruct r as [[? ? ? ?] ? ? ?]; simpl in *. lia.
Qed.

#[local] Hint Resolve keeps_counts_binder_dec_ref : kkeep.

Lemma keeps_counts_binder_update_ref_for_handle proc desc is_strong :
  keeps refs_counts_ok (binder_update_ref_for_handle proc desc false is_strong).
Proof. unfold binder_update_ref_for_handle. kcount. Qed.

#[local] Hint Resolve keeps_counts_binder_update_ref_for_handle : kkeep.


Lemma keeps_counts_binder_send_failed_reply_loop fuel t error_code :
  keeps refs_counts_ok (binder_send_failed_reply_loop fuel t error_code).
Proof. revert t error_code. induction fuel as [|? IH]; intros; cbn [binder_send_failed_reply_loop]; kcount. Qed.
#[local] Hint Resolve keeps_counts_binder_send_failed_reply_loop : kkeep.

Lemma keeps_counts_binder_send_failed_reply t error_code :
  keeps refs_counts_ok (binder_send_failed_reply t error_code).
Proof. kcount. Qed.
#[local] Hint Resolve keeps_counts_binder_send_failed_reply : kkeep.

Lemma keeps_counts_close_fd_array proc m fd_array n :
  keeps refs_counts_ok (close_fd_array proc m fd_array n).
Proof. revert proc m fd_array. induction n as [|? IH]; intros; cbn [close_fd_array]; kcount. Qed.
#[local] Hint Resolve keeps_counts_close_fd_array : kkeep.

Lemma keeps_counts_binder_transaction_buffer_release_loop proc buffer failed_at n :
  keeps refs_counts_ok (binder_transaction_buffer_release_loop proc buffer failed_at n).
Proof. revert proc buffer failed_at. induction n as [|? IH]; intros; cbn [binder_transaction_buffer_release_loop]; kcount. Qed.
#[local] Hint Resolve keeps_counts_binder_transaction_buffer_release_loop : kkeep.

Lemma keeps_counts_binder_translate_fd_array_loop buffer fd_array t thread in_reply_to fdi n :
  keeps refs_counts_ok (binder_translate_fd_array_loop buffer fd_array t thread in_reply_to fdi n).
Proof. revert buffer fd_array t thread in_reply_to fdi. induction n as [|? IH]; intros; cbn [binder_translate_fd_array_loop]; kcount. Qed.
#[local] Hint Resolve keeps_counts_binder_translate_fd_array_loop : kkeep.

Lemma keeps_counts_binder_transaction_find_thread fuel tmp target_proc :
  keeps refs_counts_ok (binder_transaction_find_thread fuel tmp target_proc).
Proof. revert tmp target_proc. induction fuel as [|? IH]; intros; cbn [binder_transaction_find_thread]; kcount. Qed.
#[local] Hint Resolve keeps_counts_binder_transaction_find_thread : kkeep.

Lemma keeps_counts_binder_find_delivered_death l cookie :
  keeps refs_counts_ok (binder_find_delivered_death l cookie).
Proof. revert cookie. induction l as [|? ? IH]; intros; cbn [binder_find_delivered_death]; kcount. Qed.
#[local] Hint Resolve keeps_counts_binder_find_delivered_death : kkeep.

Lemma keeps_counts_binder_thread_read_loop fuel proc thread buffer ptr end_ wait_for_proc_work :
  keeps refs_counts_ok (binder_thread_read_loop fuel proc thread buffer ptr end_ wait_for_proc_work).
Proof. revert proc thread buffer ptr end_ wait_for_proc_work. induction fuel as [|? IH]; intros; cbn [binder_thread_read_loop]; kcount. Qed.
#[local] Hint Resolve keeps_counts_binder_thread_read_loop : kkeep.

Lemma keeps_counts_binder_thread_read_retry fuel proc thread buffer ptr end_ consumed non_block :
  keeps refs_counts_ok (binder_thread_read_retry fuel proc thread buffer ptr end_ consumed non_block).
Proof. revert proc thread buffer ptr end_ consumed non_block. induction fuel as [|? IH]; intros; cbn [binder_thread_read_retry]; kcount. Qed.
#[local] Hint Resolve keeps_counts_binder_thread_read_retry : kkeep.

Lemma keeps_counts_binder_release_work_loop fuel proc list_ :
  keeps refs_counts_ok (binder_release_work_loop fuel proc list_).
Proof. revert proc list_. induction fuel as [|? IH]; intros; cbn [binder_release_work_loop]; kcount. Qed.
#[local] Hint Resolve keeps_counts_binder_release_work_loop : kkeep.

Lemma keeps_counts_binder_release_work proc list_ :
  keeps refs_counts_ok (binder_release_work proc list_).
Proof. kcount. Qed.
#[local] Hint Resolve keeps_counts_binder_release_work : kkeep.

Lemma keeps_counts_binder_thread_release_loop fuel thread t active_transactions :
  keeps refs_counts_ok (binder_thread_release_loop fuel thread t active_transactions).
Proof. revert thread t active_transactions. induction fuel as [|? IH]; intros; cbn [binder_thread_release_loop]; kcount. Qed.
#[local] Hint Resolve keeps_counts_binder_thread_release_loop : kkeep.

Lemma keeps_counts_binder_thread_release proc thread :
  keeps refs_counts_ok (binder_thread_release proc thread).
Proof. kcount. Qed.
#[local] Hint Resolve keeps_counts_binder_thread_release : kkeep.

Lemma keeps_counts_binder_node_release_refs l refs :
  keeps refs_counts_ok (binder_node_release_refs l refs).
Proof. revert refs. induction l as [|? ? IH]; intros; cbn [binder_node_release_refs]; kcount. Qed.
#[local] Hint Resolve keeps_counts_binder_node_release_refs : kkeep.

Lemma keeps_counts_binder_deferred_release_threads fuel proc :
  keeps refs_counts_ok (binder_deferred_release_threads fuel proc).
Proof. revert proc. induction fuel as [|? IH]; intros; cbn [binder_deferred_release_threads]; kcount. Qed.
#[local] Hint Resolve keeps_counts_binder_deferred_release_threads : kkeep.

Lemma keeps_counts_binder_deferred_release_nodes fuel proc incoming_refs :
  keeps refs_counts_ok (binder_deferred_release_nodes fuel proc incoming_refs).
Proof. revert proc incoming_refs. induction fuel as [|? IH]; intros; cbn [binder_deferred_release_nodes]; kcount. Qed.
#[local] Hint Resolve keeps_counts_binder_deferred_release_nodes : kkeep.

Lemma keeps_counts_binder_deferred_release_refs fuel proc :
  keeps refs_counts_ok (binder_deferred_release_refs fuel proc).
Proof. revert proc. induction fuel as [|? IH]; intros; cbn [binder_deferred_release_refs]; kcount. Qed.
#[local] Hint Resolve keeps_counts_binder_deferred_release_refs : kkeep.

Lemma keeps_counts_binder_deferred_release proc :
  keeps refs_counts_ok (binder_deferred_release proc).
Proof. kcount. Qed.
#[local] Hint Resolve keeps_counts_binder_deferred_release : kkeep.

Lemma keeps_counts_binder_poll proc current_pid :
  keeps refs_counts_ok (binder_poll proc current_pid).
Proof. kcount. Qed.
#[local] Hint Resolve keeps_counts_binder_poll : kkeep.

Lemma keeps_counts_binder_deferred_flush_threads l wake_count :
  keeps refs_counts_ok (binder_deferred_flush_threads l wake_count).
Proof. revert wake_count. induction l as [|? ? IH]; intros; cbn [binder_deferred_flush_threads]; kcount. Qed.
#[local] Hint Resolve keeps_counts_binder_deferred_flush_threads : kkeep.

Lemma keeps_counts_binder_deferred_flush proc : keeps refs_counts_ok (binder_deferred_flush proc).
Proof. kcount. Qed.
#[local] Hint Resolve keeps_counts_binder_deferred_flush : kkeep.

Lemma keeps_counts_binder_thread_write_refs proc thread cmd ptr :
  cmd = BC_RELEASE ∨ cmd = BC_DECREFS →
  keeps refs_counts_ok (binder_thread_write_refs proc thread cmd ptr).
Proof. intros [-> | ->]; unfold binder_thread_write_refs; simpl; kcount. Qed.

Lemma keeps_counts_binder_thread_write_free_buffer proc thread ptr :
  keeps refs_counts_ok (binder_thread_write_free_buffer proc thread ptr).
Proof. kcount. Qed.

Lemma keeps_counts_binder_thread_read proc thread binder_buffer size consumed non_block :
  keeps refs_counts_ok (binder_thread_read proc thread binder_buffer size consumed non_block).
Proof. kcount. Qed.

(** X13: no count of a reference is taken below zero.  When the strong
    and the weak count of every reference are at least 0, they are so
    after [binder_dec_ref], which refuses to take a count of 0 down, and
    so after everything that takes counts down: the commands BC_RELEASE
    and BC_DECREFS, BC_FREE_BUFFER, which releases the references of a
    buffer, a read, and the release of a process.  [binder_inc_ref]
    keeps them so as long as the count it takes up is below INT_MAX,
    where an [int] wraps around. *)
Theorem binder_dec_ref_never_negative s :
  refs_counts_ok s →
  (∀ ref is_strong, refs_counts_ok (binder_dec_ref ref is_strong s).2) ∧
  (∀ proc thread cmd ptr,
     cmd = BC_RELEASE ∨ cmd = BC_DECREFS →
     refs_counts_ok (binder_thread_write_refs proc thread cmd ptr s).2) ∧
  (∀ proc thread ptr, refs_counts_ok (binder_thread_write_free_buffer proc thread ptr s).2) ∧
  (∀ proc thread binder_buffer size consumed non_block,
     refs_counts_ok (binder_thread_read proc thread binder_buffer size consumed non_block s).2) ∧
  (∀ proc, refs_counts_ok (binder_deferred_release proc s).2) ∧
  (∀ ref is_strong target_list r,
     st_refs s !! ref = Some r →
     (if is_strong : bool then strong (ref_data r) else weak (ref_data r)) < 2147483647 →
     refs_counts_ok (binder_inc_ref ref is_strong target_list s).2).
Proof.
  intros Hs. split; [|split; [|split; [|split; [|split]]]]; intros.
  - by apply keeps_counts_binder_dec_ref.
  - by apply keeps_counts_binder_thread_write_refs.
  - by apply keeps_counts_binder_thread_write_free_buffer.
  - by apply keeps_counts_binder_thread_read.
  - by apply keeps_counts_binder_deferred_release.
  - by eapply counts_binder_inc_ref.
Qed.

(** ** The accounting of looper threads *)

Lemma keeps_loopers_upd_proc proc f :
  (∀ x, proc_loopers_ok x → proc_loopers_ok (f x)) → keeps loopers_ok (upd_proc proc f).
Proof.
  intros Hf s Hs. unfold upd_proc, get_proc, put_proc, deref, modify.
  unfold mbind, kernel_bind, kbind.
  destruct (st_procs s !! proc) as [x|] eqn:Hx; [|done]. unfold loopers_ok in *. kstate.
  apply map_Forall_insert_2; [|done]. apply Hf. by apply (Hs proc).
Qed.

Lemma keeps_loopers_kfree_proc proc : keeps loopers_ok (kfree_proc proc).
Proof.
  intros s Hs. unfold kfree_proc, modify, loopers_ok in *. kstate.
  by apply map_Forall_delete.
Qed.

Lemma keeps_loopers_frame {A} (m : kernel A) : preserves st_procs m → keeps loopers_ok m.
Proof. intros Hm s Hs. unfold loopers_ok. by rewrite Hm. Qed.

Ltac kloopers_proc :=
  let x := fresh "x" in
  intros x (? & ? & ?); destruct x; unfold proc_loopers_ok in *; simpl in *;
  (split; [|split]); lia.

Ltac kloopers1 :=
  lazymatch goal with
  | |- keeps _ (_ ≫= _) => apply keeps_bind; [ | intros ? ]
  | |- keeps _ (mret _) => apply keeps_ret
  | |- keeps _ (kret _) => apply keeps_ret
  | |- keeps _ oops => apply keeps_oops
  | |- keeps _ sleeps => apply keeps_sleeps
  | |- keeps _ out_of_fuel => apply keeps_out_of_fuel
  | |- keeps _ get_state => apply keeps_get_state
  | |- keeps _ (deref _ _) => apply keeps_deref
  | |- keeps _ (upd_proc _ _) => apply keeps_loopers_upd_proc; kloopers_proc
  | |- keeps _ (kfree_proc _) => apply keeps_loopers_kfree_proc
  | |- keeps loopers_ok (modify _) =>
      apply keeps_modify; unfold loopers_ok; intros ? ?; cbv beta; kstate; assumption
  | |- keeps _ (BUG_ON _) => apply keeps_BUG_ON
  | |- keeps _ (match ?x with _ => _ end) => destruct x
  | |- keeps _ ?m =>
      first [ solve [ auto 1 with kkeep nocore ]
            | let h := khead m in unfold h ]
  end.

Ltac kloopers := repeat kloopers1.

Lemma inv_bind_at {A B} (P : binder_state → Prop) (m : kernel A) (k : A → kernel B) s :
  (∀ r s', m s = (r, s') → match r with Val a => P (k a s').2 | _ => P s' end) →
  P ((m ≫= k) s).2.
Proof.
  intros Hm. unfold mbind, kernel_bind, kbind. specialize (Hm (m s).1 (m s).2).
  destruct (m s) as [[a| | |] s1]; simpl in *; by apply Hm.
Qed.

Lemma inv_upd_proc_at (P : binder_state → Prop) {B} proc f (k : unit → kernel B) s :
  P s →
  (∀ x, st_procs s !! proc = Some x →
        P (k tt (set_st_procs (<[proc := f x]> (st_procs s)) s)).2) →
  P ((upd_proc proc f ≫= k) s).2.
Proof.
  intros Hs Hk. apply inv_bind_at. intros r s'.
  unfold upd_proc, get_proc, put_proc, deref, modify. unfold mbind, kernel_bind, kbind.
  destruct (st_procs s !! proc) as [x|] eqn:Hx; intros [= <- <-]; [by apply Hk|done].
Qed.

Lemma keeps_loopers_binder_thread_write_looper proc thread cmd :
  keeps loopers_ok (binder_thread_write_looper proc thread cmd).
Proof.
  intros s Hs. unfold binder_thread_write_looper.
  unfold get_thread at 1. apply (keeps_deref_bind_at loopers_ok st_threads thread); [done|].
  intros th Hth. unfold get_proc at 1.
  apply (keeps_deref_bind_at loopers_ok st_procs proc); [done|]. intros p Hp.
  pose proof (Hs proc p Hp) as (Hreq & Hready & Hstarted).
  destruct cmd; try solve [refine ((_ : keeps loopers_ok _) s Hs); kloopers].
  destruct (looper_is th BINDER_LOOPER_STATE_ENTERED);
    [solve [refine ((_ : keeps loopers_ok _) s Hs); kloopers]|].
  case_bool_decide as Hzero; [solve [refine ((_ : keeps loopers_ok _) s Hs); kloopers]|].
  apply inv_upd_proc_at; [done|]. intros x Hx. assert (x = p) as -> by congruence.
  refine ((_ : keeps loopers_ok _) _ _); [kloopers|].
  unfold loopers_ok. kstate. apply map_Forall_insert_2; [|done].
  destruct p; unfold proc_loopers_ok in *; simpl in *. lia.
Qed.

Lemma keeps_loopers_binder_thread_read_done proc thread buffer ptr :
  keeps loopers_ok (binder_thread_read_done proc thread buffer ptr).
Proof.
  intros s Hs. unfold binder_thread_read_done.
  unfold get_proc at 1. apply (keeps_deref_bind_at loopers_ok st_procs proc); [done|].
  intros p Hp. unfold get_thread at 1.
  apply (keeps_deref_bind_at loopers_ok st_threads thread); [done|]. intros th Hth.
  pose proof (Hs proc p Hp) as (Hreq & Hready & Hstarted).
  destruct (_ && _) eqn:Hcond; [|done].
  apply andb_prop in Hcond as [[Hnone%bool_decide_eq_true _]%andb_prop _].
  apply inv_upd_proc_at; [done|]. intros x Hx. assert (x = p) as -> by congruence.
  refine ((_ : keeps loopers_ok _) _ _); [kloopers|].
  unfold loopers_ok. kstate. apply map_Forall_insert_2; [|done].
  destruct p; unfold proc_loopers_ok in *; simpl in *. lia.
Qed.

#[local] Hint Resolve keeps_loopers_binder_thread_write_looper
  keeps_loopers_binder_thread_read_done : kkeep.

Lemma keeps_loopers_binder_user_error msg : keeps loopers_ok (binder_user_error msg).
Proof. kloopers. Qed.
#[local] Hint Resolve keeps_loopers_binder_user_error : kkeep.

Lemma keeps_loopers_binder_set_nice nice : keeps loopers_ok (binder_set_nice nice).
Proof. kloopers. Qed.
#[local] Hint Resolve keeps_loopers_binder_set_nice : kkeep.

Lemma keeps_loopers_binder_send_failed_reply_loop fuel t error_code :
  keeps loopers_ok (binder_send_failed_reply_loop fuel t error_code).
Proof. revert t error_code. induction fuel as [|? IH]; intros; cbn [binder_send_failed_reply_loop]; kloopers. Qed.
#[local] Hint Resolve keeps_loopers_binder_send_failed_reply_loop : kkeep.

Lemma keeps_loopers_binder_send_failed_reply t error_code :
  keeps loopers_ok (binder_send_failed_reply t error_code).
Proof. kloopers. Qed.
#[local] Hint Resolve keeps_loopers_binder_send_failed_reply : kkeep.

Lemma keeps_loopers_close_fd_array proc m fd_array n :
  keeps loopers_ok (close_fd_array proc m fd_array n).
Proof. revert proc m fd_array. induction n as [|? IH]; intros; cbn [close_fd_array]; kloopers. Qed.
#[local] Hint Resolve keeps_loopers_close_fd_array : kkeep.

Lemma keeps_loopers_binder_transaction_buffer_release_loop proc buffer failed_at n :
  keeps loopers_ok (binder_transaction_buffer_release_loop proc buffer failed_at n).
Proof. revert proc buffer failed_at. induction n as [|? IH]; intros; cbn [binder_transaction_buffer_release_loop]; kloopers. Qed.
#[local] Hint Resolve keeps_loopers_binder_transaction_buffer_release_loop : kkeep.

Lemma keeps_loopers_binder_translate_fd_array_loop buffer fd_array t thread in_reply_to fdi n :
  keeps loopers_ok (binder_translate_fd_array_loop buffer fd_array t thread in_reply_to fdi n).
Proof. revert buffer fd_array t thread in_reply_to fdi. induction n as [|? IH]; intros; cbn [binder_translate_fd_array_loop]; kloopers. Qed.
#[local] Hint Resolve keeps_loopers_binder_translate_fd_array_loop : kkeep.

Lemma keeps_loopers_binder_transaction_find_thread fuel tmp target_proc :
  keeps loopers_ok (binder_transaction_find_thread fuel tmp target_proc).
Proof. revert tmp target_proc. induction fuel as [|? IH]; intros; cbn [binder_transaction_find_thread]; kloopers. Qed.
#[local] Hint Resolve keeps_loopers_binder_transaction_find_thread : kkeep.

Lemma keeps_loopers_binder_transaction_objects t thread buffer in_reply_to sg_buf_end index n c :
  keeps loopers_ok (binder_transaction_objects t thread buffer in_reply_to sg_buf_end index n c).
Proof. revert t thread buffer in_reply_to sg_buf_end index c. induction n as [|? IH]; intros; cbn [binder_transaction_objects]; kloopers. Qed.
#[local] Hint Resolve keeps_loopers_binder_transaction_objects : kkeep.

Lemma keeps_loopers_binder_transaction proc thread tr reply extra_buffers_size :
  keeps loopers_ok (binder_transaction proc thread tr reply extra_buffers_size).
Proof. kloopers. Qed.
#[local] Hint Resolve keeps_loopers_binder_transaction : kkeep.

Lemma keeps_loopers_binder_find_delivered_death l cookie :
  keeps loopers_ok (binder_find_delivered_death l cookie).
Proof. revert cookie. induction l as [|? ? IH]; intros; cbn [binder_find_delivered_death]; kloopers. Qed.
#[local] Hint Resolve keeps_loopers_binder_find_delivered_death : kkeep.

Lemma keeps_loopers_binder_thread_write_loop fuel proc thread buffer ptr end_ consumed :
  keeps loopers_ok (binder_thread_write_loop fuel proc thread buffer ptr end_ consumed).
Proof. revert proc thread buffer ptr end_ consumed. induction fuel as [|? IH]; intros; cbn [binder_thread_write_loop]; kloopers. Qed.
#[local] Hint Resolve keeps_loopers_binder_thread_write_loop : kkeep.

Lemma keeps_loopers_binder_has_proc_work proc thread :
  keeps loopers_ok (binder_has_proc_work proc thread).
Proof. kloopers. Qed.
#[local] Hint Resolve keeps_loopers_binder_has_proc_work : kkeep.

Lemma keeps_loopers_binder_has_thread_work thread :
  keeps loopers_ok (binder_has_thread_work thread).
Proof. kloopers. Qed.
#[local] Hint Resolve keeps_loopers_binder_has_thread_work : kkeep.

Lemma keeps_loopers_binder_thread_read_loop fuel proc thread buffer ptr end_ wait_for_proc_work :
  keeps loopers_ok (binder_thread_read_loop fuel proc thread buffer ptr end_ wait_for_proc_work).
Proof. revert proc thread buffer ptr end_ wait_for_proc_work. induction fuel as [|? IH]; intros; cbn [binder_thread_read_loop]; kloopers. Qed.
#[local] Hint Resolve keeps_loopers_binder_thread_read_loop : kkeep.

Lemma keeps_loopers_binder_wait_user_error  : keeps loopers_ok (binder_wait_user_error ).
Proof. kloopers. Qed.
#[local] Hint Resolve keeps_loopers_binder_wait_user_error : kkeep.

Lemma keeps_loopers_binder_release_work_loop fuel proc list_ :
  keeps loopers_ok (binder_release_work_loop fuel proc list_).
Proof. revert proc list_. induction fuel as [|? IH]; intros; cbn [binder_release_work_loop]; kloopers. Qed.
#[local] Hint Resolve keeps_loopers_binder_release_work_loop : kkeep.

Lemma keeps_loopers_binder_release_work proc list_ :
  keeps loopers_ok (binder_release_work proc list_).
Proof. kloopers. Qed.
#[local] Hint Resolve keeps_loopers_binder_release_work : kkeep.

Lemma keeps_loopers_binder_thread_release_loop fuel thread t active_transactions :
  keeps loopers_ok (binder_thread_release_loop fuel thread t active_transactions).
Proof. revert thread t active_transactions. induction fuel as [|? IH]; intros; cbn [binder_thread_release_loop]; kloopers. Qed.
#[local] Hint Resolve keeps_loopers_binder_thread_release_loop : kkeep.

Lemma keeps_loopers_binder_thread_release proc thread :
  keeps loopers_ok (binder_thread_release proc thread).
Proof. kloopers. Qed.
#[local] Hint Resolve keeps_loopers_binder_thread_release : kkeep.

Lemma keeps_loopers_binder_node_release_refs l refs :
  keeps loopers_ok (binder_node_release_refs l refs).
Proof. revert refs. induction l as [|? ? IH]; intros; cbn [binder_node_release_refs]; kloopers. Qed.
#[local] Hint Resolve keeps_loopers_binder_node_release_refs : kkeep.

Lemma keeps_loopers_binder_deferred_release_threads fuel proc :
  keeps loopers_ok (binder_deferred_release_threads fuel proc).
Proof. revert proc. induction fuel as [|? IH]; intros; cbn [binder_deferred_release_threads]; kloopers. Qed.
#[local] Hint Resolve keeps_loopers_binder_deferred_release_threads : kkeep.

Lemma keeps_loopers_binder_deferred_release_nodes fuel proc incoming_refs :
  keeps loopers_ok (binder_deferred_release_nodes fuel proc incoming_refs).
Proof. revert proc incoming_refs. induction fuel as [|? IH]; intros; cbn [binder_deferred_release_nodes]; kloopers. Qed.
#[local] Hint Resolve keeps_loopers_binder_deferred_release_nodes : kkeep.

Lemma keeps_loopers_binder_deferred_release_refs fuel proc :
  keeps loopers_ok (binder_deferred_release_refs fuel proc).
Proof. revert proc. induction fuel as [|? IH]; intros; cbn [binder_deferred_release_refs]; kloopers. Qed.
#[local] Hint Resolve keeps_loopers_binder_deferred_release_refs : kkeep.

Lemma keeps_loopers_binder_deferred_release proc : keeps loopers_ok (binder_deferred_release proc).
Proof. kloopers. Qed.
#[local] Hint Resolve keeps_loopers_binder_deferred_release : kkeep.

Lemma keeps_loopers_binder_poll proc current_pid : keeps loopers_ok (binder_poll proc current_pid).
Proof. kloopers. Qed.
#[local] Hint Resolve keeps_loopers_binder_poll : kkeep.

Lemma keeps_loopers_binder_deferred_flush_threads l wake_count :
  keeps loopers_ok (binder_deferred_flush_threads l wake_count).
Proof. revert wake_count. induction l as [|? ? IH]; intros; cbn [binder_deferred_flush_threads]; kloopers. Qed.
#[local] Hint Resolve keeps_loopers_binder_deferred_flush_threads : kkeep.

Lemma keeps_loopers_binder_deferred_flush proc : keeps loopers_ok (binder_deferred_flush proc).
Proof. kloopers. Qed.
#[local] Hint Resolve keeps_loopers_binder_deferred_flush : kkeep.

Lemma inv_keeps_bind_at {A B} (P : binder_state → Prop) (m : kernel A) (k : A → kernel B) s :
  keeps P m → P s → (∀ a s', P s' → P (k a s').2) → P ((m ≫= k) s).2.
Proof.
  intros Hm Hs Hk. apply inv_bind_at. intros r s' Hrun.
  specialize (Hm s Hs). rewrite Hrun in Hm. destruct r; [by apply Hk|done..].
Qed.

Lemma inv_read_bind_at {A B} (P : binder_state → Prop) (m : kernel A) (k : A → kernel B) s :
  preserves (λ s, s) m → P s → (∀ a, P (k a s).2) → P ((m ≫= k) s).2.
Proof.
  intros Hm Hs Hk. apply inv_bind_at. intros r s' Hrun.
  specialize (Hm s). rewrite Hrun in Hm. simpl in Hm. subst s'. destruct r; [by apply Hk|done..].
Qed.

Lemma loopers_frame_bind_at {A B} (m : kernel A) (k : A → kernel B) s :
  preserves st_procs m → loopers_ok s →
  (∀ a s', st_procs s' = st_procs s → loopers_ok (k a s').2) →
  loopers_ok ((m ≫= k) s).2.
Proof.
  intros Hm Hs Hk. apply inv_bind_at. intros r s' Hrun.
  specialize (Hm s). rewrite Hrun in Hm. simpl in Hm.
  destruct r; [by apply Hk|unfold loopers_ok; by rewrite Hm..].
Qed.

Lemma keeps_loopers_binder_thread_read_retry fuel proc thread buffer ptr end_ consumed non_block :
  keeps loopers_ok
    (binder_thread_read_retry fuel proc thread buffer ptr end_ consumed non_block).
Proof.
  revert ptr. induction fuel as [|fuel IH]; intros ptr; cbn [binder_thread_read_retry];
    [kloopers|].
  intros s Hs. unfold get_thread at 1.
  apply (keeps_deref_bind_at loopers_ok st_threads thread); [done|]. intros th Hth.
  apply inv_read_bind_at; [kframe|done|]. intros empty.
  destruct (bool_decide (transaction_stack th = None) && empty).
  2:{ refine ((_ : keeps loopers_ok _) s Hs). kloopers. }
  apply (inv_keeps_bind_at loopers_ok (upd_thread thread _)); [kloopers|done|]. intros [] s1 Hs1.
  apply inv_upd_proc_at; [done|]. intros p Hp.
  pose proof (Hs1 proc p Hp) as (Hreq & Hready & Hstarted).
  set (s2 := set_st_procs _ s1).
  assert (Hs2 : loopers_ok s2).
  { unfold s2, loopers_ok. kstate. apply map_Forall_insert_2; [|done].
    destruct p; unfold proc_loopers_ok in *; simpl in *. lia. }
  apply loopers_frame_bind_at; [kframe|done|]. intros ret s3 Hs3.
  assert (Hok3 : loopers_ok s3) by (unfold loopers_ok; by rewrite Hs3).
  apply inv_upd_proc_at; [done|]. intros p3 Hp3.
  rewrite Hs3 in Hp3. unfold s2 in Hp3. revert Hp3. kstate. rewrite lookup_insert_eq.
  intros [= <-].
  refine ((_ : keeps loopers_ok _) _ _); [kloopers|].
  unfold loopers_ok. kstate. apply map_Forall_insert_2; [|done].
  destruct p; unfold proc_loopers_ok in *; simpl in *. lia.
Qed.

#[local] Hint Resolve keeps_loopers_binder_thread_read_retry : kkeep.

Lemma keeps_loopers_binder_ioctl proc current_pid cmd arg non_block :
  keeps loopers_ok (binder_ioctl proc current_pid cmd arg non_block).
Proof. kloopers. Qed.
#[local] Hint Resolve keeps_loopers_binder_ioctl : kkeep.

(** X14: the accounting of looper threads holds throughout.  When in
    every process at most one spawn request is out
    ([requested_threads] is 0 or 1) and neither the count of ready
    threads nor that of started threads is negative, this is so after an
    ioctl, whatever its command and arguments and however it ends, and
    after [binder_poll], [binder_deferred_flush] and
    [binder_deferred_release]. *)
Theorem loopers_accounting_kept s :
  loopers_ok s →
  (∀ proc current_pid cmd arg non_block,
     loopers_ok (binder_ioctl proc current_pid cmd arg non_block s).2) ∧
  (∀ proc current_pid, loopers_ok (binder_poll proc current_pid s).2) ∧
  (∀ proc, loopers_ok (binder_deferred_flush proc s).2) ∧
  (∀ proc, loopers_ok (binder_deferred_release proc s).2).
Proof.
  intros Hs. split; [|split; [|split]]; intros.
  - by apply keeps_loopers_binder_ioctl.
  - by apply keeps_loopers_binder_poll.
  - by apply keeps_loopers_binder_deferred_flush.
  - by apply keeps_loopers_binder_deferred_release.
Qed.

(** ** The uid of the context manager *)

Lemma keeps_uid_upd_context c uid c' f :
  (∀ x, binder_context_mgr_uid x = Some uid → binder_context_mgr_uid (f x) = Some uid) →
  keeps (context_mgr_uid_is c uid) (upd_context c' f).
Proof.
  intros Hf s (x & Hx & Huid). unfold upd_context, get_context, put_context, deref, modify.
  unfold mbind, kernel_bind, kbind.
  destruct (st_contexts s !! c') as [x'|] eqn:Hx'; [|by exists x].
  unfold context_mgr_uid_is. cbn [snd]. kstate. destruct (decide (c' = c)) as [->|Hne].
  - rewrite lookup_insert_eq. eexists. split; [done|]. apply Hf. congruence.
  - rewrite lookup_insert_ne by done. by exists x.
Qed.

Lemma keeps_uid_upd_context_ne c uid c' f :
  c' ≠ c → keeps (context_mgr_uid_is c uid) (upd_context c' f).
Proof.
  intros Hne s (x & Hx & Huid). unfold upd_context, get_context, put_context, deref, modify.
  unfold mbind, kernel_bind, kbind.
  destruct (st_contexts s !! c') as [x'|] eqn:Hx'; [|by exists x].
  unfold context_mgr_uid_is. cbn [snd]. kstate. rewrite lookup_insert_ne by done. by exists x.
Qed.

Ltac kuid1 :=
  lazymatch goal with
  | |- keeps _ (_ ≫= _) => apply keeps_bind; [ | intros ? ]
  | |- keeps _ (mret _) => apply keeps_ret
  | |- keeps _ (kret _) => apply keeps_ret
  | |- keeps _ oops => apply keeps_oops
  | |- keeps _ sleeps => apply keeps_sleeps
  | |- keeps _ out_of_fuel => apply keeps_out_of_fuel
  | |- keeps _ get_state => apply keeps_get_state
  | |- keeps _ (deref _ _) => apply keeps_deref
  | |- keeps _ (upd_context _ _) =>
      first [ apply keeps_uid_upd_context_ne; congruence
            | apply keeps_uid_upd_context; let x := fresh "x" in intros x; by destruct x ]
  | |- keeps (context_mgr_uid_is _ _) (modify _) =>
      apply keeps_modify; unfold context_mgr_uid_is; intros ? ?; cbv beta; kstate; assumption
  | |- keeps _ (BUG_ON _) => apply keeps_BUG_ON
  | |- keeps _ (match ?x with _ => _ end) => destruct x
  | |- keeps _ ?m =>
      first [ solve [ auto 1 with kkeep nocore ]
            | let h := khead m in unfold h ]
  end.

Ltac kuid := repeat kuid1.

Lemma keeps_uid_binder_send_failed_reply_loop cx euid fuel t error_code :
  keeps (context_mgr_uid_is cx euid) (binder_send_failed_reply_loop fuel t error_code).
Proof. revert t error_code. induction fuel as [|? IH]; intros; cbn [binder_send_failed_reply_loop]; kuid. Qed.
#[local] Hint Resolve keeps_uid_binder_send_failed_reply_loop : kkeep.

Lemma keeps_uid_binder_send_failed_reply cx euid t error_code :
  keeps (context_mgr_uid_is cx euid) (binder_send_failed_reply t error_code).
Proof. kuid. Qed.
#[local] Hint Resolve keeps_uid_binder_send_failed_reply : kkeep.

Lemma keeps_uid_close_fd_array cx euid proc m fd_array n :
  keeps (context_mgr_uid_is cx euid) (close_fd_array proc m fd_array n).
Proof. revert proc m fd_array. induction n as [|? IH]; intros; cbn [close_fd_array]; kuid. Qed.
#[local] Hint Resolve keeps_uid_close_fd_array : kkeep.

Lemma keeps_uid_binder_transaction_buffer_release_loop cx euid proc buffer failed_at n :
  keeps (context_mgr_uid_is cx euid) (binder_transaction_buffer_release_loop proc buffer failed_at n).
Proof. revert proc buffer failed_at. induction n as [|? IH]; intros; cbn [binder_transaction_buffer_release_loop]; kuid. Qed.
#[local] Hint Resolve keeps_uid_binder_transaction_buffer_release_loop : kkeep.

Lemma keeps_uid_binder_translate_fd_array_loop cx euid buffer fd_array t thread in_reply_to fdi n :
  keeps (context_mgr_uid_is cx euid) (binder_translate_fd_array_loop buffer fd_array t thread in_reply_to fdi n).
Proof. revert buffer fd_array t thread in_reply_to fdi. induction n as [|? IH]; intros; cbn [binder_translate_fd_array_loop]; kuid. Qed.
#[local] Hint Resolve keeps_uid_binder_translate_fd_array_loop : kkeep.

Lemma keeps_uid_binder_transaction_find_thread cx euid fuel tmp target_proc :
  keeps (context_mgr_uid_is cx euid) (binder_transaction_find_thread fuel tmp target_proc).
Proof. revert tmp target_proc. induction fuel as [|? IH]; intros; cbn [binder_transaction_find_thread]; kuid. Qed.
#[local] Hint Resolve keeps_uid_binder_transaction_find_thread : kkeep.

Lemma keeps_uid_binder_transaction_objects cx euid t thread buffer in_reply_to sg_buf_end index n c :
  keeps (context_mgr_uid_is cx euid) (binder_transaction_objects t thread buffer in_reply_to sg_buf_end index n c).
Proof. revert t thread buffer in_reply_to sg_buf_end index c. induction n as [|? IH]; intros; cbn [binder_transaction_objects]; kuid. Qed.
#[local] Hint Resolve keeps_uid_binder_transaction_objects : kkeep.

Lemma keeps_uid_binder_transaction cx euid proc thread tr reply extra_buffers_size :
  keeps (context_mgr_uid_is cx euid) (binder_transaction proc thread tr reply extra_buffers_size).
Proof. kuid. Qed.
#[local] Hint Resolve keeps_uid_binder_transaction : kkeep.

Lemma keeps_uid_binder_find_delivered_death cx euid l cookie :
  keeps (context_mgr_uid_is cx euid) (binder_find_delivered_death l cookie).
Proof. revert cookie. induction l as [|? ? IH]; intros; cbn [binder_find_delivered_death]; kuid. Qed.
#[local] Hint Resolve keeps_uid_binder_find_delivered_death : kkeep.

Lemma keeps_uid_binder_thread_write_loop cx euid fuel proc thread buffer ptr end_ consumed :
  keeps (context_mgr_uid_is cx euid) (binder_thread_write_loop fuel proc thread buffer ptr end_ consumed).
Proof. revert proc thread buffer ptr end_ consumed. induction fuel as [|? IH]; intros; cbn [binder_thread_write_loop]; kuid. Qed.
#[local] Hint Resolve keeps_uid_binder_thread_write_loop : kkeep.

Lemma keeps_uid_binder_thread_read_loop cx euid fuel proc thread buffer ptr end_ wait_for_proc_work :
  keeps (context_mgr_uid_is cx euid) (binder_thread_read_loop fuel proc thread buffer ptr end_ wait_for_proc_work).
Proof. revert proc thread buffer ptr end_ wait_for_proc_work. induction fuel as [|? IH]; intros; cbn [binder_thread_read_loop]; kuid. Qed.
#[local] Hint Resolve keeps_uid_binder_thread_read_loop : kkeep.

Lemma keeps_uid_binder_thread_read_retry cx euid fuel proc thread buffer ptr end_ consumed non_block :
  keeps (context_mgr_uid_is cx euid) (binder_thread_read_retry fuel proc thread buffer ptr end_ consumed non_block).
Proof. revert proc thread buffer ptr end_ consumed non_block. induction fuel as [|? IH]; intros; cbn [binder_thread_read_retry]; kuid. Qed.
#[local] Hint Resolve keeps_uid_binder_thread_read_retry : kkeep.

Lemma keeps_uid_binder_release_work_loop cx euid fuel proc list_ :
  keeps (context_mgr_uid_is cx euid) (binder_release_work_loop fuel proc list_).
Proof. revert proc list_. induction fuel as [|? IH]; intros; cbn [binder_release_work_loop]; kuid. Qed.
#[local] Hint Resolve keeps_uid_binder_release_work_loop : kkeep.

Lemma keeps_uid_binder_release_work cx euid proc list_ :
  keeps (context_mgr_uid_is cx euid) (binder_release_work proc list_).
Proof. kuid. Qed.
#[local] Hint Resolve keeps_uid_binder_release_work : kkeep.

Lemma keeps_uid_binder_thread_release_loop cx euid fuel thread t active_transactions :
  keeps (context_mgr_uid_is cx euid) (binder_thread_release_loop fuel thread t active_transactions).
Proof. revert thread t active_transactions. induction fuel as [|? IH]; intros; cbn [binder_thread_release_loop]; kuid. Qed.
#[local] Hint Resolve keeps_uid_binder_thread_release_loop : kkeep.

Lemma keeps_uid_binder_thread_release cx euid proc thread :
  keeps (context_mgr_uid_is cx euid) (binder_thread_release proc thread).
Proof. kuid. Qed.
#[local] Hint Resolve keeps_uid_binder_thread_release : kkeep.

Lemma keeps_uid_binder_node_release_refs cx euid l refs :
  keeps (context_mgr_uid_is cx euid) (binder_node_release_refs l refs).
Proof. revert refs. induction l as [|? ? IH]; intros; cbn [binder_node_release_refs]; kuid. Qed.
#[local] Hint Resolve keeps_uid_binder_node_release_refs : kkeep.

Lemma keeps_uid_binder_deferred_release_threads cx euid fuel proc :
  keeps (context_mgr_uid_is cx euid) (binder_deferred_release_threads fuel proc).
Proof. revert proc. induction fuel as [|? IH]; intros; cbn [binder_deferred_release_threads]; kuid. Qed.
#[local] Hint Resolve keeps_uid_binder_deferred_release_threads : kkeep.

Lemma keeps_uid_binder_deferred_release_nodes cx euid fuel proc incoming_refs :
  keeps (context_mgr_uid_is cx euid) (binder_deferred_release_nodes fuel proc incoming_refs).
Proof. revert proc incoming_refs. induction fuel as [|? IH]; intros; cbn [binder_deferred_release_nodes]; kuid. Qed.
#[local] Hint Resolve keeps_uid_binder_deferred_release_nodes : kkeep.

Lemma keeps_uid_binder_deferred_release_refs cx euid fuel proc :
  keeps (context_mgr_uid_is cx euid) (binder_deferred_release_refs fuel proc).
Proof. revert proc. induction fuel as [|? IH]; intros; cbn [binder_deferred_release_refs]; kuid. Qed.
#[local] Hint Resolve keeps_uid_binder_deferred_release_refs : kkeep.

Lemma keeps_uid_binder_deferred_release cx euid proc :
  keeps (context_mgr_uid_is cx euid) (binder_deferred_release proc).
Proof. kuid. Qed.
#[local] Hint Resolve keeps_uid_binder_deferred_release : kkeep.

Lemma keeps_uid_binder_poll cx euid proc current_pid :
  keeps (context_mgr_uid_is cx euid) (binder_poll proc current_pid).
Proof. kuid. Qed.
#[local] Hint Resolve keeps_uid_binder_poll : kkeep.

Lemma keeps_uid_binder_deferred_flush_threads cx euid l wake_count :
  keeps (context_mgr_uid_is cx euid) (binder_deferred_flush_threads l wake_count).
Proof. revert wake_count. induction l as [|? ? IH]; intros; cbn [binder_deferred_flush_threads]; kuid. Qed.
#[local] Hint Resolve keeps_uid_binder_deferred_flush_threads : kkeep.

Lemma keeps_uid_binder_deferred_flush cx euid proc :
  keeps (context_mgr_uid_is cx euid) (binder_deferred_flush proc).
Proof. kuid. Qed.
#[local] Hint Resolve keeps_uid_binder_deferred_flush : kkeep.

Lemma keeps_uid_binder_ioctl_set_ctx_mgr cx euid proc :
  keeps (context_mgr_uid_is cx euid) (binder_ioctl_set_ctx_mgr proc).
Proof.
  intros s Hs. unfold binder_ioctl_set_ctx_mgr.
  unfold get_proc at 1.
  apply (keeps_deref_bind_at (context_mgr_uid_is cx euid) st_procs proc); [done|]. intros p Hp.
  unfold get_context at 1.
  apply (keeps_deref_bind_at (context_mgr_uid_is cx euid) st_contexts (context p)); [done|].
  intros x Hx.
  destruct (binder_context_mgr_node x); [refine ((_ : keeps _ _) s Hs); kuid|].
  destruct (security_binder_set_context_mgr (tsk p)); [refine ((_ : keeps _ _) s Hs); kuid|].
  destruct (binder_context_mgr_uid x) as [u|] eqn:Hu; [refine ((_ : keeps _ _) s Hs); kuid|].
  assert (context p ≠ cx).
  { intros Heq. rewrite Heq in Hx. destruct Hs as (x' & Hx' & Hu'). congruence. }
  refine ((_ : keeps _ _) s Hs); kuid.
Qed.

#[local] Hint Resolve keeps_uid_binder_ioctl_set_ctx_mgr : kkeep.

Lemma keeps_uid_binder_ioctl cx euid proc current_pid cmd arg non_block :
  keeps (context_mgr_uid_is cx euid) (binder_ioctl proc current_pid cmd arg non_block).
Proof. kuid. Qed.
#[local] Hint Resolve keeps_uid_binder_ioctl : kkeep.

(** X15: the uid on record for the manager of a context stays.  Once a
    context has a uid for its manager, it has that uid after an ioctl,
    whatever its command and arguments and however it ends, and after
    [binder_poll], [binder_deferred_flush] and the release of a process,
    the manager's too.  A process of that context whose task has another
    euid is then refused as manager with -EPERM, although the slot is
    free and the security hook lets it pass. *)
Theorem context_mgr_uid_kept cx euid s :
  context_mgr_uid_is cx euid s →
  (∀ proc current_pid cmd arg non_block,
     context_mgr_uid_is cx euid (binder_ioctl proc current_pid cmd arg non_block s).2) ∧
  (∀ proc current_pid, context_mgr_uid_is cx euid (binder_poll proc current_pid s).2) ∧
  (∀ proc, context_mgr_uid_is cx euid (binder_deferred_flush proc s).2) ∧
  (∀ proc, context_mgr_uid_is cx euid (binder_deferred_release proc s).2) ∧
  (∀ proc p x,
     st_procs s !! proc = Some p → context p = cx → st_contexts s !! cx = Some x →
     binder_context_mgr_node x = None → security_binder_set_context_mgr (tsk p) = None →
     task_euid (tsk p) ≠ euid →
     binder_ioctl_set_ctx_mgr proc s =
       (Val (Some EPERM), set_st_log (st_log s ++ [Pr_err "BINDER_SET_CONTEXT_MGR bad uid"]) s)).
Proof.
  intros Hs. split; [|split; [|split; [|split]]].
  - intros. by apply keeps_uid_binder_ioctl.
  - intros. by apply keeps_uid_binder_poll.
  - intros. by apply keeps_uid_binder_deferred_flush.
  - intros. by apply keeps_uid_binder_deferred_release.
  - intros proc p x Hp Hctx Hx Hnode Hsec Hne.
    destruct Hs as (x' & Hx' & Huid). assert (x' = x) as -> by congruence.
    rewrite <- Hctx in Hx.
    lazymatch goal with |- ?m s = (Val ?a, ?s') => change (runs m s a s') end.
    unfold binder_ioctl_set_ctx_mgr.
    krunh ltac:(first [ rewrite Huid | rewrite Hnode | rewrite Hsec
                      | rewrite bool_decide_eq_true_2 by congruence
                      | progress simpl ]).
    all: first [done | apply runs_ret].
Qed.

(** ** What a write leaves alone *)

Lemma preserves_write_frame_binder_user_error msg : preserves write_frame (binder_user_error msg).
Proof. kframe. Qed.
#[local] Hint Resolve preserves_write_frame_binder_user_error : kframe.

Lemma preserves_write_frame_binder_send_failed_reply_loop fuel t error_code :
  preserves write_frame (binder_send_failed_reply_loop fuel t error_code).
Proof. revert t error_code. induction fuel as [|? IH]; intros; cbn [binder_send_failed_reply_loop]; kframe. Qed.
#[local] Hint Resolve preserves_write_frame_binder_send_failed_reply_loop : kframe.

Lemma preserves_write_frame_binder_send_failed_reply t error_code :
  preserves write_frame (binder_send_failed_reply t error_code).
Proof. kframe. Qed.
#[local] Hint Resolve preserves_write_frame_binder_send_failed_reply : kframe.

Lemma preserves_write_frame_close_fd_array proc m fd_array n :
  preserves write_frame (close_fd_array proc m fd_array n).
Proof. revert proc m fd_array. induction n as [|? IH]; intros; cbn [close_fd_array]; kframe. Qed.
#[local] Hint Resolve preserves_write_frame_close_fd_array : kframe.

Lemma preserves_write_frame_binder_transaction_buffer_release_loop proc buffer failed_at n :
  preserves write_frame (binder_transaction_buffer_release_loop proc buffer failed_at n).
Proof. revert proc buffer failed_at. induction n as [|? IH]; intros; cbn [binder_transaction_buffer_release_loop]; kframe. Qed.
#[local] Hint Resolve preserves_write_frame_binder_transaction_buffer_release_loop : kframe.

Lemma preserves_write_frame_binder_translate_fd_array_loop buffer fd_array t thread in_reply_to fdi n :
  preserves write_frame (binder_translate_fd_array_loop buffer fd_array t thread in_reply_to fdi n).
Proof. revert buffer fd_array t thread in_reply_to fdi. induction n as [|? IH]; intros; cbn [binder_translate_fd_array_loop]; kframe. Qed.
#[local] Hint Resolve preserves_write_frame_binder_translate_fd_array_loop : kframe.

Lemma preserves_write_frame_binder_transaction_find_thread fuel tmp target_proc :
  preserves write_frame (binder_transaction_find_thread fuel tmp target_proc).
Proof. revert tmp target_proc. induction fuel as [|? IH]; intros; cbn [binder_transaction_find_thread]; kframe. Qed.
#[local] Hint Resolve preserves_write_frame_binder_transaction_find_thread : kframe.

Lemma preserves_write_frame_binder_transaction_objects t thread buffer in_reply_to sg_buf_end index n c :
  preserves write_frame (binder_transaction_objects t thread buffer in_reply_to sg_buf_end index n c).
Proof. revert t thread buffer in_reply_to sg_buf_end index c. induction n as [|? IH]; intros; cbn [binder_transaction_objects]; kframe. Qed.
#[local] Hint Resolve preserves_write_frame_binder_transaction_objects : kframe.

Lemma preserves_write_frame_binder_transaction proc thread tr reply extra_buffers_size :
  preserves write_frame (binder_transaction proc thread tr reply extra_buffers_size).
Proof. kframe. Qed.
#[local] Hint Resolve preserves_write_frame_binder_transaction : kframe.

Lemma preserves_write_frame_binder_find_delivered_death l cookie :
  preserves write_frame (binder_find_delivered_death l cookie).
Proof. revert cookie. induction l as [|? ? IH]; intros; cbn [binder_find_delivered_death]; kframe. Qed.
#[local] Hint Resolve preserves_write_frame_binder_find_delivered_death : kframe.

Lemma preserves_write_frame_binder_thread_write_cmd proc thread cmd ptr :
  preserves write_frame (binder_thread_write_cmd proc thread cmd ptr).
Proof. kframe. Qed.
#[local] Hint Resolve preserves_write_frame_binder_thread_write_cmd : kframe.

Lemma preserves_write_frame_binder_thread_write_loop fuel proc thread buffer ptr end_ consumed :
  preserves write_frame (binder_thread_write_loop fuel proc thread buffer ptr end_ consumed).
Proof. revert proc thread buffer ptr end_ consumed. induction fuel as [|? IH]; intros; cbn [binder_thread_write_loop]; kframe. Qed.
#[local] Hint Resolve preserves_write_frame_binder_thread_write_loop : kframe.

Lemma preserves_write_frame_binder_thread_write proc thread binder_buffer size consumed :
  preserves write_frame (binder_thread_write proc thread binder_buffer size consumed).
Proof. kframe. Qed.
#[local] Hint Resolve preserves_write_frame_binder_thread_write : kframe.

(** X16: the commands of a write store nothing in the memory of the
    user and leave every context, with its manager and the uid of its
    manager, as it is, whatever the commands are and however the write
    ends. *)
Theorem binder_thread_write_frame proc thread binder_buffer size consumed s :
  let s' := (binder_thread_write proc thread binder_buffer size consumed s).2 in
  st_user s' = st_user s ∧ st_contexts s' = st_contexts s.
Proof.
  pose proof (preserves_write_frame_binder_thread_write proc thread binder_buffer size consumed s)
    as Hframe.
  unfold write_frame in Hframe. simpl. by injection Hframe as -> ->.
Qed.

(** ** An object sent out and back *)

(** X17: an object that goes out as a handle comes back as itself.
    Process A sends the strong binder object [fp], for which it has a
    node, to process B, which holds a strong reference on that node with
    the handle [d]: the object arrives as the strong handle [d].  When B
    sends that handle to A, it arrives as [fp], with the address and the
    cookie of the node; the reference of B, whose strong count was below
    INT_MAX, has one more strong count and the node one more local
    strong count. *)
Theorem binder_translate_round_trip fp t1 t2 thread_a thread_b s
    th_a th_b x1 x2 a b pa pb c node n ref r :
  st_threads s !! thread_a = Some th_a → thread_proc th_a = a →
  st_threads s !! thread_b = Some th_b → thread_proc th_b = b →
  st_transactions s !! t1 = Some x1 → t_to_proc x1 = Some b →
  st_transactions s !! t2 = Some x2 → t_to_proc x2 = Some a →
  st_procs s !! a = Some pa → st_procs s !! b = Some pb →
  security_binder_transfer_binder (tsk pa) (tsk pb) = None →
  security_binder_transfer_binder (tsk pb) (tsk pa) = None →
  fbo_type fp = BINDER_TYPE_BINDER →
  rb_search (fbo_binder fp) (proc_nodes pa) = Some node →
  st_nodes s !! node = Some n →
  node_ptr n = fbo_binder fp → node_cookie n = fbo_cookie fp → node_proc n = Some a →
  0 ≤ tmp_refs n → node_refs n ≠ [] →
  refs_by_node pb !! node = Some ref → st_refs s !! ref = Some r →
  ref_node r = Some node → 0 < strong (ref_data r) < 2147483647 →
  rb_search (u32 (desc (ref_data r))) (refs_by_desc pb) = Some ref →
  st_contexts s !! context pb = Some c →
  ∃ fp1 s1 s2,
    runs (binder_translate_binder fp t1 thread_a) s (None, fp1) s1 ∧
    fbo_type fp1 = BINDER_TYPE_HANDLE ∧ fbo_binder fp1 = desc (ref_data r) ∧
    fbo_cookie fp1 = 0 ∧
    runs (binder_translate_handle fp1 t2 thread_b) s1 (None, fp) s2 ∧
    st_procs s2 = st_procs s ∧
    st_refs s2 =
      <[ref := set_ref_data (set_strong (strong (ref_data r) + 1) (ref_data r)) r]> (st_refs s) ∧
    ∃ n2, st_nodes s2 !! node = Some n2 ∧
          local_strong_refs n2 = local_strong_refs n + 1 ∧ tmp_refs n2 = tmp_refs n.
Proof.
  intros Hth_a Ha Hth_b Hb Hx1 Hto1 Hx2 Hto2 Hpa Hpb Hsec_ab Hsec_ba Htype Hnode Hn Hptr Hcookie
    Hown Htmp Hrefs Hby_node Hr Hr_node Hstrong Hby_desc Hc.
  eexists _, _, _. split.
  { unfold binder_translate_binder.
    krunh ltac:(first [ rewrite Ha | rewrite Hto1 | rewrite Hnode | rewrite Hcookie
                      | rewrite Hsec_ab | rewrite Htype | rewrite Hby_node | rewrite Hr_node
                      | rewrite Hptr | rewrite Hown | rewrite orb_true_r
                      | rewrite s32_small by lia
                      | rewrite bool_decide_eq_true_2 by first [done | lia]
                      | rewrite bool_decide_eq_false_2 by first [done | lia]
                      | progress unfold binder_get_node, binder_inc_node_tmpref,
                          binder_inc_node_tmpref_ilocked, binder_inc_ref_for_node,
                          binder_get_ref_for_node, binder_inc_ref, binder_put_node,
                          binder_dec_node_tmpref, binder_dec_node_nilocked, binder_free_node
                      | progress simpl ]).
    all: first [done | apply runs_ret]. }
  split; [done|]. split; [done|]. split; [done|]. split.
  { unfold binder_translate_handle, fbo_handle.
    krunh ltac:(first [ rewrite Hb | rewrite Hto2 | rewrite Hby_desc | rewrite Hr_node
                      | rewrite Hsec_ba | rewrite Htype | rewrite Hown | rewrite orb_true_r
                      | rewrite s32_small by lia
                      | rewrite bool_decide_eq_true_2 by first [done | lia]
                      | rewrite bool_decide_eq_false_2 by first [done | lia]
                      | progress unfold binder_get_node_from_ref, binder_get_ref,
                          binder_inc_node_tmpref, binder_inc_node_tmpref_ilocked,
                          binder_inc_node_nilocked, binder_put_node,
                          binder_dec_node_tmpref, binder_dec_node_nilocked, binder_free_node
                      | progress simpl ]).
    all: try first [done | apply runs_ret].
    assert (set_fbo_cookie (node_cookie n)
              (set_fbo_binder (node_ptr n)
                 (set_fbo_type BINDER_TYPE_BINDER
                    (set_fbo_cookie 0
                       (set_fbo_binder (desc (ref_data r))
                          (set_fbo_type BINDER_TYPE_HANDLE fp))))) = fp) as ->.
    { rewrite Hcookie, Hptr. destruct fp; simpl in *. by subst. }
    apply runs_ret. }
  kstate. split; [done|]. split; [done|].
  rewrite lookup_insert_eq. eexists. split; [done|]. kobj. lia.
Qed.

(** ** What a read leaves alone *)

Lemma preserves_read_frame_binder_user_error msg : preserves read_frame (binder_user_error msg).
Proof. kframe. Qed.
#[local] Hint Resolve preserves_read_frame_binder_user_error : kframe.

Lemma preserves_read_frame_binder_set_nice nice : preserves read_frame (binder_set_nice nice).
Proof. kframe. Qed.
#[local] Hint Resolve preserves_read_frame_binder_set_nice : kframe.

Lemma preserves_read_frame_binder_send_failed_reply_loop fuel t error_code :
  preserves read_frame (binder_send_failed_reply_loop fuel t error_code).
Proof. revert t error_code. induction fuel as [|? IH]; intros; cbn [binder_send_failed_reply_loop]; kframe. Qed.
#[local] Hint Resolve preserves_read_frame_binder_send_failed_reply_loop : kframe.

Lemma preserves_read_frame_binder_send_failed_reply t error_code :
  preserves read_frame (binder_send_failed_reply t error_code).
Proof. kframe. Qed.
#[local] Hint Resolve preserves_read_frame_binder_send_failed_reply : kframe.

Lemma preserves_read_frame_binder_thread_read_work proc thread buffer ptr end_ wait_for_proc_work :
  preserves read_frame (binder_thread_read_work proc thread buffer ptr end_ wait_for_proc_work).
Proof. kframe. Qed.
#[local] Hint Resolve preserves_read_frame_binder_thread_read_work : kframe.

Lemma preserves_read_frame_binder_thread_read_loop fuel proc thread buffer ptr end_ wait_for_proc_work :
  preserves read_frame (binder_thread_read_loop fuel proc thread buffer ptr end_ wait_for_proc_work).
Proof. revert proc thread buffer ptr end_ wait_for_proc_work. induction fuel as [|? IH]; intros; cbn [binder_thread_read_loop]; kframe. Qed.
#[local] Hint Resolve preserves_read_frame_binder_thread_read_loop : kframe.

Lemma preserves_read_frame_binder_thread_read_retry fuel proc thread buffer ptr end_ consumed non_block :
  preserves read_frame (binder_thread_read_retry fuel proc thread buffer ptr end_ consumed non_block).
Proof. revert proc thread buffer ptr end_ consumed non_block. induction fuel as [|? IH]; intros; cbn [binder_thread_read_retry]; kframe. Qed.
#[local] Hint Resolve preserves_read_frame_binder_thread_read_retry : kframe.

Lemma preserves_read_frame_binder_thread_read proc thread binder_buffer size consumed non_block :
  preserves read_frame (binder_thread_read proc thread binder_buffer size consumed non_block).
Proof. kframe. Qed.
#[local] Hint Resolve preserves_read_frame_binder_thread_read : kframe.

(** X18: a read changes no reference, installs and closes no file
    descriptor and leaves every context as it is, whatever work it finds
    and however it ends. *)
Theorem binder_thread_read_frame proc thread binder_buffer size consumed non_block s :
  let s' := (binder_thread_read proc thread binder_buffer size consumed non_block s).2 in
  st_refs s' = st_refs s ∧ st_fds s' = st_fds s ∧ st_contexts s' = st_contexts s.
Proof.
  pose proof (preserves_read_frame_binder_thread_read proc thread binder_buffer size consumed
                non_block s) as Hframe.
  unfold read_frame in Hframe. simpl. by injection Hframe as -> -> ->.
Qed.

(** ** A thread that has exited *)

Lemma keeps_unlisted_upd_proc thread proc f :
  (∀ x, thread ∉ (proc_threads x).*2 → thread ∉ (proc_threads (f x)).*2) →
  keeps (thread_unlisted thread) (upd_proc proc f).
Proof.
  intros Hf s Hs. unfold upd_proc, get_proc, put_proc, deref, modify.
  unfold mbind, kernel_bind, kbind.
  destruct (st_procs s !! proc) as [x|] eqn:Hx; [|done]. unfold thread_unlisted in *.
  cbn [snd]. kstate. apply map_Forall_insert_2; [|done]. apply Hf. by apply (Hs proc).
Qed.

Lemma keeps_unlisted_kfree_proc thread proc : keeps (thread_unlisted thread) (kfree_proc proc).
Proof.
  intros s Hs. unfold kfree_proc, modify, thread_unlisted in *. cbn [snd]. kstate.
  by apply map_Forall_delete.
Qed.

Ltac kunlisted1 :=
  lazymatch goal with
  | |- keeps _ (_ ≫= _) => apply keeps_bind; [ | intros ? ]
  | |- keeps _ (mret _) => apply keeps_ret
  | |- keeps _ (kret _) => apply keeps_ret
  | |- keeps _ oops => apply keeps_oops
  | |- keeps _ sleeps => apply keeps_sleeps
  | |- keeps _ out_of_fuel => apply keeps_out_of_fuel
  | |- keeps _ get_state => apply keeps_get_state
  | |- keeps _ (deref _ _) => apply keeps_deref
  | |- keeps _ (upd_proc _ _) =>
      apply keeps_unlisted_upd_proc; let x := fresh "x" in intros x; by destruct x
  | |- keeps _ (kfree_proc _) => apply keeps_unlisted_kfree_proc
  | |- keeps (thread_unlisted _) (modify _) =>
      apply keeps_modify; unfold thread_unlisted; intros ? ?; cbv beta; kstate; assumption
  | |- keeps _ (BUG_ON _) => apply keeps_BUG_ON
  | |- keeps _ (match ?x with _ => _ end) => destruct x
  | |- keeps _ ?m =>
      first [ solve [ auto 1 with kkeep nocore ]
            | let h := khead m in unfold h ]
  end.

Ltac kunlisted := repeat kunlisted1.

Lemma keeps_unlisted_binder_thread_dec_tmpref gone thread :
  keeps (thread_unlisted gone) (binder_thread_dec_tmpref thread).
Proof. kunlisted. Qed.
#[local] Hint Resolve keeps_unlisted_binder_thread_dec_tmpref : kkeep.

Lemma keeps_unlisted_binder_send_failed_reply_loop gone fuel t error_code :
  keeps (thread_unlisted gone) (binder_send_failed_reply_loop fuel t error_code).
Proof. revert t error_code. induction fuel as [|? IH]; intros; cbn [binder_send_failed_reply_loop]; kunlisted. Qed.
#[local] Hint Resolve keeps_unlisted_binder_send_failed_reply_loop : kkeep.

Lemma keeps_unlisted_binder_send_failed_reply gone t error_code :
  keeps (thread_unlisted gone) (binder_send_failed_reply t error_code).
Proof. kunlisted. Qed.
#[local] Hint Resolve keeps_unlisted_binder_send_failed_reply : kkeep.

Lemma keeps_unlisted_binder_wait_user_error gone  :
  keeps (thread_unlisted gone) (binder_wait_user_error ).
Proof. kunlisted. Qed.
#[local] Hint Resolve keeps_unlisted_binder_wait_user_error : kkeep.

Lemma keeps_unlisted_binder_release_work_loop gone fuel proc list_ :
  keeps (thread_unlisted gone) (binder_release_work_loop fuel proc list_).
Proof. revert proc list_. induction fuel as [|? IH]; intros; cbn [binder_release_work_loop]; kunlisted. Qed.
#[local] Hint Resolve keeps_unlisted_binder_release_work_loop : kkeep.

Lemma keeps_unlisted_binder_release_work gone proc list_ :
  keeps (thread_unlisted gone) (binder_release_work proc list_).
Proof. kunlisted. Qed.
#[local] Hint Resolve keeps_unlisted_binder_release_work : kkeep.

Lemma keeps_unlisted_binder_thread_release_loop gone fuel thread t active_transactions :
  keeps (thread_unlisted gone) (binder_thread_release_loop fuel thread t active_transactions).
Proof. revert thread t active_transactions. induction fuel as [|? IH]; intros; cbn [binder_thread_release_loop]; kunlisted. Qed.
#[local] Hint Resolve keeps_unlisted_binder_thread_release_loop : kkeep.

Lemma binder_thread_release_unlisted proc thread s p th :
  st_procs s !! proc = Some p → st_threads s !! thread = Some th →
  NoDup (proc_threads p).*2 →
  (∀ q pq, q ≠ proc → st_procs s !! q = Some pq → thread ∉ (proc_threads pq).*2) →
  thread_unlisted thread (binder_thread_release proc thread s).2.
Proof.
  intros Hp Hth Hnd Hothers. unfold binder_thread_release.
  set (p1 := set_proc_tmp_ref (proc_tmp_ref p + 1) p).
  set (s1 := set_st_procs (<[proc := p1]> (st_procs s)) s).
  rewrite (snd_bind_runs _ _ s tt s1) by (unfold s1, p1; krunh ltac:(rewrite Hp)).
  set (s2 := set_st_threads
               (<[thread := set_thread_tmp_ref (thread_tmp_ref th + 1) th]> (st_threads s1)) s1).
  rewrite (snd_bind_runs _ _ s1 tt s2) by (unfold s2, s1; krunh ltac:(rewrite Hth)).
  set (s3 := set_st_procs
               (<[proc := set_proc_threads (rb_erase thread (proc_threads p1)) p1]>
                  (st_procs s2)) s2).
  rewrite (snd_bind_runs _ _ s2 tt s3).
  2:{ unfold s3, s2, s1. krunh ltac:(first [rewrite lookup_insert_eq]). }
  refine ((_ : keeps (thread_unlisted thread) _) _ _); [kunlisted|].
  unfold thread_unlisted, s3, s2, s1. kstate. rewrite insert_insert_eq.
  intros q pq. destruct (decide (q = proc)) as [->|Hne].
  - rewrite lookup_insert_eq. intros [= <-]. unfold p1. kobj. by apply rb_erase_unlisted.
  - rewrite lookup_insert_ne by done. by apply Hothers.
Qed.

(** X19: a thread that has exited is gone from its process.  After
    BINDER_THREAD_EXIT from a task whose thread is in the tree of the
    process once, and in the tree of no other process, that thread is in
    the tree of no process, however the release of its transactions and
    of its work goes: the next ioctl of the task cannot find it. *)
Theorem binder_ioctl_thread_exit_unlisted proc current_pid cmd arg non_block s p thread th :
  ioctl_of_u32 cmd = Some BINDER_THREAD_EXIT →
  binder_stop_on_user_error s < 2 →
  st_procs s !! proc = Some p → rb_search current_pid (proc_threads p) = Some thread →
  st_threads s !! thread = Some th →
  NoDup (proc_threads p).*2 →
  (∀ q pq, q ≠ proc → st_procs s !! q = Some pq → thread ∉ (proc_threads pq).*2) →
  thread_unlisted thread (binder_ioctl proc current_pid cmd arg non_block s).2.
Proof.
  intros Hcmd Hstop Hp Hpid Hth Hnd Hothers. unfold binder_ioctl.
  rewrite (snd_bind_runs _ _ s None s) by by apply runs_binder_wait_user_error.
  cbv beta iota.
  rewrite (snd_bind_runs _ _ s (Some thread) s).
  2:{ unfold binder_get_thread. krunh ltac:(first [rewrite Hpid]). }
  unfold binder_ioctl_cmd_switch. rewrite Hcmd.
  apply inv_bind_at. intros r s1 Hrun.
  assert (Hs1 : thread_unlisted thread s1).
  { revert Hrun. unfold mbind, kernel_bind, kbind.
    pose proof (binder_thread_release_unlisted proc thread s p th Hp Hth Hnd Hothers) as Hrel.
    destruct (binder_thread_release proc thread s) as [[a| | |] s']; simpl in *;
      by intros [= <- <-]. }
  destruct r as [[ret alive]| | |]; [|done..].
  refine ((_ : keeps (thread_unlisted thread) _) _ Hs1). kunlisted.
Qed.

(** ** The delivery of an error *)

(** X20: an error that waits on the todo list of a thread is reported
    once.  With the [return_error] of the thread at the head of its todo
    list, a turn of the read loop stores the code of the error at [ptr],
    takes the error off the list and sets its code back to BR_OK, and
    goes on behind the code; the same holds for the [reply_error]. *)
Theorem binder_thread_read_work_error proc thread buffer ptr end_ wait s th p (reply : bool) rest :
  let w := if reply then W_reply_error thread else W_return_error thread in
  let err := if reply then reply_error th else return_error th in
  st_threads s !! thread = Some th → st_procs s !! proc = Some p →
  thread_todo_list th = w :: rest →
  err_work err = Build_binder_work (Some (thread_todo thread)) BINDER_WORK_RETURN_ERROR →
  sizeof_binder_transaction_data + 4 ≤ u64 (end_ - ptr) →
  put_user_ok ptr = true →
  ∃ s' th',
    runs (binder_thread_read_work proc thread buffer ptr end_ wait) s
      (Read_continue (ptr + sizeof_u32)) s' ∧
    st_user s' = st_user s ++ [(ptr, U_cmd (err_cmd err))] ∧
    st_threads s' = <[thread := th']> (st_threads s) ∧
    thread_todo_list th' = rest ∧
    (if reply then reply_error th' else return_error th') =
      Build_binder_error (Build_binder_work None BINDER_WORK_RETURN_ERROR) BR_OK ∧
    (if reply then return_error th' = return_error th else reply_error th' = reply_error th) ∧
    st_procs s' = st_procs s ∧ st_transactions s' = st_transactions s.
Proof.
  intros w err Hth Hp Htodo Hwork Hroom Hput.
  destruct reply; subst w err.
  - eexists _, _. split.
    { unfold binder_thread_read_work.
      krunh ltac:(first [ rewrite Hth | rewrite Hp | rewrite Htodo | rewrite Hwork | rewrite Hput
                        | rewrite bool_decide_eq_true_2 by first [done | lia]
                        | rewrite bool_decide_eq_false_2 by first [done | lia]
                        | rewrite decide_True by done
                        | progress unfold binder_dequeue_work_head_ilocked, list_del_init, put_user
                        | progress simpl ]). }
    kstate. rewrite !insert_insert_eq. split; [done|]. split; [reflexivity|]. kobj.
    done.
  - eexists _, _. split.
    { unfold binder_thread_read_work.
      krunh ltac:(first [ rewrite Hth | rewrite Hp | rewrite Htodo | rewrite Hwork | rewrite Hput
                        | rewrite bool_decide_eq_true_2 by first [done | lia]
                        | rewrite bool_decide_eq_false_2 by first [done | lia]
                        | rewrite decide_True by done
                        | progress unfold binder_dequeue_work_head_ilocked, list_del_init, put_user
                        | progress simpl ]). }
    kstate. rewrite !insert_insert_eq. split; [done|]. split; [reflexivity|]. kobj.
    done.
Qed.

(** ** The answer to BR_ACQUIRE *)

(** X21: BC_ACQUIRE_DONE answers one BR_ACQUIRE.  For a node of the
    process with [pending_strong_ref] set, named by its address and its
    cookie, the command clears [pending_strong_ref] and gives back one
    local strong count, and leaves the rest of the node and of the state
    as it was.  The same command once more is a user error: no request
    is pending, and the node stays as it is. *)
Theorem binder_thread_write_acquire_done proc thread ptr s p node_ptr cookie node n :
  get_user_u64 ptr = Some node_ptr →
  get_user_u64 (ptr + sizeof_binder_uintptr_t) = Some cookie →
  st_procs s !! proc = Some p → rb_search node_ptr (proc_nodes p) = Some node →
  st_nodes s !! node = Some n → node_cookie n = cookie →
  pending_strong_ref n = true →
  internal_strong_refs n ≠ 0 → node_refs n ≠ [] → 0 ≤ tmp_refs n →
  let ptr' := ptr + sizeof_binder_uintptr_t + sizeof_binder_uintptr_t in
  let n' := set_local_strong_refs (local_strong_refs n - 1) (set_pending_strong_ref false n) in
  let s1 := set_st_nodes (<[node := n']> (st_nodes s)) s in
  runs (binder_thread_write_done proc thread BC_ACQUIRE_DONE ptr) s (inr ptr') s1 ∧
  ∃ msg,
    runs (binder_thread_write_done proc thread BC_ACQUIRE_DONE ptr) s1 (inr ptr')
      (user_error_state msg s1).
Proof.
  intros Hptr Hcookie_at Hp Hnode Hn Hcookie Hpending Hint Hrefs Htmp ptr' n' s1.
  assert (Hsame : ∀ m : gmap nat binder_node, ∀ x y : binder_node, x = y →
            <[node := x]> m = <[node := y]> m) by (by intros m x y ->).
  split.
  - unfold binder_thread_write_done. rewrite Hptr, Hcookie_at.
    krunh ltac:(first [ rewrite Hnode | rewrite Hcookie | rewrite Hpending | rewrite orb_true_r
                      | rewrite lookup_insert_eq
                      | rewrite bool_decide_eq_true_2 by first [done | lia]
                      | rewrite bool_decide_eq_false_2 by first [done | lia]
                      | progress unfold binder_get_node, binder_inc_node_tmpref,
                          binder_inc_node_tmpref_ilocked, binder_put_node,
                          binder_dec_node_tmpref, binder_dec_node_nilocked, binder_free_node
                      | progress simpl ]).
    unfold runs, mret, kernel_ret, kret. f_equal. unfold s1, n'. destruct s; kstate.
    f_equal. rewrite !insert_insert_eq. apply Hsame.
    destruct n; unfold set_tmp_refs, set_local_strong_refs, set_pending_strong_ref; simpl.
    f_equal. lia.
  - eexists. unfold binder_thread_write_done. rewrite Hptr, Hcookie_at. unfold s1.
    krunh ltac:(first [ rewrite Hnode | rewrite Hcookie | rewrite Hpending | rewrite orb_true_r
                      | rewrite lookup_insert_eq
                      | rewrite bool_decide_eq_true_2 by first [done | lia]
                      | rewrite bool_decide_eq_false_2 by first [done | lia]
                      | progress unfold binder_get_node, binder_inc_node_tmpref,
                          binder_inc_node_tmpref_ilocked, binder_put_node,
                          binder_dec_node_tmpref, binder_dec_node_nilocked, binder_free_node
                      | progress simpl ]).
    unfold runs, mret, kernel_ret, kret. f_equal. unfold user_error_state, n'. kstate.
    f_equal. rewrite !insert_insert_eq. apply Hsame.
    destruct n; unfold set_tmp_refs, set_local_strong_refs, set_pending_strong_ref; simpl.
    f_equal. lia.
Qed.

(** ** Death notifications *)

(** X22: a reference has one death notification.  On a reference
    without one, to a node that is alive, BC_REQUEST_DEATH_NOTIFICATION
    records a new notification with the cookie given and queues
    nothing.  A second request is a user error and changes nothing, and
    so is BC_CLEAR_DEATH_NOTIFICATION with another cookie.  With the
    cookie of the request, BC_CLEAR_DEATH_NOTIFICATION takes the
    notification off the reference and queues it, as
    BINDER_WORK_CLEAR_DEATH_NOTIFICATION, on the todo list of the thread
    when that is a looper and of the process otherwise. *)
Theorem binder_death_notification_once
    proc thread ptr ptr2 s p th target cookie cookie2 ref r node n :
  get_user_u32 ptr = Some target → get_user_u64 (ptr + sizeof_u32) = Some cookie →
  get_user_u32 ptr2 = Some target → get_user_u64 (ptr2 + sizeof_u32) = Some cookie2 →
  cookie2 ≠ cookie →
  st_procs s !! proc = Some p → st_threads s !! thread = Some th →
  rb_search target (refs_by_desc p) = Some ref →
  st_refs s !! ref = Some r → ref_node r = Some node → ref_death r = None →
  st_nodes s !! node = Some n → is_Some (node_proc n) →
  kzalloc_fails (st_brk s) = false →
  let death := st_brk s in
  let after (ptr : Z) := ptr + sizeof_u32 + sizeof_binder_uintptr_t in
  let s1 :=
    set_st_refs (<[ref := set_ref_death (Some death) r]> (st_refs s))
      (set_st_deaths (<[death := Build_binder_ref_death zero_work cookie]> (st_deaths s))
         (set_st_brk (S (st_brk s)) s)) in
  runs (binder_thread_write_death proc thread BC_REQUEST_DEATH_NOTIFICATION ptr) s
    (inr (after ptr)) s1 ∧
  (∃ msg,
     runs (binder_thread_write_death proc thread BC_REQUEST_DEATH_NOTIFICATION ptr) s1
       (inr (after ptr)) (user_error_state msg s1)) ∧
  (∃ msg,
     runs (binder_thread_write_death proc thread BC_CLEAR_DEATH_NOTIFICATION ptr2) s1
       (inr (after ptr2)) (user_error_state msg s1)) ∧
  ∃ s2 r2 d2,
    runs (binder_thread_write_death proc thread BC_CLEAR_DEATH_NOTIFICATION ptr) s1
      (inr (after ptr)) s2 ∧
    st_refs s2 !! ref = Some r2 ∧ ref_death r2 = None ∧
    st_deaths s2 !! death = Some d2 ∧
    w_type (death_work d2) = BINDER_WORK_CLEAR_DEATH_NOTIFICATION ∧
    if looper_is th (Z.lor BINDER_LOOPER_STATE_REGISTERED BINDER_LOOPER_STATE_ENTERED)
    then w_entry (death_work d2) = Some (thread_todo thread) ∧
         ∃ th2, st_threads s2 !! thread = Some th2 ∧
                thread_todo_list th2 = thread_todo_list th ++ [W_death death]
    else w_entry (death_work d2) = Some (proc_todo proc) ∧
         ∃ p2, st_procs s2 !! proc = Some p2 ∧
               proc_todo_list p2 = proc_todo_list p ++ [W_death death].
Proof.
  intros Hptr Hcookie Hptr2 Hcookie2 Hne Hp Hth Href Hr Hnode Hdeath Hn [owner Hown] Halloc
    death after s1.
  split; [|split; [|split]].
  - unfold binder_thread_write_death. rewrite Hptr, Hcookie. unfold s1, death, after.
    krunh ltac:(first [ rewrite Href | rewrite Hnode | rewrite Hdeath | rewrite Hown
                        | rewrite Halloc | rewrite lookup_insert_eq
                        | rewrite bool_decide_eq_true_2 by first [done | lia]
                        | rewrite bool_decide_eq_false_2 by first [done | lia]
                        | progress unfold binder_get_ref, kzalloc, binder_enqueue_death_work
                        | progress simpl ]).
  - eexists. unfold binder_thread_write_death. rewrite Hptr, Hcookie. unfold s1, death, after.
    krunh ltac:(first [ rewrite Href | rewrite Hnode | rewrite Hdeath | rewrite Hown
                        | rewrite Halloc | rewrite lookup_insert_eq
                        | rewrite bool_decide_eq_true_2 by first [done | lia]
                        | rewrite bool_decide_eq_false_2 by first [done | lia]
                        | progress unfold binder_get_ref, kzalloc, binder_enqueue_death_work
                        | progress simpl ]).
  - eexists. unfold binder_thread_write_death. rewrite Hptr2, Hcookie2. unfold s1, death, after.
    krunh ltac:(first [ rewrite Href | rewrite Hnode | rewrite Hdeath | rewrite Hown
                        | rewrite Halloc | rewrite lookup_insert_eq
                        | rewrite bool_decide_eq_true_2 by first [done | lia]
                        | rewrite bool_decide_eq_false_2 by first [done | lia]
                        | progress unfold binder_get_ref, kzalloc, binder_enqueue_death_work
                        | progress simpl ]).
  - destruct (looper_is th (Z.lor BINDER_LOOPER_STATE_REGISTERED BINDER_LOOPER_STATE_ENTERED))
      eqn:Hloop.
    + eexists _, _, _. split.
      { unfold binder_thread_write_death. rewrite Hptr, Hcookie. unfold s1, death, after.
        krunh ltac:(first [ rewrite Href | rewrite Hnode | rewrite Hdeath | rewrite Hown
                        | rewrite Halloc | rewrite lookup_insert_eq | rewrite Hloop
                        | rewrite bool_decide_eq_true_2 by first [done | lia]
                        | rewrite bool_decide_eq_false_2 by first [done | lia]
                        | progress unfold binder_get_ref, kzalloc, binder_enqueue_death_work
                        | progress simpl ]). }
      kstate. rewrite !lookup_insert_eq. split; [done|]. split; [done|]. split; [done|].
      split; [done|]. split; [done|]. eexists. split; [done|]. done.
    + eexists _, _, _. split.
      { unfold binder_thread_write_death. rewrite Hptr, Hcookie. unfold s1, death, after.
        krunh ltac:(first [ rewrite Href | rewrite Hnode | rewrite Hdeath | rewrite Hown
                        | rewrite Halloc | rewrite lookup_insert_eq | rewrite Hloop
                        | rewrite bool_decide_eq_true_2 by first [done | lia]
                        | rewrite bool_decide_eq_false_2 by first [done | lia]
                        | progress unfold binder_get_ref, kzalloc, binder_enqueue_death_work
                        | progress simpl ]). }
      kstate. rewrite !lookup_insert_eq. split; [done|]. split; [done|]. split; [done|].
      split; [done|]. split; [done|]. eexists. split; [done|]. done.
Qed.

(** ** What the release of a buffer gives back *)

(** X23: the release of a buffer gives back what the delivery of its
    objects took.  For a strong handle in the buffer, on a reference of
    the process with a strong count above 1, the strong count of the
    reference goes down by one; for a strong binder object, of a node of
    the process that others refer to, the local strong count of the node
    goes down by one.  Nothing else changes. *)
Theorem binder_transaction_buffer_release_object_undoes
    proc buffer failed_at index s b offp fp p :
  st_buffers s !! buffer = Some b → b_offsets b !! index = Some offp →
  binder_validate_object b offp ≠ 0 → object_at b offp = Obj_flat fp →
  st_procs s !! proc = Some p →
  (∀ ref r,
     fbo_type fp = BINDER_TYPE_HANDLE →
     rb_search (fbo_handle fp) (refs_by_desc p) = Some ref →
     st_refs s !! ref = Some r → 1 < strong (ref_data r) →
     runs (binder_transaction_buffer_release_object proc buffer failed_at index) s tt
       (set_st_refs
          (<[ref := set_ref_data (set_strong (strong (ref_data r) - 1) (ref_data r)) r]>
             (st_refs s)) s)) ∧
  (∀ node n,
     fbo_type fp = BINDER_TYPE_BINDER →
     rb_search (fbo_binder fp) (proc_nodes p) = Some node →
     st_nodes s !! node = Some n →
     internal_strong_refs n ≠ 0 → node_refs n ≠ [] → 0 ≤ tmp_refs n →
     runs (binder_transaction_buffer_release_object proc buffer failed_at index) s tt
       (set_st_nodes
          (<[node := set_local_strong_refs (local_strong_refs n - 1) n]> (st_nodes s)) s)).
Proof.
  intros Hb Hoff Hvalid Hobj Hp. split.
  - intros ref r Htype Href Hr Hstrong.
    unfold binder_transaction_buffer_release_object.
    krunh ltac:(first [ rewrite Hoff | rewrite Hobj | rewrite Htype | rewrite Href
                      | rewrite lookup_insert_eq
                      | rewrite bool_decide_eq_true_2 by first [done | lia]
                      | rewrite bool_decide_eq_false_2 by first [done | lia]
                      | progress unfold binder_dec_ref_for_handle, binder_update_ref_for_handle,
                          binder_get_ref, binder_dec_ref
                      | progress simpl ]).
  - intros node n Htype Hnode Hn Hint Hrefs Htmp.
    eapply runs_state_eq.
    { unfold binder_transaction_buffer_release_object.
      krunh ltac:(first [ rewrite Hoff | rewrite Hobj | rewrite Htype | rewrite Hnode
                        | rewrite lookup_insert_eq | rewrite orb_true_r
                        | rewrite bool_decide_eq_true_2 by first [done | lia]
                        | rewrite bool_decide_eq_false_2 by first [done | lia]
                        | progress unfold binder_get_node, binder_inc_node_tmpref,
                            binder_inc_node_tmpref_ilocked, binder_put_node, binder_dec_node,
                            binder_dec_node_tmpref, binder_dec_node_nilocked, binder_free_node
                        | progress simpl ]).
      all: first [done | apply runs_ret]. }
    destruct s; kstate. f_equal. rewrite !insert_insert_eq. f_equal.
    destruct n; unfold set_tmp_refs, set_local_strong_refs; simpl. f_equal. lia.
Qed.

(** ** The death of a node *)

(** X24: when the process of a node dies, the holder of a reference
    with a death notification is told.  [binder_node_release] of a node
    with one reference, which has a death notification that is on no
    list, leaves the node without a process and without local counts,
    puts it on the list of dead nodes, and queues the notification, as
    BINDER_WORK_DEAD_BINDER, at the end of the todo list of the process
    that holds the reference; it counts the reference ([refs], an int,
    is below INT_MAX). *)
Theorem binder_node_release_tells_holder node refs s n owner po ref r holder ph death d :
  st_nodes s !! node = Some n → node_proc n = Some owner → st_procs s !! owner = Some po →
  async_todo n = [] → w_entry (node_work n) = None → tmp_refs n = 1 →
  node_refs n = [ref] → st_refs s !! ref = Some r →
  ref_death r = Some death → ref_proc r = Some holder →
  st_deaths s !! death = Some d → w_entry (death_work d) = None →
  st_procs s !! holder = Some ph → refs < 2147483647 →
  ∃ s' n' d' ph',
    runs (binder_node_release node refs) s (refs + 1) s' ∧
    st_nodes s' !! node = Some n' ∧
    node_proc n' = None ∧ local_strong_refs n' = 0 ∧ local_weak_refs n' = 0 ∧
    tmp_refs n' = 0 ∧ node_refs n' = [ref] ∧
    binder_dead_nodes s' = node :: binder_dead_nodes s ∧
    st_deaths s' !! death = Some d' ∧
    death_work d' = Build_binder_work (Some (proc_todo holder)) BINDER_WORK_DEAD_BINDER ∧
    death_cookie d' = death_cookie d ∧
    st_procs s' !! holder = Some ph' ∧
    proc_todo_list ph' = proc_todo_list ph ++ [W_death death] ∧
    st_refs s' = st_refs s.
Proof.
  intros Hn Hown Hpo Hasync Hwork Htmp Hrefs Hr Hdeath Hholder Hd Hunlinked Hph _.
  eexists _, _, _, _. split.
  { unfold binder_node_release.
    krunh ltac:(first [ rewrite Hown | rewrite Hasync | rewrite Hwork | rewrite Htmp
                      | rewrite Hrefs | rewrite Hdeath | rewrite Hholder | rewrite Hunlinked
                      | rewrite lookup_insert_eq | rewrite orb_true_r
                      | rewrite bool_decide_eq_true_2 by first [done | lia]
                      | rewrite bool_decide_eq_false_2 by first [done | lia]
                      | progress cbn [binder_release_work_loop binder_node_release_refs]
                      | progress unfold binder_release_work, binder_dequeue_work_head,
                          binder_dequeue_work_head_ilocked, list_del_init, binder_free_node,
                          binder_put_node, binder_dec_node_tmpref, binder_dec_node_nilocked
                      | progress simpl ]). }
  kstate. rewrite !lookup_insert_eq. kobj.
  do 8 (split; [done|]). split; [by destruct (death_work d)|]. done.
Qed.

(** ** File descriptors that cross *)

Lemma wlp_binder_user_error_heaps msg s (Q : unit → binder_state → Prop) :
  (∀ s', st_fds s' = st_fds s → Q tt s') → wlp (binder_user_error msg) s Q.
Proof.
  intros HQ. unfold binder_user_error.
  apply wlp_bind, wlp_modify. apply wlp_bind, wlp_get_state.
  case_bool_decide; [apply wlp_modify|apply wlp_ret]; apply HQ; by destruct s.
Qed.

(** X25: a file descriptor reaches the target only when the target takes
    file descriptors, the descriptor is open in the sender and the
    security hook lets the file pass.  Whenever [binder_translate_fd]
    comes back with an error, EPERM, EBADF or ENOMEM, no file table has
    changed; when it comes back with a descriptor, that descriptor of
    the target is now the file of the sender's [fd], and no other entry
    of a file table has changed. *)
Theorem binder_translate_fd_only_allowed fd t thread in_reply_to s r s' :
  binder_translate_fd fd t thread in_reply_to s = (Val r, s') →
  match r with
  | inl e => st_fds s' = st_fds s ∧ (e = EPERM ∨ e = EBADF ∨ e = ENOMEM)
  | inr target_fd =>
      ∃ th x target p tp file fs,
        st_threads s !! thread = Some th ∧ st_transactions s !! t = Some x ∧
        t_to_proc x = Some target ∧
        st_procs s !! thread_proc th = Some p ∧ st_procs s !! target = Some tp ∧
        target_accepts_fds s x in_reply_to ∧
        fget (tsk p) fd = Some file ∧
        security_binder_transfer_file (tsk p) (tsk tp) file = None ∧
        files tp = Some fs ∧
        st_fds s' = <[fs := <[target_fd := file]> (default ∅ (st_fds s !! fs))]> (st_fds s)
  end.
Proof.
  revert r s'.
  change (wlp (binder_translate_fd fd t thread in_reply_to) s (λ r s',
    match r with
    | inl e => st_fds s' = st_fds s ∧ (e = EPERM ∨ e = EBADF ∨ e = ENOMEM)
    | inr target_fd =>
        ∃ th x target p tp file fs,
          st_threads s !! thread = Some th ∧ st_transactions s !! t = Some x ∧
          t_to_proc x = Some target ∧
          st_procs s !! thread_proc th = Some p ∧ st_procs s !! target = Some tp ∧
          target_accepts_fds s x in_reply_to ∧
          fget (tsk p) fd = Some file ∧
          security_binder_transfer_file (tsk p) (tsk tp) file = None ∧
          files tp = Some fs ∧
          st_fds s' = <[fs := <[target_fd := file]> (default ∅ (st_fds s !! fs))]> (st_fds s)
    end)).
  unfold binder_translate_fd.
  apply wlp_bind, wlp_deref. intros th Hth.
  apply wlp_bind, wlp_deref. intros x Hx.
  apply wlp_bind, wlp_deref_opt. intros target Htarget.
  apply wlp_bind.
  apply (wlp_mono _ _ (λ allowed s1, s1 = s ∧
           (allowed = true → target_accepts_fds s x in_reply_to))).
  { destruct in_reply_to as [irt|]; simpl.
    - apply wlp_bind, wlp_deref. intros xi Hxi. apply wlp_ret. split; [done|].
      intros Hok%bool_decide_eq_true. by exists xi.
    - apply wlp_bind, wlp_deref_opt. intros buffer Hbuffer.
      apply wlp_bind, wlp_deref. intros b Hb.
      apply wlp_bind, wlp_deref_opt. intros node Hnode.
      apply wlp_bind, wlp_deref. intros n Hn. apply wlp_ret. split; [done|].
      intros Hok. by exists buffer, b, node, n. }
  intros allowed s1 [-> Hallowed].
  destruct allowed; simpl.
  2:{ apply wlp_bind, wlp_binder_user_error_heaps. intros s1 Hs1. apply wlp_ret. auto. }
  apply wlp_bind, wlp_deref. intros p Hp.
  apply wlp_bind, wlp_deref. intros tp Htp.
  destruct (fget (tsk p) fd) as [file|] eqn:Hfile.
  2:{ apply wlp_bind, wlp_binder_user_error_heaps. intros s1 Hs1. apply wlp_ret. auto. }
  case_bool_decide as Hsec; [apply wlp_ret; auto|].
  apply wlp_bind. unfold task_get_unused_fd_flags.
  apply wlp_bind, wlp_deref. intros tp' Htp'. assert (tp' = tp) as -> by congruence.
  destruct (files tp) as [fs|] eqn:Hfs; [|apply wlp_ret, wlp_ret; auto].
  apply wlp_bind, wlp_get_state.
  destruct (__alloc_fd _) as [target_fd|]; [|apply wlp_ret, wlp_ret; auto].
  apply wlp_ret. apply wlp_bind. unfold task_fd_install.
  apply wlp_bind, wlp_deref. intros tp' Htp''. assert (tp' = tp) as -> by congruence.
  rewrite Hfs. apply wlp_modify, wlp_ret.
  exists th, x, target, p, tp, file, fs. kstate.
  split; [done|]. split; [done|]. split; [done|]. split; [done|]. split; [done|].
  split; [by apply Hallowed|]. split; [done|]. split; [|done].
  destruct (security_binder_transfer_file (tsk p) (tsk tp) file) eqn:Hs; [|done].
  exfalso. apply Hsec. by eexists.
Qed.

(** ** The end of a death notification *)

Lemma runs_binder_find_delivered_death pre death post cookie s d :
  Forall (λ w, ∃ o od, w = W_death o ∧ st_deaths s !! o = Some od ∧ death_cookie od ≠ cookie)
    pre →
  st_deaths s !! death = Some d → death_cookie d = cookie →
  runs (binder_find_delivered_death (pre ++ W_death death :: post) cookie) s (Some death) s.
Proof.
  intros Hpre Hd Hcookie. induction Hpre as [|w pre (o & od & -> & Ho & Hne) _ IH]; simpl.
  - eapply runs_bind; [by apply runs_deref|]. rewrite bool_decide_eq_true_2 by done.
    apply runs_ret.
  - eapply runs_bind; [by apply runs_deref|]. by rewrite bool_decide_eq_false_2 by done.
Qed.

Lemma runs_binder_find_delivered_death_none l cookie s :
  Forall (λ w, ∃ o od, w = W_death o ∧ st_deaths s !! o = Some od ∧ death_cookie od ≠ cookie)
    l →
  runs (binder_find_delivered_death l cookie) s None s.
Proof.
  induction 1 as [|w l (o & od & -> & Ho & Hne) _ IH]; simpl; [apply runs_ret|].
  eapply runs_bind; [by apply runs_deref|]. by rewrite bool_decide_eq_false_2 by done.
Qed.

(** X26: BC_DEAD_BINDER_DONE ends the delivery of a death notification.
    With a cookie that no notification on the delivered-death list of
    the process has, it is a user error and changes nothing else.  With
    the cookie of one, it takes the first such notification off the
    list; if that one was cleared while it was out
    (BINDER_WORK_DEAD_BINDER_AND_CLEAR), it becomes
    BINDER_WORK_CLEAR_DEATH_NOTIFICATION at the end of the todo list of
    the thread when that is a looper and of the process otherwise,
    else it is on no list and no todo list changes. *)
Theorem binder_thread_write_dead_binder_done_cookie proc thread ptr s cookie p th :
  get_user_u64 ptr = Some cookie →
  st_procs s !! proc = Some p → st_threads s !! thread = Some th →
  let unlike (w : work_ptr) :=
    ∃ o od, w = W_death o ∧ st_deaths s !! o = Some od ∧ death_cookie od ≠ cookie in
  let after := ptr + sizeof_binder_uintptr_t in
  (Forall unlike (delivered_death p) →
   ∃ msg, runs (binder_thread_write_dead_binder_done proc thread ptr) s (inr after)
            (user_error_state msg s)) ∧
  (∀ pre death post d,
     delivered_death p = pre ++ W_death death :: post → Forall unlike pre →
     st_deaths s !! death = Some d → death_cookie d = cookie →
     w_entry (death_work d) = Some (proc_delivered_death proc) →
     ∃ s' p' th' d',
       runs (binder_thread_write_dead_binder_done proc thread ptr) s (inr after) s' ∧
       st_procs s' !! proc = Some p' ∧ st_threads s' !! thread = Some th' ∧
       st_deaths s' !! death = Some d' ∧ death_cookie d' = cookie ∧
       delivered_death p' = remove_work (W_death death) (delivered_death p) ∧
       if bool_decide (w_type (death_work d) = BINDER_WORK_DEAD_BINDER_AND_CLEAR) then
         w_type (death_work d') = BINDER_WORK_CLEAR_DEATH_NOTIFICATION ∧
         if looper_is th (Z.lor BINDER_LOOPER_STATE_REGISTERED BINDER_LOOPER_STATE_ENTERED)
         then w_entry (death_work d') = Some (thread_todo thread) ∧
              thread_todo_list th' = thread_todo_list th ++ [W_death death] ∧
              proc_todo_list p' = proc_todo_list p
         else w_entry (death_work d') = Some (proc_todo proc) ∧
              proc_todo_list p' = proc_todo_list p ++ [W_death death] ∧
              thread_todo_list th' = thread_todo_list th
       else
         death_work d' = set_w_entry None (death_work d) ∧
         proc_todo_list p' = proc_todo_list p ∧ thread_todo_list th' = thread_todo_list th).
Proof.
  intros Hcookie Hp Hth unlike after. split.
  - intros Hall. eexists. unfold binder_thread_write_dead_binder_done. rewrite Hcookie.
    eapply runs_bind; [by apply runs_deref|].
    eapply runs_bind; [by apply runs_binder_find_delivered_death_none|].
    eapply runs_bind; [apply runs_binder_user_error|]. apply runs_ret.
  - intros pre death post d Hlist Hpre Hd Hsame Hon.
    unfold binder_thread_write_dead_binder_done. rewrite Hcookie.
    case_bool_decide as Htype;
      [destruct (looper_is th _) eqn:Hlooper|].
    all: eexists _, _, _, _; split;
      [ eapply runs_bind; [by apply runs_deref|]; cbv beta; rewrite Hlist;
        eapply runs_bind; [by eapply runs_binder_find_delivered_death|]; cbv beta;
        rewrite <- ?Hlist;
        krunh ltac:(first [ rewrite Hon | rewrite Htype | rewrite Hlooper
                           | rewrite lookup_insert_eq
                           | rewrite bool_decide_eq_true_2 by first [done | lia]
                           | rewrite bool_decide_eq_false_2 by first [done | lia]
                           | progress unfold binder_dequeue_work_ilocked, list_del_init,
                               binder_enqueue_death_work, binder_enqueue_work_ilocked,
                               list_add_tail, wake_up_interruptible
                           | progress simpl ]) | ].
    all: kstate; rewrite ?lookup_insert_eq; kobj.
    all: do 3 (split; [first [reflexivity | eassumption]|]).
    all: destruct p, th, d as [[] ?]; simpl in *; repeat split; done.
Qed.

(** ** Descriptors of an array that does not get through *)

Lemma store_bytes_lookup_other n : ∀ a v m k,
  k < a ∨ a + Z.of_nat n ≤ k → store_bytes n a v m !! k = m !! k.
Proof.
  induction n as [|n IH]; intros a v m k Hk; cbn [store_bytes]; [done|].
  rewrite IH by lia. apply lookup_insert_ne. lia.
Qed.

Lemma load_bytes_ext n : ∀ m m' a,
  (∀ k, a ≤ k < a + Z.of_nat n → m !! k = m' !! k) → load_bytes n m a = load_bytes n m' a.
Proof.
  induction n as [|n IH]; intros m m' a Hk; cbn [load_bytes]; [done|].
  unfold load_byte. rewrite (Hk a) by lia. f_equal. f_equal. apply IH. intros k ?. apply Hk. lia.
Qed.

Lemma load_store_bytes n : ∀ a v m,
  load_bytes n (store_bytes n a v m) a = v mod 2 ^ (8 * Z.of_nat n).
Proof.
  induction n as [|n IH]; intros a v m; cbn [load_bytes store_bytes].
  - simpl. by rewrite Z.mod_1_r.
  - rewrite IH. unfold load_byte. rewrite store_bytes_lookup_other by lia.
    rewrite lookup_insert_eq. simpl.
    replace (8 * Z.of_nat (S n)) with (8 + 8 * Z.of_nat n) by lia.
    rewrite Z.pow_add_r by lia. rewrite Z.rem_mul_r by lia. done.
Qed.

Lemma load_u32_store_u32 a v m : 0 ≤ v < 2 ^ 32 → load_u32 (store_u32 a v m) a = v.
Proof.
  intros Hv. unfold load_u32, store_u32. rewrite load_store_bytes.
  change (8 * Z.of_nat 4) with 32. by apply Z.mod_small.
Qed.

Lemma load_u32_store_u32_other a a' v m :
  a' + 4 ≤ a ∨ a + 4 ≤ a' → load_u32 (store_u32 a v m) a' = load_u32 m a'.
Proof.
  intros Ha. unfold load_u32, store_u32. apply load_bytes_ext. intros k Hk.
  apply store_bytes_lookup_other. lia.
Qed.

Lemma fd_slot_apart fd_array i j :
  0 ≤ i → 0 ≤ j → i ≠ j → 4 * i < 2 ^ 64 → 4 * j < 2 ^ 64 →
  fd_slot fd_array i + 4 ≤ fd_slot fd_array j ∨ fd_slot fd_array j + 4 ≤ fd_slot fd_array i.
Proof.
  intros Hi Hj Hne Hi' Hj'. unfold fd_slot, u64, sizeof_u32.
  pose proof (Z.div_mod (fd_array + 4 * i) (2 ^ 64) ltac:(lia)) as Ei.
  pose proof (Z.div_mod (fd_array + 4 * j) (2 ^ 64) ltac:(lia)) as Ej.
  pose proof (Z.mod_pos_bound (fd_array + 4 * i) (2 ^ 64) ltac:(lia)) as Bi.
  pose proof (Z.mod_pos_bound (fd_array + 4 * j) (2 ^ 64) ltac:(lia)) as Bj.
  set (qi := (fd_array + 4 * i) / 2 ^ 64) in *. set (qj := (fd_array + 4 * j) / 2 ^ 64) in *.
  set (ri := (fd_array + 4 * i) mod 2 ^ 64) in *. set (rj := (fd_array + 4 * j) mod 2 ^ 64) in *.
  change (2 ^ 64) with 18446744073709551616 in *. lia.
Qed.

Lemma install_fds_delete T L fd :
  fd ∉ (fst <$> L) → delete fd (install_fds T L) = install_fds (delete fd T) L.
Proof.
  revert T. induction L as [|e L IH]; intros T Hfd; [done|]. simpl in *.
  apply not_elem_of_cons in Hfd as [Hne Hfd]. rewrite IH by done.
  by rewrite delete_insert_ne.
Qed.

Lemma fresh_fds_insert T L fd file :
  fresh_fds (<[fd := file]> T) L → (fd ∉ fst <$> L) ∧ fresh_fds T L.
Proof.
  revert T. induction L as [|e L IH]; intros T; simpl.
  - intros _. split; [apply not_elem_of_nil|done].
  - intros [Hnone Hfresh]. apply lookup_insert_None in Hnone as [Hnone Hne].
    rewrite insert_insert_ne in Hfresh by done. apply IH in Hfresh as [Hfd Hfresh].
    split; [|done]. apply not_elem_of_cons. done.
Qed.

Lemma close_install_fds T L : fresh_fds T L → close_fds (install_fds T L) (fst <$> L) = T.
Proof.
  revert T. induction L as [|e L IH]; intros T; simpl; [done|].
  intros [Hnone Hfresh]. pose proof (fresh_fds_insert _ _ _ _ Hfresh) as [Hfd Hfresh'].
  fold (install_fds (<[e.1 := e.2]> T) L). fold (close_fds (delete e.1 (install_fds (<[e.1 := e.2]> T) L)) (fst <$> L)).
  rewrite install_fds_delete by done. rewrite delete_insert_id by done. by apply IH.
Qed.

Lemma binder_translate_fd_heaps fd t thread in_reply_to :
  preserves (λ s, (st_procs s, st_transactions s, st_buffers s))
    (binder_translate_fd fd t thread in_reply_to).
Proof. kframe. Qed.

Lemma wlp_binder_translate_fd_table fd t thread in_reply_to s x target :
  (∀ m fd, __alloc_fd m = Some fd → m !! fd = None ∧ 0 ≤ fd < 2 ^ 31) →
  st_transactions s !! t = Some x → t_to_proc x = Some target →
  wlp (binder_translate_fd fd t thread in_reply_to) s (λ r s',
    (st_procs s', st_transactions s', st_buffers s')
      = (st_procs s, st_transactions s, st_buffers s) ∧
    match r with
    | inl _ => st_fds s' = st_fds s
    | inr f =>
        ∃ fs file,
          files_of s target = Some fs ∧ fd_table s fs !! f = None ∧ 0 ≤ f < 2 ^ 31 ∧
          st_fds s' = <[fs := <[f := file]> (fd_table s fs)]> (st_fds s)
    end).
Proof.
  intros Halloc Hx Htarget. apply wlp_conj.
  { apply (wlp_preserves (λ s, (st_procs s, st_transactions s, st_buffers s))).
    apply binder_translate_fd_heaps. }
  unfold binder_translate_fd.
  apply wlp_bind, wlp_deref. intros th Hth.
  apply wlp_bind, wlp_deref. intros x' Hx'. assert (x' = x) as -> by congruence.
  rewrite Htarget. apply wlp_bind, wlp_ret.
  apply wlp_bind.
  apply (wlp_mono _ _ (λ _ s1, s1 = s)).
  { destruct in_reply_to as [irt|]; simpl.
    - apply wlp_bind, wlp_deref. intros xi Hxi. by apply wlp_ret.
    - apply wlp_bind, wlp_deref_opt. intros buffer Hbuffer.
      apply wlp_bind, wlp_deref. intros b Hb.
      apply wlp_bind, wlp_deref_opt. intros node Hnode.
      apply wlp_bind, wlp_deref. intros n Hn. by apply wlp_ret. }
  intros allowed s1 ->.
  destruct allowed; simpl.
  2:{ apply wlp_bind, wlp_binder_user_error_heaps. intros s1 Hs1. by apply wlp_ret. }
  apply wlp_bind, wlp_deref. intros p Hp.
  apply wlp_bind, wlp_deref. intros tp Htp.
  destruct (fget (tsk p) fd) as [file|] eqn:Hfile.
  2:{ apply wlp_bind, wlp_binder_user_error_heaps. intros s1 Hs1. by apply wlp_ret. }
  case_bool_decide as Hsec; [by apply wlp_ret|].
  apply wlp_bind. unfold task_get_unused_fd_flags.
  apply wlp_bind, wlp_deref. intros tp' Htp'. assert (tp' = tp) as -> by congruence.
  destruct (files tp) as [fs|] eqn:Hfs; [|by apply wlp_ret, wlp_ret].
  apply wlp_bind, wlp_get_state.
  destruct (__alloc_fd _) as [target_fd|] eqn:Hfd; [|by apply wlp_ret, wlp_ret].
  apply wlp_ret. apply wlp_bind. unfold task_fd_install.
  apply wlp_bind, wlp_deref. intros tp' Htp''. assert (tp' = tp) as -> by congruence.
  rewrite Hfs. apply wlp_modify, wlp_ret.
  apply Halloc in Hfd as [Hfree Hrange].
  exists fs, file. unfold files_of. rewrite Htp. simpl. kstate. done.
Qed.

Lemma wlp_binder_translate_fd_array_loop buffer fd_array t thread in_reply_to x target n :
  (∀ m fd, __alloc_fd m = Some fd → m !! fd = None ∧ 0 ≤ fd < 2 ^ 31) →
  ∀ fdi s,
  st_transactions s !! t = Some x → t_to_proc x = Some target →
  0 ≤ fdi → 4 * (fdi + Z.of_nat n) < 2 ^ 64 →
  wlp (binder_translate_fd_array_loop buffer fd_array t thread in_reply_to fdi n) s (λ r s',
    st_procs s' = st_procs s ∧ st_transactions s' = st_transactions s ∧
    ∃ L,
      match r with Some (_, j) => j = fdi + Z.of_nat (length L) | None => True end ∧
      (∀ fs, fd_table s' fs
             = if decide (files_of s target = Some fs) then install_fds (fd_table s fs) L
               else fd_table s fs) ∧
      (∀ fs, files_of s target = Some fs → fresh_fds (fd_table s fs) L) ∧
      (∀ b', st_buffers s' !! buffer = Some b' →
         ∀ (i : nat) f, (fst <$> L) !! i = Some f →
           load_u32 (b_sg b') (fd_slot fd_array (fdi + Z.of_nat i)) = f) ∧
      (∀ b b' a, st_buffers s !! buffer = Some b → st_buffers s' !! buffer = Some b' →
         (∀ i, fdi ≤ i < fdi + Z.of_nat n →
            a + 4 ≤ fd_slot fd_array i ∨ fd_slot fd_array i + 4 ≤ a) →
         load_u32 (b_sg b') a = load_u32 (b_sg b) a)).
Proof.
  intros Halloc. induction n as [|n IH]; intros fdi s Hx Htarget Hfdi Hbound;
    cbn [binder_translate_fd_array_loop].
  - apply wlp_ret. do 2 (split; [done|]). exists []. simpl.
    split; [done|]. split; [intros fs; by destruct (decide _)|]. split; [done|].
    split; [done|]. intros b b' a Hb Hb' _. congruence.
  - apply wlp_bind, wlp_deref. intros b Hb.
    apply wlp_bind. eapply wlp_mono; [by eapply wlp_binder_translate_fd_table|].
    intros r s1 [Hframe Hr]. injection Hframe as Hp1 Ht1 Hb1.
    destruct r as [e|f].
    + apply wlp_ret. do 2 (split; [done|]). exists []. simpl.
      split; [lia|]. unfold fd_table. rewrite Hr.
      split; [intros fs; by destruct (decide _)|]. split; [done|].
      split; [done|]. intros b0 b' a Hb0 Hb' _. congruence.
    + destruct Hr as (fs & file & Hfs & Hfree & Hrange & Hfds).
      apply wlp_bind. eapply wlp_upd_buffer; [rewrite Hb1; exact Hb|].
      eapply wlp_mono.
      { apply (IH (fdi + 1)); kstate; [congruence|done|lia|lia]. }
      intros r s' (Hp' & Ht' & L & Hres & Htab & Hfresh & Hmem & Hfr).
      revert Hp' Ht' Htab Hfresh Hmem Hfr. unfold files_of, fd_table. kstate.
      rewrite Hp1, Hfds. fold (files_of s target). fold (fd_table s fs).
      intros Hp' Ht' Htab Hfresh Hmem Hfr.
      split; [done|]. split; [congruence|]. exists ((f, file) :: L).
      rewrite lookup_insert_eq in Hfr.
      assert (∀ M, b_sg (set_b_sg M b) = M) as Hsg by (by destruct b).
      pose proof (λ b' a, Hfr _ b' a eq_refl) as Hfr'. clear Hfr.
      split; [destruct r as [[e j]|]; simpl; lia|].
      split; [|split; [|split]].
      * intros fs0. rewrite Htab. destruct (decide (files_of s target = Some fs0)) as [Heq|Hne].
        -- assert (fs0 = fs) as -> by congruence. by rewrite lookup_insert_eq.
        -- rewrite lookup_insert_ne; [done|]. congruence.
      * intros fs0 Heq. assert (fs0 = fs) as -> by congruence.
        specialize (Hfresh fs Heq). rewrite lookup_insert_eq in Hfresh. simpl. done.
      * intros b' Hb' i f0 Hi. destruct i as [|i]; simpl in Hi.
        -- injection Hi as <-. rewrite Z.add_0_r. rewrite (Hfr' b' _ Hb').
           2:{ intros i Hi. apply fd_slot_apart; lia. }
           rewrite Hsg. unfold fd_slot, u32. rewrite (Z.mod_small f) by lia.
           apply load_u32_store_u32. lia.
        -- replace (fdi + Z.of_nat (S i)) with (fdi + 1 + Z.of_nat i) by lia.
           by eapply Hmem.
      * intros b0 b' a Hb0 Hb' Ha. assert (b0 = b) as -> by congruence.
        rewrite (Hfr' b' a Hb'). 2:{ intros i Hi. apply Ha. lia. }
        rewrite Hsg. apply load_u32_store_u32_other.
        specialize (Ha fdi ltac:(lia)). unfold fd_slot in Ha. lia.
Qed.

Lemma wlp_close_fd_array target sg fd_array n : ∀ keys s,
  length keys = n →
  (∀ (i : nat) f, keys !! i = Some f → load_u32 sg (fd_slot fd_array (Z.of_nat i)) = f) →
  wlp (close_fd_array target sg fd_array n) s (λ _ s',
    st_procs s' = st_procs s ∧
    ∀ fs, fd_table s' fs
          = if decide (files_of s target = Some fs) then close_fds (fd_table s fs) keys
            else fd_table s fs).
Proof.
  induction n as [|n IH]; intros keys s Hlen Hkeys; cbn [close_fd_array].
  - apply wlp_ret. destruct keys; [|done]. split; [done|]. intros fs. by destruct (decide _).
  - destruct keys as [|k keys _] using rev_ind; [done|].
    rewrite length_app in Hlen. simpl in Hlen.
    apply wlp_bind. eapply wlp_mono.
    { apply (IH keys); [lia|]. intros i f Hi. apply Hkeys. by apply lookup_app_l_Some. }
    intros [] s1 [Hp1 Htab].
    cbv beta. change (u64 (fd_array + sizeof_u32 * Z.of_nat n)) with (fd_slot fd_array (Z.of_nat n)).
    rewrite (Hkeys n k).
    2:{ rewrite lookup_app_r by lia. replace (n - length keys)%nat with 0%nat by lia. done. }
    unfold task_close_fd. apply wlp_bind, wlp_deref. intros p Hp.
    assert (files_of s target = files p) as Hfiles.
    { unfold files_of. by rewrite <- Hp1, Hp. }
    rewrite Hfiles in *.
    destruct (files p) as [fs|]; [apply wlp_modify|apply wlp_ret].
    + split; [kstate; done|]. intros fs'. unfold fd_table in *. kstate.
      specialize (Htab fs'). unfold close_fds. rewrite foldl_app. simpl.
      destruct (decide (Some fs = Some fs')) as [[= <-]|Hne].
      * rewrite lookup_insert_eq. simpl. by rewrite Htab.
      * rewrite lookup_insert_ne by congruence. done.
    + split; [done|]. intros fs'. rewrite Htab. by destruct (decide _).
Qed.

(** X27: an array of file descriptors that does not get through leaves
    no descriptor behind.  When the allocator of descriptors gives
    descriptors that are free, and [binder_translate_fd_array] comes
    back with an error, every file table is as it was before the call:
    the descriptors installed before the one that failed have been
    closed again. *)
Theorem binder_translate_fd_array_failure_closes fda parent t thread in_reply_to s e s' :
  (∀ m fd, __alloc_fd m = Some fd → m !! fd = None ∧ 0 ≤ fd < 2 ^ 31) →
  binder_translate_fd_array fda parent t thread in_reply_to s = (Val (Some e), s') →
  ∀ fs, fd_table s' fs = fd_table s fs.
Proof.
  intros Halloc Hrun.
  enough (wlp (binder_translate_fd_array fda parent t thread in_reply_to) s (λ r s',
            match r with
            | Some _ => ∀ fs, fd_table s' fs = fd_table s fs
            | None => True
            end)) as Hwlp by exact (Hwlp _ _ Hrun).
  clear Hrun. unfold binder_translate_fd_array.
  apply wlp_bind, wlp_deref. intros th Hth.
  apply wlp_bind, wlp_deref. intros x Hx.
  apply wlp_bind, wlp_deref_opt. intros target Htarget.
  apply wlp_bind, wlp_deref_opt. intros buffer Hbuffer.
  assert (∀ msg, wlp (binder_user_error msg;; mret (Some EINVAL)) s (λ r s',
            match r with
            | Some _ => ∀ fs, fd_table s' fs = fd_table s fs
            | None => True
            end)) as Herr.
  { intros msg. apply wlp_bind, wlp_binder_user_error_heaps. intros s1 Hs1. apply wlp_ret.
    intros fs. unfold fd_table. by rewrite Hs1. }
  case_bool_decide as Hnum; [apply Herr|].
  destruct (_ || _); [apply Herr|].
  unfold binder_alloc_get_user_buffer_offset.
  apply wlp_bind, wlp_bind, wlp_deref. intros tp Htp. apply wlp_ret.
  destruct (negb _); [apply Herr|].
  apply wlp_bind. eapply wlp_mono.
  { apply (wlp_binder_translate_fd_array_loop _ _ _ _ _ x target); [done..|lia|].
    assert (SIZE_MAX / sizeof_u32 = 4611686018427387903) as Heq by reflexivity.
    rewrite Heq in Hnum. lia. }
  intros r s1 (Hp1 & Ht1 & L & Hres & Htab & Hfresh & Hmem & _).
  destruct r as [[e1 j]|]; [|by apply wlp_ret].
  apply wlp_bind, wlp_deref. intros b Hb.
  apply wlp_bind. eapply wlp_mono.
  { apply (wlp_close_fd_array target (b_sg b) _ _ (fst <$> L)).
    - rewrite length_fmap. lia.
    - intros i f Hi. rewrite <- (Z.add_0_l (Z.of_nat i)). by eapply Hmem. }
  intros [] s2 [Hp2 Htab2]. apply wlp_ret. intros fs.
  rewrite Htab2. assert (files_of s1 target = files_of s target) as ->.
  { unfold files_of. by rewrite Hp1. }
  rewrite Htab. destruct (decide (files_of s target = Some fs)) as [Hfs|]; [|done].
  by apply close_install_fds, Hfresh.
Qed.

(** ** The thread a nested call goes to *)

Lemma stack_senders_transactions ts ths chain tmp target_proc from :
  stack_senders ts ths chain tmp target_proc from → ∀ t, t ∈ chain → is_Some (ts !! t).
Proof.
  revert tmp. induction chain as [|t0 chain IH]; intros tmp; simpl.
  - intros _ t Ht. by apply not_elem_of_nil in Ht.
  - intros (_ & x & Hx & _ & Hrest) t [->|Ht]%elem_of_cons; [by eexists|]. by eapply IH.
Qed.

Lemma chain_length_size (ts : gmap nat struct_binder_transaction) chain :
  NoDup chain → (∀ t, t ∈ chain → is_Some (ts !! t)) → (length chain ≤ size ts)%nat.
Proof.
  intros Hnodup Hin.
  rewrite <- (size_list_to_set (C:=gset nat) chain) by done.
  rewrite <- size_dom. apply subseteq_size. intros t Ht%elem_of_list_to_set.
  by apply elem_of_dom, Hin.
Qed.

Lemma runs_binder_transaction_find_thread target_proc from fth chain : ∀ fuel tmp s,
  (length chain < fuel)%nat →
  stack_senders (st_transactions s) (st_threads s) chain tmp target_proc from →
  st_threads s !! from = Some fth →
  runs (binder_transaction_find_thread fuel tmp target_proc) s (Some from)
    (set_st_threads
       (<[from := set_thread_tmp_ref (thread_tmp_ref fth + 1) fth]> (st_threads s)) s).
Proof.
  induction chain as [|t chain IH]; intros fuel tmp s Hfuel Hchain Hfrom;
    (destruct fuel as [|fuel]; [simpl in Hfuel; lia|]); simpl in Hchain.
  - destruct Hchain as (t & x & fth' & -> & Hx & Hsender & Hfth & Hproc).
    assert (fth' = fth) as -> by congruence. cbn [binder_transaction_find_thread].
    krunh ltac:(first [ rewrite Hsender | rewrite Hproc
                      | rewrite bool_decide_eq_true_2 by done
                      | progress simpl ]).
  - destruct Hchain as (-> & x & Hx & Hsender & Hrest). cbn [binder_transaction_find_thread].
    eapply runs_bind; [by apply runs_deref|]. cbv beta.
    eapply runs_bind.
    { instantiate (1 := s). instantiate (1 := None).
      destruct (t_from x) as [f|]; [|apply runs_ret].
      destruct Hsender as (fth' & Hf & Hne).
      eapply runs_bind; [by apply runs_deref|]. cbv beta.
      rewrite bool_decide_eq_false_2 by done. apply runs_ret. }
    cbv beta iota. apply IH; [simpl in Hfuel; lia|done..].
Qed.

(** X28: a nested call goes to the thread that waits for the caller.
    A call that is not one-way, from a thread with a transaction stack,
    to a handle on a node of a live process that lets the call in:
    when the transaction on top of the stack is not addressed to the
    calling thread, the call is refused with BR_FAILED_REPLY and EPROTO;
    when it is, the target thread is the first sender down the stack
    that is a thread of the target process, and that thread gets a
    temporary reference.  Either way the node has one more local strong
    count and the target process one more temporary reference. *)
Theorem binder_transaction_call_target_waiting_thread
    proc thread tr s p th ref r node n tproc tp tmp x :
  st_procs s !! proc = Some p → st_threads s !! thread = Some th →
  u32 (tr_target tr) ≠ 0 → rb_search (u32 (tr_target tr)) (refs_by_desc p) = Some ref →
  st_refs s !! ref = Some r → strong (ref_data r) ≠ 0 → ref_node r = Some node →
  st_nodes s !! node = Some n → node_proc n = Some tproc →
  st_procs s !! tproc = Some tp →
  security_binder_transaction (tsk p) (tsk tp) = None →
  one_way (tr_flags tr) = false →
  transaction_stack th = Some tmp → st_transactions s !! tmp = Some x →
  let tg := Build_binder_transaction_targets None None (Some tproc) (Some node) in
  let s1 :=
    set_st_procs (<[tproc := set_proc_tmp_ref (proc_tmp_ref tp + 1) tp]> (st_procs s))
      (set_st_nodes
         (<[node := set_local_strong_refs (local_strong_refs n + 1) n]> (st_nodes s)) s) in
  (t_to_thread x ≠ Some thread →
   ∃ msg, runs (binder_transaction_call_target proc thread tr) s
            (inl ((BR_FAILED_REPLY, Some EPROTO), tg)) (user_error_state msg s1)) ∧
  (∀ chain from fth,
     t_to_thread x = Some thread → NoDup chain →
     stack_senders (st_transactions s) (st_threads s) chain (Some tmp) tproc from →
     st_threads s !! from = Some fth →
     runs (binder_transaction_call_target proc thread tr) s
       (inr (set_target_thread (Some from) tg))
       (set_st_threads
          (<[from := set_thread_tmp_ref (thread_tmp_ref fth + 1) fth]> (st_threads s)) s1)).
Proof.
  intros Hp Hth Htarget Href Hr Hstrong Hnode Hn Hown Htp Hsec Hsync Hstack Hx tg s1.
  assert (tsk (set_proc_tmp_ref (proc_tmp_ref tp + 1) tp) = tsk tp) as Htsk by (by destruct tp).
  split.
  - intros Hbad. eexists. unfold binder_transaction_call_target, s1.
    krunh ltac:(first [ rewrite Href | rewrite Hnode | rewrite Hown | rewrite Htsk
                      | rewrite Hsec | rewrite Hstack | rewrite Hsync
                      | rewrite lookup_insert_eq
                      | rewrite (bool_decide_eq_false_2 (is_Some None)) by (by intros [? ?])
                      | rewrite bool_decide_eq_true_2 by done
                      | rewrite bool_decide_eq_false_2 by done
                      | progress unfold binder_get_ref, binder_inc_node, binder_inc_node_nilocked
                      | progress simpl ]).
  - intros chain from fth Hto Hnodup Hchain Hfrom.
    pose proof (chain_length_size _ _ Hnodup (stack_senders_transactions _ _ _ _ _ _ Hchain))
      as Hlen.
    unfold binder_transaction_call_target, s1.
    krunh ltac:(first [ rewrite Href | rewrite Hnode | rewrite Hown | rewrite Htsk
                      | rewrite Hsec | rewrite Hstack | rewrite Hsync | rewrite Hto
                      | rewrite lookup_insert_eq
                      | rewrite (bool_decide_eq_false_2 (is_Some None)) by (by intros [? ?])
                      | rewrite bool_decide_eq_true_2 by done
                      | rewrite bool_decide_eq_false_2 by done
                      | progress unfold binder_get_ref, binder_inc_node, binder_inc_node_nilocked
                      | lazymatch goal with
                        | |- runs (binder_transaction_find_thread _ _ _) _ _ _ =>
                            eapply (runs_binder_transaction_find_thread tproc from fth chain);
                            [kstate; lia|kstate; exact Hchain|kstate; exact Hfrom]
                        end
                      | progress cbn [one_way] ]).
Qed.

(** ** The end of a process *)

(** X29: the memory of a process goes with its last temporary
    reference.  [binder_deferred_release] of a process without threads,
    nodes, references and work, which is not the context manager, marks
    it dead; when nobody holds a temporary reference on it, it then
    gives back its buffers and frees it, and otherwise leaves it, dead,
    with the count it had. *)
Theorem binder_deferred_release_idle proc s p c :
  st_procs s !! proc = Some p → files p = None →
  st_contexts s !! context p = Some c →
  match binder_context_mgr_node c with
  | Some node => ∃ n, st_nodes s !! node = Some n ∧ node_proc n ≠ Some proc
  | None => True
  end →
  proc_threads p = [] → proc_nodes p = [] → refs_by_desc p = [] →
  proc_todo_list p = [] → delivered_death p = [] →
  (proc_tmp_ref p = 0 →
   runs (binder_deferred_release proc) s tt
     (set_st_procs (delete proc (st_procs s))
        (set_st_buffers (foldr delete (st_buffers s) (alloc_buffers p)) s))) ∧
  (proc_tmp_ref p ≠ 0 →
   runs (binder_deferred_release proc) s tt
     (set_st_procs (<[proc := set_proc_is_dead true p]> (st_procs s)) s)).
Proof.
  intros Hp Hfiles Hc Hmgr Hthreads Hnodes Hrefs Htodo Hdelivered.
  split; intros Htmp; unfold binder_deferred_release.
  all: destruct (binder_context_mgr_node c) as [node|] eqn:Hnode;
    [destruct Hmgr as (n & Hn & Hother)|].
  all: krunh ltac:(first [ rewrite Hfiles | rewrite Hnode | rewrite Hthreads | rewrite Hnodes
                         | rewrite Hrefs | rewrite Htodo | rewrite Hdelivered | rewrite Htmp
                         | rewrite lookup_insert_eq
                         | rewrite (bool_decide_eq_false_2 (is_Some None)) by (by intros [? ?])
                         | rewrite bool_decide_eq_true_2 by first [done | lia]
                         | rewrite bool_decide_eq_false_2 by first [done | lia]
                         | progress cbn [binder_deferred_release_threads
                                         binder_deferred_release_nodes
                                         binder_deferred_release_refs
                                         binder_release_work_loop length]
                         | progress unfold binder_release_work, binder_dequeue_work_head,
                             binder_dequeue_work_head_ilocked, binder_proc_dec_tmpref,
                             binder_free_proc, binder_alloc_deferred_release, kfree_proc
                         | progress simpl ]).
  all: try (apply runs_modify; kstate; f_equal; rewrite ?delete_insert_eq; reflexivity).
  all: unfold runs, mret, kernel_ret, kret; f_equal; f_equal; rewrite !insert_insert_eq; f_equal.
  all: destruct p; unfold set_proc_tmp_ref, set_proc_is_dead; simpl; f_equal; lia.
Qed.

(** ** A pointer stored into its parent *)

Lemma wlp_binder_user_error_buffers msg s (Q : unit → binder_state → Prop) :
  (∀ s', st_buffers s' = st_buffers s → Q tt s') → wlp (binder_user_error msg) s Q.
Proof.
  intros HQ. unfold binder_user_error.
  apply wlp_bind, wlp_modify. apply wlp_bind, wlp_get_state.
  case_bool_decide; [apply wlp_modify|apply wlp_ret]; apply HQ; by destruct s.
Qed.

(** X30: the address of a buffer is stored inside its parent.  When
    [binder_fixup_parent] comes back without an error for a buffer
    object that has a parent, the parent is a buffer object of the same
    transaction, at an index of the offsets array below [num_valid], and
    the 8 bytes stored end at or before the end of the parent:
    [parent_offset + 8 <= length], with no wrap-around.  What it stores
    is the address of the child, at the kernel address of the parent
    plus [parent_offset]; nothing else changes.  When it comes back with
    an error, the error is EINVAL and no buffer has changed. *)
Theorem binder_fixup_parent_within_parent
    t thread bp num_valid last_fixup_obj last_fixup_min_off s r s' :
  binder_fixup_parent t thread bp num_valid last_fixup_obj last_fixup_min_off s = (Val r, s') →
  match r with
  | Some e => e = EINVAL ∧ st_buffers s' = st_buffers s
  | None =>
      (Z.land (bbo_flags bp) BINDER_BUFFER_FLAG_HAS_PARENT = 0 ∧ s' = s) ∨
      ∃ x buffer b target tp parent_at parent,
        st_transactions s !! t = Some x ∧ t_buffer x = Some buffer ∧
        st_buffers s !! buffer = Some b ∧
        t_to_proc x = Some target ∧ st_procs s !! target = Some tp ∧
        bbo_parent bp < num_valid ∧
        b_offsets b !! Z.to_nat (bbo_parent bp) = Some parent_at ∧
        buffer_object_at b parent_at = Some parent ∧
        bbo_parent_offset bp + sizeof_binder_uintptr_t ≤ bbo_length parent ∧
        s' = set_st_buffers
               (<[buffer :=
                    set_b_sg
                      (store_u64
                         (u64 (u64 (bbo_buffer parent - user_buffer_offset tp)
                               + bbo_parent_offset bp))
                         (bbo_buffer bp) (b_sg b)) b]> (st_buffers s)) s
  end.
Proof.
  revert r s'.
  change (wlp (binder_fixup_parent t thread bp num_valid last_fixup_obj last_fixup_min_off) s
    (λ r s',
      match r with
      | Some e => e = EINVAL ∧ st_buffers s' = st_buffers s
      | None =>
          (Z.land (bbo_flags bp) BINDER_BUFFER_FLAG_HAS_PARENT = 0 ∧ s' = s) ∨
          ∃ x buffer b target tp parent_at parent,
            st_transactions s !! t = Some x ∧ t_buffer x = Some buffer ∧
            st_buffers s !! buffer = Some b ∧
            t_to_proc x = Some target ∧ st_procs s !! target = Some tp ∧
            bbo_parent bp < num_valid ∧
            b_offsets b !! Z.to_nat (bbo_parent bp) = Some parent_at ∧
            buffer_object_at b parent_at = Some parent ∧
            bbo_parent_offset bp + sizeof_binder_uintptr_t ≤ bbo_length parent ∧
            s' = set_st_buffers
                   (<[buffer :=
                        set_b_sg
                          (store_u64
                             (u64 (u64 (bbo_buffer parent - user_buffer_offset tp)
                                   + bbo_parent_offset bp))
                             (bbo_buffer bp) (b_sg b)) b]> (st_buffers s)) s
      end)).
  unfold binder_fixup_parent.
  apply wlp_bind, wlp_deref. intros x Hx.
  apply wlp_bind, wlp_deref_opt. intros buffer Hbuffer.
  apply wlp_bind, wlp_deref_opt. intros target Htarget.
  apply wlp_bind, wlp_deref. intros b Hb.
  case_bool_decide as Hflag; [apply wlp_ret; by left|].
  assert (∀ msg, wlp (binder_user_error msg;; mret (Some EINVAL)) s (λ r s',
            match r with
            | Some e => e = EINVAL ∧ st_buffers s' = st_buffers s
            | None => False
            end)) as Herr.
  { intros msg. apply wlp_bind, wlp_binder_user_error_buffers. intros s1 Hs1.
    by apply wlp_ret. }
  assert (∀ msg, wlp (binder_user_error msg;; mret (Some EINVAL)) s (λ r s',
            match r with
            | Some e => e = EINVAL ∧ st_buffers s' = st_buffers s
            | None =>
                (Z.land (bbo_flags bp) BINDER_BUFFER_FLAG_HAS_PARENT = 0 ∧ s' = s) ∨
                ∃ x buffer b target tp parent_at parent,
                  st_transactions s !! t = Some x ∧ t_buffer x = Some buffer ∧
                  st_buffers s !! buffer = Some b ∧
                  t_to_proc x = Some target ∧ st_procs s !! target = Some tp ∧
                  bbo_parent bp < num_valid ∧
                  b_offsets b !! Z.to_nat (bbo_parent bp) = Some parent_at ∧
                  buffer_object_at b parent_at = Some parent ∧
                  bbo_parent_offset bp + sizeof_binder_uintptr_t ≤ bbo_length parent ∧
                  s' = set_st_buffers
                         (<[buffer :=
                              set_b_sg
                                (store_u64
                                   (u64 (u64 (bbo_buffer parent - user_buffer_offset tp)
                                         + bbo_parent_offset bp))
                                   (bbo_buffer bp) (b_sg b)) b]> (st_buffers s)) s
            end)) as Herr'.
  { intros msg. eapply wlp_mono; [apply Herr|]. by intros [e|] s1. }
  destruct (binder_validate_ptr b (bbo_parent bp) num_valid) as [parent_at|] eqn:Hptr;
    [|apply Herr'].
  apply wlp_bind, wlp_deref_opt. intros parent Hparent.
  destruct (binder_validate_fixup _ _ _ _ _) as [[|]|]; [|apply Herr'|apply wlp_out_of_fuel].
  destruct (_ || _) eqn:Hroom; [apply Herr'|].
  apply orb_false_iff in Hroom as [Hlen%bool_decide_eq_false Hoff%bool_decide_eq_false].
  unfold binder_alloc_get_user_buffer_offset.
  apply wlp_bind, wlp_bind, wlp_deref. intros tp Htp. apply wlp_ret.
  apply wlp_bind. eapply wlp_upd_buffer; [exact Hb|]. apply wlp_ret. right.
  exists x, buffer, b, target, tp, parent_at, parent.
  unfold binder_validate_ptr in Hptr. case_bool_decide as Hidx; [done|].
  destruct (b_offsets b !! Z.to_nat (bbo_parent bp)) as [offp|] eqn:Hoffp; [|done].
  destruct (buffer_object_at b offp) eqn:Hobj; [|done]. injection Hptr as ->.
  do 5 (split; [done|]). split; [lia|]. split; [done|]. split; [done|]. split; [|done].
  pose proof (Z.mod_le (bbo_length parent - sizeof_binder_uintptr_t) (2 ^ 64)) as Hle.
  unfold u64 in Hoff. lia.
Qed.

End proofs.

(** * The properties on concrete states *)

(** C1: a reply from a thread with an empty stack. *)
Lemma reply_rejected_failed_reply_witness :
  ∃ s' th',
    runs (binder_transaction (H:=abi64) (H0:=quiet_kernel) 1 11 empty_tr true 0)
      two_procs tt s' ∧
    st_threads s' !! 11%nat = Some th' ∧
    err_cmd (return_error th') = BR_FAILED_REPLY ∧
    thread_todo_list th' = [W_return_error 11] ∧
    last (binder_transaction_log_failed s') = Some (BR_FAILED_REPLY, Some EPROTO) ∧
    transaction_stack th' = None.
Proof.
  apply (reply_rejected_failed_reply (H:=abi64) (H0:=quiet_kernel) 1 11 empty_tr 0
           two_procs (new_thread 1 100) Reply_empty_stack); reflexivity.
Defined.

(** C1 as stated fails: the reply of thread 11 is turned away with
    BR_FAILED_REPLY because transaction 70 is not on top of the stack of
    thread 21, and the stack of thread 11 has lost transaction 70. *)
Lemma reply_rejected_stack_changed :
  let s := reply_state_bad_target in
  let s' := snd (binder_transaction (H:=abi64) (H0:=quiet_kernel) 1 11 empty_tr true 0 s) in
  reply_rejected s 11 = Some Reply_bad_target_stack ∧
  (err_cmd ∘ return_error) <$> st_threads s' !! 11%nat = Some BR_FAILED_REPLY ∧
  transaction_stack <$> st_threads s !! 11%nat = Some (Some 70%nat) ∧
  transaction_stack <$> st_threads s' !! 11%nat = Some None.
Proof. vm_compute. done. Qed.

(** C8: thread 11 writes the single command BC_ATTEMPT_ACQUIRE. *)
Lemma binder_thread_write_refuses_witness :
  (∃ msg,
     runs (binder_thread_write_loop (H:=abi64) (H0:=attempt_acquire_kernel) 1 1 11
             0x5000 0x5000 0x5004 0)
       two_procs (Some EINVAL, 0) (set_st_log [Pr_err msg] two_procs)) ∧
  (∃ msg,
     runs (binder_ioctl_write_read (H:=abi64) (H0:=attempt_acquire_kernel) 1 11 48 0x4000 false)
       two_procs (Some EINVAL)
       (set_st_user [(0x4000, U_bwr attempt_acquire_bwr)]
          (set_st_log [Pr_err msg] two_procs))).
Proof.
  destruct (binder_thread_write_refuses (H:=abi64) (H0:=attempt_acquire_kernel) 1 11
              0x5000 0x5000 0x5004 0 0 two_procs (new_thread 1 100) 0x4008630a)
    as [Hloop Hioctl].
  - reflexivity.
  - reflexivity.
  - lia.
  - reflexivity.
  - left; reflexivity.
  - split; [exact Hloop|].
    apply (Hioctl 0x4000 attempt_acquire_bwr false); reflexivity.
Defined.

(** A write buffer of 4 bytes at the last 4 bytes of the address space
    ends at 0 as the pointers have it: the loop is not entered, and the
    BC_ATTEMPT_ACQUIRE in the buffer is not looked at. *)
Example binder_thread_write_end_wraps :
  binder_thread_write (H:=abi64)
    (H0:=permissive_kernel {[ 0xfffffffffffffffc := 0x4008630a ]} ∅ ∅ ∅ ∅)
    1 11 0xfffffffffffffffc 4 0 two_procs
  = (Val (None, 0), two_procs).
Proof. vm_compute. done. Qed.

(** C2: process 1 holds handles 1 and 3 and takes a reference on node 52:
    the new handle is 2. *)
Lemma binder_get_ref_for_node_smallest_handle_witness :
  ∃ s' p' r' d,
    runs (binder_get_ref_for_node 1 52 (Some 35%nat))
      handles_state (Some 35%nat) s' ∧
    st_procs s' !! 1%nat = Some p' ∧ st_refs s' !! 35%nat = Some r' ∧
    desc (ref_data r') = d ∧ ref_proc r' = Some 1%nat ∧ ref_node r' = Some 52%nat ∧
    refs_by_desc p' = rb_insert d 35 [(1, 31%nat); (3, 33%nat)] ∧
    1 ≤ d ∧ (d ∉ [1; 3]) ∧ (∀ x, 1 ≤ x < d → x ∈ [1; 3]) ∧
    rb_ordered (refs_by_desc p') = true ∧ NoDup (rb_keys (refs_by_desc p')).
Proof.
  apply (binder_get_ref_for_node_smallest_handle 1 52 35
           handles_state
           (set_refs_by_node {[ 51%nat := 31%nat; 53%nat := 33%nat ]}
              (set_refs_by_desc [(1, 31%nat); (3, 33%nat)] (new_proc 100 1 [(100, 11%nat)])))
           (Build_binder_context (Some 50%nat) (Some 1000))
           (plain_node 3 2 0x5200) zero_ref 2).
  - reflexivity.
  - reflexivity.
  - reflexivity.
  - reflexivity.
  - reflexivity.
  - reflexivity.
  - vm_compute. split; [discriminate | reflexivity].
  - vm_compute. intros Hin. repeat (apply elem_of_cons in Hin as [Hin | Hin]; [discriminate|]).
    by apply elem_of_nil in Hin.
Defined.

(** C10: process 1 has no reference at all.  BC_RELEASE on handle 0 is a
    user error and no more; BC_ACQUIRE on handle 0 makes reference 100 on
    node 50, the context manager's, with one strong count. *)
Lemma binder_thread_write_refs_handle_witness :
  runs (binder_thread_write_refs (H0:=handle_0_kernel) 1 11 BC_RELEASE 0x5000)
    mgr_state (inr 0x5004) (user_error_state "refcount change on invalid ref" mgr_state) ∧
  ∃ s' p' r' n',
    runs (binder_thread_write_refs (H0:=handle_0_kernel) 1 11 BC_ACQUIRE 0x5000)
      mgr_state (inr 0x5004) s' ∧
    st_procs s' !! 1%nat = Some p' ∧
    refs_by_node p' !! 50%nat = Some 100%nat ∧
    rb_search 0 (refs_by_desc p') = Some 100%nat ∧
    st_refs s' !! 100%nat = Some r' ∧
    ref_proc r' = Some 1%nat ∧ ref_node r' = Some 50%nat ∧
    desc (ref_data r') = 0 ∧ strong (ref_data r') = 1 ∧ weak (ref_data r') = 0 ∧
    st_nodes s' !! 50%nat = Some n' ∧
    node_refs n' = [100%nat] ∧ internal_strong_refs n' = 1 ∧
    st_log s' = [].
Proof.
  split.
  - apply (binder_thread_write_refs_handle (H0:=handle_0_kernel) 1 11 BC_RELEASE
             0x5000 0 mgr_state (new_proc 100 1 [(100, 11%nat)]));
      [reflexivity | reflexivity | reflexivity | left; reflexivity].
  - apply (binder_thread_write_refs_handle (H0:=handle_0_kernel) 1 11 BC_ACQUIRE
             0x5000 0 mgr_state (new_proc 100 1 [(100, 11%nat)]) eq_refl eq_refl eq_refl)
      with (c := Build_binder_context (Some 50%nat) (Some 1000)) (n := mgr_node 1 2)
           (owner := 2%nat)
           (po := set_proc_nodes [(0, 50%nat)] (new_proc 200 2 [(200, 21%nat)]));
      solve [reflexivity | right; reflexivity].
Defined.

(** C6: node 52 of process 2, which its owner holds strongly and weakly,
    is needed no more: BR_RELEASE, then BR_DECREFS, and the node is freed
    and gone from the index of process 2, where the nodes 50, 51 and 53
    stay. *)
Lemma binder_thread_read_node_records_witness :
  ∃ out s' stores,
    runs (binder_thread_read_node (H0:=quiet_kernel) 2 21 52 0x6000) unneeded_node_state
      out s' ∧
    st_user s' = stores ∧
    emitted_cmds stores `sublist_of` [BR_INCREFS; BR_ACQUIRE; BR_RELEASE; BR_DECREFS] ∧
    ((∀ a, put_user_ok (kernel_env:=quiet_kernel) a = true) →
       emitted_cmds stores = [BR_RELEASE; BR_DECREFS] ∧ out = Read_continue 0x6028) ∧
    st_nodes s' !! 52%nat = None ∧
    ∃ p', st_procs s' !! 2%nat = Some p' ∧
          proc_nodes p' = [(0, 50%nat); (0x5100, 51%nat); (0x5300, 53%nat)] ∧
          (52%nat ∉ (proc_nodes p').*2) ∧
          ∀ k other, other ≠ 52%nat →
            (k, other) ∈ proc_nodes p' ↔
            (k, other) ∈ [(0, 50%nat); (0x5100, 51%nat); (0x5200, 52%nat); (0x5300, 53%nat)].
Proof.
  apply (binder_thread_read_node_records (H0:=quiet_kernel) 2 21 52 0x6000 unneeded_node_state
           (set_has_weak_ref true (set_has_strong_ref true (plain_node 3 2 0x5200)))
           (set_proc_nodes [(0, 50%nat); (0x5100, 51%nat); (0x5200, 52%nat); (0x5300, 53%nat)]
              (new_proc 200 2 [(200, 21%nat)])));
    try reflexivity.
  apply (bool_decide_unpack _). vm_compute. exact I.
Defined.

(** Node 51 of process 2 has a reference on it that its owner has not
    been told of: BR_INCREFS, then BR_ACQUIRE, and the node stays, with
    both requests pending. *)
Example binder_thread_read_node_needed :
  let r := binder_thread_read_node (H0:=quiet_kernel) 2 21 51 0x6000 handles_state in
  r.1 = Val (Read_continue 0x6028) ∧
  emitted_cmds (st_user r.2) = [BR_INCREFS; BR_ACQUIRE] ∧
  (λ n, (has_strong_ref n, has_weak_ref n, pending_strong_ref n, pending_weak_ref n))
    <$> st_nodes r.2 !! 51%nat = Some (true, true, true, true) ∧
  st_procs r.2 = st_procs handles_state.
Proof. vm_compute. done. Qed.

(** C9: thread 11 reads with a death notification and a completion to
    do: the read is done after BR_DEAD_BINDER, the completion still
    queued. *)
Lemma binder_thread_read_dead_binder_done_witness :
  ∃ s',
    runs (binder_thread_read_loop (H:=abi64) (H0:=quiet_kernel) 5 1 11 0x6000 0x6004 0x6100 false)
      dead_binder_state (Read_done 0x6010) s' ∧
    st_user s' = [(0x6004, U_cmd BR_DEAD_BINDER); (0x6008, U_ptr 0xdead)] ∧
    runs (get_list (thread_todo 11)) s' [W_tcomplete 61] s' ∧
    runs (get_list (proc_delivered_death 1)) s' [W_death 60] s' ∧
    runs (get_work (W_death 60)) s'
      (Build_binder_work (Some (proc_delivered_death 1)) BINDER_WORK_DEAD_BINDER) s'.
Proof.
  destruct (binder_thread_read_dead_binder_done (H:=abi64) (H0:=quiet_kernel)
              1 11 0x6000 0x6004 0x6100 false 4 dead_binder_state
              (set_thread_todo_list [W_death 60; W_tcomplete 61] (new_thread 1 100))
              (new_proc 100 1 [(100, 11%nat)]) 60
              (Build_binder_ref_death
                 (Build_binder_work (Some (thread_todo 11)) BINDER_WORK_DEAD_BINDER) 0xdead)
              (thread_todo 11) [W_tcomplete 61])
    as [Hdone _].
  - reflexivity.
  - reflexivity.
  - reflexivity.
  - reflexivity.
  - left. split; reflexivity.
  - vm_compute. discriminate.
  - reflexivity.
  - reflexivity.
  - apply Hdone. left. reflexivity.
Defined.

(** C5: thread 21 takes transaction 70 when the kernel lets it have any
    nice value: it goes from nice 5 to the -10 of the sender, and the 5 is
    saved in the transaction. *)
Lemma binder_thread_read_transaction_priority_witness :
  ∃ s',
    runs (binder_thread_read_transaction (H:=abi64) (H0:=quiet_kernel) 2 21 70 0x6004)
      delivery_state (Read_break 0x6048) s' ∧
    st_nice s' = -10 ∧
    ∃ x', st_transactions s' !! 70%nat = Some x' ∧ t_saved_priority x' = 5.
Proof.
  destruct (binder_thread_read_transaction_priority (H:=abi64) (H0:=quiet_kernel)
              2 21 70 0x6004
              delivery_state delivery_transaction 80 delivery_buffer 50 (mgr_node 1 2)
              (set_alloc_buffers [80%nat]
                 (set_proc_nodes [(0, 50%nat)] (new_proc 200 2 [(200, 21%nat)])))
              (set_thread_todo_list [W_transaction 70] (new_thread 2 200)))
    as (s' & Hrun & _ & Hsaved & Hsender & _); try reflexivity.
  - exists (set_transaction_stack (Some 70%nat) (new_thread 1 100)),
      (new_proc 100 1 [(100, 11%nat)]).
    repeat split; reflexivity.
  - exists s'. split; [exact Hrun|]. split; [|exact Hsaved].
    apply Hsender; first [reflexivity | split; vm_compute; discriminate].
Defined.

(** C5 as stated fails: with RLIMIT_NICE at 20 the thread may not take
    the -10 of the sender, although that is below the [min_priority] 0 of
    the node and the transaction is not one-way; it ends at nice 0. *)
Lemma delivery_nice_not_sender :
  let s := delivery_state in
  let r := binder_thread_read_transaction (H:=abi64) (H0:=rlimit_kernel) 2 21 70 0x6004 s in
  t_priority <$> st_transactions s !! 70%nat = Some (-10) ∧
  min_priority <$> st_nodes s !! 50%nat = Some 0 ∧
  (one_way (H:=abi64) ∘ t_flags) <$> st_transactions s !! 70%nat = Some false ∧
  r.1 = Val (Read_break 0x6048) ∧
  st_nice r.2 = 0.
Proof. vm_compute. done. Qed.

(** With RLIMIT_NICE not set the thread may not take the -10 either, and
    the nice value that the limit stands for, 20, is none: the thread
    stays at nice 5, and the driver complains. *)
Example delivery_nice_no_rlimit :
  let s := delivery_state in
  let r := binder_thread_read_transaction (H:=abi64) (H0:=no_rlimit_kernel) 2 21 70 0x6004 s in
  r.1 = Val (Read_break 0x6048) ∧
  st_nice s = 5 ∧ st_nice r.2 = 5 ∧
  st_log r.2 = [User_error "RLIMIT_NICE not set"].
Proof. vm_compute. done. Qed.

(** C7: with process 2 the context manager, process 1 asks for the role
    and gets -EBUSY; the release of process 2 empties the slot; and with
    the slot empty process 1 gets the role, and node 100. *)
Lemma binder_context_mgr_slot_witness :
  runs (binder_ioctl_set_ctx_mgr (H:=abi64) (H0:=quiet_kernel) 1) mgr_state (Some EBUSY)
    (set_st_log [Pr_err "BINDER_SET_CONTEXT_MGR already set"] mgr_state) ∧
  st_contexts (binder_deferred_release (H:=abi64) 2 mgr_state).2 =
    {[ 0%nat := Build_binder_context None (Some 1000) ]} ∧
  ∃ s' c' n',
    runs (binder_ioctl_set_ctx_mgr (H:=abi64) (H0:=quiet_kernel) 1) two_procs None s' ∧
    st_contexts s' !! 0%nat = Some c' ∧
    binder_context_mgr_node c' = Some 100%nat ∧
    binder_context_mgr_uid c' = Some 1000 ∧
    st_nodes s' !! 100%nat = Some n' ∧
    node_proc n' = Some 1%nat ∧ node_ptr n' = 0 ∧ node_refs n' = [] ∧
    local_strong_refs n' = 1 ∧ local_weak_refs n' = 1 ∧ tmp_refs n' = 0 ∧
    has_strong_ref n' = true ∧ has_weak_ref n' = true.
Proof.
  split; [|split].
  - apply (binder_context_mgr_slot (H:=abi64) (H0:=quiet_kernel) 1 mgr_state
             (new_proc 100 1 [(100, 11%nat)]) (Build_binder_context (Some 50%nat) (Some 1000))
             eq_refl eq_refl) with (node := 50%nat).
    reflexivity.
  - rewrite (proj2 (proj2 (binder_context_mgr_slot (H:=abi64) (H0:=quiet_kernel) 2 mgr_state
               (set_proc_nodes [(0, 50%nat)] (new_proc 200 2 [(200, 21%nat)]))
               (Build_binder_context (Some 50%nat) (Some 1000)) eq_refl eq_refl))
               50%nat (mgr_node 1 2) eq_refl eq_refl eq_refl eq_refl).
    reflexivity.
  - apply (binder_context_mgr_slot (H:=abi64) (H0:=quiet_kernel) 1 two_procs
             (new_proc 100 1 [(100, 11%nat)]) (Build_binder_context None None)
             eq_refl eq_refl);
      first [ reflexivity | left; reflexivity ].
Defined.

(** The release of the manager, run to its end, and the next request for
    the role. *)
Example context_mgr_released_and_claimed :
  let r := binder_deferred_release (H:=abi64) 2 mgr_state in
  r.1 = Val tt ∧
  (binder_context_mgr_node <$> st_contexts r.2 !! 0%nat) = Some None ∧
  (binder_ioctl_set_ctx_mgr (H:=abi64) (H0:=quiet_kernel) 1 r.2).1 = Val None.
Proof. vm_compute. done. Qed.

(** C4: thread 21 frees buffer 80, and transaction 71 moves from the
    [async_todo] of node 55 to the todo list of thread 21; thread 11
    sends transaction 72 to node 55, and it goes to the [async_todo] of
    the node, behind 71. *)
Lemma binder_async_todo_one_at_a_time_witness :
  binder_thread_write_free_buffer (H:=abi64) (H0:=free_buffer_kernel) 2 21 0x5000 async_state =
  (binder_transaction_buffer_release (H:=abi64) 2 80 None;;
   binder_alloc_free_buf 2 80;;
   mret (inr 0x5008))
    (set_st_transactions
       {[ 71%nat := set_t_work (Build_binder_work (Some (thread_todo 21)) BINDER_WORK_TRANSACTION)
                      async_transaction_71;
          72%nat := async_transaction_72 ]}
       (set_st_threads
          {[ 11%nat := new_thread 1 100;
             21%nat := set_thread_todo_list [W_transaction 71] (new_thread 2 200) ]}
          (set_st_nodes {[ 55%nat := set_async_todo [] async_node ]} async_state))) ∧
  runs (binder_transaction_dispatch (H:=abi64) 1 11 empty_tr false
          (Build_binder_transaction_targets None None (Some 2%nat) (Some 55%nat)) 72 90 82)
    async_state true
    (set_st_nodes
       {[ 55%nat := set_async_todo [W_transaction 71; W_transaction 72] async_node ]}
       (set_st_transactions
          {[ 71%nat := async_transaction_71;
             72%nat := set_t_work
                         (Build_binder_work (Some (node_async_todo 55)) BINDER_WORK_TRANSACTION)
                         async_transaction_72 ]}
          (set_st_tcompletes
             {[ 90%nat := Build_binder_work (Some (thread_todo 11))
                            BINDER_WORK_TRANSACTION_COMPLETE ]}
             (set_st_threads
                {[ 11%nat := set_thread_todo_list [W_tcomplete 90] (new_thread 1 100);
                   21%nat := new_thread 2 200 ]} async_state)))).
Proof.
  split.
  - pose proof (binder_async_todo_one_at_a_time (H:=abi64) (H0:=free_buffer_kernel) 2 21 55
                  async_state async_node (new_thread 2 200) eq_refl eq_refl) as [Hfree _].
    specialize (Hfree 0x5000 0x17000
                  (set_alloc_buffers [80%nat; 81%nat; 82%nat]
                     (set_proc_nodes [(0x5500, 55%nat)] (new_proc 200 2 [(200, 21%nat)])))
                  80%nat (async_buffer 0x10000 8 true None)
                  eq_refl eq_refl eq_refl eq_refl eq_refl eq_refl eq_refl eq_refl eq_refl eq_refl).
    destruct Hfree as [_ Hfree].
    rewrite (Hfree 71%nat async_transaction_71 [] eq_refl eq_refl eq_refl).
    reflexivity.
  - pose proof (binder_async_todo_one_at_a_time (H:=abi64) (H0:=free_buffer_kernel) 2 11 55
                  async_state async_node (new_thread 1 100) eq_refl eq_refl) as [_ Hsend].
    eapply runs_state_eq.
    { apply (Hsend empty_tr
               (Build_binder_transaction_targets None None (Some 2%nat) (Some 55%nat))
               72%nat 90%nat 82%nat 2%nat zero_work async_transaction_72
               (async_buffer 0x10200 10 false (Some 72%nat))
               (set_alloc_buffers [80%nat; 81%nat; 82%nat]
                  (set_proc_nodes [(0x5500, 55%nat)] (new_proc 200 2 [(200, 21%nat)]))));
        reflexivity. }
    reflexivity.
Defined.

(** The same BC_FREE_BUFFER, run to its end. *)
Example free_buffer_promotes_one :
  let r := binder_thread_write_free_buffer (H:=abi64) (H0:=free_buffer_kernel) 2 21 0x5000
             async_state in
  r.1 = Val (inr 0x5008) ∧
  async_todo <$> st_nodes r.2 !! 55%nat = Some [] ∧
  has_async_transaction <$> st_nodes r.2 !! 55%nat = Some true ∧
  thread_todo_list <$> st_threads r.2 !! 21%nat = Some [W_transaction 71] ∧
  st_buffers r.2 !! 80%nat = None.
Proof. vm_compute. done. Qed.



(** The same call with two pointer objects that hang at the offsets 8
    and then 0 of the pointer object in front: the sender finds
    BR_FAILED_REPLY on its todo list, and neither the transaction nor its
    buffer is left. *)
Example decreasing_fixups_rejected :
  ∃ s',
    binder_transaction (H:=abi64) (H0:=fixup_kernel decreasing_payload 40 80) 1 11
      (fixup_tr 120) false 32 mgr_state = (Val tt, s') ∧
    st_buffers s' = ∅ ∧ st_transactions s' = ∅ ∧
    alloc_buffers <$> st_procs s' !! 2%nat = Some [] ∧
    proc_todo_list <$> st_procs s' !! 2%nat = Some [] ∧
    (λ th, (err_cmd (return_error th), thread_todo_list th)) <$> st_threads s' !! 11%nat
      = Some (BR_FAILED_REPLY, [W_return_error 11]) ∧
    binder_transaction_log_failed s' = [(BR_FAILED_REPLY, Some EINVAL)] ∧
    st_log s' = [User_error "got transaction with out-of-order buffer fixup"].
Proof.
  eexists. split; [vm_compute; reflexivity|].
  repeat split; vm_compute; reflexivity.
Qed.

(** * More properties on concrete states *)

(** X1: the pointer object at offset 40 of a payload of 120 bytes. *)
Lemma binder_validate_object_in_bounds_witness :
  let b := fixup_buffer ordered_payload [0; 40; 80] in
  40 mod 4 = 0 ∧
  binder_validate_object (H:=abi64) b 40 = sizeof_object (H:=abi64) (object_at b 40) ∧
  40 + sizeof_object (H:=abi64) (object_at b 40) ≤ b_data_size b.
Proof.
  apply (binder_validate_object_in_bounds (H:=abi64) (fixup_buffer ordered_payload [0; 40; 80]) 40).
  - vm_compute. repeat split.
  - simpl. lia.
  - vm_compute. discriminate.
Defined.

(** X2: task 101 comes to process 1 for the first time and gets thread
    100; it gets thread 100 again after that. *)
Lemma binder_get_thread_again_witness :
  let s' := (binder_get_thread (H0:=quiet_kernel) 1 101 two_procs).2 in
  binder_get_thread (H0:=quiet_kernel) 1 101 s' = (Val (Some 100%nat), s').
Proof.
  apply (binder_get_thread_again (H0:=quiet_kernel) 1 101 two_procs). reflexivity.
Defined.

(** X3: task 100 asks process 1 for the protocol version. *)
Lemma binder_ioctl_clears_need_return_witness :
  ∃ th,
    st_threads (binder_ioctl (H:=abi64) (H0:=quiet_kernel) (H1:=ioctl_abi64)
                  1 100 0xc0046209 0x5000 false two_procs).2 !! 11%nat = Some th ∧
    looper_need_return th = false.
Proof.
  apply (binder_ioctl_clears_need_return (H:=abi64) (H0:=quiet_kernel) (ioctl_abi:=ioctl_abi64)
           1 100 0xc0046209 0x5000 false two_procs None
           (binder_ioctl (H:=abi64) (H0:=quiet_kernel) (H1:=ioctl_abi64)
              1 100 0xc0046209 0x5000 false two_procs).2).
  - vm_compute. discriminate.
  - reflexivity.
Defined.

(** With [binder_stop_on_user_error] at 2 and a signal pending, the
    same call returns -ERESTARTSYS from its first wait, and thread 11
    still has [looper_need_return] on. *)
Example binder_ioctl_interrupted :
  let s := set_binder_stop_on_user_error 2 two_procs in
  binder_ioctl (H:=abi64) (H0:=signal_kernel) (H1:=ioctl_abi64) 1 100 0xc0046209 0x5000 false s
  = (Val (Some ERESTARTSYS), s) ∧
  looper_need_return <$> st_threads s !! 11%nat = Some true.
Proof. vm_compute. done. Qed.

(** X4: task 100 sets the thread limit of process 1 to the 4 at 0x5000. *)
Lemma binder_ioctl_set_max_threads_witness :
  binder_ioctl (H:=abi64) (H0:=max_threads_kernel) (H1:=ioctl_abi64)
    1 100 0x40046205 0x5000 false two_procs =
    (Val None,
     set_st_threads (<[11%nat := set_looper_need_return false (new_thread 1 100)]>
                       (st_threads two_procs))
       (set_st_procs (<[1%nat := set_max_threads 4 (new_proc 100 1 [(100, 11%nat)])]>
                        (st_procs two_procs)) two_procs)).
Proof.
  apply (binder_ioctl_set_max_threads (H:=abi64) (H0:=max_threads_kernel)
           (ioctl_abi:=ioctl_abi64) 1 100 0x40046205 0x5000 false two_procs 11 two_procs
           (new_thread 1 100) (new_proc 100 1 [(100, 11%nat)])).
  - reflexivity.
  - simpl. lia.
  - reflexivity.
  - reflexivity.
  - reflexivity.
Defined.

(** X5: the flush of process 1, whose one thread is 11. *)
Lemma binder_deferred_flush_need_return_witness :
  ∃ s',
    binder_deferred_flush 1 two_procs = (Val tt, s') ∧
    s' = set_st_threads (st_threads s') two_procs ∧
    (∀ thread,
       st_threads s' !! thread =
         (if bool_decide (thread ∈ [11%nat])
          then set_looper_need_return true else id) <$> st_threads two_procs !! thread) ∧
    (∀ thread, thread ∈ [11%nat] → binder_has_thread_work thread s' = (Val true, s')).
Proof.
  apply (binder_deferred_flush_need_return 1 two_procs (new_proc 100 1 [(100, 11%nat)])).
  - reflexivity.
  - intros thread Hin. simpl in Hin. apply list_elem_of_singleton in Hin as ->.
    exists (new_thread 1 100). reflexivity.
Defined.

(** X6: thread 11 calls handle 5, which process 1 does not hold. *)
Lemma binder_transaction_no_target_witness :
  ∃ s' th',
    runs (binder_transaction (H:=abi64) (H0:=quiet_kernel) 1 11 (call_tr 5) false 0)
      two_procs tt s' ∧
    st_threads s' !! 11%nat = Some th' ∧
    err_cmd (return_error th') = BR_FAILED_REPLY ∧
    thread_todo_list th' = [W_return_error 11] ∧
    transaction_stack th' = None ∧
    last (binder_transaction_log_failed s') = Some (BR_FAILED_REPLY, Some EINVAL) ∧
    st_transactions s' = ∅ ∧ st_buffers s' = ∅ ∧
    st_nodes s' = ∅ ∧ st_refs s' = ∅ ∧ st_procs s' = st_procs two_procs.
Proof.
  apply (binder_transaction_no_target (H:=abi64) (H0:=quiet_kernel) 1 11 (call_tr 5) 0
           two_procs (new_thread 1 100) (BR_FAILED_REPLY, Some EINVAL)); reflexivity.
Defined.

(** X7: thread 11 calls handle 1, whose node 51 has lost its process. *)
Lemma binder_transaction_dead_node_witness :
  ∃ s' th',
    runs (binder_transaction (H:=abi64) (H0:=quiet_kernel) 1 11 (call_tr 1) false 0)
      dead_node_state tt s' ∧
    st_threads s' !! 11%nat = Some th' ∧
    err_cmd (return_error th') = BR_DEAD_REPLY ∧
    thread_todo_list th' = [W_return_error 11] ∧
    transaction_stack th' = None ∧
    last (binder_transaction_log_failed s') = Some (BR_DEAD_REPLY, None) ∧
    st_nodes s' = st_nodes dead_node_state ∧
    st_transactions s' = ∅ ∧ st_buffers s' = ∅ ∧
    st_refs s' = st_refs dead_node_state ∧ st_procs s' = st_procs dead_node_state.
Proof.
  apply (binder_transaction_dead_node (H:=abi64) (H0:=quiet_kernel) 1 11 (call_tr 1) 0
           dead_node_state
           (set_refs_by_node {[ 51%nat := 31%nat; 53%nat := 33%nat ]}
              (set_refs_by_desc [(1, 31%nat); (3, 33%nat)] (new_proc 100 1 [(100, 11%nat)])))
           (new_thread 1 100) 31 (held_ref 5 1 1 51) 51 dead_node).
  - reflexivity.
  - reflexivity.
  - reflexivity.
  - reflexivity.
  - vm_compute. discriminate.
  - reflexivity.
  - reflexivity.
  - simpl. lia.
  - reflexivity.
  - reflexivity.
  - reflexivity.
  - simpl. lia.
Defined.

(** X8: process 1 makes a node for the object at 0x5100. *)
Lemma binder_new_node_found_witness :
  let s' := (binder_new_node (H:=abi64) (H0:=quiet_kernel) 1 (Some local_object) two_procs).2 in
  (∃ n, st_nodes s' !! 100%nat = Some n ∧ node_ptr n = 0x5100 ∧ node_proc n = Some 1%nat ∧
        tmp_refs n = 1 ∧
        binder_get_node 1 0x5100 s' =
          (Val (Some 100%nat),
           set_st_nodes (<[100%nat := set_tmp_refs 2 n]> (st_nodes s')) s')) ∧
  binder_new_node (H:=abi64) (H0:=quiet_kernel) 1 (Some local_object) s' = (Val None, s').
Proof.
  apply (binder_new_node_found (H:=abi64) (H0:=quiet_kernel) 1 (Some local_object) two_procs 100).
  reflexivity.
Defined.

(** X9: process 1, with no spawn request out and no thread ready. *)
Lemma looper_request_accounting_witness :
  let p := new_proc 100 1 [(100, 11%nat)] in
  (∀ cmd r s',
     binder_thread_write_looper 1 11 cmd two_procs = (Val r, s') →
     ∃ p', st_procs s' !! 1%nat = Some p' ∧ 0 ≤ requested_threads p' ≤ 1 ∧
       requested_threads p' + requested_threads_started p' =
         requested_threads p + requested_threads_started p ∧
       (requested_threads p' ≠ requested_threads p →
          cmd = BC_REGISTER_LOOPER ∧ requested_threads p = 1 ∧ requested_threads p' = 0)) ∧
  (∀ buffer ptr r s',
     binder_thread_read_done (H0:=quiet_kernel) 1 11 buffer ptr two_procs = (Val r, s') →
     ∃ p', st_procs s' !! 1%nat = Some p' ∧ 0 ≤ requested_threads p' ≤ 1 ∧
       requested_threads_started p' = requested_threads_started p ∧
       (requested_threads p' ≠ requested_threads p →
          requested_threads p = 0 ∧ requested_threads p' = 1 ∧ ready_threads p = 0 ∧
          requested_threads_started p < max_threads p ∧
          (r.1 = None → st_user s' = st_user two_procs ++ [(buffer, U_cmd BR_SPAWN_LOOPER)]))).
Proof.
  apply (looper_request_accounting (H0:=quiet_kernel) 1 11 two_procs
           (new_proc 100 1 [(100, 11%nat)])).
  - reflexivity.
  - simpl. lia.
  - simpl. lia.
Defined.

(** X10: thread 11 reads without blocking and has nothing to do. *)
Lemma binder_thread_read_nothing_to_do_witness :
  (∃ s',
     binder_thread_read (H:=abi64) (H0:=quiet_kernel) 1 11 0x6000 0x100 0 true idle_state =
       (Val (Some EAGAIN, 0), s') ∧
     st_user s' = [(0x6000, U_cmd BR_NOOP)] ∧
     st_procs s' = st_procs idle_state ∧
     st_threads s' =
       <[11%nat := set_looper (Z.land (Z.lor 0 BINDER_LOOPER_STATE_WAITING)
                                 (Z.lnot BINDER_LOOPER_STATE_WAITING))
                     (set_looper_need_return false (new_thread 1 100))]>
         (st_threads idle_state) ∧
     st_transactions s' = ∅ ∧ st_nodes s' = ∅ ∧ st_buffers s' = ∅) ∧
  binder_poll (H0:=quiet_kernel) 1 100 idle_state = (Val 0, idle_state).
Proof.
  apply (binder_thread_read_nothing_to_do (H:=abi64) (H0:=quiet_kernel) 1 11 0x6000 0x100 0 100
           idle_state (set_looper_need_return false (new_thread 1 100))
           (new_proc 100 1 [(100, 11%nat)])); reflexivity.
Defined.

(** X11: thread 11 frees the address 0x17000, where process 1 has no
    buffer. *)
Lemma binder_thread_write_free_buffer_refused_witness :
  ∃ msg,
    binder_thread_write_free_buffer (H:=abi64) (H0:=free_buffer_kernel) 1 11 0x5000 two_procs =
      (Val (inr (0x5000 + sizeof_binder_uintptr_t)), user_error_state msg two_procs).
Proof.
  apply (binder_thread_write_free_buffer_refused (H:=abi64) (H0:=free_buffer_kernel) 1 11 0x5000
           two_procs 0x17000 (new_proc 100 1 [(100, 11%nat)])).
  - reflexivity.
  - reflexivity.
  - simpl. discriminate.
Defined.

(** X12: transaction 70, which thread 11 has sent and waits for, fails. *)
Lemma binder_send_failed_reply_to_sender_witness :
  ∃ s' th',
    runs (binder_send_failed_reply (H:=abi64) 70 BR_DEAD_REPLY) delivery_state tt s' ∧
    st_transactions s' = delete 70%nat (st_transactions delivery_state) ∧
    st_threads s' = <[11%nat := th']> (st_threads delivery_state) ∧
    err_cmd (reply_error th') = BR_DEAD_REPLY ∧
    thread_todo_list th' = [W_reply_error 11] ∧
    transaction_stack th' = None ∧
    thread_tmp_ref th' = 0 ∧
    (∀ b, Some 80%nat = Some b → b_transaction <$> st_buffers s' !! b = Some None) ∧
    st_procs s' = st_procs delivery_state ∧ st_nodes s' = st_nodes delivery_state.
Proof.
  apply (binder_send_failed_reply_to_sender (H:=abi64) 70 BR_DEAD_REPLY delivery_state
           delivery_transaction 11 (set_transaction_stack (Some 70%nat) (new_thread 1 100)));
    try reflexivity.
  intros b [= <-]. by eexists.
Defined.

(** X13: the references of [handles_state], with counts 1 and 0. *)
Lemma binder_dec_ref_never_negative_witness :
  (∀ ref is_strong, refs_counts_ok (binder_dec_ref ref is_strong handles_state).2) ∧
  (∀ proc thread cmd ptr,
     cmd = BC_RELEASE ∨ cmd = BC_DECREFS →
     refs_counts_ok
       (binder_thread_write_refs (H0:=quiet_kernel) proc thread cmd ptr handles_state).2) ∧
  (∀ proc thread ptr,
     refs_counts_ok
       (binder_thread_write_free_buffer (H:=abi64) (H0:=quiet_kernel) proc thread ptr
          handles_state).2) ∧
  (∀ proc thread binder_buffer size consumed non_block,
     refs_counts_ok
       (binder_thread_read (H:=abi64) (H0:=quiet_kernel) proc thread binder_buffer size consumed
          non_block handles_state).2) ∧
  (∀ proc, refs_counts_ok (binder_deferred_release (H:=abi64) proc handles_state).2) ∧
  (∀ ref is_strong target_list r,
     st_refs handles_state !! ref = Some r →
     (if is_strong : bool then strong (ref_data r) else weak (ref_data r)) < 2147483647 →
     refs_counts_ok (binder_inc_ref ref is_strong target_list handles_state).2).
Proof.
  apply (binder_dec_ref_never_negative (H:=abi64) (H0:=quiet_kernel) handles_state).
  unfold refs_counts_ok, handles_state. simpl.
  repeat (apply map_Forall_insert_2; [unfold ref_counts_ok; simpl; lia|]).
  apply map_Forall_empty.
Defined.

(** A strong count at INT_MAX that [binder_inc_ref] takes up wraps
    around to INT_MIN. *)
Example binder_inc_ref_wraps :
  let r := Build_binder_ref (Build_binder_ref_data 5 1 2147483647 1) (Some 1%nat) (Some 51%nat)
             None in
  let s := set_st_refs {[ 31%nat := r ]} handles_state in
  (strong ∘ ref_data) <$> st_refs (binder_inc_ref 31 true None s).2 !! 31%nat
  = Some (-2147483648).
Proof. vm_compute. done. Qed.

(** X14: the two processes of [two_procs], with no request out. *)
Lemma loopers_accounting_kept_witness :
  (∀ proc current_pid cmd arg non_block,
     loopers_ok (binder_ioctl (H:=abi64) (H0:=quiet_kernel) (H1:=ioctl_abi64)
                   proc current_pid cmd arg non_block two_procs).2) ∧
  (∀ proc current_pid,
     loopers_ok (binder_poll (H0:=quiet_kernel) proc current_pid two_procs).2) ∧
  (∀ proc, loopers_ok (binder_deferred_flush proc two_procs).2) ∧
  (∀ proc, loopers_ok (binder_deferred_release (H:=abi64) proc two_procs).2).
Proof.
  apply (loopers_accounting_kept (H:=abi64) (H0:=quiet_kernel) (ioctl_abi:=ioctl_abi64)
           two_procs).
  unfold loopers_ok, two_procs. simpl.
  repeat (apply map_Forall_insert_2; [unfold proc_loopers_ok; simpl; lia|]).
  apply map_Forall_empty.
Defined.

(** X15: context 0 of [no_mgr_state] has the uid 1000 on record, and
    the task of process 1 has the euid 2000. *)
Lemma context_mgr_uid_kept_witness :
  (∀ proc current_pid cmd arg non_block,
     context_mgr_uid_is 0 1000
       (binder_ioctl (H:=abi64) (H0:=other_uid_kernel) (H1:=ioctl_abi64)
          proc current_pid cmd arg non_block no_mgr_state).2) ∧
  (∀ proc current_pid,
     context_mgr_uid_is 0 1000 (binder_poll (H0:=other_uid_kernel) proc current_pid no_mgr_state).2) ∧
  (∀ proc, context_mgr_uid_is 0 1000 (binder_deferred_flush proc no_mgr_state).2) ∧
  (∀ proc, context_mgr_uid_is 0 1000 (binder_deferred_release (H:=abi64) proc no_mgr_state).2) ∧
  (∀ proc p x,
     st_procs no_mgr_state !! proc = Some p → context p = 0%nat →
     st_contexts no_mgr_state !! 0%nat = Some x →
     binder_context_mgr_node x = None →
     security_binder_set_context_mgr (kernel_env:=other_uid_kernel) (tsk p) = None →
     task_euid (kernel_env:=other_uid_kernel) (tsk p) ≠ 1000 →
     binder_ioctl_set_ctx_mgr (H:=abi64) (H0:=other_uid_kernel) proc no_mgr_state =
       (Val (Some EPERM),
        set_st_log (st_log no_mgr_state ++ [Pr_err "BINDER_SET_CONTEXT_MGR bad uid"]) no_mgr_state)).
Proof.
  apply (context_mgr_uid_kept (H:=abi64) (H0:=other_uid_kernel) (ioctl_abi:=ioctl_abi64)
           0 1000 no_mgr_state).
  exists (Build_binder_context None (Some 1000)). split; reflexivity.
Defined.

Example set_context_mgr_other_uid_refused :
  binder_ioctl (H:=abi64) (H0:=other_uid_kernel) (H1:=ioctl_abi64)
    1 100 0x40046207 0 false no_mgr_state =
    (Val (Some EPERM),
     set_st_threads
       {[ 11%nat := set_looper_need_return false (new_thread 1 100); 21%nat := new_thread 2 200 ]}
       (set_st_log [Pr_err "BINDER_SET_CONTEXT_MGR bad uid"] no_mgr_state)).
Proof. vm_compute. reflexivity. Qed.

(** X17: process 2 sends its object at 0x5100 to process 1, which holds
    it as handle 1, and process 1 sends handle 1 back. *)
Lemma binder_translate_round_trip_witness :
  ∃ fp1 s1 s2,
    runs (binder_translate_binder (H:=abi64) (H0:=quiet_kernel) object_5100 70 21)
      round_trip_state (None, fp1) s1 ∧
    fbo_type fp1 = BINDER_TYPE_HANDLE ∧ fbo_binder fp1 = 1 ∧ fbo_cookie fp1 = 0 ∧
    runs (binder_translate_handle (H0:=quiet_kernel) fp1 71 11) s1
      (None, object_5100) s2 ∧
    st_procs s2 = st_procs round_trip_state ∧
    st_refs s2 =
      <[31%nat := set_ref_data (set_strong 2 (ref_data (held_ref 5 1 1 51))) (held_ref 5 1 1 51)]>
        (st_refs round_trip_state) ∧
    ∃ n2, st_nodes s2 !! 51%nat = Some n2 ∧ local_strong_refs n2 = 1 ∧ tmp_refs n2 = 0.
Proof.
  apply (binder_translate_round_trip (H:=abi64) (H0:=quiet_kernel) object_5100 70 71 21 11
           round_trip_state (new_thread 2 200) (new_thread 1 100)
           (Build_binder_transaction 7 zero_work (Some 21%nat) None (Some 1%nat) None None
              true None 1 0 0 0 1000)
           (Build_binder_transaction 8 zero_work (Some 11%nat) None (Some 2%nat) None None
              true None 1 0 0 0 1000)
           2 1
           (set_proc_nodes [(0, 50%nat); (0x5100, 51%nat); (0x5200, 52%nat); (0x5300, 53%nat)]
              (new_proc 200 2 [(200, 21%nat)]))
           (set_refs_by_node {[ 51%nat := 31%nat; 53%nat := 33%nat ]}
              (set_refs_by_desc [(1, 31%nat); (3, 33%nat)] (new_proc 100 1 [(100, 11%nat)])))
           (Build_binder_context (Some 50%nat) (Some 1000))
           51 (set_internal_strong_refs 1 (set_node_refs [31%nat] (plain_node 2 2 0x5100)))
           31 (held_ref 5 1 1 51)); try reflexivity.
  all: simpl; first [lia | discriminate].
Defined.

(** X19: task 100 of process 1, whose thread is 11, exits. *)
Lemma binder_ioctl_thread_exit_unlisted_witness :
  thread_unlisted 11
    (binder_ioctl (H:=abi64) (H0:=quiet_kernel) (H1:=ioctl_abi64)
       1 100 0x40046208 0 false two_procs).2.
Proof.
  apply (binder_ioctl_thread_exit_unlisted (H:=abi64) (H0:=quiet_kernel) (ioctl_abi:=ioctl_abi64)
           1 100 0x40046208 0 false two_procs (new_proc 100 1 [(100, 11%nat)]) 11
           (new_thread 1 100)); try reflexivity.
  - simpl. apply NoDup_singleton.
  - intros q pq Hne Hq. unfold two_procs in Hq. simpl in Hq.
    rewrite lookup_insert_ne in Hq by done.
    apply lookup_singleton_Some in Hq as [_ <-].
    simpl. intros Hin. apply list_elem_of_singleton in Hin. discriminate.
Defined.

(** X20: thread 11 reads the BR_FAILED_REPLY that waits on its todo
    list. *)
Lemma binder_thread_read_work_error_witness :
  ∃ s' th',
    runs (binder_thread_read_work (H:=abi64) (H0:=quiet_kernel) 1 11 0x6000 0x6004 0x6100 false)
      error_queued_state (Read_continue (0x6004 + sizeof_u32)) s' ∧
    st_user s' = [(0x6004, U_cmd BR_FAILED_REPLY)] ∧
    st_threads s' = <[11%nat := th']> (st_threads error_queued_state) ∧
    thread_todo_list th' = [] ∧
    return_error th' =
      Build_binder_error (Build_binder_work None BINDER_WORK_RETURN_ERROR) BR_OK ∧
    reply_error th' = new_error ∧
    st_procs s' = st_procs error_queued_state ∧ st_transactions s' = ∅.
Proof.
  apply (binder_thread_read_work_error (H:=abi64) (H0:=quiet_kernel) 1 11 0x6000 0x6004 0x6100
           false error_queued_state
           (set_thread_todo_list [W_return_error 11]
              (set_return_error queued_error (new_thread 1 100)))
           (new_proc 100 1 [(100, 11%nat)]) false []); try reflexivity.
  vm_compute. discriminate.
Defined.

(** X21: thread 21 of process 2 answers the BR_ACQUIRE for node 51. *)
Lemma binder_thread_write_acquire_done_witness :
  let n' := set_local_strong_refs 0 (set_pending_strong_ref false pending_node) in
  let s1 := set_st_nodes (<[51%nat := n']> (st_nodes pending_state)) pending_state in
  runs (binder_thread_write_done (H0:=acquire_done_kernel) 2 21 BC_ACQUIRE_DONE 0x5000)
    pending_state (inr 0x5010) s1 ∧
  ∃ msg,
    runs (binder_thread_write_done (H0:=acquire_done_kernel) 2 21 BC_ACQUIRE_DONE 0x5000)
      s1 (inr 0x5010) (user_error_state msg s1).
Proof.
  apply (binder_thread_write_acquire_done (H0:=acquire_done_kernel) 2 21 0x5000 pending_state
           (set_proc_nodes [(0, 50%nat); (0x5100, 51%nat); (0x5200, 52%nat); (0x5300, 53%nat)]
              (new_proc 200 2 [(200, 21%nat)]))
           0x5100 0 51 pending_node); try reflexivity.
  all: simpl; first [lia | discriminate].
Defined.

(** X22: thread 11 of process 1 asks to be told of the death of the
    object behind handle 1, with the cookie 0xdead. *)
Lemma binder_death_notification_once_witness :
  let s1 :=
    set_st_refs (<[31%nat := set_ref_death (Some 100%nat) (held_ref 5 1 1 51)]>
                   (st_refs handles_state))
      (set_st_deaths (<[100%nat := Build_binder_ref_death zero_work 0xdead]>
                        (st_deaths handles_state))
         (set_st_brk 101 handles_state)) in
  runs (binder_thread_write_death (H0:=death_kernel) 1 11 BC_REQUEST_DEATH_NOTIFICATION 0x5000)
    handles_state (inr 0x500c) s1 ∧
  (∃ msg,
     runs (binder_thread_write_death (H0:=death_kernel) 1 11 BC_REQUEST_DEATH_NOTIFICATION
             0x5000) s1 (inr 0x500c) (user_error_state msg s1)) ∧
  (∃ msg,
     runs (binder_thread_write_death (H0:=death_kernel) 1 11 BC_CLEAR_DEATH_NOTIFICATION
             0x5010) s1 (inr 0x501c) (user_error_state msg s1)) ∧
  ∃ s2 r2 d2,
    runs (binder_thread_write_death (H0:=death_kernel) 1 11 BC_CLEAR_DEATH_NOTIFICATION 0x5000)
      s1 (inr 0x500c) s2 ∧
    st_refs s2 !! 31%nat = Some r2 ∧ ref_death r2 = None ∧
    st_deaths s2 !! 100%nat = Some d2 ∧
    w_type (death_work d2) = BINDER_WORK_CLEAR_DEATH_NOTIFICATION ∧
    w_entry (death_work d2) = Some (proc_todo 1) ∧
    ∃ p2, st_procs s2 !! 1%nat = Some p2 ∧ proc_todo_list p2 = [W_death 100].
Proof.
  apply (binder_death_notification_once (H0:=death_kernel) 1 11 0x5000 0x5010 handles_state
           (set_refs_by_node {[ 51%nat := 31%nat; 53%nat := 33%nat ]}
              (set_refs_by_desc [(1, 31%nat); (3, 33%nat)] (new_proc 100 1 [(100, 11%nat)])))
           (new_thread 1 100) 1 0xdead 0xbeef 31 (held_ref 5 1 1 51) 51
           (set_internal_strong_refs 1 (set_node_refs [31%nat] (plain_node 2 2 0x5100))));
    try reflexivity.
  - discriminate.
  - by eexists.
Defined.

(** X23: buffer 80 of process 1, with the strong handle 1 at offset 0. *)
Lemma binder_transaction_buffer_release_object_undoes_witness :
  (∀ ref r,
     fbo_type handle_object = BINDER_TYPE_HANDLE →
     rb_search (fbo_handle handle_object) [(1, 31%nat); (3, 33%nat)] = Some ref →
     st_refs release_state !! ref = Some r → 1 < strong (ref_data r) →
     runs (binder_transaction_buffer_release_object (H:=abi64) 1 80 false 0) release_state tt
       (set_st_refs
          (<[ref := set_ref_data (set_strong (strong (ref_data r) - 1) (ref_data r)) r]>
             (st_refs release_state)) release_state)) ∧
  (∀ node n,
     fbo_type handle_object = BINDER_TYPE_BINDER →
     rb_search (fbo_binder handle_object) [] = Some node →
     st_nodes release_state !! node = Some n →
     internal_strong_refs n ≠ 0 → node_refs n ≠ [] → 0 ≤ tmp_refs n →
     runs (binder_transaction_buffer_release_object (H:=abi64) 1 80 false 0) release_state tt
       (set_st_nodes
          (<[node := set_local_strong_refs (local_strong_refs n - 1) n]>
             (st_nodes release_state)) release_state)).
Proof.
  apply (binder_transaction_buffer_release_object_undoes (H:=abi64) 1 80 false 0 release_state
           handle_buffer 0 handle_object
           (set_refs_by_node {[ 51%nat := 31%nat; 53%nat := 33%nat ]}
              (set_refs_by_desc [(1, 31%nat); (3, 33%nat)] (new_proc 100 1 [(100, 11%nat)]))));
    try reflexivity.
  vm_compute. discriminate.
Defined.

Example buffer_release_gives_back_strong_count :
  let s' := (binder_transaction_buffer_release (H:=abi64) 1 80 None release_state).2 in
  (strong ∘ ref_data) <$> st_refs release_state !! 31%nat = Some 2 ∧
  (strong ∘ ref_data) <$> st_refs s' !! 31%nat = Some 1 ∧
  st_nodes s' = st_nodes release_state ∧ st_procs s' = st_procs release_state.
Proof. vm_compute. done. Qed.

(** X24: node 61 of process 2 dies; process 1 holds reference 36 on it,
    with death notification 62. *)
Lemma binder_node_release_tells_holder_witness :
  ∃ s' n' d' ph',
    runs (binder_node_release (H:=abi64) 61 0) dying_state 1 s' ∧
    st_nodes s' !! 61%nat = Some n' ∧
    node_proc n' = None ∧ local_strong_refs n' = 0 ∧ local_weak_refs n' = 0 ∧
    tmp_refs n' = 0 ∧ node_refs n' = [36%nat] ∧
    binder_dead_nodes s' = 61%nat :: binder_dead_nodes dying_state ∧
    st_deaths s' !! 62%nat = Some d' ∧
    death_work d' = Build_binder_work (Some (proc_todo 1)) BINDER_WORK_DEAD_BINDER ∧
    death_cookie d' = 0xdead ∧
    st_procs s' !! 1%nat = Some ph' ∧
    proc_todo_list ph' = [] ++ [W_death 62] ∧
    st_refs s' = st_refs dying_state.
Proof.
  apply (binder_node_release_tells_holder (H:=abi64) 61 0 dying_state dying_node 2
           (new_proc 200 2 [(200, 21%nat)]) 36
           (set_ref_death (Some 62%nat) (held_ref 7 1 1 61)) 1
           (new_proc 100 1 [(100, 11%nat)]) 62 (Build_binder_ref_death zero_work 0xdead));
    first [reflexivity | lia].
Defined.

(** X25: thread 11 of process 1 sends its descriptor 3 with transaction
    70 to process 2, whose node 50 takes descriptors. *)
Lemma binder_translate_fd_only_allowed_witness :
  let s' := (binder_translate_fd (H:=abi64) (H0:=fd_kernel) 3 70 11 None fd_state).2 in
  ∃ th x target p tp file fs,
    st_threads fd_state !! 11%nat = Some th ∧
    st_transactions fd_state !! 70%nat = Some x ∧
    t_to_proc x = Some target ∧
    st_procs fd_state !! thread_proc th = Some p ∧
    st_procs fd_state !! target = Some tp ∧
    target_accepts_fds (H:=abi64) fd_state x None ∧
    fget (kernel_env:=fd_kernel) (tsk p) 3 = Some file ∧
    security_binder_transfer_file (kernel_env:=fd_kernel) (tsk p) (tsk tp) file = None ∧
    files tp = Some fs ∧
    st_fds s' = <[fs := <[0 := file]> (default ∅ (st_fds fd_state !! fs))]> (st_fds fd_state).
Proof.
  apply (binder_translate_fd_only_allowed (H:=abi64) (H0:=fd_kernel) 3 70 11 None fd_state
           (inr 0)).
  reflexivity.
Defined.

(** X26: thread 11 of process 1 ends the delivery with the cookie 0xdead
    at 0x5004. *)
Lemma binder_thread_write_dead_binder_done_cookie_witness :
  let p := set_delivered_death [W_death 62] (new_proc 100 1 [(100, 11%nat)]) in
  let th := new_thread 1 100 in
  let unlike (w : work_ptr) :=
    ∃ o od, w = W_death o ∧ st_deaths delivered_state !! o = Some od ∧
            death_cookie od ≠ 0xdead in
  let after := 0x5004 + sizeof_binder_uintptr_t in
  (Forall unlike (delivered_death p) →
   ∃ msg, runs (binder_thread_write_dead_binder_done (H0:=death_kernel) 1 11 0x5004)
            delivered_state (inr after) (user_error_state msg delivered_state)) ∧
  (∀ pre death post d,
     delivered_death p = pre ++ W_death death :: post → Forall unlike pre →
     st_deaths delivered_state !! death = Some d → death_cookie d = 0xdead →
     w_entry (death_work d) = Some (proc_delivered_death 1) →
     ∃ s' p' th' d',
       runs (binder_thread_write_dead_binder_done (H0:=death_kernel) 1 11 0x5004)
         delivered_state (inr after) s' ∧
       st_procs s' !! 1%nat = Some p' ∧ st_threads s' !! 11%nat = Some th' ∧
       st_deaths s' !! death = Some d' ∧ death_cookie d' = 0xdead ∧
       delivered_death p' = remove_work (W_death death) (delivered_death p) ∧
       if bool_decide (w_type (death_work d) = BINDER_WORK_DEAD_BINDER_AND_CLEAR) then
         w_type (death_work d') = BINDER_WORK_CLEAR_DEATH_NOTIFICATION ∧
         if looper_is th (Z.lor BINDER_LOOPER_STATE_REGISTERED BINDER_LOOPER_STATE_ENTERED)
         then w_entry (death_work d') = Some (thread_todo 11) ∧
              thread_todo_list th' = thread_todo_list th ++ [W_death death] ∧
              proc_todo_list p' = proc_todo_list p
         else w_entry (death_work d') = Some (proc_todo 1) ∧
              proc_todo_list p' = proc_todo_list p ++ [W_death death] ∧
              thread_todo_list th' = thread_todo_list th
       else
         death_work d' = set_w_entry None (death_work d) ∧
         proc_todo_list p' = proc_todo_list p ∧ thread_todo_list th' = thread_todo_list th).
Proof.
  apply (binder_thread_write_dead_binder_done_cookie (H0:=death_kernel) 1 11 0x5004
           delivered_state 0xdead); reflexivity.
Defined.

Example dead_binder_done_queues_clear :
  let s' := (binder_thread_write_dead_binder_done (H0:=death_kernel) 1 11 0x5004
               delivered_state).2 in
  delivered_death <$> st_procs s' !! 1%nat = Some [] ∧
  proc_todo_list <$> st_procs s' !! 1%nat = Some [W_death 62] ∧
  death_work <$> st_deaths s' !! 62%nat
    = Some (Build_binder_work (Some (proc_todo 1)) BINDER_WORK_CLEAR_DEATH_NOTIFICATION).
Proof. vm_compute. done. Qed.

Lemma lowest_free_unused m fd : lowest_free m = Some fd → m !! fd = None ∧ 0 ≤ fd < 2 ^ 31.
Proof.
  unfold lowest_free. intros [Hin Hfree%bool_decide_eq_true]%find_some. split; [done|].
  apply in_map_iff in Hin as (n & <- & Hn%in_seq). lia.
Qed.

(** X27: thread 11 of process 1 sends the descriptors 3 and 4 to process
    2; 3 is open and goes in as descriptor 0 of the target, 4 is not
    open. *)
Lemma binder_translate_fd_array_failure_closes_witness :
  fd_table
    (binder_translate_fd_array (H:=abi64) (H0:=fd_kernel)
       (Build_binder_fd_array_object 2 0 0) (Build_binder_buffer_object 0 0x17040 8 0 0)
       70 11 None fd_array_state).2 9
  = fd_table fd_array_state 9.
Proof.
  refine (binder_translate_fd_array_failure_closes (H:=abi64) (H0:=fd_kernel)
            (Build_binder_fd_array_object 2 0 0) (Build_binder_buffer_object 0 0x17040 8 0 0)
            70 11 None fd_array_state EBADF _ _ _ 9%nat).
  - exact lowest_free_unused.
  - vm_compute. reflexivity.
Defined.

Example fd_array_first_descriptor_closed :
  let m := binder_translate_fd_array_loop (H:=abi64) (H0:=fd_kernel) 80 0x10040 70 11 None 0 2 in
  (m fd_array_state).1 = Val (Some (EBADF, 1)) ∧
  st_fds (m fd_array_state).2 !! 9%nat = Some {[ 0 := 7%nat ]} ∧
  st_fds
    (binder_translate_fd_array (H:=abi64) (H0:=fd_kernel)
       (Build_binder_fd_array_object 2 0 0) (Build_binder_buffer_object 0 0x17040 8 0 0)
       70 11 None fd_array_state).2 !! 9%nat = Some ∅.
Proof. vm_compute. done. Qed.

(** X28: thread 21 of process 2, serving transaction 70 of thread 11,
    calls handle 1, a node of process 1: the call goes to thread 11. *)
Lemma binder_transaction_call_target_waiting_thread_witness :
  runs (binder_transaction_call_target (H:=abi64) (H0:=quiet_kernel) 2 21 (call_tr 1))
    nested_state
    (inr (Build_binder_transaction_targets None (Some 11%nat) (Some 1%nat) (Some 51%nat)))
    (set_st_threads
       (<[11%nat := set_thread_tmp_ref 1 (set_transaction_stack (Some 70%nat) (new_thread 1 100))]>
          (st_threads nested_state))
       (set_st_procs
          (<[1%nat := set_proc_tmp_ref 1 (new_proc 100 1 [(100, 11%nat)])]>
             (st_procs nested_state))
          (set_st_nodes
             (<[51%nat := set_local_strong_refs 1 (plain_node 2 1 0x5100)]>
                (st_nodes nested_state)) nested_state))).
Proof.
  refine (proj2 (binder_transaction_call_target_waiting_thread (H:=abi64) (H0:=quiet_kernel)
                   2 21 (call_tr 1) nested_state
                   (set_refs_by_desc [(1, 31%nat)] (new_proc 200 2 [(200, 21%nat)]))
                   (set_transaction_stack (Some 70%nat) (new_thread 2 200))
                   31 (held_ref 5 1 2 51) 51 (plain_node 2 1 0x5100) 1
                   (new_proc 100 1 [(100, 11%nat)]) 70 delivery_transaction
                   _ _ _ _ _ _ _ _ _ _ _ _ _ _)
            [] 11%nat (set_transaction_stack (Some 70%nat) (new_thread 1 100)) _ _ _ _);
    try reflexivity.
  - vm_compute. discriminate.
  - discriminate.
  - apply NoDup_nil_2.
  - simpl. by eexists _, _, _.
Defined.

(** X29: process 3, which nobody refers to, is released. *)
Lemma binder_deferred_release_idle_witness :
  runs (binder_deferred_release (H:=abi64) 3) lone_state tt
    (set_st_procs (delete 3%nat (st_procs lone_state))
       (set_st_buffers (foldr delete (st_buffers lone_state) [85%nat]) lone_state)).
Proof.
  refine (proj1 (binder_deferred_release_idle (H:=abi64) 3 lone_state
                   (set_alloc_buffers [85%nat] (new_proc 300 3 []))
                   (Build_binder_context None None) _ _ _ _ _ _ _ _ _) _);
    first [reflexivity | exact I].
Defined.

Example lone_process_freed :
  let s' := (binder_deferred_release (H:=abi64) 3 lone_state).2 in
  st_procs s' = ∅ ∧ st_buffers s' = ∅.
Proof. vm_compute. done. Qed.

(** X30: the pointer object at offset 40 of [ordered_payload] hangs at
    offset 0 of the pointer object at offset 0, which has 16 bytes. *)
Lemma binder_fixup_parent_within_parent_witness :
  let s := fixup_state ordered_payload [0; 40; 80] in
  let bp := Build_binder_buffer_object 1 0x9000 8 0 0 in
  let s' := (binder_fixup_parent (H:=abi64) 100 11 bp 1 (Some 0) 0 s).2 in
  (Z.land (bbo_flags bp) (BINDER_BUFFER_FLAG_HAS_PARENT (binder_uapi:=abi64)) = 0 ∧ s' = s) ∨
  ∃ x buffer b target tp parent_at parent,
    st_transactions s !! 100%nat = Some x ∧ t_buffer x = Some buffer ∧
    st_buffers s !! buffer = Some b ∧
    t_to_proc x = Some target ∧ st_procs s !! target = Some tp ∧
    bbo_parent bp < 1 ∧
    b_offsets b !! Z.to_nat (bbo_parent bp) = Some parent_at ∧
    buffer_object_at b parent_at = Some parent ∧
    bbo_parent_offset bp + sizeof_binder_uintptr_t ≤ bbo_length parent ∧
    s' = set_st_buffers
           (<[buffer :=
                set_b_sg
                  (store_u64
                     (u64 (u64 (bbo_buffer parent - user_buffer_offset tp)
                           + bbo_parent_offset bp))
                     (bbo_buffer bp) (b_sg b)) b]> (st_buffers s)) s.
Proof.
  apply (binder_fixup_parent_within_parent (H:=abi64) 100 11
           (Build_binder_buffer_object 1 0x9000 8 0 0) 1 (Some 0) 0
           (fixup_state ordered_payload [0; 40; 80]) None).
  reflexivity.
Defined.
